(** * AIFUNCTION: the chat pipeline, its confidence scoring and its entry points

    A shallow embedding of the JavaScript sources

    - [chat-monitoring(Node.JS)/src/functions/chatIngest.js]  (module [ChatIngest])
    - [chat-monitoring(Node.JS)/src/functions/chatWorker.js]  (module [ChatWorker])
    - [rag.js], [models.js], [confidence.js], [orchestrator.js], [index.js]
      (modules [Rag], [Models], [Confidence], [Orchestrator], [Index])

    and of the provisioning step sequence, which the repository only documents
    (module [Provisioning]).

    JavaScript numbers are IEEE 754 binary64 values: they are modelled by Rocq's
    primitive floats, whose operations round as the JavaScript ones do.
    JavaScript strings are sequences of UTF-16 code units.  Functions that can
    throw run in a small monad that threads a trace of the calls made to the
    host (log lines, completion requests, output bindings).  What the host
    answers (completions, the clock, whether the client of the completion
    service can be constructed, whether a call to the logger returns or
    throws) is a parameter of each handler.  A text that [JSON.stringify]
    writes or [JSON.parse] reads is modelled by its syntax tree. *)

From Stdlib Require Import Floats ZArith NArith List Bool String Ascii Lia.
From Stdlib Require Import Permutation Sorted.
From Stdlib Require DecimalString DecimalZ DecimalPos.
Import ListNotations.

Set Warnings "-inexact-float,-register-all".

(** ** JavaScript values *)
Module JS.

(** A string is the list of its UTF-16 code units. *)
Definition jsstring := list N.

(** The string a source literal denotes (the literals of the sources are ASCII). *)
Definition lit (s : string) : jsstring :=
  map N_of_ascii (list_ascii_of_string s).

Definition jsstring_eqb (a b : jsstring) : bool :=
  if list_eq_dec N.eq_dec a b then true else false.

(** The values the sources handle: what [JSON.parse] returns, what the SDK
    clients resolve to, and the object literals the sources build.  An object
    is the list of its own properties, in the order in which the engine
    enumerates them, each name once; none of its properties is a function. *)
Inductive value :=
| VUndefined
| VNull
| VBool (b : bool)
| VNum (n : float)
| VStr (s : jsstring)
| VArr (items : list value)
| VObj (fields : list (string * value)).

(** [ToBoolean]: [undefined], [null], [false], [+0], [-0], [NaN] and the empty
    string are falsy, every other value is truthy. *)
Definition number_truthy (n : float) : bool := negb (is_zero n || is_nan n).

Definition truthy (v : value) : bool :=
  match v with
  | VUndefined | VNull => false
  | VBool b => b
  | VNum n => number_truthy n
  | VStr s => match s with [] => false | _ :: _ => true end
  | VArr _ | VObj _ => true
  end.

(** [v || d] *)
Definition or_else (v d : value) : value := if truthy v then v else d.

Fixpoint lookup (fields : list (string * value)) (k : string) : option value :=
  match fields with
  | [] => None
  | (k', v) :: rest => if String.eqb k' k then Some v else lookup rest k
  end.

(** [v === 'literal'] *)
Definition strict_eq_str (v : value) (s : jsstring) : bool :=
  match v with
  | VStr s' => jsstring_eqb s' s
  | _ => false
  end.

(** What is thrown: an [Error] object, of which the sources read [message]. *)
Record exn := Error { message : jsstring }.

Inductive outcome (A : Type) :=
| Returned (a : A)
| Thrown (e : exn).
Arguments Returned {A} a.
Arguments Thrown {A} e.

(** The [TypeError] of a property read on [undefined] or [null] (worded as V8
    words it; the sources only pass the text on). *)
Definition TypeError_read (of_null : bool) (k : string) : exn :=
  Error (lit "Cannot read properties of " ++
         lit (if of_null then "null" else "undefined") ++
         lit " (reading '" ++ lit k ++ lit "')").

(** [o.k] for the property names the sources read ([message], [choices],
    [usage], ...): none of them is a property of a primitive or of an array. *)
Definition get (o : value) (k : string) : outcome value :=
  match o with
  | VUndefined => Thrown (TypeError_read false k)
  | VNull => Thrown (TypeError_read true k)
  | VObj fields =>
      Returned match lookup fields k with Some v => v | None => VUndefined end
  | VBool _ | VNum _ | VStr _ | VArr _ => Returned VUndefined
  end.

(** [o.k] where [o] is neither [undefined] nor [null]. *)
Definition prop (o : value) (k : string) : value :=
  match o with
  | VObj fields => match lookup fields k with Some v => v | None => VUndefined end
  | _ => VUndefined
  end.

(** [o[0]] *)
Definition get0 (o : value) : outcome value :=
  match o with
  | VUndefined => Thrown (TypeError_read false "0")
  | VNull => Thrown (TypeError_read true "0")
  | VArr items => Returned match items with v :: _ => v | [] => VUndefined end
  | VStr s => Returned match s with c :: _ => VStr [c] | [] => VUndefined end
  | VObj fields =>
      Returned match lookup fields "0" with Some v => v | None => VUndefined end
  | VBool _ | VNum _ => Returned VUndefined
  end.

(** The decimal digits of an integer: [ToString] of an integral number below
    [1e21], such as the result of [Date.now()]. *)
Definition decimal (z : Z) : jsstring :=
  lit (DecimalString.NilZero.string_of_int (Z.to_int z)).

(** The [TypeError] of a conversion to a string that finds no callable
    [toString] or [valueOf] giving a primitive (worded as V8 words it). *)
Definition TypeError_convert : exn :=
  Error (lit "Cannot convert object to primitive value").

(** [ToString] of a value inside a template literal.  An object is converted
    by the [toString] it inherits, unless it has a property of that name of
    its own: that one is not a function, and neither it nor the inherited
    [valueOf] gives a primitive, so the conversion throws.  An array is
    converted by [join], which converts its elements in turn.  Only the
    conversion of a number that is given as a binary64 value is left to the
    engine ([Number::toString], passed as [number_to_string]). *)
Section ToString.
Variable number_to_string : float -> jsstring.

Fixpoint ToString (v : value) : outcome jsstring :=
  match v with
  | VUndefined => Returned (lit "undefined")
  | VNull => Returned (lit "null")
  | VBool true => Returned (lit "true")
  | VBool false => Returned (lit "false")
  | VNum n => Returned (number_to_string n)
  | VStr s => Returned s
  | VArr items =>
      (fix join (l : list value) : outcome jsstring :=
         match l with
         | [] => Returned []
         | x :: rest =>
             match match x with
                   | VUndefined | VNull => Returned []
                   | _ => ToString x
                   end with
             | Thrown e => Thrown e
             | Returned sx =>
                 match rest with
                 | [] => Returned sx
                 | _ :: _ =>
                     match join rest with
                     | Thrown e => Thrown e
                     | Returned sr => Returned (sx ++ lit "," ++ sr)
                     end
                 end
             end
         end) items
  | VObj fields =>
      match lookup fields "toString" with
      | Some _ => Thrown TypeError_convert
      | None => Returned (lit "[object Object]")
      end
  end.
End ToString.

(** *** JSON texts *)

(** A JSON text, by its syntax tree: what [JSON.stringify] writes and
    [JSON.parse] reads.  White space is left out, and a number token stands
    as the number it denotes ([JSON.stringify] writes a finite number with
    the digits that read back as the same number). *)
Inductive json :=
| JNull
| JBool (b : bool)
| JNum (n : float)
| JStr (s : jsstring)
| JArr (items : list json)
| JObj (members : list (string * json)).

(** A number in a JSON text: [null] for [NaN] and the infinities, [0] for
    both zeros. *)
Definition SerializeJSONNumber (n : float) : json :=
  match Prim2SF n with
  | S754_finite _ _ _ => JNum n
  | S754_zero _ => JNum PrimFloat.zero
  | S754_infinity _ | S754_nan => JNull
  end.

(** [SerializeJSONProperty]: [None] stands for [undefined], which leaves a
    property out of an object and is written [null] in an array.  No value
    here has a [toJSON] that is a function. *)
Fixpoint SerializeJSONProperty (v : value) : option json :=
  match v with
  | VUndefined => None
  | VNull => Some JNull
  | VBool b => Some (JBool b)
  | VNum n => Some (SerializeJSONNumber n)
  | VStr s => Some (JStr s)
  | VArr items =>
      Some (JArr (map (fun x => match SerializeJSONProperty x with
                                | Some j => j
                                | None => JNull
                                end) items))
  | VObj fields =>
      Some (JObj ((fix members (l : list (string * value)) : list (string * json) :=
                     match l with
                     | [] => []
                     | (k, x) :: rest =>
                         match SerializeJSONProperty x with
                         | Some j => (k, j) :: members rest
                         | None => members rest
                         end
                     end) fields))
  end.

(** [JSON.stringify(v)], also with an indentation: the text, or [undefined]. *)
Definition JSON_stringify (v : value) : option json := SerializeJSONProperty v.

(** [JSON.parse] of a text whose objects name each member once. *)
Fixpoint JSON_parse (j : json) : value :=
  match j with
  | JNull => VNull
  | JBool b => VBool b
  | JNum n => VNum n
  | JStr s => VStr s
  | JArr items => VArr (map JSON_parse items)
  | JObj members =>
      VObj ((fix fields (l : list (string * json)) : list (string * value) :=
               match l with
               | [] => []
               | (k, x) :: rest => (k, JSON_parse x) :: fields rest
               end) members)
  end.

(** The member [k] of the object a text denotes. *)
Definition member (j : json) (k : string) : option json :=
  match j with
  | JObj members =>
      (fix find (l : list (string * json)) : option json :=
         match l with
         | [] => None
         | (k', x) :: rest => if String.eqb k' k then Some x else find rest
         end) members
  | _ => None
  end.

(** The member of a text that may be [undefined]. *)
Definition member_of (text : option json) (k : string) : option json :=
  match text with
  | Some j => member j k
  | None => None
  end.

(** *** Numbers *)

Open Scope float_scope.

(** [Math.min(x, y)]: [NaN] if either is [NaN]; [-0] is smaller than [+0]. *)
Definition Math_min (x y : float) : float :=
  if is_nan x || is_nan y then nan
  else if x <? y then x
  else if y <? x then y
  else if is_zero x && get_sign x then x
  else y.

(** [Math.round(x)]: the integer nearest to [x], ties towards [+Infinity];
    [-0] for [-0.5 <= x < 0].  Computed on the mantissa and the exponent. *)
Definition Math_round (x : float) : float :=
  match Prim2SF x with
  | S754_finite s m e =>
      if (0 <=? e)%Z then x
      else
        let sm := if s then Z.neg m else Z.pos m in
        let n := ((2 * sm + 2 ^ (- e)) / 2 ^ (1 - e))%Z in
        if (n =? 0)%Z then (if s then PrimFloat.neg_zero else PrimFloat.zero)
        else SF2Prim (binary_normalize prec emax n 0%Z false)
  | _ => x
  end.

End JS.

(** ** Effects: exceptions and the trace of host calls *)

Module Effects.
Import JS.

(** The parts of a log line: the arguments of [context.log] and the pieces of
    a template literal, left unformatted. *)
Inductive part :=
| Text (s : jsstring)
| Val (v : value)
| Caught (e : exn)            (* the value a [catch] clause was given *)
| Fixed2 (n : float)          (* n.toFixed(2) *)
| Count (n : nat).           (* an array length *)

Inductive level := Info | Warn | Err.

Record chat_message := ChatMessage { role : jsstring; content : value }.

(** What a handler does to the outside, in the order it does it.  An output
    binding is set to the result of [JSON.stringify]. *)
Inductive event :=
| Logged (l : level) (args : list part)
| CompletionRequested (deployment : jsstring) (messages : list chat_message)
| OutputSet (binding : string) (text : option json).

Definition trace := list event.

(** A computation that returns or throws, and extends the trace. *)
Definition M (A : Type) : Type := trace -> outcome A * trace.

Definition ret {A} (a : A) : M A := fun t => (Returned a, t).

Definition throw {A} (e : exn) : M A := fun t => (Thrown e, t).

Definition bind {A B} (m : M A) (k : A -> M B) : M B :=
  fun t => match m t with
           | (Returned a, t') => k a t'
           | (Thrown e, t') => (Thrown e, t')
           end.

Definition lift {A} (o : outcome A) : M A := fun t => (o, t).

Definition emit (e : event) : M unit := fun t => (Returned tt, t ++ [e]).

(** [try { body } catch (error) { handler }] *)
Definition try_catch {A} (body : M A) (handler : exn -> M A) : M A :=
  fun t => match body t with
           | (Returned a, t') => (Returned a, t')
           | (Thrown e, t') => handler e t'
           end.

(** A call to the logger of the host: [context.log(...)], [context.log.warn(...)]
    or [context.log.error(...)].  The host decides whether a call returns or
    throws. *)
Definition logger : Type := level -> list part -> outcome unit.

Definition log (lg : logger) (l : level) (args : list part) : M unit :=
  fun t => (lg l args, t ++ [Logged l args]).

(** A logger of which the calls of one kind return: [returns lg Info] says
    that [context.log(...)] returns, [returns lg Err] that
    [context.log.error(...)] does. *)
Definition returns (lg : logger) (l : level) : Prop := forall args, lg l args = Returned tt.

(** A logger of which the calls of one kind throw. *)
Definition throws (lg : logger) (l : level) (e : exn) : Prop :=
  forall args, lg l args = Thrown e.


(** [for (const x of l) { s = body(s, x) }] *)
Fixpoint for_of {A S} (l : list A) (body : S -> A -> M S) (s : S) : M S :=
  match l with
  | [] => ret s
  | x :: rest => bind (body s x) (for_of rest body)
  end.

End Effects.

Declare Scope js_scope.
Delimit Scope js_scope with js.
Notation "x <- m ;; k" := (Effects.bind m (fun x => k))
  (at level 61, m at next level, right associativity) : js_scope.
Notation "m ;; k" := (Effects.bind m (fun _ => k))
  (at level 61, right associativity) : js_scope.

(** ** chatWorker.js *)

Module ChatWorker.
Import JS Effects.
Open Scope float_scope.
Open Scope js_scope.

(** The object [retrieveRagContext] returns.  The worker reads each of its
    properties through [||], so each may be missing. *)
Record RagContext := {
  context : option jsstring;
  sources : option (list jsstring);
  relevanceScore : option float
}.

(** An element of the array [queryMultipleModels] returns. *)
Record ModelResponse := {
  model : jsstring;
  response : jsstring;
  confidence : float;
  tokensUsed : option value;
  error : option jsstring
}.

Record model_config := { name : jsstring; deployment : jsstring }.

(** What the worker gets from outside:
    - [OpenAIClient_new]: whether
      [new OpenAIClient(endpoint, new AzureKeyCredential(apiKey))] gives the
      client or throws, for the endpoint and the key of the environment;
    - [getChatCompletions]: what [client.getChatCompletions(deployment, messages, ...)]
      resolves to, or the error it rejects with;
    - [BOT_WEBHOOK_URL]: [process.env.BOT_WEBHOOK_URL];
    - [number_to_string]: the engine's [Number::toString];
    - [context_log]: the logger of the invocation context. *)
Record host := {
  OpenAIClient_new : outcome unit;
  getChatCompletions : jsstring -> list chat_message -> outcome value;
  BOT_WEBHOOK_URL : option jsstring;
  number_to_string : float -> jsstring;
  context_log : logger
}.

(** The object literal [ragContext] of [retrieveRagContext]: the search
    request is a comment in the source. *)
Definition mockSources : list jsstring := [lit "SharePoint Doc 1"; lit "SharePoint Doc 2"].

Definition mockContext : RagContext := {|
  context := Some (lit "Retrieved relevant information from knowledge base...");
  sources := Some mockSources;
  relevanceScore := Some 0.85
|}.

Definition emptyContext : RagContext := {|
  context := Some [];
  sources := Some [];
  relevanceScore := Some 0.0
|}.

(** The only call in the body of the [try] is the call to the logger. *)
Definition retrieveRagContext (h : host) (query : value) : M RagContext :=
  try_catch
    (let ragContext := mockContext in
     log (context_log h) Info [Text (lit "RAG retrieval completed with ");
                               Count (List.length mockSources); Text (lit " sources")] ;;
     ret ragContext)
    (fun error =>
       log (context_log h) Warn [Text (lit "RAG retrieval failed:"); Val (VStr (message error))] ;;
       ret emptyContext).

(** [/\s/]: the white space and line terminator code units of ECMAScript. *)
Definition is_space (c : N) : bool :=
  ((9 <=? c) && (c <=? 13) || (c =? 32) || (c =? 160) || (c =? 5760)
   || (8192 <=? c) && (c <=? 8202) || (c =? 8232) || (c =? 8233)
   || (c =? 8239) || (c =? 8287) || (c =? 12288) || (c =? 65279))%N.

(** [s.split(/\s+/)]: [cur] holds, reversed, the code units read since the last
    separator; [in_run] tells that the last code unit read was white space. *)
Fixpoint split_from (s : jsstring) (cur : jsstring) (in_run : bool) : list jsstring :=
  match s with
  | [] => [rev cur]
  | c :: rest =>
      if is_space c then
        if in_run then split_from rest [] true
        else rev cur :: split_from rest [] true
      else split_from rest (c :: cur) false
  end.

Definition split_spaces (s : jsstring) : list jsstring := split_from s [] false.

Definition calculateConfidenceScore
    (response : jsstring) (ragScore : float) (finishReason : value) : float :=
  let baseConfidence := 0.7 in
  let confidence := baseConfidence * (0.7 + 0.3 * ragScore) in
  let confidence :=
    if strict_eq_str finishReason (lit "stop") then confidence * 1.0
    else if strict_eq_str finishReason (lit "length") then confidence * 0.8
    else confidence * 0.6 in
  let wordCount := List.length (split_spaces response) in
  let confidence :=
    if (20 <=? wordCount)%nat && (wordCount <=? 200)%nat then confidence * 1.0
    else if (wordCount <? 20)%nat then confidence * 0.8
    else confidence * 0.9 in
  Math_min confidence 1.0.

Definition modelsToQuery : list model_config :=
  [ {| name := lit "gpt-4"; deployment := lit "gpt-4" |};
    {| name := lit "gpt-35-turbo"; deployment := lit "gpt-35-turbo" |} ].

Definition newline : jsstring := [10%N].

Definition systemPrompt (ragContext : RagContext) : jsstring :=
  lit "You are a helpful assistant. " ++ newline ++
  lit "Use the following context to answer the user's question:" ++ newline ++
  newline ++
  lit "Context: " ++
  match context ragContext with Some (c :: s) => c :: s | _ => [] end ++ newline ++
  newline ++
  lit "Provide a confidence score (0-1) for your answer.".

(** [ragContext.relevanceScore || 0.5] *)
Definition ragScoreArgument (ragContext : RagContext) : float :=
  match relevanceScore ragContext with
  | Some r => if number_truthy r then r else 0.5
  | None => 0.5
  end.

(** The array [messages] of a completion request. *)
Definition messagesFor (userMessage : value) (ragContext : RagContext) : list chat_message :=
  [ ChatMessage (lit "system") (VStr (systemPrompt ragContext));
    ChatMessage (lit "user") userMessage ].

(** The body of the [try] of the loop, up to the element it pushes.  A
    [content] that is not a string makes [response.split] throw. *)
Definition queryModel (h : host) (userMessage : value) (ragContext : RagContext)
    (m : model_config) : M ModelResponse :=
  let messages := messagesFor userMessage ragContext in
  emit (CompletionRequested (deployment m) messages) ;;
  result <- lift (getChatCompletions h (deployment m) messages) ;;
  choices <- lift (get result "choices") ;;
  choice <- lift (get0 choices) ;;
  msg <- lift (get choice "message") ;;
  answer <- lift (get msg "content") ;;
  finishReason <- lift (get choice "finishReason") ;;
  text <- match answer with
          | VStr s => ret s
          | VUndefined => throw (TypeError_read false "split")
          | VNull => throw (TypeError_read true "split")
          | _ => throw (Error (lit "response.split is not a function"))
          end ;;
  let confidence := calculateConfidenceScore text (ragScoreArgument ragContext) finishReason in
  usage <- lift (get result "usage") ;;
  totalTokens <- lift (get usage "totalTokens") ;;
  ret {| model := name m; response := text; confidence := confidence;
         tokensUsed := Some totalTokens; error := None |}.

Definition failedResponse (m : model_config) (err : exn) : ModelResponse :=
  {| model := name m;
     response := lit "Error generating response";
     confidence := 0.0;
     tokensUsed := None;
     error := Some (message err) |}.

(** The [catch] of the loop, on the array as the [try] left it. *)
Definition queryFailed (h : host) (m : model_config) (responses : list ModelResponse)
    (err : exn) : M (list ModelResponse) :=
  log (context_log h) Err [Text (lit "Error querying "); Text (name m); Text (lit ":");
           Val (VStr (message err))] ;;
  ret (responses ++ [failedResponse m err]).

(** One turn of the loop over [modelsToQuery]: [responses] is the array as the
    turn finds it, the result is the array as the turn leaves it.  The [try]
    pushes its element before it calls the logger: when that call throws,
    the [catch] finds the element in the array and pushes a second one. *)
Definition queryTurn (h : host) (userMessage : value) (ragContext : RagContext)
    (responses : list ModelResponse) (m : model_config) : M (list ModelResponse) :=
  fun t =>
    match queryModel h userMessage ragContext m t with
    | (Thrown err, t1) => queryFailed h m responses err t1
    | (Returned r, t1) =>
        let responses := responses ++ [r] in
        match log (context_log h) Info
                [Text (name m); Text (lit " responded with confidence: ");
                 Fixed2 (confidence r)] t1 with
        | (Thrown err, t2) => queryFailed h m responses err t2
        | (Returned _, t2) => (Returned responses, t2)
        end
    end.

Definition queryModels (h : host) (userMessage : value) (ragContext : RagContext)
    (models : list model_config) (responses : list ModelResponse)
    : M (list ModelResponse) :=
  for_of models (queryTurn h userMessage ragContext) responses.

(** The client is constructed before the loop, outside of every [try]. *)
Definition queryMultipleModels (h : host) (userMessage : value) (ragContext : RagContext)
    : M (list ModelResponse) :=
  lift (OpenAIClient_new h) ;;
  queryModels h userMessage ragContext modelsToQuery [].

(** [Array.prototype.sort] with a comparison function that is consistent on
    the array.  The sort is stable (ECMAScript 2019), and it reads of
    [comparefn(a, b)] only whether it is positive, negative, or neither.  For
    a consistent comparison function the result is the one sorted arrangement
    that keeps the input order of equal elements; it is computed here by
    insertion, each element going in front of the elements that follow it in
    the input unless [comparefn] puts it after them.  Where [comparefn] is
    not consistent (for [by_confidence] below: on an array with a confidence
    that is [NaN]) ECMAScript leaves the order to the engine, and this
    definition does not tell what the engine returns: every fact stated of
    it is stated for arrays of confidences that are numbers, as are the
    arrays the fan-out builds. *)
Section Sort.
Context {A : Type}.
Variable comparefn : A -> A -> float.

Fixpoint insert_sorted (a : A) (l : list A) : list A :=
  match l with
  | [] => [a]
  | b :: rest =>
      if 0 <? comparefn a b then b :: insert_sorted a rest
      else a :: b :: rest
  end.

Fixpoint sort (l : list A) : list A :=
  match l with
  | [] => []
  | a :: rest => insert_sorted a (sort rest)
  end.
End Sort.

(** [(a, b) => b.confidence - a.confidence] *)
Definition by_confidence (a b : ModelResponse) : float := confidence b - confidence a.

(** [sorted[0]]: [None] stands for [undefined]. *)
Definition selectBestResponse (modelResponses : list ModelResponse) : option ModelResponse :=
  let sorted := sort by_confidence modelResponses in
  hd_error sorted.

(** [b] may follow [a] in an array in descending order of confidence. *)
Definition descending (a b : ModelResponse) : Prop :=
  (confidence b <=? confidence a) = true.

(** The object literal [finalResponse]. *)
Definition finalObject (messageId conversationId : value) (bestResponse : ModelResponse)
    (modelResponses : list ModelResponse) (ragContext : RagContext) (timestamp : value)
    : value :=
  VObj
    [ ("messageId", messageId);
      ("conversationId", conversationId);
      ("response", VStr (response bestResponse));
      ("confidenceScore", VNum (confidence bestResponse));
      ("selectedModel", VStr (model bestResponse));
      ("allModelScores",
         VArr (map (fun r => VObj [ ("model", VStr (model r));
                                    ("confidence", VNum (confidence r)) ])
                   modelResponses));
      ("ragSources",
         VArr (map VStr match sources ragContext with Some l => l | None => [] end));
      ("timestamp", timestamp) ]%string.

Definition finalResponse (messageBody conversationId : value) (bestResponse : ModelResponse)
    (modelResponses : list ModelResponse) (ragContext : RagContext) : M value :=
  messageId <- lift (get messageBody "messageId") ;;
  timestamp <- lift (get messageBody "timestamp") ;;
  ret (finalObject messageId conversationId bestResponse modelResponses ragContext timestamp).

Definition storeToDatabase (h : host) (responseData : value) : M unit :=
  try_catch
    (messageId <- lift (get responseData "messageId") ;;
     id <- lift (ToString (number_to_string h) messageId) ;;
     log (context_log h) Info [Text (lit "Storing to database: "); Text id])
    (fun err =>
       log (context_log h) Err [Text (lit "Database storage failed:");
                                Val (VStr (message err))]).

Definition sendResponseToBot (h : host) (responseData : value) : M unit :=
  try_catch
    (match BOT_WEBHOOK_URL h with
     | None | Some [] => log (context_log h) Warn [Text (lit "No webhook URL configured")]
     | Some (_ :: _) =>
         conversationId <- lift (get responseData "conversationId") ;;
         id <- lift (ToString (number_to_string h) conversationId) ;;
         log (context_log h) Info [Text (lit "Response sent to bot for conversation: "); Text id]
     end)
    (fun err =>
       log (context_log h) Err [Text (lit "Failed to send response to bot:");
                                Val (VStr (message err))]).

(** The body of the [try] of the queue handler; [parsed] is what
    [JSON.parse(message)] returns or throws. *)
Definition processMessage (h : host) (parsed : outcome value) : M unit :=
  messageBody <- lift parsed ;;
  userMessage <- lift (get messageBody "userMessage") ;;
  conversationId <- lift (get messageBody "conversationId") ;;
  messageId <- lift (get messageBody "messageId") ;;
  id <- lift (ToString (number_to_string h) messageId) ;;
  log (context_log h) Info [Text (lit "Processing message: "); Text id] ;;
  ragContext <- retrieveRagContext h userMessage ;;
  modelResponses <- queryMultipleModels h userMessage ragContext ;;
  bestResponse <- match selectBestResponse modelResponses with
                  | Some b => ret b
                  | None => throw (TypeError_read false "response")
                  end ;;
  final <- finalResponse messageBody conversationId bestResponse modelResponses ragContext ;;
  storeToDatabase h final ;;
  sendResponseToBot h final ;;
  emit (OutputSet "outputBlob" (JSON_stringify final)) ;;
  log (context_log h) Info [Text (lit "Successfully processed message with ");
            Fixed2 (confidence bestResponse); Text (lit " confidence")].

(** The queue handler. *)
Definition handler (h : host) (parsed : outcome value) : M unit :=
  log (context_log h) Info [Text (lit "Worker function triggered")] ;;
  try_catch
    (processMessage h parsed)
    (fun err =>
       log (context_log h) Err [Text (lit "Error in worker function:"); Caught err] ;;
       throw err).

(** The texts a run gave to the [outputBlob] binding. *)
Definition blobs (t : trace) : list (option json) :=
  flat_map (fun e => match e with
                     | OutputSet "outputBlob" v => [v]
                     | _ => []
                     end) t.

(** The completion requests a run made, in order. *)
Definition requests (t : trace) : list (jsstring * list chat_message) :=
  flat_map (fun e => match e with
                     | CompletionRequested d ms => [(d, ms)]
                     | _ => []
                     end) t.

(** What the body of the [try] makes of the answer of a model: the element to
    push, or the error that reaches the [catch]. *)
Definition attempt (h : host) (userMessage : value) (ragContext : RagContext)
    (m : model_config) : outcome ModelResponse :=
  fst (queryModel h userMessage ragContext m []).

Definition entryFor (h : host) (userMessage : value) (ragContext : RagContext)
    (m : model_config) : ModelResponse :=
  match attempt h userMessage ragContext m with
  | Returned r => r
  | Thrown err => failedResponse m err
  end.

(** An element the loop can push for the model [m]: the one the body of the
    [try] built, or the one of the [catch]. *)
Definition pushed (h : host) (userMessage : value) (ragContext : RagContext)
    (m : model_config) (r : ModelResponse) : Prop :=
  attempt h userMessage ragContext m = Returned r \/ exists e, r = failedResponse m e.

End ChatWorker.

(** ** The scoring formula as the specification writes it *)

Module ScorerSpec.
Import JS.
Open Scope float_scope.

Definition completion_factor (finishReason : value) : float :=
  if strict_eq_str finishReason (lit "stop") then 1.0
  else if strict_eq_str finishReason (lit "length") then 0.8
  else 0.6.

Definition length_factor (wordCount : nat) : float :=
  if (20 <=? wordCount)%nat && (wordCount <=? 200)%nat then 1.0
  else if (wordCount <? 20)%nat then 0.8
  else 0.9.

Definition score (base_confidence rag_relevance : float) (finishReason : value)
    (wordCount : nat) : float :=
  let score := base_confidence * (0.7 + 0.3 * rag_relevance)
               * completion_factor finishReason * length_factor wordCount in
  Math_min score 1.0.

End ScorerSpec.

(** ** chatIngest.js *)

Module ChatIngest.
Import JS Effects.
Open Scope js_scope.
Open Scope Z_scope.

(** [k] decimal digits of [n], most significant first. *)
Fixpoint digits (k : nat) (n : Z) : jsstring :=
  match k with
  | O => []
  | S k' => digits k' (n / 10) ++ [Z.to_N (48 + n mod 10)]
  end.

(** [Date.prototype.toISOString] of the time value [t] (milliseconds since the
    epoch, proleptic Gregorian calendar, UTC): [YYYY-MM-DDTHH:mm:ss.sssZ], the
    year written with a sign and six digits outside of 0..9999. *)
Definition toISOString (t : Z) : jsstring :=
  let day := t / 86400000 in
  let ms := t mod 86400000 in
  let z := day + 719468 in
  let era := z / 146097 in
  let doe := z - era * 146097 in
  let yoe := (doe - doe / 1460 + doe / 36524 - doe / 146096) / 365 in
  let doy := doe - (365 * yoe + yoe / 4 - yoe / 100) in
  let mp := (5 * doy + 2) / 153 in
  let d := doy - (153 * mp + 2) / 5 + 1 in
  let m := if mp <? 10 then mp + 3 else mp - 9 in
  let y := yoe + era * 400 + (if m <=? 2 then 1 else 0) in
  let year :=
    if (0 <=? y) && (y <=? 9999) then digits 4 y
    else lit (if y <? 0 then "-" else "+") ++ digits 6 (Z.abs y) in
  year ++ lit "-" ++ digits 2 m ++ lit "-" ++ digits 2 d ++ lit "T" ++
  digits 2 (ms / 3600000) ++ lit ":" ++ digits 2 (ms / 60000 mod 60) ++ lit ":" ++
  digits 2 (ms / 1000 mod 60) ++ lit "." ++ digits 3 (ms mod 1000) ++ lit "Z".

(** What the handler gets from outside: the two readings of the clock
    ([Date.now()], then [new Date()]), the engine's [Number::toString] and the
    logger of the invocation context. *)
Record host := {
  Date_now : Z;
  new_Date : Z;
  number_to_string : float -> jsstring;
  context_log : logger
}.

(** The HTTP response object; [body] is the text [JSON.stringify] returned. *)
Record http_response := {
  status : Z;
  headers : list (string * jsstring);
  body : option json
}.

Definition json_headers : list (string * jsstring) :=
  [ ("Content-Type"%string, lit "application/json") ].

(** The HTTP handler; [request_json] is what [request.json()] resolves to or
    rejects with.  The queue message is the [outputMessage] binding. *)
Definition handler (h : host) (request_json : outcome value) : M http_response :=
  log (context_log h) Info [Text (lit "Ingest function processing chat message")] ;;
  try_catch
    (body <- lift request_json ;;
     message <- lift (get body "message") ;;
     let userMessage := or_else message (VStr []) in
     userId_ <- lift (get body "userId") ;;
     let userId := or_else userId_ (VStr (lit "unknown")) in
     conversationId_ <- lift (get body "conversationId") ;;
     let conversationId := or_else conversationId_ (VStr []) in
     if negb (truthy userMessage) then
       ret {| status := 400; headers := json_headers;
              body := JSON_stringify
                        (VObj [ ("error"%string, VStr (lit "Message is required")) ]) |}
     else
       conversation <- lift (ToString (number_to_string h) conversationId) ;;
       let messageId := conversation ++ lit "_" ++ decimal (Date_now h) in
       let formattedMessage :=
         VObj [ ("messageId", VStr messageId);
                ("conversationId", conversationId);
                ("userId", userId);
                ("userMessage", userMessage);
                ("timestamp", VStr (toISOString (new_Date h)));
                ("metadata",
                   VObj [ ("source", VStr (lit "bot_service"));
                          ("requiresRAG", VBool true);
                          ("requiresMultiModel", VBool true) ]) ]%string in
       emit (OutputSet "outputMessage" (JSON_stringify formattedMessage)) ;;
       log (context_log h) Info [Text (lit "Message queued successfully: "); Text messageId] ;;
       ret {| status := 202; headers := json_headers;
              body := JSON_stringify
                        (VObj [ ("status", VStr (lit "accepted"));
                                ("messageId", VStr messageId) ]%string) |})
    (fun err =>
       log (context_log h) Err [Text (lit "Error in ingest function:"); Caught err] ;;
       ret {| status := 500; headers := json_headers;
              body := JSON_stringify
                        (VObj [ ("error"%string, VStr (lit "Internal server error")) ]) |}).

(** The texts a run gave to the [outputMessage] binding. *)
Definition queued (t : trace) : list (option json) :=
  flat_map (fun e => match e with
                     | OutputSet "outputMessage" v => [v]
                     | _ => []
                     end) t.

End ChatIngest.

(** ** rag.js, models.js, confidence.js, orchestrator.js, index.js *)

Module Rag.
Import JS Effects.

Definition documents : list jsstring :=
  [ lit "Azure Functions allow serverless orchestration.";
    lit "Azure Bot Service integrates with Speech SDK." ].

(** [documents.join("\n")] *)
Fixpoint join_lines (l : list jsstring) : jsstring :=
  match l with
  | [] => []
  | [x] => x
  | x :: rest => x ++ [10%N] ++ join_lines rest
  end.

Definition retrieveContext (query : value) : M value :=
  ret (VObj [ ("context", VStr (join_lines documents));
              ("sources", VArr [VStr (lit "doc1"); VStr (lit "doc2")]) ]%string).

End Rag.

Module Models.
Import JS Effects.
Open Scope float_scope.
Open Scope js_scope.

(** What [client.chat.completions.create({model, messages})] resolves to, or
    the error it rejects with. *)
Record host := {
  create : jsstring -> list chat_message -> outcome value
}.

Record response := {
  model : jsstring;
  text : value;
  confidence_hint : float
}.

Definition complete (h : host) (model : jsstring) (messages : list chat_message) : M value :=
  emit (CompletionRequested model messages) ;;
  completion <- lift (create h model messages) ;;
  choices <- lift (get completion "choices") ;;
  choice <- lift (get0 choices) ;;
  msg <- lift (get choice "message") ;;
  lift (get msg "content").

Definition callGPT4 (h : host) (userMessage contextData : value) : M response :=
  context <- lift (get contextData "context") ;;
  content <- complete h (lit "gpt-4o")
               [ ChatMessage (lit "system") (VStr (lit "You are a helpful assistant."));
                 ChatMessage (lit "system") context;
                 ChatMessage (lit "user") userMessage ] ;;
  ret {| model := lit "gpt-4o"; text := content; confidence_hint := 0.9 |}.

Definition callGPT35 (h : host) (userMessage contextData : value) : M response :=
  context <- lift (get contextData "context") ;;
  content <- complete h (lit "gpt-35-turbo")
               [ ChatMessage (lit "system") context;
                 ChatMessage (lit "user") userMessage ] ;;
  ret {| model := lit "gpt-35-turbo"; text := content; confidence_hint := 0.7 |}.

End Models.

Module Confidence.
Import JS.
Open Scope float_scope.

(** An array length as a number. *)
Definition of_length (n : nat) : float := of_uint63 (Uint63.of_Z (Z.of_nat n)).

Definition computeConfidence (responses : list Models.response) : float :=
  let scores := map Models.confidence_hint responses in
  let average := fold_left (fun a b => a + b) scores 0 / of_length (List.length scores) in
  Math_round (average * 100) / 100.

End Confidence.

Module Orchestrator.
Import JS Effects.
Open Scope js_scope.

Definition runOrchestration (h : Models.host) (userMessage userId : value) : M value :=
  contextData <- Rag.retrieveContext userMessage ;;
  responseA <- Models.callGPT4 h userMessage contextData ;;
  responseB <- Models.callGPT35 h userMessage contextData ;;
  let responses := [responseA; responseB] in
  let finalAnswer := Models.text responseA in
  let confidenceScore := Confidence.computeConfidence responses in
  sources <- lift (get contextData "sources") ;;
  ret (VObj [ ("answer", finalAnswer);
              ("confidence", VNum confidenceScore);
              ("sources", sources) ]%string).

End Orchestrator.

Module Index.
Import JS Effects.
Open Scope js_scope.
Open Scope Z_scope.

(** [context.res] *)
Record res := { status : Z; body : value }.

(** The exported function; it returns what it leaves in [context.res]. *)
Definition main (h : Models.host) (req : value) : M res :=
  try_catch
    (body_ <- lift (get req "body") ;;
     let payload := or_else body_ (VObj []) in
     message <- lift (get payload "message") ;;
     user_id <- lift (get payload "user_id") ;;
     (if negb (truthy message) then throw (Error (lit "Missing 'message' field"))
      else ret tt) ;;
     result <- Orchestrator.runOrchestration h message
                 (or_else user_id (VStr (lit "anonymous"))) ;;
     ret {| status := 200; body := result |})
    (fun err =>
       ret {| status := 500;
              body := VObj [ ("error"%string, VStr (JS.message err)) ] |}).

End Index.

(** ** The provisioning step sequence *)

Module Provisioning.

Inductive step := entraInvite | teams | sharepoint | sharepointList.

Inductive step_result :=
| Succeeded (url : string)
| Failed (error : string).

Inductive overall := completed | partial | failed.

Definition succeeded (r : step_result) : bool :=
  match r with Succeeded _ => true | Failed _ => false end.

Definition step_eqb (a b : step) : bool :=
  match a, b with
  | entraInvite, entraInvite | teams, teams
  | sharepoint, sharepoint | sharepointList, sharepointList => true
  | _, _ => false
  end.

Definition all_steps : list step := [entraInvite; teams; sharepoint; sharepointList].

(** The result record of the flow: the per-step map, in the order the steps
    were attempted, and the overall status. *)
Record FinalResult := {
  results : list (step * step_result);
  status : overall
}.

Definition result_of (rs : list (step * step_result)) (s : step) : option step_result :=
  option_map snd (find (fun p => step_eqb (fst p) s) rs).

Definition attempted (rs : list (step * step_result)) (s : step) : bool :=
  match result_of rs s with Some _ => true | None => false end.

Definition step_succeeded (rs : list (step * step_result)) (s : step) : bool :=
  match result_of rs s with Some r => succeeded r | None => false end.

(** Modelled from the spec: the overall status of the provisioning worker, whose
    code is not in the repository: [completed] only if every step succeeded,
    [partial] if some succeeded, [failed] otherwise (the first step failed and
    nothing else could proceed). *)
Definition overall_status (rs : list (step * step_result)) : overall :=
  if forallb (step_succeeded rs) all_steps then completed
  else if existsb (step_succeeded rs) all_steps then partial
  else failed.

(** Modelled from the spec: the provisioning worker, whose code is not in the
    repository (only its README is).  [call s] is what the external call of
    step [s] answers when it is made.  The invite is attempted, then the team
    creation whatever the invite gave; the site and the list are attempted only
    if the team was created. *)
Definition run (call : step -> step_result) : FinalResult :=
  let invite := call entraInvite in
  let team := call teams in
  let rest :=
    if succeeded team
    then [ (sharepoint, call sharepoint); (sharepointList, call sharepointList) ]
    else [] in
  let rs := (entraInvite, invite) :: (teams, team) :: rest in
  {| results := rs; status := overall_status rs |}.

End Provisioning.

(** ** Binary64 numbers: an order-preserving image in the integers *)

Module Binary64.
Open Scope Z_scope.

(** What a rounding can return for a mantissa that is not negative: a zero, a
    finite number or an infinity, of the sign it was given. *)
Definition sf_has_sign (s : bool) (x : spec_float) : Prop :=
  match x with
  | S754_zero s' | S754_infinity s' | S754_finite s' _ _ => s' = s
  | S754_nan => False
  end.

Definition sf_nonzero_signed (s : bool) (x : spec_float) : Prop :=
  match x with
  | S754_infinity s' | S754_finite s' _ _ => s' = s
  | _ => False
  end.

Definition sf_is_nan (x : spec_float) : bool :=
  match x with S754_nan => true | _ => false end.

Definition sf_finite (x : spec_float) : bool :=
  match x with S754_finite _ _ _ => true | _ => false end.

Definition sf_nonneg (x : spec_float) : bool := SFleb (S754_zero false) x.

Definition huge : Z := 2 ^ 3000.

(** The image: a finite number [m * 2^e] goes to [m * 2^(e + 1074)], an
    integer since [-1074] is the least exponent; the infinities go beyond. *)
Definition ord (x : spec_float) : Z :=
  match x with
  | S754_zero _ | S754_nan => 0
  | S754_infinity s => cond_Zopp s huge
  | S754_finite s m e => cond_Zopp s (Zpos m * 2 ^ (e + 1074))
  end.

Definition ford (x : float) : Z := ord (Prim2SF x).

(** A number that is finite and not zero. *)
Definition finite_nz (x : float) : bool := sf_finite (Prim2SF x).

End Binary64.

(** ** Sample hosts and inputs *)

Module Samples.
Import JS Effects.
Open Scope float_scope.

(** A queue message as the ingest function writes it. *)
Definition queue_message : value :=
  VObj [ ("messageId", VStr (lit "c1_1706534400000"));
         ("conversationId", VStr (lit "c1"));
         ("userId", VStr (lit "u1"));
         ("userMessage", VStr (lit "What is our refund policy?"));
         ("timestamp", VStr (lit "2024-01-29T13:20:00.000Z")) ]%string.

Definition dependency_error : exn := Error (lit "Service unavailable").

(** The logger of an invocation context on which [log] is a function
    without properties [warn] and [error] (the programming model that has
    [app.http] and [app.serviceBusQueue] puts these on the context itself):
    calling either throws a [TypeError]. *)
Definition plain_logger : logger := fun l _ =>
  match l with
  | Info => Returned tt
  | Warn => Thrown (Error (lit "context.log.warn is not a function"))
  | Err => Thrown (Error (lit "context.log.error is not a function"))
  end.

(** A logger of which every call returns. *)
Definition full_logger : logger := fun _ _ => Returned tt.

(** [Number::toString] on the numbers the samples convert. *)
Definition number_to_string (n : float) : jsstring :=
  if n =? 42 then lit "42" else lit "NaN".

(** A worker host whose completion calls all fail; its logger has no [warn]
    and no [error]. *)
Definition plain_logger_host : ChatWorker.host := {|
  ChatWorker.OpenAIClient_new := Returned tt;
  ChatWorker.getChatCompletions := fun _ _ => Thrown dependency_error;
  ChatWorker.BOT_WEBHOOK_URL := Some (lit "https://bot.example/hook");
  ChatWorker.number_to_string := number_to_string;
  ChatWorker.context_log := plain_logger
|}.

(** A completion that carries one choice with the given text. *)
Definition completion (text : jsstring) : value :=
  VObj [ ("choices",
            VArr [ VObj [ ("message", VObj [ ("content", VStr text) ]);
                          ("finishReason", VStr (lit "stop")) ] ]);
         ("usage", VObj [ ("totalTokens", VNum 42) ]) ]%string.

(** An orchestrator host of which every completion call answers. *)
Definition answering_host : Models.host := {|
  Models.create := fun _ _ => Returned (completion (lit "Thirty days."))
|}.

(** An ingest host whose logger has no [warn] and no [error]. *)
Definition ingest_host : ChatIngest.host := {|
  ChatIngest.Date_now := 1706534400000;
  ChatIngest.new_Date := 1706534400000;
  ChatIngest.number_to_string := number_to_string;
  ChatIngest.context_log := plain_logger
|}.

Definition chat_request : value :=
  VObj [ ("message", VStr (lit "What is our refund policy?"));
         ("userId", VStr (lit "u1"));
         ("conversationId", VStr (lit "c1")) ]%string.

Definition sample_responses : list ChatWorker.ModelResponse :=
  [ {| ChatWorker.model := lit "gpt-4"; ChatWorker.response := lit "a";
       ChatWorker.confidence := 0.4;
       ChatWorker.tokensUsed := None; ChatWorker.error := None |};
    {| ChatWorker.model := lit "gpt-35-turbo"; ChatWorker.response := lit "b";
       ChatWorker.confidence := 0.6;
       ChatWorker.tokensUsed := None; ChatWorker.error := None |};
    {| ChatWorker.model := lit "custom-model"; ChatWorker.response := lit "c";
       ChatWorker.confidence := 0.6;
       ChatWorker.tokensUsed := None; ChatWorker.error := None |} ].

(** The invite succeeds, every other step fails. *)
Definition invite_only (s : Provisioning.step) : Provisioning.step_result :=
  match s with
  | Provisioning.entraInvite => Provisioning.Succeeded "https://login.microsoftonline.com/redeem"
  | _ => Provisioning.Failed "Insufficient permissions"
  end.

End Samples.

(** ** Computations that leave the trace alone *)

Module Silent.
Import JS Effects.

Definition silent {A} (m : M A) : Prop := forall t, m t = (fst (m []), t).

End Silent.

(** ** Computations that only append to the trace *)

Module Traces.
Import JS Effects.

(** A computation whose outcome does not depend on the trace it is given,
    and which only appends to it. *)
Definition oblivious {A} (m : M A) : Prop :=
  forall t, m t = (fst (m []), t ++ snd (m [])).

End Traces.

(** ** Numbers that are positive and not too small *)

Module Magnitude.
Open Scope Z_scope.

(** A positive number that is not below [2^L] times the least mantissa:
    [+Infinity], or a finite positive number of exponent [L] or more. *)
Definition sf_positive_from (L : Z) (x : spec_float) : Prop :=
  match x with
  | S754_infinity false => True
  | S754_finite false _ e => L <= e
  | _ => False
  end.

Definition positive_from (L : Z) (x : float) : Prop := sf_positive_from L (Prim2SF x).

(** A number that is not negative and not infinite: a zero or a finite
    positive number. *)
Definition sf_small (x : spec_float) : Prop :=
  match x with
  | S754_zero _ | S754_finite false _ _ => True
  | _ => False
  end.

(** A shifted mantissa that has lost no bit: the round bit and the sticky bit
    are both clear. *)
Definition clean (mrs : shr_record) : Prop := shr_r mrs = false /\ shr_s mrs = false.

End Magnitude.

(** ** More hosts and inputs *)

Module Scenarios.
Import JS Effects.
Open Scope float_scope.

(** A completion that was cut at the token limit. *)
Definition cut_completion (text : jsstring) : value :=
  VObj [ ("choices",
            VArr [ VObj [ ("message", VObj [ ("content", VStr text) ]);
                          ("finishReason", VStr (lit "length")) ] ]);
         ("usage", VObj [ ("totalTokens", VNum 42) ]) ]%string.

(** A worker host of which every completion call answers; its logger has no
    [warn] and no [error], and the webhook address is set. *)
Definition answering_worker : ChatWorker.host := {|
  ChatWorker.OpenAIClient_new := Returned tt;
  ChatWorker.getChatCompletions := fun _ _ => Returned (Samples.completion (lit "Thirty days."));
  ChatWorker.BOT_WEBHOOK_URL := Some (lit "https://bot.example/hook");
  ChatWorker.number_to_string := Samples.number_to_string;
  ChatWorker.context_log := Samples.plain_logger
|}.

(** The same, the answer of the deployment [gpt-4] being cut. *)
Definition first_model_cut : ChatWorker.host := {|
  ChatWorker.OpenAIClient_new := Returned tt;
  ChatWorker.getChatCompletions := fun deployment _ =>
    if jsstring_eqb deployment (lit "gpt-4") then Returned (cut_completion (lit "Thirty"))
    else Returned (Samples.completion (lit "Thirty days."));
  ChatWorker.BOT_WEBHOOK_URL := Some (lit "https://bot.example/hook");
  ChatWorker.number_to_string := Samples.number_to_string;
  ChatWorker.context_log := Samples.plain_logger
|}.

(** A worker host of which every completion call answers with twenty words. *)
Definition full_answer_worker : ChatWorker.host := {|
  ChatWorker.OpenAIClient_new := Returned tt;
  ChatWorker.getChatCompletions := fun _ _ =>
    Returned (Samples.completion (lit "a b c d e f g h i j k l m n o p q r s t"));
  ChatWorker.BOT_WEBHOOK_URL := Some (lit "https://bot.example/hook");
  ChatWorker.number_to_string := Samples.number_to_string;
  ChatWorker.context_log := Samples.plain_logger
|}.

(** A worker host of which the deployment [gpt-4] is down and the other
    answers; its logger has no [warn] and no [error]. *)
Definition first_model_down : ChatWorker.host := {|
  ChatWorker.OpenAIClient_new := Returned tt;
  ChatWorker.getChatCompletions := fun deployment _ =>
    if jsstring_eqb deployment (lit "gpt-4") then Thrown Samples.dependency_error
    else Returned (Samples.completion (lit "Thirty days."));
  ChatWorker.BOT_WEBHOOK_URL := Some (lit "https://bot.example/hook");
  ChatWorker.number_to_string := Samples.number_to_string;
  ChatWorker.context_log := Samples.plain_logger
|}.

(** The same with a logger of which every call returns. *)
Definition first_model_down_logged : ChatWorker.host := {|
  ChatWorker.OpenAIClient_new := Returned tt;
  ChatWorker.getChatCompletions := ChatWorker.getChatCompletions first_model_down;
  ChatWorker.BOT_WEBHOOK_URL := Some (lit "https://bot.example/hook");
  ChatWorker.number_to_string := Samples.number_to_string;
  ChatWorker.context_log := Samples.full_logger
|}.

(** A worker host of which the key of the completion service is not set: the
    construction of the client throws. *)
Definition key_unset : ChatWorker.host := {|
  ChatWorker.OpenAIClient_new := Thrown (Error (lit "key must be a non-empty string"));
  ChatWorker.getChatCompletions := fun _ _ => Returned (Samples.completion (lit "Thirty days."));
  ChatWorker.BOT_WEBHOOK_URL := Some (lit "https://bot.example/hook");
  ChatWorker.number_to_string := Samples.number_to_string;
  ChatWorker.context_log := Samples.plain_logger
|}.

(** A request whose conversation identifier cannot be converted to a string. *)
Definition unconvertible_request : value :=
  VObj [ ("message", VStr (lit "What is our refund policy?"));
         ("conversationId", VObj [ ("toString", VNum 1) ]) ]%string.

(** A request whose message is the number [1e400] reads as. *)
Definition infinite_message : value :=
  VObj [ ("message", VNum infinity);
         ("conversationId", VStr (lit "c1")) ]%string.

(** An orchestrator host of which the model [gpt-4o] is down and the other
    answers. *)
Definition gpt4o_down : Models.host := {|
  Models.create := fun model _ =>
    if jsstring_eqb model (lit "gpt-4o") then Thrown Samples.dependency_error
    else Returned (Samples.completion (lit "Thirty days."))
|}.

(** A second request of the same conversation, with another message. *)
Definition second_request : value :=
  VObj [ ("message", VStr (lit "And for digital goods?"));
         ("userId", VStr (lit "u1"));
         ("conversationId", VStr (lit "c1")) ]%string.

End Scenarios.

(** ** What orchestrator.js asks of the models, and what it reads of their answers *)

Module Asked.
Import JS Effects.

(** [contextData.context], for the context [rag.retrieveContext] returns. *)
Definition contextText : value := VStr (Rag.join_lines Rag.documents).

(** The array [messages] of the request of [callGPT4]. *)
Definition messagesGPT4 (userMessage : value) : list chat_message :=
  [ ChatMessage (lit "system") (VStr (lit "You are a helpful assistant."));
    ChatMessage (lit "system") contextText;
    ChatMessage (lit "user") userMessage ].

(** The array [messages] of the request of [callGPT35]. *)
Definition messagesGPT35 (userMessage : value) : list chat_message :=
  [ ChatMessage (lit "system") contextText;
    ChatMessage (lit "user") userMessage ].

(** [completion.choices[0].message.content] for the answer to a request, or
    the error of the call or of the reading. *)
Definition contentOf (h : Models.host) (model : jsstring) (messages : list chat_message)
    : outcome value :=
  fst (Models.complete h model messages []).

End Asked.

(** ** The error paths of the two handlers *)

Module Paths.
Import JS Effects.

(** The error the body of the [try] of the worker ends with on a queue
    message that does not parse, or parses to [null] or [undefined]. *)
Definition unreadable (parsed : outcome value) (e : exn) : Prop :=
  parsed = Thrown e
  \/ (parsed = Returned VNull /\ e = TypeError_read true "userMessage")
  \/ (parsed = Returned VUndefined /\ e = TypeError_read false "userMessage").

(** What the [catch] of the worker makes of an error [e] of the body: it
    calls [context.log.error], then throws [e] again. *)
Definition rethrown (h : ChatWorker.host) (e : exn) : outcome unit :=
  match ChatWorker.context_log h Err [Text (lit "Error in worker function:"); Caught e] with
  | Returned _ => Thrown e
  | Thrown e' => Thrown e'
  end.

(** The names of the properties of the object literal [finalResponse]. *)
Definition finalNames : list string :=
  [ "messageId"; "conversationId"; "response"; "confidenceScore"; "selectedModel";
    "allModelScores"; "ragSources"; "timestamp" ]%string.

(** The error that takes a chat ingest request to the [catch]: the
    rejection of [request.json()], the [TypeError] of reading [message] of
    [null] or [undefined], or the one of a conversation identifier that has
    no string form. *)
Definition failure (h : ChatIngest.host) (request_json : outcome value) (e : exn) : Prop :=
  request_json = Thrown e
  \/ (request_json = Returned VNull /\ e = TypeError_read true "message")
  \/ (request_json = Returned VUndefined /\ e = TypeError_read false "message")
  \/ (exists body message,
        request_json = Returned body /\ get body "message" = Returned message
        /\ truthy message = true
        /\ ToString (ChatIngest.number_to_string h)
             (or_else (prop body "conversationId") (VStr [])) = Thrown e).

End Paths.

(** * Facts *)

(** ** Binary64 arithmetic

    The Standard Library specifies the primitive operations bit by bit
    ([SpecFloat]); the facts below are what the scoring and the selection
    need of them: a rounding never turns a mantissa that is not negative
    into [NaN], the difference of two distinct numbers is never rounded to
    zero, and comparisons are those of the images by [ord]. *)

Module Binary64Facts.
Import Binary64.
Open Scope Z_scope.

Lemma digits2_pos_bounds (p : positive) :
  2 ^ (Zpos (digits2_pos p) - 1) <= Zpos p < 2 ^ Zpos (digits2_pos p).
Proof.
  induction p as [p IH | p IH | ]; simpl digits2_pos.
  - rewrite Pos2Z.inj_succ.
    replace (Z.succ (Zpos (digits2_pos p)) - 1) with (Z.succ (Zpos (digits2_pos p) - 1)) by lia.
    rewrite !Z.pow_succ_r by lia. lia.
  - rewrite Pos2Z.inj_succ.
    replace (Z.succ (Zpos (digits2_pos p)) - 1) with (Z.succ (Zpos (digits2_pos p) - 1)) by lia.
    rewrite !Z.pow_succ_r by lia. lia.
  - cbn. lia.
Qed.

Lemma shr_1_m (mrs : shr_record) :
  0 <= shr_m mrs -> shr_m (shr_1 mrs) = shr_m mrs / 2.
Proof.
  destruct mrs as [m r s]; simpl. intros Hm.
  destruct m as [ | [p | p | ] | p ]; cbn [shr_m]; try lia; try reflexivity.
  - apply Z.div_unique with 1; lia.
  - apply Z.div_unique with 0; lia.
Qed.

Lemma iter_shr_1_m (n : positive) : forall mrs,
  0 <= shr_m mrs -> shr_m (SpecFloat.iter_pos shr_1 n mrs) = shr_m mrs / 2 ^ Zpos n.
Proof.
  induction n as [n IH | n IH | ]; intros mrs Hm; cbn [SpecFloat.iter_pos].
  - assert (H1 : 0 <= shr_m (shr_1 mrs)) by (rewrite shr_1_m by assumption; apply Z.div_pos; lia).
    assert (H2 : 0 <= shr_m (SpecFloat.iter_pos shr_1 n (shr_1 mrs)))
      by (rewrite IH by assumption; apply Z.div_pos; lia).
    rewrite IH, IH, shr_1_m by assumption.
    rewrite !Z.div_div by lia.
    f_equal. replace (Zpos n~1) with (1 + Zpos n + Zpos n) by lia.
    rewrite !Z.pow_add_r by lia. change (2 ^ 1) with 2. lia.
  - assert (H2 : 0 <= shr_m (SpecFloat.iter_pos shr_1 n mrs))
      by (rewrite IH by assumption; apply Z.div_pos; lia).
    rewrite IH, IH by assumption.
    rewrite !Z.div_div by lia.
    f_equal. replace (Zpos n~0) with (Zpos n + Zpos n) by lia.
    rewrite !Z.pow_add_r by lia. reflexivity.
  - rewrite shr_1_m by assumption. reflexivity.
Qed.

Lemma shr_record_of_loc_m (m : Z) (l : location) : shr_m (shr_record_of_loc m l) = m.
Proof. destruct l as [ | [ | | ]]; reflexivity. Qed.

Lemma shr_m_nonneg (mrs : shr_record) (e n : Z) :
  0 <= shr_m mrs -> 0 <= shr_m (fst (shr mrs e n)).
Proof.
  intros Hm. destruct n as [ | n | n]; cbn [shr fst]; try assumption.
  rewrite iter_shr_1_m by assumption. apply Z.div_pos; lia.
Qed.

Lemma round_nearest_even_ge (m : Z) (l : location) : m <= round_nearest_even m l.
Proof.
  destruct l as [ | [ | | ]]; cbn [round_nearest_even]; try lia.
  destruct (Z.even m); lia.
Qed.

Lemma binary_round_aux_sign (s : bool) (m e : Z) (l : location) :
  0 <= m -> sf_has_sign s (binary_round_aux prec emax s m e l).
Proof.
  intros Hm. unfold binary_round_aux, shr_fexp.
  destruct (shr (shr_record_of_loc m l) e _) as [mrs' e'] eqn:E1.
  assert (H1 : 0 <= shr_m mrs').
  { change mrs' with (fst (mrs', e')). rewrite <- E1. apply shr_m_nonneg.
    rewrite shr_record_of_loc_m. assumption. }
  set (m2 := round_nearest_even (shr_m mrs') (loc_of_shr_record mrs')).
  assert (H2 : 0 <= m2) by (pose proof (round_nearest_even_ge (shr_m mrs') (loc_of_shr_record mrs')); lia).
  destruct (shr (shr_record_of_loc m2 loc_Exact) e' _) as [mrs'' e''] eqn:E2.
  assert (H3 : 0 <= shr_m mrs'').
  { change mrs'' with (fst (mrs'', e'')). rewrite <- E2. apply shr_m_nonneg. assumption. }
  destruct (shr_m mrs'') as [ | p | p]; try lia; [reflexivity | ].
  destruct (e'' <=? emax - prec); reflexivity.
Qed.

Lemma shr_fexp_pos (m e : Z) (l : location) :
  0 < m -> emin <= e ->
  0 < shr_m (fst (shr_fexp prec emax m e l)) /\ emin <= snd (shr_fexp prec emax m e l).
Proof.
  intros Hm He. unfold shr_fexp.
  destruct m as [ | p | p]; try lia. cbn [Zdigits2].
  pose proof (digits2_pos_bounds p) as [Hd _].
  set (d := Zpos (digits2_pos p)) in *.
  unfold fexp. change (SpecFloat.emin prec emax) with (-1074). change emin with (-1074) in *. change prec with 53.
  destruct (Z.max (d + e - 53) (-1074) - e) as [ | n | n] eqn:En; cbn [shr fst snd].
  - rewrite shr_record_of_loc_m. lia.
  - rewrite iter_shr_1_m by (rewrite shr_record_of_loc_m; lia).
    rewrite shr_record_of_loc_m. split; [ | lia].
    apply Z.div_str_pos. split; [apply Z.pow_pos_nonneg; lia | ].
    apply Z.le_trans with (2 ^ (d - 1)); [ | assumption].
    apply Z.pow_le_mono_r; lia.
  - rewrite shr_record_of_loc_m. lia.
Qed.

Lemma binary_round_aux_pos (s : bool) (m e : Z) (l : location) :
  0 < m -> emin <= e ->
  sf_nonzero_signed s (binary_round_aux prec emax s m e l).
Proof.
  intros Hm He. unfold binary_round_aux.
  destruct (shr_fexp_pos m e l Hm He) as [H1 H1e].
  destruct (shr_fexp prec emax m e l) as [mrs' e']. cbn [fst snd] in H1, H1e.
  set (m2 := round_nearest_even (shr_m mrs') (loc_of_shr_record mrs')).
  assert (H2 : 0 < m2) by (pose proof (round_nearest_even_ge (shr_m mrs') (loc_of_shr_record mrs')); lia).
  destruct (shr_fexp_pos m2 e' loc_Exact H2 H1e) as [H3 _].
  destruct (shr_fexp prec emax m2 e' loc_Exact) as [mrs'' e'']. cbn [fst] in H3.
  destruct (shr_m mrs'') as [ | p | p]; try lia.
  destruct (e'' <=? emax - prec); reflexivity.
Qed.

Lemma iter_xO_mul (d m : positive) : Zpos (Pos.iter xO m d) = Zpos m * 2 ^ Zpos d.
Proof.
  revert m. induction d as [ | d IH] using Pos.peano_ind; intros m.
  - cbn [Pos.iter]. lia.
  - rewrite Pos.iter_succ, Pos2Z.inj_xO, IH, Pos2Z.inj_succ, Z.pow_succ_r by lia. lia.
Qed.

Lemma shl_align_le (m : positive) (e e' : Z) :
  e' <= e ->
  snd (shl_align m e e') = e' /\ Zpos (fst (shl_align m e e')) = Zpos m * 2 ^ (e - e').
Proof.
  intros H. unfold shl_align.
  destruct (e' - e) as [ | d | d] eqn:Ed; cbn [fst snd]; try lia.
  - replace (e - e') with 0 by lia. split; lia.
  - rewrite iter_xO_mul. replace (e - e') with (Zpos d) by lia. split; lia.
Qed.

Lemma shl_align_snd_ge (m : positive) (e e' : Z) :
  emin <= e -> emin <= e' -> emin <= snd (shl_align m e e').
Proof.
  intros H1 H2. unfold shl_align. destruct (e' - e); cbn [snd]; assumption.
Qed.

Lemma binary_round_pos (s : bool) (p : positive) (e : Z) :
  emin <= e -> sf_nonzero_signed s (binary_round prec emax s p e).
Proof.
  intros He. unfold binary_round.
  pose proof (shl_align_snd_ge p e (fexp prec emax (Zpos (digits2_pos p) + e)) He) as H.
  destruct (shl_align p e _) as [mz ez]. cbn [snd] in H.
  apply binary_round_aux_pos; [lia | ].
  apply H. unfold fexp. change (SpecFloat.emin prec emax) with emin. lia.
Qed.

Lemma bounded_inv (m : positive) (e : Z) :
  bounded prec emax m e = true ->
  emin <= e /\ Zpos (digits2_pos m) <= 53 /\ (emin < e -> Zpos (digits2_pos m) = 53).
Proof.
  unfold bounded, canonical_mantissa, fexp.
  change (SpecFloat.emin prec emax) with (-1074). change emin with (-1074). change prec with 53.
  intros H. apply andb_prop in H. destruct H as [H _]. apply Z.eqb_eq in H. lia.
Qed.

(** On canonical mantissas, the comparison of [SFcompare] is the comparison of the
    two mantissas aligned on the smaller exponent. *)
Lemma aligned_compare (mx my : positive) (ex ey : Z) :
  bounded prec emax mx ex = true -> bounded prec emax my ey = true ->
  (Zpos (fst (shl_align mx ex (Z.min ex ey))) ?= Zpos (fst (shl_align my ey (Z.min ex ey))))
  = match ex ?= ey with Lt => Lt | Gt => Gt | Eq => Pos.compare_cont Eq mx my end.
Proof.
  intros Bx By.
  destruct (bounded_inv _ _ Bx) as (Hex & Hdx & Hnx).
  destruct (bounded_inv _ _ By) as (Hey & Hdy & Hny).
  pose proof (digits2_pos_bounds mx) as [Lx Ux].
  pose proof (digits2_pos_bounds my) as [Ly Uy].
  destruct (shl_align_le mx ex (Z.min ex ey) ltac:(lia)) as [_ ->].
  destruct (shl_align_le my ey (Z.min ex ey) ltac:(lia)) as [_ ->].
  assert (P53 : forall d, d <= 53 -> 2 ^ d <= 2 ^ 53) by (intros; apply Z.pow_le_mono_r; lia).
  destruct (Z.compare_spec ex ey) as [E | E | E].
  - subst ey. rewrite Z.min_id, Z.sub_diag. change (2 ^ 0) with 1.
    rewrite !Z.mul_1_r. reflexivity.
  - rewrite Z.min_l, Z.sub_diag by lia. change (2 ^ 0) with 1. rewrite Z.mul_1_r.
    apply Z.compare_lt_iff.
    rewrite Hny in Ly by lia. change (2 ^ (53 - 1)) with (2 ^ 52) in Ly.
    specialize (P53 _ Hdx).
    assert (2 ^ 1 <= 2 ^ (ey - ex)) by (apply Z.pow_le_mono_r; lia).
    change (2 ^ 1) with 2 in *.
    assert (2 ^ 53 = 2 ^ 52 * 2) by reflexivity.
    nia.
  - rewrite Z.min_r, Z.sub_diag by lia. change (2 ^ 0) with 1. rewrite Z.mul_1_r.
    apply Z.compare_gt_iff.
    rewrite Hnx in Lx by lia. change (2 ^ (53 - 1)) with (2 ^ 52) in Lx.
    specialize (P53 _ Hdy).
    assert (2 ^ 1 <= 2 ^ (ex - ey)) by (apply Z.pow_le_mono_r; lia).
    change (2 ^ 1) with 2 in *.
    assert (2 ^ 53 = 2 ^ 52 * 2) by reflexivity.
    nia.
Qed.

Lemma SFcompare_finite (sx sy : bool) (mx my : positive) (ex ey : Z) :
  bounded prec emax mx ex = true -> bounded prec emax my ey = true ->
  SFcompare (S754_finite sx mx ex) (S754_finite sy my ey)
  = Some (cond_Zopp sx (Zpos (fst (shl_align mx ex (Z.min ex ey))))
          ?= cond_Zopp sy (Zpos (fst (shl_align my ey (Z.min ex ey))))).
Proof.
  intros Bx By. pose proof (aligned_compare mx my ex ey Bx By) as A.
  destruct sx, sy; cbn [SFcompare cond_Zopp]; f_equal;
    try reflexivity; try (rewrite A; reflexivity).
  rewrite Z.compare_opp.
  rewrite (Z.compare_antisym (Zpos (fst (shl_align mx ex (Z.min ex ey))))), A.
  destruct (ex ?= ey); reflexivity.
Qed.

Lemma sf_nonzero_signed_ltb (s : bool) (r : spec_float) :
  sf_nonzero_signed s r ->
  SFltb (S754_zero false) r = negb s /\ SFltb r (S754_zero false) = s.
Proof.
  destruct r as [ | s' | | s' m e]; cbn [sf_nonzero_signed]; try contradiction;
    intros ->; destruct s; split; reflexivity.
Qed.

(** The sign of a difference of two binary64 numbers is the order of the two
    numbers: a difference is never rounded to zero. *)
Lemma SF64sub_sign (x y : spec_float) :
  valid_binary x = true -> valid_binary y = true ->
  SFltb (S754_zero false) (SF64sub x y) = SFltb y x
  /\ SFltb (SF64sub x y) (S754_zero false) = SFltb x y.
Proof.
  intros Vx Vy.
  destruct x as [sx | sx | | sx mx ex], y as [sy | sy | | sy my ey];
    try (destruct sx; try destruct sy; split; reflexivity);
    try (destruct sy; split; reflexivity);
    try (split; reflexivity).
  cbn [valid_binary] in Vx, Vy.
  unfold SFltb. rewrite (SFcompare_finite sx sy mx my ex ey Vx Vy).
  rewrite (SFcompare_finite sy sx my mx ey ex Vy Vx). rewrite (Z.min_comm ey ex).
  unfold SF64sub, SFsub.
  set (X := cond_Zopp sx _). set (Y := cond_Zopp sy _).
  destruct (bounded_inv _ _ Vx) as (Hex & _). destruct (bounded_inv _ _ Vy) as (Hey & _).
  assert (Hez : emin <= Z.min ex ey) by lia.
  rewrite (Z.compare_antisym X Y).
  destruct (Z.compare_spec X Y) as [E | E | E]; cbn [CompOpp].
  - replace (X - Y) with 0 by lia. split; reflexivity.
  - destruct (X - Y) as [ | p | p] eqn:ED; try lia. cbn [binary_normalize].
    apply (sf_nonzero_signed_ltb true). apply binary_round_pos. assumption.
  - destruct (X - Y) as [ | p | p] eqn:ED; try lia. cbn [binary_normalize].
    apply (sf_nonzero_signed_ltb false). apply binary_round_pos. assumption.
Qed.


Lemma finite_ord_bounds (m : positive) (e : Z) :
  bounded prec emax m e = true ->
  0 < Zpos m * 2 ^ (e + 1074) < huge.
Proof.
  intros B. destruct (bounded_inv _ _ B) as (He & Hd & _).
  assert (He' : e <= 971).
  { unfold bounded in B. apply andb_prop in B. destruct B as [_ B].
    apply Z.leb_le in B. exact B. }
  change emin with (-1074) in He.
  pose proof (digits2_pos_bounds m) as [_ U].
  assert (P : 0 < 2 ^ (e + 1074)) by (apply Z.pow_pos_nonneg; lia).
  split; [lia | ].
  assert (U53 : Zpos m < 2 ^ 53).
  { apply Z.lt_le_trans with (1 := U). apply Z.pow_le_mono_r; lia. }
  assert (Q : 2 ^ (e + 1074) <= 2 ^ 2045) by (apply Z.pow_le_mono_r; lia).
  apply Z.lt_le_trans with (2 ^ 53 * 2 ^ 2045).
  - apply Z.lt_le_trans with (2 ^ 53 * 2 ^ (e + 1074)).
    + apply Z.mul_lt_mono_pos_r; assumption.
    + apply Z.mul_le_mono_nonneg_l; [ apply Z.pow_nonneg; lia | assumption ].
  - rewrite <- Z.pow_add_r by lia. unfold huge. apply Z.pow_le_mono_r; lia.
Qed.

Lemma finite_ord_aligned (s : bool) (m : positive) (e ez : Z) :
  emin <= ez -> ez <= e ->
  cond_Zopp s (Zpos m * 2 ^ (e + 1074))
  = cond_Zopp s (Zpos (fst (shl_align m e ez))) * 2 ^ (ez + 1074).
Proof.
  intros H1 H2. change emin with (-1074) in H1.
  destruct (shl_align_le m e ez H2) as [_ ->].
  replace (e + 1074) with ((e - ez) + (ez + 1074)) by lia.
  rewrite Z.pow_add_r by lia.
  destruct s; cbn [cond_Zopp]; lia.
Qed.

(** [SFcompare] is the comparison of the images. *)
Lemma SFcompare_ord (x y : spec_float) :
  valid_binary x = true -> valid_binary y = true ->
  sf_is_nan x = false -> sf_is_nan y = false ->
  SFcompare x y = Some (ord x ?= ord y).
Proof.
  intros Vx Vy Nx Ny.
  assert (Hh : 0 < huge) by (apply Z.pow_pos_nonneg; lia).
  destruct x as [sx | sx | | sx mx ex], y as [sy | sy | | sy my ey];
    try discriminate; cbn [valid_binary] in Vx, Vy; cbn [ord SFcompare].
  - reflexivity.
  - f_equal. destruct sy; cbn [cond_Zopp]; symmetry;
      [apply Z.compare_gt_iff | apply Z.compare_lt_iff]; lia.
  - pose proof (finite_ord_bounds _ _ Vy). f_equal.
    destruct sy; cbn [cond_Zopp]; symmetry;
      [apply Z.compare_gt_iff | apply Z.compare_lt_iff]; lia.
  - f_equal. destruct sx; cbn [cond_Zopp]; symmetry;
      [apply Z.compare_lt_iff | apply Z.compare_gt_iff]; lia.
  - f_equal. destruct sx, sy; cbn [cond_Zopp]; symmetry;
      first [apply Z.compare_eq_iff | apply Z.compare_lt_iff | apply Z.compare_gt_iff]; lia.
  - pose proof (finite_ord_bounds _ _ Vy). f_equal.
    destruct sx, sy; cbn [cond_Zopp]; symmetry;
      first [apply Z.compare_lt_iff; lia | apply Z.compare_gt_iff; lia].
  - pose proof (finite_ord_bounds _ _ Vx). f_equal.
    destruct sx; cbn [cond_Zopp]; symmetry;
      [apply Z.compare_lt_iff | apply Z.compare_gt_iff]; lia.
  - pose proof (finite_ord_bounds _ _ Vx). f_equal.
    destruct sx, sy; cbn [cond_Zopp]; symmetry;
      first [apply Z.compare_lt_iff; lia | apply Z.compare_gt_iff; lia].
  - change (SFcompare (S754_finite sx mx ex) (S754_finite sy my ey)
            = Some (cond_Zopp sx (Zpos mx * 2 ^ (ex + 1074))
                    ?= cond_Zopp sy (Zpos my * 2 ^ (ey + 1074)))).
    rewrite (SFcompare_finite sx sy mx my ex ey Vx Vy). f_equal.
    destruct (bounded_inv _ _ Vx) as (Hex & _). destruct (bounded_inv _ _ Vy) as (Hey & _).
    rewrite (finite_ord_aligned sx mx ex (Z.min ex ey)) by lia.
    rewrite (finite_ord_aligned sy my ey (Z.min ex ey)) by lia.
    apply Zmult_compare_compat_r. apply Z.lt_gt. apply Z.pow_pos_nonneg; [lia | ].
    change emin with (-1074) in *. lia.
Qed.

Open Scope float_scope.

Lemma is_nan_Prim2SF (x : float) : is_nan x = sf_is_nan (Prim2SF x).
Proof.
  unfold is_nan. rewrite FloatAxioms.eqb_spec. unfold SFeqb.
  destruct (sf_is_nan (Prim2SF x)) eqn:N.
  - destruct (Prim2SF x); try discriminate. reflexivity.
  - rewrite SFcompare_ord by (try apply Prim2SF_valid; assumption).
    rewrite Z.compare_refl. reflexivity.
Qed.

Section Order.
Variables a b : float.
Hypothesis Ha : is_nan a = false.
Hypothesis Hb : is_nan b = false.

Lemma compare_ord : SFcompare (Prim2SF a) (Prim2SF b) = Some (ford a ?= ford b)%Z.
Proof.
  apply SFcompare_ord; try apply Prim2SF_valid; rewrite <- is_nan_Prim2SF; assumption.
Qed.

Lemma ltb_ord : (a <? b) = (ford a <? ford b)%Z.
Proof.
  rewrite FloatAxioms.ltb_spec. unfold SFltb. rewrite compare_ord, Z.ltb_compare.
  destruct (ford a ?= ford b)%Z; reflexivity.
Qed.

Lemma leb_ord : (a <=? b) = (ford a <=? ford b)%Z.
Proof.
  rewrite FloatAxioms.leb_spec. unfold SFleb. rewrite compare_ord, Z.leb_compare.
  destruct (ford a ?= ford b)%Z; reflexivity.
Qed.

Lemma eqb_ord : (a =? b) = (ford a =? ford b)%Z.
Proof.
  rewrite FloatAxioms.eqb_spec. unfold SFeqb. rewrite compare_ord, Z.eqb_compare.
  destruct (ford a ?= ford b)%Z; reflexivity.
Qed.
End Order.

Lemma sub_ltb_zero (a b : float) :
  (0 <? b - a) = (a <? b) /\ (b - a <? 0) = (b <? a).
Proof.
  rewrite !FloatAxioms.ltb_spec, sub_spec.
  apply (SF64sub_sign (Prim2SF b) (Prim2SF a)); apply Prim2SF_valid.
Qed.

(** *** Signs of sums and products *)

Lemma sf_has_sign_not_nan (s : bool) (x : spec_float) :
  sf_has_sign s x -> sf_is_nan x = false.
Proof. destruct x; cbn; intros H; [reflexivity | reflexivity | contradiction | reflexivity]. Qed.

Lemma sf_has_sign_nonneg (x : spec_float) : sf_has_sign false x -> sf_nonneg x = true.
Proof. destruct x; cbn; intros H; try contradiction; subst; reflexivity. Qed.

Lemma binary_normalize_sign (m e : Z) :
  sf_has_sign (m <? 0)%Z (binary_normalize prec emax m e false).
Proof.
  destruct m as [ | p | p]; cbn [binary_normalize Z.ltb Z.compare]; [reflexivity | | ];
    unfold binary_round; destruct (shl_align p e _) as [mz ez];
    apply binary_round_aux_sign; lia.
Qed.

Lemma SFmul_not_nan (x y : spec_float) :
  sf_is_nan x = false -> sf_is_nan y = false ->
  sf_finite x || sf_finite y = true ->
  sf_is_nan (SF64mul x y) = false.
Proof.
  destruct x as [sx | sx | | sx mx ex], y as [sy | sy | | sy my ey];
    try discriminate; try reflexivity.
  intros _ _ _. apply (sf_has_sign_not_nan (xorb sx sy)).
  apply binary_round_aux_sign. lia.
Qed.

Lemma SFadd_not_nan (x y : spec_float) :
  sf_is_nan x = false -> sf_is_nan y = false ->
  sf_finite x || sf_finite y = true ->
  sf_is_nan (SF64add x y) = false.
Proof.
  destruct x as [sx | sx | | sx mx ex], y as [sy | sy | | sy my ey];
    try discriminate; try reflexivity.
  intros _ _ _. unfold SF64add, SFadd.
  eapply sf_has_sign_not_nan. apply binary_normalize_sign.
Qed.

Lemma SFmul_nonneg (x y : spec_float) :
  sf_nonneg x = true -> sf_nonneg y = true ->
  sf_finite x || sf_finite y = true ->
  sf_nonneg (SF64mul x y) = true.
Proof.
  destruct x as [sx | sx | | sx mx ex], y as [sy | sy | | sy my ey];
    try discriminate; try (destruct sx; try discriminate);
    try (destruct sy; try discriminate); try reflexivity.
  intros _ _ _. apply sf_has_sign_nonneg.
  apply (binary_round_aux_sign false). lia.
Qed.

Lemma SFadd_nonneg (x y : spec_float) :
  sf_nonneg x = true -> sf_nonneg y = true ->
  sf_nonneg (SF64add x y) = true.
Proof.
  destruct x as [sx | sx | | sx mx ex], y as [sy | sy | | sy my ey];
    try discriminate; try (destruct sx; try discriminate);
    try (destruct sy; try discriminate); try reflexivity.
  intros _ _. apply sf_has_sign_nonneg. unfold SF64add, SFadd. cbn [cond_Zopp].
  apply (binary_normalize_sign (Zpos _ + Zpos _)).
Qed.

(** *** The same on the primitive numbers *)

Lemma nonneg_Prim2SF (x : float) : (0 <=? x) = sf_nonneg (Prim2SF x).
Proof. rewrite FloatAxioms.leb_spec. reflexivity. Qed.

Lemma nonneg_not_nan (x : float) : (0 <=? x) = true -> is_nan x = false.
Proof.
  rewrite nonneg_Prim2SF, is_nan_Prim2SF. destruct (Prim2SF x); try reflexivity.
  discriminate.
Qed.

Lemma mul_not_nan (x y : float) :
  is_nan x = false -> is_nan y = false -> finite_nz x || finite_nz y = true ->
  is_nan (x * y) = false.
Proof.
  rewrite !is_nan_Prim2SF, mul_spec. apply SFmul_not_nan.
Qed.

Lemma add_not_nan (x y : float) :
  is_nan x = false -> is_nan y = false -> finite_nz x || finite_nz y = true ->
  is_nan (x + y) = false.
Proof.
  rewrite !is_nan_Prim2SF, add_spec. apply SFadd_not_nan.
Qed.

Lemma mul_nonneg (x y : float) :
  (0 <=? x) = true -> (0 <=? y) = true -> finite_nz x || finite_nz y = true ->
  (0 <=? x * y) = true.
Proof.
  rewrite !nonneg_Prim2SF, mul_spec. apply SFmul_nonneg.
Qed.

Lemma add_nonneg (x y : float) :
  (0 <=? x) = true -> (0 <=? y) = true -> (0 <=? x + y) = true.
Proof.
  rewrite !nonneg_Prim2SF, add_spec. apply SFadd_nonneg.
Qed.

Lemma Math_min_not_nan (x y : float) :
  is_nan x = false -> is_nan y = false -> is_nan (JS.Math_min x y) = false.
Proof.
  intros Hx Hy. unfold JS.Math_min. rewrite Hx, Hy. cbn [orb].
  destruct (x <? y); [assumption | ].
  destruct (y <? x); [assumption | ].
  destruct (is_zero x && get_sign x); assumption.
Qed.


End Binary64Facts.

(** ** The confidence scorer *)

Module ScorerFacts.
Import JS Binary64 Binary64Facts ChatWorker.
Open Scope float_scope.

(** The constants of the scorer are finite and not zero. *)
Lemma scorer_constants_finite :
  finite_nz 0.7 = true /\ finite_nz 0.3 = true /\ finite_nz 1.0 = true
  /\ finite_nz 0.8 = true /\ finite_nz 0.6 = true /\ finite_nz 0.9 = true.
Proof. repeat split; reflexivity. Qed.


Lemma adjusted_not_nan (ragScore c1 c2 : float) :
  is_nan ragScore = false ->
  finite_nz c1 = true -> finite_nz c2 = true ->
  is_nan (0.7 * (0.7 + 0.3 * ragScore) * c1 * c2) = false.
Proof.
  intros Hr F1 F2.
  assert (N : forall c, finite_nz c = true -> is_nan c = false).
  { intros c. unfold finite_nz. rewrite is_nan_Prim2SF. destruct (Prim2SF c); easy. }
  apply mul_not_nan; [ | apply N; assumption | rewrite F2; apply orb_true_r].
  apply mul_not_nan; [ | apply N; assumption | rewrite F1; apply orb_true_r].
  apply mul_not_nan; [reflexivity | | reflexivity].
  apply add_not_nan; [reflexivity | | reflexivity].
  apply mul_not_nan; [reflexivity | assumption | reflexivity].
Qed.

Lemma score_unfold (response : jsstring) (ragScore : float) (finishReason : value) :
  calculateConfidenceScore response ragScore finishReason
  = Math_min (0.7 * (0.7 + 0.3 * ragScore)
              * ScorerSpec.completion_factor finishReason
              * ScorerSpec.length_factor (List.length (split_spaces response))) 1.0.
Proof.
  unfold calculateConfidenceScore, ScorerSpec.completion_factor, ScorerSpec.length_factor.
  destruct (strict_eq_str finishReason (lit "stop"));
    [ | destruct (strict_eq_str finishReason (lit "length")) ];
    (destruct ((20 <=? _)%nat && (_ <=? 200)%nat);
     [ | destruct (_ <? 20)%nat ]); reflexivity.
Qed.

Lemma factors_finite (finishReason : value) (wordCount : nat) :
  ((0 <=? ScorerSpec.completion_factor finishReason) = true
   /\ finite_nz (ScorerSpec.completion_factor finishReason) = true)
  /\ ((0 <=? ScorerSpec.length_factor wordCount) = true
      /\ finite_nz (ScorerSpec.length_factor wordCount) = true).
Proof.
  unfold ScorerSpec.completion_factor, ScorerSpec.length_factor.
  split.
  - destruct (strict_eq_str finishReason (lit "stop"));
      [ | destruct (strict_eq_str finishReason (lit "length")) ]; split; reflexivity.
  - destruct ((20 <=? _)%nat && (_ <=? 200)%nat);
      [ | destruct (_ <? 20)%nat ]; split; reflexivity.
Qed.

(** The scorer never returns [NaN] for a relevance that is a number. *)
Lemma score_not_nan (response : jsstring) (ragScore : float) (finishReason : value) :
  is_nan ragScore = false ->
  is_nan (calculateConfidenceScore response ragScore finishReason) = false.
Proof.
  intros Hr. rewrite score_unfold.
  destruct (factors_finite finishReason (List.length (split_spaces response)))
    as [[_ F1] [_ F2]].
  apply Math_min_not_nan; [ | reflexivity].
  apply adjusted_not_nan; assumption.
Qed.



End ScorerFacts.

(** ** The response selector *)

Module SelectorFacts.
Import JS Binary64 Binary64Facts ChatWorker.
Open Scope float_scope.

(** The comparison function is positive when its first argument has the
    smaller confidence. *)
Lemma by_confidence_positive (a b : ModelResponse) :
  (0 <? by_confidence a b) = (confidence a <? confidence b).
Proof. apply sub_ltb_zero. Qed.

Lemma insert_sorted_head {A : Type} (comparefn : A -> A -> float) (a : A) (l : list A) :
  hd_error (insert_sorted comparefn a l)
  = match hd_error l with
    | None => Some a
    | Some b => if 0 <? comparefn a b then Some b else Some a
    end.
Proof.
  destruct l as [ | b rest]; cbn [insert_sorted hd_error]; [reflexivity | ].
  destruct (0 <? comparefn a b); reflexivity.
Qed.

(** The selector reads its input from the right: an element replaces the best
    of the elements after it unless its confidence is smaller. *)
Lemma selectBestResponse_cons (r : ModelResponse) (rs : list ModelResponse) :
  selectBestResponse (r :: rs)
  = match selectBestResponse rs with
    | None => Some r
    | Some b => if confidence r <? confidence b then Some b else Some r
    end.
Proof.
  unfold selectBestResponse. cbn [sort]. rewrite insert_sorted_head.
  destruct (hd_error _) as [b | ]; [ | reflexivity].
  rewrite by_confidence_positive. reflexivity.
Qed.

Lemma ltb_leb (x y : float) :
  is_nan x = false -> is_nan y = false -> (x <? y) = true -> (x <=? y) = true.
Proof.
  intros Nx Ny. rewrite ltb_ord, leb_ord by assumption.
  intros H. apply Z.ltb_lt in H. apply Z.leb_le. lia.
Qed.

Lemma not_ltb_leb (x y : float) :
  is_nan x = false -> is_nan y = false -> (x <? y) = false -> (y <=? x) = true.
Proof.
  intros Nx Ny. rewrite ltb_ord, leb_ord by assumption.
  intros H. apply Z.ltb_ge in H. apply Z.leb_le. lia.
Qed.

Lemma leb_trans (x y z : float) :
  is_nan x = false -> is_nan y = false -> is_nan z = false ->
  (x <=? y) = true -> (y <=? z) = true -> (x <=? z) = true.
Proof.
  intros Nx Ny Nz. rewrite !leb_ord by assumption.
  intros H1 H2. apply Z.leb_le in H1, H2. apply Z.leb_le. lia.
Qed.

(** *** The sorted array

    For confidences that are numbers the comparison function is consistent,
    and [sort] returns what a stable sort has to return: the elements of the
    input, in descending order of confidence, those of one confidence in their
    input order. *)

Lemma insert_sorted_permutation (a : ModelResponse) (l : list ModelResponse) :
  Permutation (a :: l) (insert_sorted by_confidence a l).
Proof.
  induction l as [ | b l IH]; cbn [insert_sorted]; [reflexivity | ].
  destruct (0 <? by_confidence a b); [ | reflexivity].
  rewrite perm_swap. apply perm_skip. exact IH.
Qed.

(** The sorted array holds the elements of the input. *)
Lemma sort_permutation (l : list ModelResponse) : Permutation l (sort by_confidence l).
Proof.
  induction l as [ | a l IH]; cbn [sort]; [reflexivity | ].
  rewrite <- insert_sorted_permutation. apply perm_skip. exact IH.
Qed.

Lemma insert_sorted_descending (a : ModelResponse) (l : list ModelResponse) :
  is_nan (confidence a) = false ->
  Forall (fun r => is_nan (confidence r) = false) l ->
  StronglySorted descending l ->
  StronglySorted descending (insert_sorted by_confidence a l).
Proof.
  intros Na Nl S. induction S as [ | b l S IH Hb]; cbn [insert_sorted].
  - constructor; constructor.
  - inversion Nl as [ | ? ? Nb Nl']; subst.
    rewrite by_confidence_positive.
    destruct (confidence a <? confidence b) eqn:L.
    + constructor; [apply IH; assumption | ].
      apply (Permutation_Forall (insert_sorted_permutation a l)).
      constructor; [ | assumption].
      apply ltb_leb; assumption.
    + assert (Hab : descending a b) by (apply not_ltb_leb; assumption).
      constructor; [constructor; assumption | ].
      constructor; [assumption | ].
      rewrite Forall_forall in *. intros r Hr.
      apply (leb_trans _ (confidence b)); try assumption; [apply Nl' | apply Hb]; assumption.
Qed.

(** It is in descending order of confidence. *)
Lemma sort_descending (l : list ModelResponse) :
  Forall (fun r => is_nan (confidence r) = false) l ->
  StronglySorted descending (sort by_confidence l).
Proof.
  induction 1 as [ | a l Na Nl IH]; cbn [sort]; [constructor | ].
  apply insert_sorted_descending; try assumption.
  apply (Permutation_Forall (sort_permutation l)). assumption.
Qed.

Lemma insert_sorted_filter (c : float) (a : ModelResponse) (l : list ModelResponse) :
  is_nan c = false ->
  is_nan (confidence a) = false ->
  Forall (fun r => is_nan (confidence r) = false) l ->
  filter (fun r => confidence r =? c) (insert_sorted by_confidence a l)
  = filter (fun r => confidence r =? c) (a :: l).
Proof.
  intros Nc Na Nl. induction Nl as [ | b l Nb Nl IH]; cbn [insert_sorted]; [reflexivity | ].
  rewrite by_confidence_positive.
  destruct (confidence a <? confidence b) eqn:L; [ | reflexivity].
  cbn [filter] in *. rewrite IH.
  destruct (confidence a =? c) eqn:Ea; [ | reflexivity].
  replace (confidence b =? c) with false; [reflexivity | ].
  symmetry. rewrite eqb_ord in * by assumption. rewrite ltb_ord in L by assumption.
  apply Z.eqb_eq in Ea. apply Z.ltb_lt in L. apply Z.eqb_neq. lia.
Qed.

(** It keeps the input order of the elements of one confidence. *)
Lemma sort_stable (c : float) (l : list ModelResponse) :
  is_nan c = false ->
  Forall (fun r => is_nan (confidence r) = false) l ->
  filter (fun r => confidence r =? c) (sort by_confidence l)
  = filter (fun r => confidence r =? c) l.
Proof.
  intros Nc. induction 1 as [ | a l Na Nl IH]; cbn [sort]; [reflexivity | ].
  rewrite insert_sorted_filter; try assumption.
  - cbn [filter]. rewrite IH. reflexivity.
  - apply (Permutation_Forall (sort_permutation l)). assumption.
Qed.

(** *** The first element of the sorted array *)

Lemma first_maximum (rs : list ModelResponse) :
  rs <> [] ->
  (forall r, In r rs -> is_nan (confidence r) = false) ->
  exists before best after,
    rs = before ++ best :: after
    /\ selectBestResponse rs = Some best
    /\ (forall r, In r before -> (confidence r <? confidence best) = true)
    /\ (forall r, In r after -> (confidence r <=? confidence best) = true).
Proof.
  induction rs as [ | x rs IH]; intros Hne Hnan; [contradiction | ].
  rewrite selectBestResponse_cons.
  assert (Nx : is_nan (confidence x) = false) by (apply Hnan; left; reflexivity).
  destruct rs as [ | y rs'].
  - exists [], x, []. cbn. repeat split; intros r [].
  - destruct IH as (before & best & after & E & S & Hb & Ha);
      [discriminate | intros r Hr; apply Hnan; right; assumption | ].
    rewrite S.
    assert (Hin : forall r, In r (y :: rs') -> In r (x :: y :: rs')) by (intros; right; assumption).
    assert (Nb : is_nan (confidence best) = false).
    { apply Hnan, Hin. rewrite E. apply in_or_app. right. left. reflexivity. }
    destruct (confidence x <? confidence best) eqn:L.
    + exists (x :: before), best, after.
      rewrite E. cbn [app]. repeat split; try assumption.
      intros r [<- | Hr]; [assumption | apply Hb; assumption].
    + exists [], x, (y :: rs'). cbn [app]. repeat split; [intros r [] | ].
      intros r Hr.
      assert (Nr : is_nan (confidence r) = false) by (apply Hnan, Hin; assumption).
      apply leb_trans with (confidence best); try assumption.
      * rewrite E in Hr. apply in_app_or in Hr. destruct Hr as [Hr | [<- | Hr]].
        -- apply ltb_leb; try assumption. apply Hb. assumption.
        -- apply not_ltb_leb; try assumption.
           rewrite ltb_ord by assumption. apply Z.ltb_irrefl.
        -- apply Ha. assumption.
      * apply not_ltb_leb; assumption.
Qed.

(** C2.  On a sequence of model responses that is not empty (their
    confidences being numbers), the selector returns an element of the
    sequence; no element has a greater confidence; and it is the earliest
    element of that confidence: every element before it has a confidence
    that is different, and smaller. *)
Theorem selectBestResponse_first_maximum (rs : list ModelResponse) :
  rs <> [] ->
  (forall r, In r rs -> is_nan (confidence r) = false) ->
  exists before best after,
    rs = before ++ best :: after
    /\ selectBestResponse rs = Some best
    /\ (forall r, In r rs -> (confidence r <=? confidence best) = true)
    /\ (forall r, In r before ->
          (confidence r =? confidence best) = false
          /\ (confidence r <? confidence best) = true).
Proof.
  intros Hne Hnan.
  destruct (first_maximum rs Hne Hnan) as (before & best & after & E & S & Hb & Ha).
  exists before, best, after.
  assert (Nb : is_nan (confidence best) = false).
  { apply Hnan. rewrite E. apply in_or_app. right. left. reflexivity. }
  split; [exact E | ]. split; [exact S | ]. split.
  - intros r Hr. pose proof (Hnan r Hr) as Nr.
    rewrite E in Hr. apply in_app_or in Hr. destruct Hr as [Hr | [<- | Hr]].
    + apply ltb_leb; try assumption. apply Hb. assumption.
    + rewrite leb_ord by assumption. apply Z.leb_refl.
    + apply Ha. assumption.
  - intros r Hr. specialize (Hb r Hr). split; [ | exact Hb].
    assert (Nr : is_nan (confidence r) = false).
    { apply Hnan. rewrite E. apply in_or_app. left. assumption. }
    rewrite ltb_ord in Hb by assumption. rewrite eqb_ord by assumption.
    apply Z.ltb_lt in Hb. apply Z.eqb_neq. lia.
Qed.

(** A run of the selector: of three responses the second and the third share
    the maximum, the second is selected. *)
Lemma selectBestResponse_first_maximum_witness :
  Samples.sample_responses <> []
  /\ exists before best after,
       Samples.sample_responses = before ++ best :: after
       /\ selectBestResponse Samples.sample_responses = Some best
       /\ (forall r, In r Samples.sample_responses ->
             (confidence r <=? confidence best) = true)
       /\ (forall r, In r before ->
             (confidence r =? confidence best) = false
             /\ (confidence r <? confidence best) = true).
Proof.
  split; [discriminate | ].
  apply (selectBestResponse_first_maximum Samples.sample_responses).
  - discriminate.
  - intros r [<- | [<- | [<- | []]]]; reflexivity.
Defined.

Lemma sample_selection :
  option_map model (selectBestResponse Samples.sample_responses) = Some (lit "gpt-35-turbo").
Proof. reflexivity. Qed.

(** orchestrator.js takes the answer of the first of its two responses; the
    hints being the constants 0.9 and 0.7, that is the response of the greatest
    confidence hint. *)
Lemma orchestrator_answer_of_greatest_hint
    (h : Models.host) (userMessage userId : value) (t t' : Effects.trace) (result : value) :
  Orchestrator.runOrchestration h userMessage userId t = (Returned result, t') ->
  exists a b,
    Models.confidence_hint a = 0.9 /\ Models.confidence_hint b = 0.7
    /\ (Models.confidence_hint b <? Models.confidence_hint a) = true
    /\ get result "answer" = Returned (Models.text a).
Proof.
  unfold Orchestrator.runOrchestration, Rag.retrieveContext, Models.callGPT4, Models.callGPT35,
    Effects.bind, Effects.ret, Effects.lift. cbn [get lookup String.eqb].
  destruct (Models.complete h (lit "gpt-4o") _ t) as [[ca | e] t1]; [ | discriminate].
  destruct (Models.complete h (lit "gpt-35-turbo") _ t1) as [[cb | e] t2]; [ | discriminate].
  intros H. injection H as <- <-.
  exists {| Models.model := lit "gpt-4o"; Models.text := ca; Models.confidence_hint := 0.9 |},
         {| Models.model := lit "gpt-35-turbo"; Models.text := cb; Models.confidence_hint := 0.7 |}.
  repeat split; reflexivity.
Qed.

End SelectorFacts.

(** ** Runs of the handlers *)

Module EffectFacts.
Import JS Effects Silent Traces.

Lemma silent_ret {A} (a : A) : silent (ret a).
Proof. intros t. reflexivity. Qed.

Lemma silent_throw {A} (e : exn) : silent (@throw A e).
Proof. intros t. reflexivity. Qed.

Lemma silent_lift {A} (o : outcome A) : silent (lift o).
Proof. intros t. reflexivity. Qed.

Lemma silent_bind {A B} (m : M A) (k : A -> M B) :
  silent m -> (forall a, silent (k a)) -> silent (bind m k).
Proof.
  intros Hm Hk t. unfold bind. rewrite (Hm t).
  pose proof (Hm []) as H0. destruct (m []) as [o t0]. cbn [fst] in *.
  injection H0 as ->.
  destruct o as [a | e]; [apply (Hk a t) | reflexivity].
Qed.

Lemma bind_emit {A} (e : event) (k : unit -> M A) (t : trace) :
  bind (emit e) k t = k tt (t ++ [e]).
Proof. reflexivity. Qed.

Lemma bind_returned {A B} (m : M A) (k : A -> M B) (t t' : trace) (a : A) :
  m t = (Returned a, t') -> bind m k t = k a t'.
Proof. intros H. unfold bind. rewrite H. reflexivity. Qed.

Lemma bind_thrown {A B} (m : M A) (k : A -> M B) (t t' : trace) (e : exn) :
  m t = (Thrown e, t') -> bind m k t = (Thrown e, t').
Proof. intros H. unfold bind. rewrite H. reflexivity. Qed.

Lemma get_prop (o : value) (k k' : string) (v : value) :
  get o k = Returned v -> get o k' = Returned (prop o k').
Proof. destruct o; cbn; intros H; try discriminate; reflexivity. Qed.

(** *** Computations that only append to the trace *)

Lemma oblivious_ret {A} (a : A) : oblivious (ret a).
Proof. intros t. cbn. rewrite app_nil_r. reflexivity. Qed.

Lemma oblivious_throw {A} (e : exn) : oblivious (@throw A e).
Proof. intros t. cbn. rewrite app_nil_r. reflexivity. Qed.

Lemma oblivious_lift {A} (o : outcome A) : oblivious (lift o).
Proof. intros t. cbn. rewrite app_nil_r. reflexivity. Qed.

Lemma oblivious_emit (e : event) : oblivious (emit e).
Proof. intros t. reflexivity. Qed.

Lemma oblivious_log (lg : logger) (l : level) (args : list part) :
  oblivious (log lg l args).
Proof. intros t. reflexivity. Qed.

Lemma oblivious_bind {A B} (m : M A) (k : A -> M B) :
  oblivious m -> (forall a, oblivious (k a)) -> oblivious (bind m k).
Proof.
  intros Hm Hk t. unfold bind. rewrite (Hm t).
  destruct (m []) as [[a | e] t0]; cbn [fst snd]; [ | reflexivity].
  rewrite (Hk a (t ++ t0)), (Hk a t0). cbn [fst snd]. rewrite app_assoc. reflexivity.
Qed.

Lemma oblivious_try_catch {A} (body : M A) (handler : exn -> M A) :
  oblivious body -> (forall e, oblivious (handler e)) -> oblivious (try_catch body handler).
Proof.
  intros Hm Hk t. unfold try_catch. rewrite (Hm t).
  destruct (body []) as [[a | e] t0]; cbn [fst snd]; [reflexivity | ].
  rewrite (Hk e (t ++ t0)), (Hk e t0). cbn [fst snd]. rewrite app_assoc. reflexivity.
Qed.

Lemma oblivious_for_of {A S} (l : list A) (body : S -> A -> M S) :
  (forall s x, oblivious (body s x)) -> forall s, oblivious (for_of l body s).
Proof.
  intros Hb. induction l as [ | x l IH]; intros s; cbn [for_of].
  - apply oblivious_ret.
  - apply oblivious_bind; [apply Hb | exact IH].
Qed.

End EffectFacts.

Create HintDb traces.
#[export] Hint Resolve EffectFacts.oblivious_ret EffectFacts.oblivious_throw
  EffectFacts.oblivious_lift EffectFacts.oblivious_emit EffectFacts.oblivious_log : traces.

Ltac oblivious_steps :=
  repeat first
    [ solve [auto with traces]
    | apply EffectFacts.oblivious_bind; [ | intros ? ]
    | apply EffectFacts.oblivious_try_catch; [ | intros ? ]
    | apply EffectFacts.oblivious_for_of; intros ? ?
    | match goal with
      | |- Traces.oblivious (match ?x with _ => _ end) => destruct x
      | |- Traces.oblivious (if ?x then _ else _) => destruct x
      end ].

Ltac silent_steps :=
  repeat first
    [ apply EffectFacts.silent_ret
    | apply EffectFacts.silent_throw
    | apply EffectFacts.silent_lift
    | apply EffectFacts.silent_bind; [ | intros ? ]
    | match goal with
      | |- Silent.silent (match ?x with _ => _ end) => destruct x
      end ].

Module WorkerFacts.
Import JS Effects Silent EffectFacts Binary64 Binary64Facts ChatWorker.
Open Scope float_scope.


Lemma queryModel_run (h : host) (userMessage : value) (rc : RagContext)
    (m : model_config) (t : trace) :
  queryModel h userMessage rc m t
  = (attempt h userMessage rc m,
     t ++ [CompletionRequested (deployment m) (messagesFor userMessage rc)]).
Proof.
  unfold attempt, queryModel.
  match goal with
  | |- bind (emit _) ?K _ = _ => assert (S : silent (K tt)) by silent_steps
  end.
  rewrite !bind_emit, (S (t ++ _)), (S ([] ++ _)). reflexivity.
Qed.

Lemma requests_app (t1 t2 : trace) : requests (t1 ++ t2) = requests t1 ++ requests t2.
Proof. apply flat_map_app. Qed.

Lemma blobs_app (t1 t2 : trace) : blobs (t1 ++ t2) = blobs t1 ++ blobs t2.
Proof. apply flat_map_app. Qed.

(** What the body of the [try] pushes when it completes. *)
Lemma attempt_returned (h : host) (userMessage : value) (rc : RagContext)
    (m : model_config) (r : ModelResponse) :
  attempt h userMessage rc m = Returned r ->
  exists text finishReason,
    r = {| model := name m; response := text;
           confidence := calculateConfidenceScore text (ragScoreArgument rc) finishReason;
           tokensUsed := tokensUsed r; error := None |}.
Proof.
  unfold attempt, queryModel, bind, emit, lift, ret, throw. cbn [fst].
  repeat match goal with
         | |- context [match ?x with _ => _ end] => destruct x
         end; cbn [fst]; try discriminate;
    intros H; injection H as <-; eexists _, _; reflexivity.
Qed.

(** A completion call that fails is the failure of the body of the [try]. *)
Lemma attempt_call_failed (h : host) (userMessage : value) (rc : RagContext)
    (m : model_config) (e : exn) :
  getChatCompletions h (deployment m) (messagesFor userMessage rc) = Thrown e ->
  attempt h userMessage rc m = Thrown e.
Proof.
  intros H. unfold attempt, queryModel, bind, emit, lift. cbn [fst].
  fold (messagesFor userMessage rc). rewrite H. reflexivity.
Qed.

Lemma ragScoreArgument_not_nan (rc : RagContext) : is_nan (ragScoreArgument rc) = false.
Proof.
  unfold ragScoreArgument. destruct (relevanceScore rc) as [r | ]; [ | reflexivity].
  destruct (number_truthy r) eqn:T; [ | reflexivity].
  unfold number_truthy in T. apply negb_true_iff, orb_false_iff in T. apply T.
Qed.

(** No element of the array has a confidence that is [NaN]. *)
Lemma entryFor_not_nan (h : host) (userMessage : value) (rc : RagContext) (m : model_config) :
  is_nan (confidence (entryFor h userMessage rc m)) = false.
Proof.
  unfold entryFor. destruct (attempt h userMessage rc m) as [r | e] eqn:E; [ | reflexivity].
  destruct (attempt_returned _ _ _ _ _ E) as (text & fr & ->). cbn [confidence].
  apply ScorerFacts.score_not_nan, ragScoreArgument_not_nan.
Qed.

Lemma selectBestResponse_some (rs : list ModelResponse) :
  rs <> [] -> exists best, selectBestResponse rs = Some best /\ In best rs.
Proof.
  induction rs as [ | r rs IH]; intros Hne; [contradiction | ].
  rewrite SelectorFacts.selectBestResponse_cons.
  destruct rs as [ | r' rs'].
  - exists r. split; [reflexivity | left; reflexivity].
  - destruct IH as (b & -> & Hb); [discriminate | ].
    destruct (confidence r <? confidence b).
    + exists b. split; [reflexivity | right; assumption].
    + exists r. split; [reflexivity | left; reflexivity].
Qed.

(** C10.  The relevance the worker passes to the scorer is never zero (nor
    [NaN]): a relevance score that is 0.0 or missing is replaced by 0.5, as
    after a failed retrieval, and the relevance factor [0.7 + 0.3 * ragScore] is
    then 0.85 (and not 0.7).  Every confidence the fan-out computes is the
    score for that argument. *)
Theorem rag_score_argument_never_zero (ragContext : RagContext) :
  (ragScoreArgument ragContext =? 0) = false
  /\ is_nan (ragScoreArgument ragContext) = false
  /\ (relevanceScore ragContext = None
      \/ (exists r, relevanceScore ragContext = Some r /\ (r =? 0) = true) ->
      ragScoreArgument ragContext = 0.5
      /\ (0.85 <=? 0.7 + 0.3 * ragScoreArgument ragContext) = true
      /\ (0.7 <? 0.7 + 0.3 * ragScoreArgument ragContext) = true)
  /\ ragScoreArgument emptyContext = 0.5
  /\ (forall h userMessage m r,
        attempt h userMessage ragContext m = Returned r ->
        exists text finishReason,
          confidence r
          = calculateConfidenceScore text (ragScoreArgument ragContext) finishReason).
Proof.
  split.
  { unfold ragScoreArgument. destruct (relevanceScore ragContext) as [r | ]; [ | reflexivity].
    destruct (number_truthy r) eqn:T; [ | reflexivity].
    unfold number_truthy in T. apply negb_true_iff, orb_false_iff in T. apply T. }
  split; [apply ragScoreArgument_not_nan | ].
  split.
  { intros H.
    assert (E : ragScoreArgument ragContext = 0.5).
    { unfold ragScoreArgument. destruct H as [-> | (r & -> & Hr)]; [reflexivity | ].
      unfold number_truthy, is_zero. change PrimFloat.zero with 0. rewrite Hr. reflexivity. }
    rewrite E. repeat split; reflexivity. }
  split; [reflexivity | ].
  intros h userMessage m r A.
  destruct (attempt_returned _ _ _ _ _ A) as (text & fr & ->).
  exists text, fr. reflexivity.
Qed.

(** The context of a failed retrieval. *)
Lemma rag_score_argument_never_zero_witness :
  ragScoreArgument emptyContext = 0.5
  /\ (0.85 <=? 0.7 + 0.3 * ragScoreArgument emptyContext) = true.
Proof.
  destruct (rag_score_argument_never_zero emptyContext) as (_ & _ & H & _).
  destruct H as (E & F & _).
  - right. exists 0.0. split; reflexivity.
  - split; assumption.
Defined.

End WorkerFacts.

(** ** The provisioning step sequence *)

Module ProvisioningFacts.
Import Provisioning.

Lemma result_of_run (call : step -> step_result) (s : step) :
  result_of (results (run call)) s
  = match s with
    | entraInvite | teams => Some (call s)
    | sharepoint | sharepointList =>
        if succeeded (call teams) then Some (call s) else None
    end.
Proof.
  unfold run, result_of. cbn [results].
  destruct s; cbn; try reflexivity; destruct (succeeded (call teams)); reflexivity.
Qed.

Lemma step_succeeded_run (call : step -> step_result) (s : step) :
  step_succeeded (results (run call)) s
  = match s with
    | entraInvite | teams => succeeded (call s)
    | sharepoint | sharepointList => succeeded (call teams) && succeeded (call s)
    end.
Proof.
  unfold step_succeeded. rewrite result_of_run.
  destruct s; try reflexivity; destruct (succeeded (call teams)); reflexivity.
Qed.

Lemma status_run (call : step -> step_result) :
  status (run call)
  = let i := succeeded (call entraInvite) in
    let t := succeeded (call teams) in
    let s := succeeded (call sharepoint) in
    let l := succeeded (call sharepointList) in
    if i && t && s && l then completed
    else if i || t then partial
    else failed.
Proof.
  change (status (run call)) with (overall_status (results (run call))).
  unfold overall_status, all_steps. cbn [forallb existsb].
  rewrite !step_succeeded_run.
  destruct (succeeded (call entraInvite)), (succeeded (call teams)),
    (succeeded (call sharepoint)), (succeeded (call sharepointList)); reflexivity.
Qed.

(** C9.  In the step sequence as the specification describes it: the team
    creation is attempted whether or not the invite succeeded; when the team
    creation fails, neither the SharePoint site nor the list is attempted, and
    when it succeeds both are; the result holds the outcome of every step that
    was attempted; and the overall status is [completed] exactly when the four
    steps succeeded, [failed] exactly when none did (the invite and the team
    creation failed), [partial] exactly when some step succeeded and some
    step did not. *)
Theorem provisioning_status (call : step -> step_result) :
  let r := run call in
  attempted (results r) entraInvite = true
  /\ attempted (results r) teams = true
  /\ (succeeded (call teams) = false ->
      attempted (results r) sharepoint = false
      /\ attempted (results r) sharepointList = false)
  /\ (succeeded (call teams) = true ->
      attempted (results r) sharepoint = true
      /\ attempted (results r) sharepointList = true)
  /\ (forall s, attempted (results r) s = true -> result_of (results r) s = Some (call s))
  /\ (status r = completed <-> forall s, step_succeeded (results r) s = true)
  /\ (status r = failed <-> forall s, step_succeeded (results r) s = false)
  /\ (status r = failed
      <-> succeeded (call entraInvite) = false /\ succeeded (call teams) = false)
  /\ (status r = partial
      <-> (exists s, step_succeeded (results r) s = true)
          /\ (exists s, step_succeeded (results r) s = false)).
Proof.
  intros r. subst r.
  assert (All : forall P : step -> Prop,
             (forall s, P s) <-> P entraInvite /\ P teams /\ P sharepoint /\ P sharepointList).
  { intros P. split; [intros H; repeat split; apply H | ].
    intros (H1 & H2 & H3 & H4) s. destruct s; assumption. }
  assert (Ex : forall P : step -> Prop,
             (exists s, P s) <-> P entraInvite \/ P teams \/ P sharepoint \/ P sharepointList).
  { intros P. split.
    - intros [s H]. destruct s; tauto.
    - intros [H | [H | [H | H]]]; eexists; exact H. }
  unfold attempted. rewrite !result_of_run, status_run. cbn zeta.
  split; [reflexivity | ]. split; [reflexivity | ].
  split; [intros ->; split; reflexivity | ].
  split; [intros ->; split; reflexivity | ].
  split.
  { intros s. rewrite result_of_run.
    destruct s; try reflexivity; destruct (succeeded (call teams)); try reflexivity;
      discriminate. }
  rewrite !All, !Ex, !step_succeeded_run.
  destruct (succeeded (call entraInvite)), (succeeded (call teams)),
    (succeeded (call sharepoint)), (succeeded (call sharepointList)); cbn;
    repeat split; intros; try discriminate; try tauto; try intuition discriminate.
Qed.

(** The invite succeeds and the team creation fails: the site and the list are
    not attempted, and the status is [partial]. *)
Lemma provisioning_status_witness :
  succeeded (Samples.invite_only teams) = false
  /\ attempted (results (run Samples.invite_only)) sharepoint = false
  /\ attempted (results (run Samples.invite_only)) sharepointList = false
  /\ status (run Samples.invite_only) = partial.
Proof.
  split; [reflexivity | ].
  destruct (provisioning_status Samples.invite_only) as (_ & _ & H & _ & _ & _ & _ & _ & P).
  destruct (H eq_refl) as [H1 H2].
  split; [exact H1 | ]. split; [exact H2 | ].
  apply P. split; [exists entraInvite | exists teams]; reflexivity.
Defined.

End ProvisioningFacts.

(** ** The pieces of a text and the word count *)

Module WordCountFacts.
Import JS ChatWorker.

Lemma split_from_length (s : jsstring) : forall cur in_run,
  (1 <= List.length (split_from s cur in_run) <= S (List.length (filter is_space s)))%nat.
Proof.
  induction s as [ | c s IH]; intros cur in_run; cbn [split_from filter].
  - cbn. lia.
  - destruct (is_space c); [destruct in_run | ]; cbn [List.length].
    + specialize (IH [] true). lia.
    + specialize (IH [] true). lia.
    + apply IH.
Qed.

Lemma split_from_concat (s : jsstring) : forall cur in_run,
  (in_run = true -> cur = []) ->
  List.concat (split_from s cur in_run)
  = rev cur ++ filter (fun c => negb (is_space c)) s.
Proof.
  induction s as [ | c s IH]; intros cur in_run Hrun; cbn [split_from filter].
  - cbn. reflexivity.
  - destruct (is_space c); cbn [negb].
    + destruct in_run.
      * rewrite (Hrun eq_refl). apply IH. reflexivity.
      * cbn [List.concat]. rewrite IH by reflexivity. reflexivity.
    + rewrite IH by discriminate. cbn [rev]. rewrite <- app_assoc. reflexivity.
Qed.

Lemma split_from_no_space (s : jsstring) : forall cur in_run,
  forallb (fun c => negb (is_space c)) cur = true ->
  Forall (fun w => forallb (fun c => negb (is_space c)) w = true) (split_from s cur in_run).
Proof.
  assert (R : forall cur, forallb (fun c => negb (is_space c)) cur = true ->
                          forallb (fun c => negb (is_space c)) (rev cur) = true).
  { intros cur H. rewrite forallb_forall in *. intros x Hx. apply H, in_rev, Hx. }
  induction s as [ | c s IH]; intros cur in_run Hcur; cbn [split_from].
  - constructor; [apply R; assumption | constructor].
  - destruct (is_space c) eqn:Ec.
    + destruct in_run; [apply IH; reflexivity | ].
      constructor; [apply R; assumption | apply IH; reflexivity].
    + apply IH. cbn [forallb]. rewrite Ec, Hcur. reflexivity.
Qed.

Lemma split_from_inner (s : jsstring) : forall cur in_run,
  cur <> [] \/ in_run = true ->
  Forall (fun w => w <> []) (removelast (split_from s cur in_run)).
Proof.
  induction s as [ | c s IH]; intros cur in_run H; cbn [split_from].
  - constructor.
  - destruct (is_space c).
    + destruct in_run; [apply IH; right; reflexivity | ].
      pose proof (split_from_length s [] true) as L.
      destruct (split_from s [] true) as [ | w ws] eqn:E; [cbn in L; lia | ].
      change (removelast (rev cur :: w :: ws)) with (rev cur :: removelast (w :: ws)).
      constructor.
      * destruct H as [H | H]; [ | discriminate].
        intros R. apply H. rewrite <- (rev_involutive cur), R. reflexivity.
      * rewrite <- E. apply IH. right. reflexivity.
    + apply IH. left. discriminate.
Qed.

Lemma removelast_tl {A} (P : A -> Prop) (l : list A) :
  Forall P (removelast l) -> Forall P (removelast (tl l)).
Proof.
  destruct l as [ | x [ | y l]]; cbn [tl]; intros H; try constructor.
  change (removelast (x :: y :: l)) with (x :: removelast (y :: l)) in H.
  inversion H; assumption.
Qed.

Lemma split_from_whole (s : jsstring) : forall cur in_run,
  forallb (fun c => negb (is_space c)) s = true ->
  split_from s cur in_run = [rev cur ++ s].
Proof.
  induction s as [ | c s IH]; intros cur in_run H; cbn [split_from].
  - rewrite app_nil_r. reflexivity.
  - cbn [forallb] in H. apply andb_prop in H. destruct H as [Hc Hs].
    apply negb_true_iff in Hc. rewrite Hc, IH by assumption.
    cbn [rev]. rewrite <- app_assoc. reflexivity.
Qed.

Lemma split_from_cut (s : jsstring) : forall cur,
  forallb (fun c => negb (is_space c)) s = false ->
  (2 <= List.length (split_from s cur false))%nat.
Proof.
  induction s as [ | c s IH]; intros cur H; [discriminate | ].
  cbn [split_from]. cbn [forallb] in H.
  destruct (is_space c); cbn [negb andb] in H.
  - pose proof (split_from_length s [] true). cbn [List.length]. lia.
  - apply IH. assumption.
Qed.

(** X1.  The pieces [split(/\s+/)] cuts a text into hold, in order, the code
    units of the text that are not white space, and nothing else; no piece
    holds white space; and only the first and the last piece can be empty
    (they are when the text starts or ends with white space). *)
Theorem split_spaces_pieces (s : jsstring) :
  List.concat (split_spaces s) = filter (fun c => negb (is_space c)) s
  /\ Forall (fun w => forallb (fun c => negb (is_space c)) w = true) (split_spaces s)
  /\ Forall (fun w => w <> []) (removelast (tl (split_spaces s))).
Proof.
  unfold split_spaces. split; [apply (split_from_concat s [] false); discriminate | ].
  split; [apply split_from_no_space; reflexivity | ].
  destruct s as [ | c s]; cbn [split_from]; [constructor | ].
  destruct (is_space c).
  - cbn [tl]. apply split_from_inner. right. reflexivity.
  - apply removelast_tl, split_from_inner. left. discriminate.
Qed.

(** X2.  The word count of the scorer is at least 1 (also for the empty text)
    and at most one more than the number of white space code units.  It is 1
    exactly when the text holds no white space: such a text, however long, is
    one word, and is scored as the empty text is. *)
Theorem word_count_bounds (s : jsstring) :
  let wordCount := List.length (split_spaces s) in
  (1 <= wordCount <= S (List.length (filter is_space s)))%nat
  /\ (wordCount = 1%nat <-> forallb (fun c => negb (is_space c)) s = true)
  /\ (forallb (fun c => negb (is_space c)) s = true ->
      split_spaces s = [s]
      /\ forall ragScore finishReason,
           calculateConfidenceScore s ragScore finishReason
           = calculateConfidenceScore [] ragScore finishReason).
Proof.
  intros wordCount. subst wordCount. unfold split_spaces.
  split; [apply split_from_length | ].
  split; [split | ].
  - intros H. destruct (forallb _ s) eqn:E; [reflexivity | ].
    pose proof (split_from_cut s [] E). lia.
  - intros H. rewrite (split_from_whole s [] false H). reflexivity.
  - intros H. split; [apply (split_from_whole s [] false H) | ].
    intros ragScore finishReason. unfold calculateConfidenceScore, split_spaces.
    rewrite (split_from_whole s [] false H). reflexivity.
Qed.

End WordCountFacts.

(** ** The range of the score *)

Module MagnitudeFacts.
Import JS Binary64 Binary64Facts Magnitude ChatWorker.
Open Scope Z_scope.

Lemma sf_positive_from_weaken (L L' : Z) (x : spec_float) :
  L' <= L -> sf_positive_from L x -> sf_positive_from L' x.
Proof. destruct x as [ | [ | ] | | [ | ] m e]; cbn; try tauto. lia. Qed.

Lemma shr_fexp_snd (m e : Z) (l : location) :
  0 < m ->
  e <= snd (shr_fexp prec emax m e l)
  /\ fexp prec emax (Zdigits2 m + e) <= snd (shr_fexp prec emax m e l).
Proof.
  intros Hm. unfold shr_fexp.
  destruct (fexp prec emax (Zdigits2 m + e) - e) as [ | n | n] eqn:En; cbn [shr snd]; lia.
Qed.

(** The exponent of a rounded number is not below the exponent it was given,
    nor below the exponent of its binade. *)
Lemma binary_round_aux_from (m e : Z) (l : location) :
  0 < m -> emin <= e ->
  sf_positive_from (Z.max e (fexp prec emax (Zdigits2 m + e)))
    (binary_round_aux prec emax false m e l).
Proof.
  intros Hm He. unfold binary_round_aux.
  destruct (shr_fexp_pos m e l Hm He) as [H1 H1e].
  destruct (shr_fexp_snd m e l Hm) as [G1 G2].
  destruct (shr_fexp prec emax m e l) as [mrs' e']. cbn [fst snd] in *.
  set (m2 := round_nearest_even (shr_m mrs') (loc_of_shr_record mrs')).
  assert (H2 : 0 < m2)
    by (pose proof (round_nearest_even_ge (shr_m mrs') (loc_of_shr_record mrs')); lia).
  destruct (shr_fexp_pos m2 e' loc_Exact H2 H1e) as [H3 _].
  destruct (shr_fexp_snd m2 e' loc_Exact H2) as [G3 _].
  destruct (shr_fexp prec emax m2 e' loc_Exact) as [mrs'' e'']. cbn [fst snd] in *.
  destruct (shr_m mrs'') as [ | p | p]; try lia.
  destruct (e'' <=? emax - prec); cbn; [lia | exact I].
Qed.

Lemma digits2_pos_gt (p : positive) (k : Z) :
  0 <= k -> 2 ^ k <= Zpos p -> k < Zpos (digits2_pos p).
Proof.
  intros Hk H. pose proof (digits2_pos_bounds p) as [_ U].
  apply (Z.pow_lt_mono_r_iff 2); lia.
Qed.

Lemma fexp_mono (x y : Z) : x <= y -> fexp prec emax x <= fexp prec emax y.
Proof. unfold fexp. lia. Qed.

Lemma binary_round_from (p : positive) (e : Z) :
  emin <= e ->
  sf_positive_from (fexp prec emax (Zpos (digits2_pos p) + e)) (binary_round prec emax false p e).
Proof.
  intros He. unfold binary_round.
  set (e' := fexp prec emax (Zpos (digits2_pos p) + e)).
  assert (He' : emin <= e') by (unfold e', fexp; change (SpecFloat.emin prec emax) with emin; lia).
  destruct (Z_lt_le_dec e' e) as [Lt | Ge].
  - destruct (shl_align_le p e e' ltac:(lia)) as [E1 E2].
    destruct (shl_align p e e') as [mz ez]. cbn [fst snd] in *. subst ez.
    eapply sf_positive_from_weaken; [ | apply binary_round_aux_from; [lia | assumption]].
    lia.
  - assert (E : shl_align p e e' = (p, e)).
    { unfold shl_align. destruct (e' - e) eqn:D; try reflexivity. lia. }
    rewrite E.
    eapply sf_positive_from_weaken; [ | apply binary_round_aux_from; [lia | assumption]].
    cbn [Zdigits2]. fold e'. lia.
Qed.

(** The sum of a positive number and a number that is not negative is not
    below the binade of the first. *)
Lemma SFadd_from (mc : positive) (ec : Z) (y : spec_float) :
  bounded prec emax mc ec = true ->
  valid_binary y = true ->
  sf_nonneg y = true ->
  sf_positive_from (fexp prec emax (Zpos (digits2_pos mc) + ec))
    (SF64add (S754_finite false mc ec) y).
Proof.
  intros Bc Vy Ny.
  destruct (bounded_inv _ _ Bc) as (Hec & Hd & Hn).
  assert (F : fexp prec emax (Zpos (digits2_pos mc) + ec) <= ec).
  { unfold bounded, canonical_mantissa in Bc. apply andb_prop in Bc. destruct Bc as [Bc _].
    apply Z.eqb_eq in Bc. lia. }
  destruct y as [sy | sy | | sy my ey]; try discriminate.
  - cbn. exact F.
  - destruct sy; [discriminate | exact I].
  - destruct sy; [discriminate | ].
    cbn [valid_binary] in Vy. destruct (bounded_inv _ _ Vy) as (Hey & _).
    unfold SF64add, SFadd. cbn [cond_Zopp].
    set (ez := Z.min ec ey).
    destruct (shl_align_le mc ec ez ltac:(lia)) as [_ E1].
    destruct (shl_align_le my ey ez ltac:(lia)) as [_ E2].
    set (X := fst (shl_align mc ec ez)) in *. set (Y := fst (shl_align my ey ez)) in *.
    change (Zpos X + Zpos Y) with (Zpos (X + Y)). cbn [binary_normalize].
    eapply sf_positive_from_weaken; [ | apply binary_round_from; lia].
    apply fexp_mono.
    pose proof (digits2_pos_bounds mc) as [Lc _].
    assert (K : Zpos (digits2_pos mc) - 1 + (ec - ez) < Zpos (digits2_pos (X + Y))).
    { apply digits2_pos_gt; [lia | ].
      rewrite Z.pow_add_r by lia. rewrite Pos2Z.inj_add, E1.
      assert (0 < 2 ^ (ec - ez)) by (apply Z.pow_pos_nonneg; lia). nia. }
    lia.
Qed.

(** A product of two such numbers does not underflow while the exponents add
    up to the least exponent or more. *)
Lemma SFmul_from (L1 L2 : Z) (x y : spec_float) :
  sf_positive_from L1 x -> sf_positive_from L2 y -> emin <= L1 + L2 ->
  sf_positive_from (L1 + L2) (SF64mul x y).
Proof.
  destruct x as [ | [ | ] | | [ | ] mx ex], y as [ | [ | ] | | [ | ] my ey]; cbn [sf_positive_from];
    try contradiction; try (intros; exact I).
  intros H1 H2 H. unfold SF64mul, SFmul. cbn [xorb].
  eapply sf_positive_from_weaken; [ | apply binary_round_aux_from; lia].
  lia.
Qed.

Open Scope float_scope.

Lemma positive_from_ltb (L : Z) (x : float) : positive_from L x -> (0 <? x) = true.
Proof.
  unfold positive_from. rewrite FloatAxioms.ltb_spec.
  destruct (Prim2SF x) as [ | [ | ] | | [ | ] m e]; cbn; try contradiction; reflexivity.
Qed.

Lemma mul_positive_from (L1 L2 : Z) (x y : float) :
  positive_from L1 x -> positive_from L2 y -> (emin <= L1 + L2)%Z ->
  positive_from (L1 + L2) (x * y).
Proof. unfold positive_from. rewrite mul_spec. apply SFmul_from. Qed.

(** [0.7 + 0.3 * ragScore] is at least one half. *)
Lemma relevance_factor_positive (ragScore : float) :
  (0 <=? ragScore) = true -> positive_from (-53) (0.7 + 0.3 * ragScore).
Proof.
  intros Hr.
  assert (H : (0 <=? 0.3 * ragScore) = true)
    by (apply mul_nonneg; [reflexivity | assumption | reflexivity]).
  unfold positive_from. rewrite add_spec.
  rewrite nonneg_Prim2SF in H.
  apply (SFadd_from 6305039478318694 (-53)); [reflexivity | apply Prim2SF_valid | exact H].
Qed.

Lemma factors_positive (finishReason : value) (wordCount : nat) :
  positive_from (-53) (ScorerSpec.completion_factor finishReason)
  /\ positive_from (-53) (ScorerSpec.length_factor wordCount).
Proof.
  unfold ScorerSpec.completion_factor, ScorerSpec.length_factor. split.
  - destruct (strict_eq_str finishReason (lit "stop"));
      [ | destruct (strict_eq_str finishReason (lit "length")) ]; cbn; lia.
  - destruct ((20 <=? _)%nat && (_ <=? 200)%nat);
      [ | destruct (_ <? 20)%nat ]; cbn; lia.
Qed.

Lemma ltb_not_nan (x y : float) : (x <? y) = true -> is_nan x = false /\ is_nan y = false.
Proof.
  rewrite FloatAxioms.ltb_spec, !is_nan_Prim2SF.
  destruct (Prim2SF x), (Prim2SF y); cbn; intros H; try discriminate; split; reflexivity.
Qed.

Lemma Math_min_one_positive (x : float) :
  (0 <? x) = true -> (0 <? Math_min x 1) = true.
Proof.
  intros Hx. unfold Math_min.
  destruct (ltb_not_nan _ _ Hx) as [_ Nx].
  rewrite Nx. cbn [orb]. change (is_nan 1) with false. cbv iota.
  destruct (x <? 1); [assumption | ].
  destruct (1 <? x); [reflexivity | ].
  destruct (is_zero x && get_sign x); [assumption | reflexivity].
Qed.

Lemma Math_min_one_le (x : float) :
  is_nan x = false -> (Math_min x 1 <=? 1) = true.
Proof.
  intros Nx. assert (N1 : is_nan 1 = false) by reflexivity.
  unfold Math_min. rewrite Nx, N1. cbn [orb].
  destruct (x <? 1) eqn:L1.
  - rewrite ltb_ord in L1 by assumption. rewrite leb_ord by assumption.
    apply Z.ltb_lt in L1. apply Z.leb_le. lia.
  - destruct (1 <? x) eqn:L2; [reflexivity | ].
    destruct (is_zero x && get_sign x); [ | reflexivity].
    rewrite ltb_ord in L2 by assumption. rewrite leb_ord by assumption.
    apply Z.ltb_ge in L2. apply Z.leb_le. lia.
Qed.

Lemma mul_nan_l (x y : float) : is_nan x = true -> is_nan (x * y) = true.
Proof.
  rewrite !is_nan_Prim2SF, mul_spec.
  destruct (Prim2SF x); try discriminate. reflexivity.
Qed.

Lemma mul_nan_r (x y : float) : is_nan y = true -> is_nan (x * y) = true.
Proof.
  rewrite !is_nan_Prim2SF, mul_spec.
  destruct (Prim2SF y); try discriminate. destruct (Prim2SF x); reflexivity.
Qed.

Lemma add_nan_r (x y : float) : is_nan y = true -> is_nan (x + y) = true.
Proof.
  rewrite !is_nan_Prim2SF, add_spec.
  destruct (Prim2SF y); try discriminate. destruct (Prim2SF x); reflexivity.
Qed.

(** The score of an answer is positive when the relevance is not negative. *)
Lemma score_positive (response : jsstring) (ragScore : float) (finishReason : value) :
  (0 <=? ragScore) = true ->
  (0 <? calculateConfidenceScore response ragScore finishReason) = true.
Proof.
  intros Hr. rewrite ScorerFacts.score_unfold.
  destruct (factors_positive finishReason (List.length (split_spaces response))) as [F1 F2].
  apply Math_min_one_positive.
  apply (positive_from_ltb (-53 + -53 + -53 + -53)).
  apply mul_positive_from; [ | assumption | cbn; lia].
  apply mul_positive_from; [ | assumption | cbn; lia].
  apply mul_positive_from; [cbn; lia | | cbn; lia].
  apply relevance_factor_positive. assumption.
Qed.

Lemma score_le_one (response : jsstring) (ragScore : float) (finishReason : value) :
  is_nan ragScore = false ->
  (calculateConfidenceScore response ragScore finishReason <=? 1) = true.
Proof.
  intros Hr. rewrite ScorerFacts.score_unfold.
  destruct (ScorerFacts.factors_finite finishReason (List.length (split_spaces response)))
    as [[_ F1] [_ F2]].
  apply Math_min_one_le. apply ScorerFacts.adjusted_not_nan; assumption.
Qed.

(** X3.  The scorer returns [NaN] exactly when the relevance is [NaN].  For any
    other relevance, negative or infinite ones included, the score is at most
    1; and for a relevance that is not negative the score is positive: 0.0 is
    never the score of an answer. *)
Theorem confidence_score_range
    (response : jsstring) (ragScore : float) (finishReason : value) :
  let result := calculateConfidenceScore response ragScore finishReason in
  is_nan result = is_nan ragScore
  /\ (is_nan ragScore = false -> (result <=? 1) = true)
  /\ ((0 <=? ragScore) = true -> (0 <? result) = true /\ (result =? 0) = false).
Proof.
  intros result. subst result. split; [ | split].
  - destruct (is_nan ragScore) eqn:N; [ | apply ScorerFacts.score_not_nan; assumption].
    rewrite ScorerFacts.score_unfold. unfold Math_min.
    assert (A : is_nan (0.7 * (0.7 + 0.3 * ragScore)
                        * ScorerSpec.completion_factor finishReason
                        * ScorerSpec.length_factor (List.length (split_spaces response))) = true).
    { do 2 apply mul_nan_l. apply mul_nan_r, add_nan_r, mul_nan_r. assumption. }
    rewrite A. reflexivity.
  - apply score_le_one.
  - intros Hr. pose proof (score_positive response ragScore finishReason Hr) as P.
    split; [exact P | ].
    destruct (ltb_not_nan _ _ P) as [N0 N].
    rewrite ltb_ord in P by assumption. rewrite eqb_ord by assumption.
    apply Z.ltb_lt in P. apply Z.eqb_neq. lia.
Qed.

(** The relevance of the lookup of the repository: a positive score, at most 1. *)
Lemma confidence_score_range_witness :
  (0 <? calculateConfidenceScore (lit "Thirty days.") 0.85 (VStr (lit "stop"))) = true
  /\ (calculateConfidenceScore (lit "Thirty days.") 0.85 (VStr (lit "stop")) <=? 1) = true.
Proof.
  destruct (confidence_score_range (lit "Thirty days.") 0.85 (VStr (lit "stop")))
    as (_ & U & L).
  split; [apply L; reflexivity | apply U; reflexivity].
Defined.

End MagnitudeFacts.

(** ** The sorted array *)

Module SortFacts.
Import JS Binary64 Binary64Facts ChatWorker.
Open Scope float_scope.

(** X4.  The comparison function of the selector is consistent on all
    numbers: it is positive exactly when its first argument has the smaller
    confidence, negative exactly when it has the greater one (a difference of
    two distinct numbers is never rounded to zero), and swapping the arguments
    swaps the sign. *)
Theorem by_confidence_sign (a b : ModelResponse) :
  (0 <? by_confidence a b) = (confidence a <? confidence b)
  /\ (by_confidence a b <? 0) = (confidence b <? confidence a)
  /\ (0 <? by_confidence a b) = (by_confidence b a <? 0).
Proof.
  unfold by_confidence.
  destruct (sub_ltb_zero (confidence a) (confidence b)) as [P N].
  destruct (sub_ltb_zero (confidence b) (confidence a)) as [P' N'].
  repeat split; try assumption. rewrite P, N'. reflexivity.
Qed.

(** X5.  For confidences that are numbers, the array the selector sorts holds
    the elements of its input, in descending order of confidence, the
    elements of one confidence in their input order; the selector returns
    its first element. *)
Theorem sorted_by_confidence (l : list ModelResponse) :
  Forall (fun r => is_nan (confidence r) = false) l ->
  Permutation l (sort by_confidence l)
  /\ StronglySorted descending (sort by_confidence l)
  /\ (forall c, is_nan c = false ->
        filter (fun r => confidence r =? c) (sort by_confidence l)
        = filter (fun r => confidence r =? c) l)
  /\ selectBestResponse l = hd_error (sort by_confidence l).
Proof.
  intros H. split; [apply SelectorFacts.sort_permutation | ].
  split; [apply SelectorFacts.sort_descending; assumption | ].
  split; [intros c Hc; apply SelectorFacts.sort_stable; assumption | reflexivity].
Qed.

(** The three sample responses: the two of confidence 0.6 come first, in
    their input order. *)
Lemma sorted_by_confidence_witness :
  Forall (fun r => is_nan (confidence r) = false) Samples.sample_responses
  /\ StronglySorted descending (sort by_confidence Samples.sample_responses)
  /\ filter (fun r => confidence r =? 0.6) (sort by_confidence Samples.sample_responses)
     = filter (fun r => confidence r =? 0.6) Samples.sample_responses.
Proof.
  assert (H : Forall (fun r => is_nan (confidence r) = false) Samples.sample_responses)
    by (repeat constructor).
  split; [exact H | ].
  destruct (sorted_by_confidence Samples.sample_responses H) as (_ & D & S & _).
  split; [exact D | apply S; reflexivity].
Defined.

Lemma select_app (l1 l2 : list ModelResponse) :
  Forall (fun r => is_nan (confidence r) = false) (l1 ++ l2) ->
  selectBestResponse (l1 ++ l2)
  = match selectBestResponse l1, selectBestResponse l2 with
    | Some a, Some b => Some (if confidence a <? confidence b then b else a)
    | Some a, None => Some a
    | None, other => other
    end.
Proof.
  induction l1 as [ | r l1 IH]; intros H.
  - cbn [app]. change (selectBestResponse []) with (@None ModelResponse). reflexivity.
  - cbn [app] in *. inversion H as [ | x l Nr H' ]; subst.
    rewrite !SelectorFacts.selectBestResponse_cons, (IH H').
    assert (In1 : forall a, selectBestResponse l1 = Some a -> is_nan (confidence a) = false).
    { intros a S. rewrite Forall_forall in H'. apply H'. apply in_or_app. left.
      destruct l1 as [ | x l1']; [discriminate S | ].
      destruct (WorkerFacts.selectBestResponse_some (x :: l1')) as (b & S' & Hin);
        [discriminate | ].
      rewrite S in S'. injection S' as <-. exact Hin. }
    assert (In2 : forall b, selectBestResponse l2 = Some b -> is_nan (confidence b) = false).
    { intros b S. rewrite Forall_forall in H'. apply H'. apply in_or_app. right.
      destruct l2 as [ | x l2']; [discriminate S | ].
      destruct (WorkerFacts.selectBestResponse_some (x :: l2')) as (b' & S' & Hin);
        [discriminate | ].
      rewrite S in S'. injection S' as <-. exact Hin. }
    destruct (selectBestResponse l1) as [a | ]; destruct (selectBestResponse l2) as [b | ].
    + pose proof (In1 a eq_refl) as Na. pose proof (In2 b eq_refl) as Nb.
      destruct (confidence a <? confidence b) eqn:AB;
        destruct (confidence r <? confidence a) eqn:RA; rewrite ?AB; try reflexivity;
        destruct (confidence r <? confidence b) eqn:RB; try reflexivity; exfalso;
        rewrite ltb_ord in AB, RA, RB by assumption;
        rewrite ?Z.ltb_lt, ?Z.ltb_ge in *; lia.
    + destruct (confidence r <? confidence a); reflexivity.
    + destruct (confidence r <? confidence b); reflexivity.
    + reflexivity.
Qed.

(** X6.  On an array whose confidences are numbers, the selector returns
    an element of the array, and [undefined] only for the empty array.  The
    selection can be made part by part: the element selected from a
    concatenation is the better of the elements selected from the two
    parts, the one of the left part when they have the same confidence. *)
Theorem selector_returns_an_element (l1 l2 : list ModelResponse) :
  Forall (fun r => is_nan (confidence r) = false) (l1 ++ l2) ->
  (selectBestResponse (l1 ++ l2) = None <-> l1 ++ l2 = [])
  /\ (forall best, selectBestResponse (l1 ++ l2) = Some best -> In best (l1 ++ l2))
  /\ selectBestResponse (l1 ++ l2)
     = match selectBestResponse l1, selectBestResponse l2 with
       | Some a, Some b => Some (if confidence a <? confidence b then b else a)
       | Some a, None => Some a
       | None, other => other
       end.
Proof.
  intros H. split; [ | split; [ | apply select_app; exact H]].
  - split; [ | intros ->; reflexivity].
    destruct (l1 ++ l2) as [ | r rs']; [reflexivity | ]. intros S.
    destruct (WorkerFacts.selectBestResponse_some (r :: rs')) as (b & S' & _); [discriminate | ].
    rewrite S' in S. discriminate S.
  - intros best S. destruct (l1 ++ l2) as [ | r rs']; [discriminate S | ].
    destruct (WorkerFacts.selectBestResponse_some (r :: rs')) as (b & S' & Hin); [discriminate | ].
    rewrite S in S'. injection S' as <-. exact Hin.
Qed.

(** The sample responses, cut after the first: the second is selected, in
    the whole array as in its right part. *)
Lemma selector_returns_an_element_witness :
  selectBestResponse Samples.sample_responses = hd_error (tl Samples.sample_responses)
  /\ selectBestResponse (tl Samples.sample_responses) = hd_error (tl Samples.sample_responses).
Proof.
  destruct (selector_returns_an_element [hd (failedResponse {| name := []; deployment := [] |}
                                               (Error [])) Samples.sample_responses]
              (tl Samples.sample_responses)) as (_ & _ & S).
  - repeat constructor.
  - split; [exact S | reflexivity].
Defined.

End SortFacts.

(** ** The chat worker, call by call *)

Module RunFacts.
Import JS Effects Silent Traces EffectFacts Binary64 Binary64Facts ChatWorker WorkerFacts.
Open Scope float_scope.

(** *** Every function of the worker only appends to the trace *)

Lemma retrieveRagContext_oblivious (h : host) (query : value) :
  oblivious (retrieveRagContext h query).
Proof. unfold retrieveRagContext. oblivious_steps. Qed.

Lemma queryModel_oblivious (h : host) (userMessage : value) (rc : RagContext)
    (m : model_config) :
  oblivious (queryModel h userMessage rc m).
Proof. intros t. rewrite !queryModel_run. reflexivity. Qed.

Lemma queryFailed_run (h : host) (m : model_config) (rs : list ModelResponse)
    (e : exn) (t : trace) :
  queryFailed h m rs e t
  = (match context_log h Err [Text (lit "Error querying "); Text (name m); Text (lit ":");
                              Val (VStr (message e))] with
     | Returned _ => Returned (rs ++ [failedResponse m e])
     | Thrown e' => Thrown e'
     end,
     t ++ [Logged Err [Text (lit "Error querying "); Text (name m); Text (lit ":");
                       Val (VStr (message e))]]).
Proof.
  unfold queryFailed, bind, log, ret. destruct (context_log h Err _) as [[] | e']; reflexivity.
Qed.

Lemma queryTurn_oblivious (h : host) (userMessage : value) (rc : RagContext)
    (rs : list ModelResponse) (m : model_config) :
  oblivious (queryTurn h userMessage rc rs m).
Proof.
  intros t. unfold queryTurn. rewrite !queryModel_run.
  destruct (attempt h userMessage rc m) as [r | e].
  - unfold log. destruct (context_log h Info _) as [[] | e].
    + cbn [fst snd]. rewrite <- app_assoc. reflexivity.
    + rewrite !queryFailed_run. cbn [fst snd]. rewrite <- !app_assoc. reflexivity.
  - rewrite !queryFailed_run. cbn [fst snd]. rewrite <- !app_assoc. reflexivity.
Qed.

Lemma queryModels_oblivious (h : host) (userMessage : value) (rc : RagContext)
    (models : list model_config) (rs : list ModelResponse) :
  oblivious (queryModels h userMessage rc models rs).
Proof.
  unfold queryModels. apply oblivious_for_of. intros s x. apply queryTurn_oblivious.
Qed.

Lemma queryMultipleModels_oblivious (h : host) (userMessage : value) (rc : RagContext) :
  oblivious (queryMultipleModels h userMessage rc).
Proof.
  unfold queryMultipleModels. apply oblivious_bind; [apply oblivious_lift | intros _].
  apply queryModels_oblivious.
Qed.

Lemma finalResponse_oblivious (mb cid : value) (best : ModelResponse)
    (rs : list ModelResponse) (rc : RagContext) :
  oblivious (finalResponse mb cid best rs rc).
Proof. unfold finalResponse. oblivious_steps. Qed.

Lemma storeToDatabase_oblivious (h : host) (responseData : value) :
  oblivious (storeToDatabase h responseData).
Proof. unfold storeToDatabase. oblivious_steps. Qed.

Lemma sendResponseToBot_oblivious (h : host) (responseData : value) :
  oblivious (sendResponseToBot h responseData).
Proof. unfold sendResponseToBot. oblivious_steps. Qed.

#[local] Hint Resolve retrieveRagContext_oblivious queryMultipleModels_oblivious
  finalResponse_oblivious storeToDatabase_oblivious sendResponseToBot_oblivious : traces.

Lemma processMessage_oblivious (h : host) (parsed : outcome value) :
  oblivious (processMessage h parsed).
Proof. unfold processMessage. oblivious_steps. Qed.

Lemma handler_oblivious (h : host) (parsed : outcome value) : oblivious (handler h parsed).
Proof.
  unfold handler. apply oblivious_bind; [apply oblivious_log | intros _].
  apply oblivious_try_catch; [apply processMessage_oblivious | intros e]. oblivious_steps.
Qed.


(** *** Runs on any host *)

Lemma bind_run {A B} (m : M A) (k : A -> M B) (t : trace) :
  oblivious m ->
  bind m k t
  = match fst (m []) with
    | Returned a => k a (t ++ snd (m []))
    | Thrown e => (Thrown e, t ++ snd (m []))
    end.
Proof. intros Hm. unfold bind. rewrite (Hm t). destruct (fst (m [])); reflexivity. Qed.

Lemma try_catch_run {A} (body : M A) (handler : exn -> M A) (t : trace) :
  oblivious body ->
  try_catch body handler t
  = match fst (body []) with
    | Returned a => (Returned a, t ++ snd (body []))
    | Thrown e => handler e (t ++ snd (body []))
    end.
Proof. intros Hm. unfold try_catch. rewrite (Hm t). destruct (fst (body [])); reflexivity. Qed.

(** The retriever: the mock context when the call to the logger returns;
    otherwise the [catch], which warns and returns the empty context. *)
Lemma retrieveRagContext_cases (h : host) (query : value) (t : trace) :
  let done := [Text (lit "RAG retrieval completed with "); Count 2; Text (lit " sources")] in
  retrieveRagContext h query t
  = match context_log h Info done with
    | Returned _ => (Returned mockContext, t ++ [Logged Info done])
    | Thrown e =>
        let failed := [Text (lit "RAG retrieval failed:"); Val (VStr (message e))] in
        (match context_log h Warn failed with
         | Returned _ => Returned emptyContext
         | Thrown e' => Thrown e'
         end,
         t ++ [Logged Info done; Logged Warn failed])
    end.
Proof.
  cbv zeta. unfold retrieveRagContext, try_catch, bind, log, ret.
  change (List.length mockSources) with 2%nat.
  destruct (context_log h Info _) as [[] | e]; [reflexivity | ].
  destruct (context_log h Warn _) as [[] | e']; rewrite <- app_assoc; reflexivity.
Qed.

Lemma retrieveRagContext_plain (h : host) (query : value) (t : trace) :
  returns (context_log h) Info ->
  retrieveRagContext h query t
  = (Returned mockContext,
     t ++ [Logged Info [Text (lit "RAG retrieval completed with "); Count 2;
                        Text (lit " sources")]]).
Proof. intros Hi. rewrite retrieveRagContext_cases. cbv zeta. rewrite Hi. reflexivity. Qed.

Lemma retrieveRagContext_returned (h : host) (query : value) (t t' : trace) (rc : RagContext) :
  retrieveRagContext h query t = (Returned rc, t') -> rc = mockContext \/ rc = emptyContext.
Proof.
  rewrite retrieveRagContext_cases. cbv zeta.
  destruct (context_log h Info _) as [[] | e].
  - intros H. injection H as <- _. left. reflexivity.
  - destruct (context_log h Warn _) as [[] | e']; intros H; [ | discriminate H].
    injection H as <- _. right. reflexivity.
Qed.

Lemma retrieveRagContext_events (h : host) (query : value) :
  blobs (snd (retrieveRagContext h query [])) = []
  /\ requests (snd (retrieveRagContext h query [])) = [].
Proof.
  rewrite retrieveRagContext_cases. cbv zeta.
  destruct (context_log h Info _) as [[] | e]; split; reflexivity.
Qed.

(** One turn of the loop, by what the body of the [try] gave. *)
Lemma queryTurn_cases (h : host) (userMessage : value) (rc : RagContext)
    (rs : list ModelResponse) (m : model_config) (t : trace) :
  let request := CompletionRequested (deployment m) (messagesFor userMessage rc) in
  queryTurn h userMessage rc rs m t
  = match attempt h userMessage rc m with
    | Returned r =>
        let line := [Text (name m); Text (lit " responded with confidence: ");
                     Fixed2 (confidence r)] in
        match context_log h Info line with
        | Returned _ => (Returned (rs ++ [r]), t ++ [request; Logged Info line])
        | Thrown e => queryFailed h m (rs ++ [r]) e (t ++ [request; Logged Info line])
        end
    | Thrown e => queryFailed h m rs e (t ++ [request])
    end.
Proof.
  cbv zeta. unfold queryTurn. rewrite queryModel_run.
  destruct (attempt h userMessage rc m) as [r | e]; [ | reflexivity].
  unfold log. destruct (context_log h Info _) as [[] | e]; rewrite <- app_assoc; reflexivity.
Qed.

Lemma queryModels_cons (h : host) (userMessage : value) (rc : RagContext)
    (m : model_config) (models : list model_config) (rs : list ModelResponse) :
  queryModels h userMessage rc (m :: models) rs
  = bind (queryTurn h userMessage rc rs m) (queryModels h userMessage rc models).
Proof. reflexivity. Qed.

(** What the loop returns, when it returns: the array it was given and, for
    each model, one or two of the elements the loop can push for it. *)
Lemma queryModels_returned (h : host) (userMessage : value) (rc : RagContext)
    (models : list model_config) :
  forall (rs0 rs : list ModelResponse),
    fst (queryModels h userMessage rc models rs0 []) = Returned rs ->
    exists new,
      rs = rs0 ++ new
      /\ Forall (fun r => exists m, In m models /\ pushed h userMessage rc m r) new
      /\ (models <> [] -> new <> []).
Proof.
  induction models as [ | m models IH]; intros rs0 rs H.
  - cbn in H. injection H as <-. exists []. rewrite app_nil_r.
    split; [reflexivity | ]. split; [constructor | intros N; contradiction N; reflexivity].
  - rewrite queryModels_cons, bind_run in H by apply queryTurn_oblivious.
    destruct (fst (queryTurn h userMessage rc rs0 m [])) as [rs1 | e] eqn:T; [ | discriminate H].
    rewrite (queryModels_oblivious h userMessage rc models rs1) in H. cbn [fst] in H.
    destruct (IH rs1 rs H) as (new & -> & F & _).
    assert (P : exists one, rs1 = rs0 ++ one /\ one <> []
                            /\ Forall (pushed h userMessage rc m) one).
    { rewrite queryTurn_cases in T. cbv zeta in T.
      destruct (attempt h userMessage rc m) as [r | e] eqn:A.
      - destruct (context_log h Info _) as [[] | e].
        + injection T as <-. exists [r]. split; [reflexivity | ]. split; [discriminate | ].
          constructor; [left; exact A | constructor].
        + rewrite queryFailed_run in T. cbn [fst] in T.
          destruct (context_log h Err _) as [[] | e']; [ | discriminate T].
          injection T as <-. exists [r; failedResponse m e].
          rewrite <- app_assoc. split; [reflexivity | ]. split; [discriminate | ].
          constructor; [left; exact A | ].
          constructor; [right; exists e; reflexivity | constructor].
      - rewrite queryFailed_run in T. cbn [fst] in T.
        destruct (context_log h Err _) as [[] | e']; [ | discriminate T].
        injection T as <-. exists [failedResponse m e].
        split; [reflexivity | ]. split; [discriminate | ].
        constructor; [right; exists e; reflexivity | constructor]. }
    destruct P as (one & -> & N1 & F1).
    exists (one ++ new). rewrite app_assoc. split; [reflexivity | ]. split.
    + apply Forall_app. split.
      * eapply Forall_impl; [ | exact F1]. intros r Hr. exists m.
        split; [left; reflexivity | exact Hr].
      * eapply Forall_impl; [ | exact F]. intros r (m' & Hm' & Hr).
        exists m'. split; [right; exact Hm' | exact Hr].
    + intros _. destruct one; [contradiction N1; reflexivity | discriminate].
Qed.


Lemma queryFailed_events (h : host) (m : model_config) (rs : list ModelResponse) (e : exn)
    (t : trace) :
  blobs (snd (queryFailed h m rs e t)) = blobs t
  /\ requests (snd (queryFailed h m rs e t)) = requests t.
Proof.
  rewrite queryFailed_run. cbn [snd]. rewrite blobs_app, requests_app. cbn.
  rewrite !app_nil_r. split; reflexivity.
Qed.

(** What the loop does, on any host: it sets no output, and it asks the
    models of the list in order, stopping only when it throws. *)
Lemma queryModels_events (h : host) (userMessage : value) (rc : RagContext)
    (models : list model_config) :
  forall (rs0 : list ModelResponse),
    blobs (snd (queryModels h userMessage rc models rs0 [])) = []
    /\ exists asked rest,
         models = asked ++ rest
         /\ requests (snd (queryModels h userMessage rc models rs0 []))
            = map (fun m => (deployment m, messagesFor userMessage rc)) asked
         /\ (forall rs, fst (queryModels h userMessage rc models rs0 []) = Returned rs ->
               rest = [])
         /\ (models <> [] -> asked <> []).
Proof.
  induction models as [ | m models IH]; intros rs0.
  - split; [reflexivity | ]. exists [], []. split; [reflexivity | ]. split; [reflexivity | ].
    split; [intros; reflexivity | intros N; exact N].
  - rewrite queryModels_cons, bind_run by apply queryTurn_oblivious.
    assert (T : blobs (snd (queryTurn h userMessage rc rs0 m [])) = []
                /\ requests (snd (queryTurn h userMessage rc rs0 m []))
                   = [(deployment m, messagesFor userMessage rc)]).
    { rewrite queryTurn_cases. cbv zeta.
      destruct (attempt h userMessage rc m) as [r | e].
      - destruct (context_log h Info _) as [[] | e]; [split; reflexivity | ].
        destruct (queryFailed_events h m (rs0 ++ [r]) e
                    ([] ++ [CompletionRequested (deployment m) (messagesFor userMessage rc);
                            Logged Info [Text (name m); Text (lit " responded with confidence: ");
                                         Fixed2 (confidence r)]])) as [B R].
        rewrite B, R. split; reflexivity.
      - destruct (queryFailed_events h m rs0 e
                    ([] ++ [CompletionRequested (deployment m) (messagesFor userMessage rc)]))
          as [B R].
        rewrite B, R. split; reflexivity. }
    destruct T as [TB TR].
    destruct (fst (queryTurn h userMessage rc rs0 m [])) as [rs1 | e].
    + rewrite (queryModels_oblivious h userMessage rc models rs1). cbn [fst snd app].
      destruct (IH rs1) as (B & asked & rest & E & R & F & _).
      split; [rewrite blobs_app, TB, B; reflexivity | ].
      exists (m :: asked), rest.
      rewrite (queryModels_oblivious h userMessage rc models rs1 (snd _)). cbn [fst snd].
      rewrite requests_app, TR, R. split; [rewrite E; reflexivity | ].
      split; [reflexivity | ]. split; [exact F | discriminate].
    + cbn [fst snd app]. split; [exact TB | ].
      exists [m], models. rewrite TR. repeat split; discriminate.
Qed.

(** The loop on a host whose plain log call returns: one element per model,
    as long as each model answers or the error call of the logger returns. *)
Lemma queryModels_plain (h : host) (userMessage : value) (rc : RagContext)
    (models : list model_config) :
  returns (context_log h) Info ->
  (forall m, In m models -> exists r, attempt h userMessage rc m = Returned r)
  \/ returns (context_log h) Err ->
  forall (rs0 : list ModelResponse) (t : trace),
  exists evs,
    queryModels h userMessage rc models rs0 t
    = (Returned (rs0 ++ map (entryFor h userMessage rc) models), t ++ evs)
    /\ requests evs = map (fun m => (deployment m, messagesFor userMessage rc)) models
    /\ blobs evs = [].
Proof.
  intros Hi Hm. induction models as [ | m models IH]; intros rs0 t.
  - exists []. cbn. rewrite !app_nil_r. repeat split.
  - assert (T : exists evs1,
                 queryTurn h userMessage rc rs0 m t
                 = (Returned (rs0 ++ [entryFor h userMessage rc m]), t ++ evs1)
                 /\ requests evs1 = [(deployment m, messagesFor userMessage rc)]
                 /\ blobs evs1 = []).
    { rewrite queryTurn_cases. cbv zeta. unfold entryFor.
      destruct (attempt h userMessage rc m) as [r | e] eqn:A.
      - rewrite Hi. eexists. split; [reflexivity | split; reflexivity].
      - destruct Hm as [Hm | He].
        + destruct (Hm m (or_introl eq_refl)) as [r Hr]. rewrite A in Hr. discriminate Hr.
        + rewrite queryFailed_run, He, <- app_assoc. eexists.
          split; [reflexivity | split; reflexivity]. }
    destruct T as (evs1 & T & R1 & B1).
    rewrite queryModels_cons. rewrite (bind_returned _ _ _ _ _ T).
    destruct (IH ltac:(destruct Hm as [Hm | He];
                       [left; intros m' Hm'; apply Hm; right; exact Hm' | right; exact He])
                 (rs0 ++ [entryFor h userMessage rc m]) (t ++ evs1)) as (evs & E & R & B).
    exists (evs1 ++ evs). rewrite E, <- !app_assoc. cbn [map app]. repeat split.
    + rewrite requests_app, R1, R. reflexivity.
    + rewrite blobs_app, B1, B. reflexivity.
Qed.

(** On such a host the array the loop returns, when it returns, has one
    element per model, and every model was asked. *)
Lemma queryModels_plain_returned (h : host) (userMessage : value) (rc : RagContext)
    (models : list model_config) :
  returns (context_log h) Info ->
  forall (rs0 rs : list ModelResponse),
    fst (queryModels h userMessage rc models rs0 []) = Returned rs ->
    rs = rs0 ++ map (entryFor h userMessage rc) models
    /\ requests (snd (queryModels h userMessage rc models rs0 []))
       = map (fun m => (deployment m, messagesFor userMessage rc)) models.
Proof.
  intros Hi. induction models as [ | m models IH]; intros rs0 rs H.
  - cbn in H. injection H as <-. cbn. rewrite app_nil_r. split; reflexivity.
  - rewrite queryModels_cons, bind_run in H by apply queryTurn_oblivious.
    rewrite queryModels_cons, bind_run by apply queryTurn_oblivious.
    cbn [map].
    destruct (attempt h userMessage rc m) as [r | e] eqn:A.
    + replace (entryFor h userMessage rc m) with r by (unfold entryFor; rewrite A; reflexivity).
      assert (T : queryTurn h userMessage rc rs0 m []
                  = (Returned (rs0 ++ [r]),
                     [CompletionRequested (deployment m) (messagesFor userMessage rc);
                      Logged Info [Text (name m); Text (lit " responded with confidence: ");
                                   Fixed2 (confidence r)]])).
      { rewrite queryTurn_cases. cbv zeta. rewrite A, Hi. reflexivity. }
      rewrite T in *. cbn [fst snd] in *.
      rewrite (queryModels_oblivious h userMessage rc models (rs0 ++ [r]) (_ ++ _)) in *.
      cbn [fst snd] in *. destruct (IH _ _ H) as [-> R].
      rewrite <- app_assoc, !requests_app, R. split; reflexivity.
    + replace (entryFor h userMessage rc m) with (failedResponse m e)
        by (unfold entryFor; rewrite A; reflexivity).
      assert (T : queryTurn h userMessage rc rs0 m []
                  = queryFailed h m rs0 e
                      [CompletionRequested (deployment m) (messagesFor userMessage rc)]).
      { rewrite queryTurn_cases. cbv zeta. rewrite A. reflexivity. }
      rewrite T, queryFailed_run in *. cbn [fst snd] in *.
      destruct (context_log h Err _) as [[] | e']; [ | discriminate H].
      rewrite (queryModels_oblivious h userMessage rc models (rs0 ++ [failedResponse m e])
                 (_ ++ _)) in *.
      cbn [fst snd] in *. destruct (IH _ _ H) as [-> R].
      rewrite <- app_assoc, !requests_app, R. split; reflexivity.
Qed.


Lemma queryMultipleModels_cases (h : host) (userMessage : value) (rc : RagContext) (t : trace) :
  queryMultipleModels h userMessage rc t
  = match OpenAIClient_new h with
    | Returned _ => queryModels h userMessage rc modelsToQuery [] t
    | Thrown e => (Thrown e, t)
    end.
Proof.
  unfold queryMultipleModels, bind, lift. destruct (OpenAIClient_new h); reflexivity.
Qed.

(** The two stubs set no output and ask no model, on any host. *)
Lemma storeToDatabase_events (h : host) (responseData : value) :
  blobs (snd (storeToDatabase h responseData [])) = []
  /\ requests (snd (storeToDatabase h responseData [])) = [].
Proof.
  unfold storeToDatabase, try_catch, bind, lift, log.
  destruct (get responseData "messageId") as [x | e];
    [destruct (ToString (number_to_string h) x) as [id | e];
     [destruct (context_log h Info _) as [[] | e] | ] | ];
    cbn [fst snd]; try (destruct (context_log h Err _)); split; reflexivity.
Qed.

Lemma sendResponseToBot_events (h : host) (responseData : value) :
  blobs (snd (sendResponseToBot h responseData [])) = []
  /\ requests (snd (sendResponseToBot h responseData [])) = [].
Proof.
  unfold sendResponseToBot, try_catch, bind, lift, log.
  destruct (BOT_WEBHOOK_URL h) as [[ | c u] | ];
    try (destruct (get responseData "conversationId") as [x | e];
         [destruct (ToString (number_to_string h) x) as [id | e];
          [destruct (context_log h Info _) as [[] | e] | ] | ]);
    try (destruct (context_log h Warn _) as [[] | e]);
    cbn [fst snd]; try (destruct (context_log h Err _)); split; reflexivity.
Qed.

Lemma storeToDatabase_plain (h : host) (responseData x : value) (id : jsstring) (t : trace) :
  returns (context_log h) Info ->
  get responseData "messageId" = Returned x ->
  ToString (number_to_string h) x = Returned id ->
  storeToDatabase h responseData t
  = (Returned tt, t ++ [Logged Info [Text (lit "Storing to database: "); Text id]]).
Proof.
  intros Hi Hx Hid. unfold storeToDatabase, try_catch, bind, lift, log.
  rewrite Hx, Hid, Hi. reflexivity.
Qed.

Lemma sendResponseToBot_plain (h : host) (responseData x : value) (c : N) (url id : jsstring)
    (t : trace) :
  returns (context_log h) Info ->
  BOT_WEBHOOK_URL h = Some (c :: url) ->
  get responseData "conversationId" = Returned x ->
  ToString (number_to_string h) x = Returned id ->
  sendResponseToBot h responseData t
  = (Returned tt,
     t ++ [Logged Info [Text (lit "Response sent to bot for conversation: "); Text id]]).
Proof.
  intros Hi Hu Hx Hid. unfold sendResponseToBot, try_catch, bind, lift, log.
  rewrite Hu, Hx, Hid, Hi. reflexivity.
Qed.

(** With an error call that returns, the two stubs return whatever happens
    in their [try]. *)
Lemma storeToDatabase_logged (h : host) (responseData : value) (t : trace) :
  returns (context_log h) Err ->
  fst (storeToDatabase h responseData t) = Returned tt.
Proof.
  intros He. unfold storeToDatabase, try_catch, bind, lift, log.
  destruct (get responseData "messageId") as [x | e];
    [destruct (ToString (number_to_string h) x) as [id | e];
     [destruct (context_log h Info _) as [[] | e] | ] | ];
    cbn [fst snd]; rewrite ?He; reflexivity.
Qed.

Lemma sendResponseToBot_logged (h : host) (responseData : value) (t : trace) :
  returns (context_log h) Err ->
  fst (sendResponseToBot h responseData t) = Returned tt.
Proof.
  intros He. unfold sendResponseToBot, try_catch, bind, lift, log.
  destruct (BOT_WEBHOOK_URL h) as [[ | c u] | ];
    try (destruct (get responseData "conversationId") as [x | e];
         [destruct (ToString (number_to_string h) x) as [id | e];
          [destruct (context_log h Info _) as [[] | e] | ] | ]);
    try (destruct (context_log h Warn _) as [[] | e]);
    cbn [fst snd]; rewrite ?He; reflexivity.
Qed.

(** *** The final response as a text *)

Lemma json_number_in_range (c : float) :
  (0 <? c) = true -> (c <=? 1) = true -> SerializeJSONNumber c = JNum c.
Proof.
  intros P L. unfold SerializeJSONNumber.
  rewrite FloatAxioms.ltb_spec in P. rewrite FloatAxioms.leb_spec in L.
  destruct (Prim2SF c) as [s | [ | ] | | s m e]; try discriminate P; try reflexivity.
  discriminate L.
Qed.

Lemma pushed_confidence (h : host) (userMessage : value) (rc : RagContext)
    (m : model_config) (r : ModelResponse) :
  (0 <=? ragScoreArgument rc) = true ->
  pushed h userMessage rc m r ->
  model r = name m
  /\ is_nan (confidence r) = false
  /\ SerializeJSONNumber (confidence r) = JNum (confidence r).
Proof.
  intros Hr [A | [e ->]].
  - destruct (attempt_returned _ _ _ _ _ A) as (text & fr & ->). cbn [model confidence].
    split; [reflexivity | ].
    split; [apply ScorerFacts.score_not_nan, ragScoreArgument_not_nan | ].
    apply json_number_in_range.
    + apply MagnitudeFacts.score_positive. exact Hr.
    + apply MagnitudeFacts.score_le_one, ragScoreArgument_not_nan.
  - repeat split.
Qed.

Lemma final_members (messageId conversationId timestamp : value) (best : ModelResponse)
    (rs : list ModelResponse) (rc : RagContext) :
  let final := JSON_stringify (finalObject messageId conversationId best rs rc timestamp) in
  member_of final "messageId" = SerializeJSONProperty messageId
  /\ member_of final "conversationId" = SerializeJSONProperty conversationId
  /\ member_of final "response" = Some (JStr (response best))
  /\ member_of final "confidenceScore" = Some (SerializeJSONNumber (confidence best))
  /\ member_of final "selectedModel" = Some (JStr (model best))
  /\ member_of final "allModelScores"
     = Some (JArr (map (fun r => JObj [ ("model", JStr (model r));
                                        ("confidence", SerializeJSONNumber (confidence r)) ]%string)
                       rs))
  /\ member_of final "ragSources"
     = Some (JArr (map JStr match sources rc with Some l => l | None => [] end))
  /\ member_of final "timestamp" = SerializeJSONProperty timestamp
  /\ member_of final "status" = None
  /\ member_of final "userId" = None.
Proof.
  cbv zeta. unfold JSON_stringify, finalObject. cbn [SerializeJSONProperty].
  rewrite !map_map. cbn [SerializeJSONProperty].
  destruct (SerializeJSONProperty messageId), (SerializeJSONProperty conversationId),
    (SerializeJSONProperty timestamp); cbn; repeat split; reflexivity.
Qed.

Ltac step :=
  rewrite bind_run by oblivious_steps; cbn beta iota; cbn [lift log emit ret throw fst snd].

Lemma queryMultipleModels_events (h : host) (userMessage : value) (rc : RagContext) :
  blobs (snd (queryMultipleModels h userMessage rc [])) = []
  /\ exists asked rest,
       modelsToQuery = asked ++ rest
       /\ requests (snd (queryMultipleModels h userMessage rc []))
          = map (fun m => (deployment m, messagesFor userMessage rc)) asked
       /\ (forall rs, fst (queryMultipleModels h userMessage rc []) = Returned rs -> rest = [])
       /\ (OpenAIClient_new h = Returned tt -> asked <> []).
Proof.
  rewrite queryMultipleModels_cases. destruct (OpenAIClient_new h) as [[] | e].
  - destruct (queryModels_events h userMessage rc modelsToQuery [])
      as (B & asked & rest & E & R & F & N).
    split; [exact B | ]. exists asked, rest. repeat split; try assumption.
    intros _. apply N. discriminate.
  - split; [reflexivity | ]. exists [], modelsToQuery. repeat split; discriminate.
Qed.

Lemma finalResponse_run (mb um cid : value) (best : ModelResponse) (rs : list ModelResponse)
    (rc : RagContext) (t : trace) :
  get mb "userMessage" = Returned um ->
  finalResponse mb cid best rs rc t
  = (Returned (finalObject (prop mb "messageId") cid best rs rc (prop mb "timestamp")), t).
Proof.
  intros Hum. unfold finalResponse, bind, lift, ret.
  rewrite (get_prop _ _ "messageId" _ Hum), (get_prop _ _ "timestamp" _ Hum). reflexivity.
Qed.

(** The body of the [try], on any host: the blob output is set at most once,
    to the text of the final response built from the selected element; it
    is set whenever the body returns. *)
Lemma processMessage_blobs (h : host) (parsed : outcome value) :
  (blobs (snd (processMessage h parsed [])) = []
   /\ exists e, fst (processMessage h parsed []) = Thrown e)
  \/ exists mb um rc rs best,
       parsed = Returned mb /\ get mb "userMessage" = Returned um
       /\ fst (retrieveRagContext h um []) = Returned rc
       /\ fst (queryMultipleModels h um rc []) = Returned rs
       /\ selectBestResponse rs = Some best
       /\ blobs (snd (processMessage h parsed []))
          = [JSON_stringify (finalObject (prop mb "messageId") (prop mb "conversationId")
                               best rs rc (prop mb "timestamp"))].
Proof.
  unfold processMessage.
  step. destruct parsed as [mb | e]; [ | left; split; [ | eexists]; reflexivity].
  step. destruct (get mb "userMessage") as [um | e] eqn:Hum;
    [ | left; split; [ | eexists]; reflexivity].
  rewrite (get_prop _ _ "conversationId" _ Hum), (get_prop _ _ "messageId" _ Hum).
  step. step.
  step. destruct (ToString (number_to_string h) (prop mb "messageId")) as [id | e];
    [ | left; split; [ | eexists]; reflexivity].
  step. destruct (context_log h Info _) as [[] | e];
    [ | left; split; [ | eexists]; reflexivity].
  step. destruct (retrieveRagContext_events h um) as [RB _].
  destruct (fst (retrieveRagContext h um [])) as [rc | e] eqn:R;
    [ | left; cbn [fst snd]; split; [rewrite !blobs_app, RB | eexists]; reflexivity].
  step. destruct (queryMultipleModels_events h um rc) as [QB _].
  destruct (fst (queryMultipleModels h um rc [])) as [rs | e] eqn:Q;
    [ | left; cbn [fst snd]; split; [rewrite !blobs_app, RB, QB | eexists]; reflexivity].
  step. destruct (selectBestResponse rs) as [best | ] eqn:S;
    [ | left; cbn [throw fst snd]; split; [rewrite !blobs_app, RB, QB | eexists]; reflexivity].
  cbn [ret fst snd].
  step. rewrite !(finalResponse_run mb um _ best rs rc _ Hum). cbn [fst snd].
  set (final := finalObject _ _ _ _ _ _).
  step. destruct (storeToDatabase_events h final) as [SB _].
  destruct (fst (storeToDatabase h final [])) as [[] | e];
    [ | left; cbn [fst snd]; split; [rewrite !blobs_app, RB, QB, SB | eexists]; reflexivity].
  step. destruct (sendResponseToBot_events h final) as [BB _].
  destruct (fst (sendResponseToBot h final [])) as [[] | e];
    [ | left; cbn [fst snd]; split; [rewrite !blobs_app, RB, QB, SB, BB | eexists];
        reflexivity].
  step. right. exists mb, um, rc, rs, best.
  repeat (split; [reflexivity || assumption | ]).
  unfold log. cbn [snd]. rewrite !blobs_app, RB, QB, SB, BB. reflexivity.
Qed.

(** The completion requests of the body of the [try], on any host: those of
    the fan-out, for the message of the queue message. *)
Lemma processMessage_requests (h : host) (parsed : outcome value) :
  requests (snd (processMessage h parsed []))
  = match parsed with
    | Returned mb =>
        match get mb "userMessage" with
        | Returned um =>
            match ToString (number_to_string h) (prop mb "messageId") with
            | Returned id =>
                match context_log h Info [Text (lit "Processing message: "); Text id] with
                | Returned _ =>
                    match fst (retrieveRagContext h um []) with
                    | Returned rc => requests (snd (queryMultipleModels h um rc []))
                    | Thrown _ => []
                    end
                | Thrown _ => []
                end
            | Thrown _ => []
            end
        | Thrown _ => []
        end
    | Thrown _ => []
    end.
Proof.
  unfold processMessage.
  step. destruct parsed as [mb | e]; [ | reflexivity].
  step. destruct (get mb "userMessage") as [um | e] eqn:Hum; [ | reflexivity].
  rewrite (get_prop _ _ "conversationId" _ Hum), (get_prop _ _ "messageId" _ Hum).
  step. step.
  step. destruct (ToString (number_to_string h) (prop mb "messageId")) as [id | e];
    [ | reflexivity].
  step. destruct (context_log h Info _) as [[] | e]; [ | reflexivity].
  step. destruct (retrieveRagContext_events h um) as [_ RR].
  destruct (fst (retrieveRagContext h um [])) as [rc | e] eqn:R;
    [ | cbn [snd]; rewrite !requests_app, RR; reflexivity].
  step.
  destruct (fst (queryMultipleModels h um rc [])) as [rs | e] eqn:Q;
    [ | cbn [snd]; rewrite !requests_app, RR; reflexivity].
  step. destruct (selectBestResponse rs) as [best | ] eqn:S;
    [ | cbn [throw fst snd]; rewrite !requests_app, RR; cbn; apply app_nil_r].
  cbn [ret fst snd].
  step. rewrite !(finalResponse_run mb um _ best rs rc _ Hum). cbn [fst snd].
  set (final := finalObject _ _ _ _ _ _).
  step. destruct (storeToDatabase_events h final) as [_ SR].
  destruct (fst (storeToDatabase h final [])) as [[] | e];
    [ | cbn [snd]; rewrite !requests_app, RR, SR; cbn; rewrite !app_nil_r; reflexivity].
  step. destruct (sendResponseToBot_events h final) as [_ BR].
  destruct (fst (sendResponseToBot h final [])) as [[] | e];
    [ | cbn [snd]; rewrite !requests_app, RR, SR, BR; cbn; rewrite !app_nil_r; reflexivity].
  step. unfold log. cbn [snd]. rewrite !requests_app, RR, SR, BR. cbn.
  rewrite !app_nil_r. reflexivity.
Qed.

(** The handler, by what the body of its [try] does. *)
Lemma handler_cases (h : host) (parsed : outcome value) (t : trace) :
  let opening := Logged Info [Text (lit "Worker function triggered")] in
  handler h parsed t
  = match context_log h Info [Text (lit "Worker function triggered")] with
    | Thrown e => (Thrown e, t ++ [opening])
    | Returned _ =>
        match fst (processMessage h parsed []) with
        | Returned _ => (Returned tt, t ++ opening :: snd (processMessage h parsed []))
        | Thrown e =>
            let line := [Text (lit "Error in worker function:"); Caught e] in
            (match context_log h Err line with
             | Returned _ => Thrown e
             | Thrown e' => Thrown e'
             end,
             t ++ opening :: snd (processMessage h parsed []) ++ [Logged Err line])
        end
    end.
Proof.
  cbv zeta. unfold handler, bind at 1, log at 1.
  destruct (context_log h Info [Text (lit "Worker function triggered")]) as [[] | e];
    [ | reflexivity].
  rewrite try_catch_run by apply processMessage_oblivious.
  destruct (fst (processMessage h parsed [])) as [[] | e].
  - rewrite <- app_assoc. reflexivity.
  - unfold bind, log, throw. rewrite <- !app_assoc.
    destruct (context_log h Err _) as [[] | e']; reflexivity.
Qed.

Lemma handler_cases_nil (h : host) (parsed : outcome value) :
  handler h parsed []
  = match context_log h Info [Text (lit "Worker function triggered")] with
    | Thrown e => (Thrown e, [Logged Info [Text (lit "Worker function triggered")]])
    | Returned _ =>
        match fst (processMessage h parsed []) with
        | Returned _ =>
            (Returned tt,
             Logged Info [Text (lit "Worker function triggered")]
             :: snd (processMessage h parsed []))
        | Thrown e =>
            (match context_log h Err [Text (lit "Error in worker function:"); Caught e] with
             | Returned _ => Thrown e
             | Thrown e' => Thrown e'
             end,
             Logged Info [Text (lit "Worker function triggered")]
             :: snd (processMessage h parsed [])
                ++ [Logged Err [Text (lit "Error in worker function:"); Caught e]])
        end
    end.
Proof. rewrite handler_cases. reflexivity. Qed.

Lemma handler_requests (h : host) (parsed : outcome value) :
  requests (snd (handler h parsed [])) = requests (snd (processMessage h parsed []))
  \/ requests (snd (handler h parsed [])) = [].
Proof.
  rewrite handler_cases_nil.
  destruct (context_log h Info _) as [[] | e]; [ | right; reflexivity]. left.
  destruct (fst (processMessage h parsed [])) as [[] | e]; cbn [snd]; [reflexivity | ].
  change (requests (?a :: ?l)) with (requests [a] ++ requests l).
  rewrite requests_app. cbn. apply app_nil_r.
Qed.


(** Every text a run of the handler gives to the blob output is the text of
    the final response built from the element selected among those the
    fan-out returned; a run that returns has set the output, and no run
    sets it twice. *)
Lemma handler_final (h : host) (parsed : outcome value) (t : trace)
    (out : outcome unit) (evs : list event) :
  handler h parsed t = (out, t ++ evs) ->
  (blobs evs = [] /\ exists e, out = Thrown e)
  \/ exists mb um rc rs best,
       parsed = Returned mb /\ get mb "userMessage" = Returned um
       /\ fst (retrieveRagContext h um []) = Returned rc
       /\ fst (queryMultipleModels h um rc []) = Returned rs
       /\ selectBestResponse rs = Some best
       /\ blobs evs
          = [JSON_stringify (finalObject (prop mb "messageId") (prop mb "conversationId")
                               best rs rc (prop mb "timestamp"))].
Proof.
  rewrite handler_cases. cbv zeta.
  destruct (context_log h Info _) as [[] | e].
  - destruct (processMessage_blobs h parsed) as [[B [e E]] | (mb & um & rc & rs & best & P)].
    + rewrite E. intros H. injection H as <- H. apply app_inv_head in H. subst evs.
      left. split.
      * change (blobs (Logged Info [Text (lit "Worker function triggered")]
                       :: snd (processMessage h parsed [])
                          ++ [Logged Err [Text (lit "Error in worker function:"); Caught e]]))
          with (blobs (snd (processMessage h parsed [])
                       ++ [Logged Err [Text (lit "Error in worker function:"); Caught e]])).
        rewrite blobs_app, B. reflexivity.
      * destruct (context_log h Err _); eexists; reflexivity.
    + intros H. right. exists mb, um, rc, rs, best.
      destruct P as (P1 & P2 & P3 & P4 & P5 & P6).
      repeat (split; [assumption | ]).
      destruct (fst (processMessage h parsed [])) as [[] | e];
        injection H as _ H; apply app_inv_head in H; subst evs.
      * exact P6.
      * change (blobs (Logged Info [Text (lit "Worker function triggered")]
                       :: snd (processMessage h parsed [])
                          ++ [Logged Err [Text (lit "Error in worker function:"); Caught e]]))
          with (blobs (snd (processMessage h parsed [])
                       ++ [Logged Err [Text (lit "Error in worker function:"); Caught e]])).
        rewrite blobs_app, P6. reflexivity.
  - intros H. injection H as <- H. apply app_inv_head in H. subst evs.
    left. split; [reflexivity | eexists; reflexivity].
Qed.

End RunFacts.

(** ** Runs of the chat worker *)

Module WorkerRunFacts.
Import JS Effects Silent Traces EffectFacts Binary64 Binary64Facts ChatWorker WorkerFacts.
Import RunFacts Paths.
Open Scope float_scope.

#[local] Hint Resolve retrieveRagContext_oblivious queryMultipleModels_oblivious
  finalResponse_oblivious storeToDatabase_oblivious sendResponseToBot_oblivious : traces.

Lemma attempt_returned_tokens (h : host) (userMessage : value) (rc : RagContext)
    (m : model_config) (r : ModelResponse) :
  attempt h userMessage rc m = Returned r ->
  exists text finishReason totalTokens,
    r = {| model := name m; response := text;
           confidence := calculateConfidenceScore text (ragScoreArgument rc) finishReason;
           tokensUsed := Some totalTokens; error := None |}.
Proof.
  unfold attempt, queryModel, bind, emit, lift, ret, throw. cbn [fst].
  repeat match goal with
         | |- context [match ?x with _ => _ end] => destruct x
         end; cbn [fst]; try discriminate;
    intros H; injection H as <-; eexists _, _, _; reflexivity.
Qed.

Lemma entryFor_model (h : host) (userMessage : value) (rc : RagContext) (m : model_config) :
  model (entryFor h userMessage rc m) = name m.
Proof.
  unfold entryFor. destruct (attempt h userMessage rc m) as [r | e] eqn:A; [ | reflexivity].
  destruct (attempt_returned _ _ _ _ _ A) as (text & fr & ->). reflexivity.
Qed.

(** No element has a greater confidence than the selected one. *)
Lemma selected_is_maximum (rs : list ModelResponse) (best : ModelResponse) :
  (forall r, In r rs -> is_nan (confidence r) = false) ->
  selectBestResponse rs = Some best ->
  forall r, In r rs -> (confidence r <=? confidence best) = true.
Proof.
  intros Hnan S r Hr.
  destruct (SelectorFacts.first_maximum rs) as (before & best' & after & Ers & S' & Hb & Ha);
    [intros ->; contradiction | exact Hnan | ].
  rewrite S in S'. injection S' as <-.
  assert (Nb : is_nan (confidence best) = false).
  { apply Hnan. rewrite Ers. apply in_or_app. right. left. reflexivity. }
  pose proof (Hnan r Hr) as Nr.
  rewrite Ers in Hr. apply in_app_or in Hr. destruct Hr as [Hr | [<- | Hr]].
  - apply SelectorFacts.ltb_leb; try assumption. apply Hb. assumption.
  - rewrite leb_ord by assumption. apply Z.leb_refl.
  - apply Ha. assumption.
Qed.


Lemma selected_is_element (rs : list ModelResponse) (best : ModelResponse) :
  selectBestResponse rs = Some best -> In best rs.
Proof.
  intros S. destruct rs as [ | r rs']; [discriminate S | ].
  destruct (selectBestResponse_some (r :: rs')) as (b & S' & Hin); [discriminate | ].
  rewrite S in S'. injection S' as <-. exact Hin.
Qed.

(** What a run hands to the fan-out and gets from it, when the fan-out
    returns: the context is the mock one or the empty one, and every element
    of the array is one the loop pushed for a configured model. *)
Lemma fan_out_returned (h : host) (um : value) (rc : RagContext) (rs : list ModelResponse) :
  fst (retrieveRagContext h um []) = Returned rc ->
  fst (queryMultipleModels h um rc []) = Returned rs ->
  (0 <=? ragScoreArgument rc) = true
  /\ forall r, In r rs -> exists m, In m modelsToQuery /\ pushed h um rc m r.
Proof.
  intros R Q. split.
  - destruct (retrieveRagContext h um []) as [o t'] eqn:E. cbn [fst] in R. subst o.
    destruct (retrieveRagContext_returned _ _ _ _ _ E) as [-> | ->]; reflexivity.
  - rewrite queryMultipleModels_cases in Q. destruct (OpenAIClient_new h); [ | discriminate Q].
    destruct (queryModels_returned _ _ _ _ _ _ Q) as (new & -> & F & _).
    cbn [app]. rewrite Forall_forall in F. exact F.
Qed.

(** On a host whose plain log call returns, the context is the mock one and
    the array has one element per configured model. *)
Lemma fan_out_plain (h : host) (um : value) (rc : RagContext) (rs : list ModelResponse) :
  returns (context_log h) Info ->
  fst (retrieveRagContext h um []) = Returned rc ->
  fst (queryMultipleModels h um rc []) = Returned rs ->
  rc = mockContext /\ rs = map (entryFor h um mockContext) modelsToQuery.
Proof.
  intros Hi R Q. rewrite (retrieveRagContext_plain h um [] Hi) in R. injection R as <-.
  split; [reflexivity | ].
  rewrite queryMultipleModels_cases in Q. destruct (OpenAIClient_new h); [ | discriminate Q].
  apply (queryModels_plain_returned h um mockContext modelsToQuery Hi [] rs Q).
Qed.

Lemma entryFor_pushed (h : host) (um : value) (rc : RagContext) (m : model_config) :
  pushed h um rc m (entryFor h um rc m).
Proof.
  unfold pushed, entryFor. destruct (attempt h um rc m) as [r | e].
  - left. reflexivity.
  - right. exists e. reflexivity.
Qed.

(** C3 (amended).  Whenever a run of the chat worker sets the blob output,
    whatever the host and the queue message, the final response it writes
    takes its confidence score from the selected model response: it is the
    confidence of one of the responses listed in [allModelScores], the one
    named in [selectedModel], and none of them has a greater one.  A run of
    orchestrator.js returns instead the average of the confidence hints 0.9
    and 0.7, rounded to two decimals: 0.8. *)
Theorem worker_confidence_is_maximum :
  (forall (h : host) (parsed : outcome value) (t : trace) (out : outcome unit)
          (evs : list event) (final : option json),
     handler h parsed t = (out, t ++ evs) ->
     In final (blobs evs) ->
     exists modelResponses best,
       member_of final "allModelScores"
       = Some (JArr (map (fun r => JObj [ ("model", JStr (model r));
                                          ("confidence", JNum (confidence r)) ]%string)
                         modelResponses))
       /\ In best modelResponses
       /\ member_of final "confidenceScore" = Some (JNum (confidence best))
       /\ member_of final "selectedModel" = Some (JStr (model best))
       /\ (forall r, In r modelResponses -> (confidence r <=? confidence best) = true))
  /\ (forall (h : Models.host) (userMessage userId result : value) (t t' : trace),
        Orchestrator.runOrchestration h userMessage userId t = (Returned result, t') ->
        get result "confidence" = Returned (VNum 0.8)).
Proof.
  split.
  - intros h parsed t out evs final H Hin.
    destruct (handler_final h parsed t out evs H)
      as [[B _] | (mb & um & rc & rs & best & -> & Hum & R & Q & S & B)];
      rewrite B in Hin; [contradiction Hin | ].
    destruct Hin as [<- | []].
    destruct (fan_out_returned h um rc rs R Q) as [Hr P].
    assert (C : forall r, In r rs ->
                  is_nan (confidence r) = false
                  /\ SerializeJSONNumber (confidence r) = JNum (confidence r)).
    { intros r Hr'. destruct (P r Hr') as (m & _ & Pm).
      destruct (pushed_confidence h um rc m r Hr Pm) as (_ & N & J). split; assumption. }
    pose proof (selected_is_element rs best S) as Hb.
    destruct (final_members (prop mb "messageId") (prop mb "conversationId")
                (prop mb "timestamp") best rs rc)
      as (_ & _ & _ & F1 & F2 & F3 & _).
    exists rs, best. split.
    + rewrite F3. f_equal. f_equal. apply map_ext_in. intros r Hr'.
      rewrite (proj2 (C r Hr')). reflexivity.
    + split; [exact Hb | ]. split; [rewrite F1, (proj2 (C best Hb)); reflexivity | ].
      split; [exact F2 | ].
      apply selected_is_maximum; [ | exact S]. intros r Hr'. apply (C r Hr').
  - intros h userMessage userId result t t'.
    unfold Orchestrator.runOrchestration, Rag.retrieveContext, Models.callGPT4,
      Models.callGPT35, bind, ret, lift. cbn [get lookup String.eqb].
    destruct (Models.complete h (lit "gpt-4o") _ t) as [[ca | e] t1]; [ | discriminate].
    destruct (Models.complete h (lit "gpt-35-turbo") _ t1) as [[cb | e] t2]; [ | discriminate].
    intros H. injection H as <- <-. reflexivity.
Qed.

(** A run on the sample queue message in which the answer of [gpt-4] was cut:
    the two confidences differ, and the final response carries the greater. *)
Lemma worker_confidence_is_maximum_witness :
  exists final modelResponses best,
    blobs (snd (handler Scenarios.first_model_cut (Returned Samples.queue_message) []))
    = [final]
    /\ member_of final "allModelScores"
       = Some (JArr (map (fun r => JObj [ ("model", JStr (model r));
                                          ("confidence", JNum (confidence r)) ]%string)
                         modelResponses))
    /\ In best modelResponses
    /\ member_of final "confidenceScore" = Some (JNum (confidence best))
    /\ member_of final "selectedModel" = Some (JStr (lit "gpt-35-turbo"))
    /\ (forall r, In r modelResponses -> (confidence r <=? confidence best) = true).
Proof.
  destruct worker_confidence_is_maximum as [W _].
  set (run := handler Scenarios.first_model_cut (Returned Samples.queue_message) []).
  assert (E : exists final, blobs (snd run) = [final]
                            /\ member_of final "selectedModel" = Some (JStr (lit "gpt-35-turbo")))
    by (eexists; split; vm_compute; reflexivity).
  destruct E as (final & B & M).
  destruct (W Scenarios.first_model_cut (Returned Samples.queue_message) [] (fst run) (snd run)
              final)
    as (rs & best & A & Hb & C & _ & Mx).
  - reflexivity.
  - rewrite B. left. reflexivity.
  - exists final, rs, best. repeat split; assumption.
Defined.


(** The orchestrator's response carries 0.8 where the hint of its first
    response is 0.9. *)
Lemma orchestrator_confidence_is_average :
  fst (Orchestrator.runOrchestration Samples.answering_host
         (VStr (lit "What is our refund policy?")) (VStr (lit "u1")) [])
  = Returned (VObj [ ("answer", VStr (lit "Thirty days."));
                     ("confidence", VNum 0.8);
                     ("sources", VArr [VStr (lit "doc1"); VStr (lit "doc2")]) ]%string)
  /\ option_map Models.confidence_hint
       (match fst (Models.callGPT4 Samples.answering_host
                     (VStr (lit "What is our refund policy?")) (VObj []) []) with
        | Returned r => Some r
        | Thrown _ => None
        end) = Some 0.9
  /\ (0.8 <? 0.9) = true.
Proof. repeat split; reflexivity. Qed.




(** With an error call that throws, the failure of the first model ends the
    fan-out: the [catch] of the loop throws before it pushes. *)
Lemma fan_out_without_error_logger (h : host) (userMessage : value) (rc : RagContext)
    (e le : exn) (t : trace) :
  throws (context_log h) Err le ->
  OpenAIClient_new h = Returned tt ->
  attempt h userMessage rc {| name := lit "gpt-4"; deployment := lit "gpt-4" |} = Thrown e ->
  queryMultipleModels h userMessage rc t
  = (Thrown le,
     t ++ [CompletionRequested (lit "gpt-4") (messagesFor userMessage rc);
           Logged Err [Text (lit "Error querying "); Text (lit "gpt-4"); Text (lit ":");
                       Val (VStr (message e))]]).
Proof.
  intros He Hc A. rewrite queryMultipleModels_cases, Hc.
  unfold modelsToQuery. rewrite queryModels_cons. unfold bind.
  rewrite queryTurn_cases. cbv zeta. rewrite A, queryFailed_run, He, <- app_assoc. reflexivity.
Qed.

(** C7.  On an invocation context whose [log] has no [error] property, the
    failure of the completion call of [gpt-4] ends the fan-out: the [catch]
    of the loop calls [context.log.error] before it pushes, the call throws,
    and [queryMultipleModels] throws in its turn, with no element for
    [gpt-4] and without asking [gpt-35-turbo]; the run of the worker then
    throws and sets no blob output. *)
Theorem fan_out_stops_at_first_failure :
  let h := Scenarios.first_model_down in
  let userMessage := VStr (lit "What is our refund policy?") in
  getChatCompletions h (lit "gpt-4") (messagesFor userMessage mockContext)
  = Thrown Samples.dependency_error
  /\ (exists r, attempt h userMessage mockContext
                  {| name := lit "gpt-35-turbo"; deployment := lit "gpt-35-turbo" |}
                = Returned r)
  /\ fst (queryMultipleModels h userMessage mockContext [])
     = Thrown (Error (lit "context.log.error is not a function"))
  /\ requests (snd (queryMultipleModels h userMessage mockContext []))
     = [(lit "gpt-4", messagesFor userMessage mockContext)]
  /\ fst (handler h (Returned Samples.queue_message) [])
     = Thrown (Error (lit "context.log.error is not a function"))
  /\ blobs (snd (handler h (Returned Samples.queue_message) [])) = [].
Proof.
  cbv zeta. split; [reflexivity | ]. split; [eexists; reflexivity | ].
  repeat split; reflexivity.
Qed.

Lemma all_zero_selects_first (first : ModelResponse) (rest : list ModelResponse) :
  (forall r, In r (first :: rest) -> confidence r = 0.0) ->
  selectBestResponse (first :: rest) = Some first.
Proof.
  intros Z. rewrite SelectorFacts.selectBestResponse_cons.
  destruct (selectBestResponse rest) as [b | ] eqn:S; [ | reflexivity].
  rewrite (Z first (or_introl eq_refl)), (Z b (or_intror (selected_is_element rest b S))).
  reflexivity.
Qed.

(** A text the handler gives to the blob output has no member [status]. *)
Lemma final_has_no_status (h : host) (parsed : outcome value) (t : trace)
    (out : outcome unit) (evs : list event) (final : option json) :
  handler h parsed t = (out, t ++ evs) ->
  In final (blobs evs) ->
  member_of final "status" = None.
Proof.
  intros H Hin.
  destruct (handler_final h parsed t out evs H)
    as [[B _] | (mb & um & rc & rs & best & -> & Hum & R & Q & S & B)];
    rewrite B in Hin; [contradiction Hin | ].
  destruct Hin as [<- | []]. apply final_members.
Qed.

(** C8 (amended).  When every configured model failed, so that every element
    of the array has confidence 0.0, the selector returns the element of the
    first configured model, and the final response built from it carries
    confidence 0.0, the name of the first configured model, ['gpt-4'], and
    the placeholder text.  No final response of the chat worker, in any run
    on any host, has a [status] member. *)
Theorem all_models_failed
    (errors : model_config -> exn) (messageId conversationId timestamp : value)
    (ragContext : RagContext) :
  let modelResponses := map (fun m => failedResponse m (errors m)) modelsToQuery in
  let final first :=
    JSON_stringify (finalObject messageId conversationId first modelResponses ragContext
                      timestamp) in
  (forall r, In r modelResponses -> confidence r = 0.0)
  /\ (exists first,
        selectBestResponse modelResponses = Some first
        /\ hd_error modelResponses = Some first
        /\ member_of (final first) "confidenceScore" = Some (JNum 0.0)
        /\ member_of (final first) "selectedModel" = Some (JStr (lit "gpt-4"))
        /\ member_of (final first) "response" = Some (JStr (lit "Error generating response"))
        /\ member_of (final first) "status" = None)
  /\ (forall (first : ModelResponse) (rest : list ModelResponse),
        (forall r, In r (first :: rest) -> confidence r = 0.0) ->
        selectBestResponse (first :: rest) = Some first)
  /\ (forall (h : host) (parsed : outcome value) (t : trace) (out : outcome unit)
             (evs : list event) (text : option json),
        handler h parsed t = (out, t ++ evs) ->
        In text (blobs evs) ->
        member_of text "status" = None).
Proof.
  cbv zeta.
  assert (Z : forall r, In r (map (fun m => failedResponse m (errors m)) modelsToQuery) ->
                confidence r = 0.0).
  { intros r Hr. apply in_map_iff in Hr. destruct Hr as (m & <- & _). reflexivity. }
  split; [exact Z | ]. split.
  - eexists. split; [apply all_zero_selects_first; exact Z | ]. split; [reflexivity | ].
    match goal with
    | |- context [finalObject ?a ?b ?c ?d ?e ?f] =>
        destruct (final_members a b f c d e) as (_ & _ & F1 & F2 & F3 & _ & _ & _ & F4 & _)
    end.
    rewrite F1, F2, F3, F4. repeat split; reflexivity.
  - split; [exact all_zero_selects_first | exact final_has_no_status].
Qed.

(** The final response built in line 44 from an array of two failure
    entries has no [status] member, where the specification has [status "failed"];
    and on a host whose logger has no [error], the run in which both models
    fail throws and writes no final response at all. *)
Lemma failed_run_has_no_status :
  let failed := map (fun m => failedResponse m Samples.dependency_error) modelsToQuery in
  (exists first,
     selectBestResponse failed = Some first
     /\ member_of (JSON_stringify
                     (finalObject (VStr (lit "c1_1706534400000")) (VStr (lit "c1")) first failed
                        mockContext (VStr (lit "2024-01-29T13:20:00.000Z"))))
          "status" = None)
  /\ None <> Some (JStr (lit "failed"))
  /\ (exists e, fst (handler Samples.plain_logger_host (Returned Samples.queue_message) [])
               = Thrown e)
  /\ blobs (snd (handler Samples.plain_logger_host (Returned Samples.queue_message) [])) = [].
Proof.
  cbv zeta. split; [eexists; split; reflexivity | ]. split; [discriminate | ].
  split; [eexists; reflexivity | reflexivity].
Qed.

(** *** The two stubs at the end of a run *)

(** What [storeToDatabase] does, call by call. *)
Lemma storeToDatabase_cases (h : host) (responseData : value) (t : trace) :
  storeToDatabase h responseData t
  = match match get responseData "messageId" with
          | Returned x => ToString (number_to_string h) x
          | Thrown e => Thrown e
          end with
    | Returned id =>
        let line := [Text (lit "Storing to database: "); Text id] in
        match context_log h Info line with
        | Returned _ => (Returned tt, t ++ [Logged Info line])
        | Thrown e =>
            let failed := [Text (lit "Database storage failed:"); Val (VStr (message e))] in
            (context_log h Err failed, t ++ [Logged Info line; Logged Err failed])
        end
    | Thrown e =>
        let failed := [Text (lit "Database storage failed:"); Val (VStr (message e))] in
        (context_log h Err failed, t ++ [Logged Err failed])
    end.
Proof.
  unfold storeToDatabase, try_catch, bind, lift, log.
  destruct (get responseData "messageId") as [x | e]; [ | reflexivity].
  destruct (ToString (number_to_string h) x) as [id | e]; [ | reflexivity].
  cbv zeta. destruct (context_log h Info _) as [[] | e]; [reflexivity | ].
  rewrite <- app_assoc. reflexivity.
Qed.

(** What [sendResponseToBot] does without a webhook address. *)
Lemma sendResponseToBot_unset (h : host) (responseData : value) (t : trace) :
  BOT_WEBHOOK_URL h = None \/ BOT_WEBHOOK_URL h = Some [] ->
  sendResponseToBot h responseData t
  = match context_log h Warn [Text (lit "No webhook URL configured")] with
    | Returned _ => (Returned tt, t ++ [Logged Warn [Text (lit "No webhook URL configured")]])
    | Thrown e =>
        let failed := [Text (lit "Failed to send response to bot:");
                       Val (VStr (message e))] in
        (context_log h Err failed,
         t ++ [Logged Warn [Text (lit "No webhook URL configured")]; Logged Err failed])
    end.
Proof.
  intros H. unfold sendResponseToBot, try_catch, log.
  destruct H as [-> | ->];
    (destruct (context_log h Warn _) as [[] | e]; [reflexivity | ]);
    cbv zeta; rewrite <- app_assoc; reflexivity.
Qed.

Lemma events_from {A} (m : M A) (t : trace) :
  oblivious m ->
  blobs (snd (m [])) = [] -> requests (snd (m [])) = [] ->
  blobs (snd (m t)) = blobs t /\ requests (snd (m t)) = requests t.
Proof.
  intros O B R. rewrite (O t). cbn [snd]. rewrite blobs_app, requests_app, B, R, !app_nil_r.
  split; reflexivity.
Qed.

(** X7.  [storeToDatabase] and [sendResponseToBot] set no output and request
    no completion.  When [context.log.error] returns they never throw,
    whatever they are given.  When [context.log] returns, [storeToDatabase],
    given an object whose [messageId] converts to a string, writes its one
    line and returns, and so does [sendResponseToBot] when the webhook
    address is not empty and the [conversationId] converts; neither calls
    [context.log.warn] or [context.log.error] then.  When the [messageId]
    does not convert, or what is given is [null] or [undefined],
    [storeToDatabase] ends as its call of [context.log.error] does.  Without
    a webhook address [sendResponseToBot] calls [context.log.warn], in the
    [try]: when that call throws, the [catch] calls [context.log.error]. *)
Theorem sinks_never_throw (h : host) (responseData : value) (t : trace) :
  (returns (context_log h) Err ->
   fst (storeToDatabase h responseData t) = Returned tt
   /\ fst (sendResponseToBot h responseData t) = Returned tt)
  /\ (forall (x : value) (id : jsstring),
        returns (context_log h) Info ->
        get responseData "messageId" = Returned x ->
        ToString (number_to_string h) x = Returned id ->
        storeToDatabase h responseData t
        = (Returned tt, t ++ [Logged Info [Text (lit "Storing to database: "); Text id]]))
  /\ (forall (x : value) (c : N) (url id : jsstring),
        returns (context_log h) Info ->
        BOT_WEBHOOK_URL h = Some (c :: url) ->
        get responseData "conversationId" = Returned x ->
        ToString (number_to_string h) x = Returned id ->
        sendResponseToBot h responseData t
        = (Returned tt,
           t ++ [Logged Info [Text (lit "Response sent to bot for conversation: "); Text id]]))
  /\ (forall e : exn,
        match get responseData "messageId" with
        | Returned x => ToString (number_to_string h) x
        | Thrown e' => Thrown e'
        end = Thrown e ->
        storeToDatabase h responseData t
        = (context_log h Err [Text (lit "Database storage failed:"); Val (VStr (message e))],
           t ++ [Logged Err [Text (lit "Database storage failed:"); Val (VStr (message e))]]))
  /\ (BOT_WEBHOOK_URL h = None \/ BOT_WEBHOOK_URL h = Some [] ->
      sendResponseToBot h responseData t
      = match context_log h Warn [Text (lit "No webhook URL configured")] with
        | Returned _ =>
            (Returned tt, t ++ [Logged Warn [Text (lit "No webhook URL configured")]])
        | Thrown e =>
            (context_log h Err [Text (lit "Failed to send response to bot:");
                                Val (VStr (message e))],
             t ++ [Logged Warn [Text (lit "No webhook URL configured")];
                   Logged Err [Text (lit "Failed to send response to bot:");
                               Val (VStr (message e))]])
        end)
  /\ blobs (snd (storeToDatabase h responseData t)) = blobs t
  /\ requests (snd (storeToDatabase h responseData t)) = requests t
  /\ blobs (snd (sendResponseToBot h responseData t)) = blobs t
  /\ requests (snd (sendResponseToBot h responseData t)) = requests t.
Proof.
  split.
  { intros He. split; [apply storeToDatabase_logged | apply sendResponseToBot_logged]; exact He. }
  split.
  { intros x id Hi Hx Hid. apply (storeToDatabase_plain h responseData x id t Hi Hx Hid). }
  split.
  { intros x c url id Hi Hu Hx Hid.
    apply (sendResponseToBot_plain h responseData x c url id t Hi Hu Hx Hid). }
  split.
  { intros e H. rewrite storeToDatabase_cases, H. reflexivity. }
  split.
  { intros H. rewrite (sendResponseToBot_unset h responseData t H). reflexivity. }
  destruct (storeToDatabase_events h responseData) as [B1 R1].
  destruct (sendResponseToBot_events h responseData) as [B2 R2].
  destruct (events_from _ t (storeToDatabase_oblivious h responseData) B1 R1) as [-> ->].
  destruct (events_from _ t (sendResponseToBot_oblivious h responseData) B2 R2) as [-> ->].
  repeat split; reflexivity.
Qed.

(** The two stubs on a final response of the sample queue message, on a
    host whose logger has no [warn] and no [error]: one line each. *)
Lemma sinks_never_throw_witness :
  let final := VObj [ ("messageId", VStr (lit "c1_1706534400000"));
                      ("conversationId", VStr (lit "c1")) ]%string in
  storeToDatabase Scenarios.answering_worker final []
  = (Returned tt,
     [] ++ [Logged Info [Text (lit "Storing to database: "); Text (lit "c1_1706534400000")]])
  /\ sendResponseToBot Scenarios.answering_worker final []
     = (Returned tt,
        [] ++ [Logged Info [Text (lit "Response sent to bot for conversation: ");
                            Text (lit "c1")]]).
Proof.
  cbv zeta.
  destruct (sinks_never_throw Scenarios.answering_worker
              (VObj [ ("messageId", VStr (lit "c1_1706534400000"));
                      ("conversationId", VStr (lit "c1")) ]%string) [])
    as (_ & S & B & _).
  split.
  - apply (S (VStr (lit "c1_1706534400000"))); [intros args; reflexivity | reflexivity .. ].
  - apply (B (VStr (lit "c1")) 104%N (lit "ttps://bot.example/hook"));
      [intros args; reflexivity | reflexivity .. ].
Defined.

(** *** A run of the worker, event by event *)

(** One turn of the loop for a model that answered, on a host whose
    [context.log] returns. *)
Lemma queryTurn_answered (h : host) (userMessage : value) (rc : RagContext)
    (rs : list ModelResponse) (m : model_config) (r : ModelResponse) (t : trace) :
  returns (context_log h) Info ->
  attempt h userMessage rc m = Returned r ->
  queryTurn h userMessage rc rs m t
  = (Returned (rs ++ [r]),
     t ++ [CompletionRequested (deployment m) (messagesFor userMessage rc);
           Logged Info [Text (name m); Text (lit " responded with confidence: ");
                        Fixed2 (confidence r)]]).
Proof. intros Hi A. rewrite queryTurn_cases. cbv zeta. rewrite A, Hi. reflexivity. Qed.

Lemma select_of_two (first second : ModelResponse) :
  selectBestResponse [first; second]
  = Some (if confidence first <? confidence second then second else first).
Proof.
  rewrite !SelectorFacts.selectBestResponse_cons.
  change (selectBestResponse []) with (@None ModelResponse). cbv iota.
  destruct (confidence first <? confidence second); reflexivity.
Qed.

(** X8.  On a host whose [context.log] calls return, whose client is
    constructed, whose webhook address is not empty and whose two completion
    calls give answers that can be read, a run of the worker on a queue
    message that parses to an object whose [messageId] and [conversationId]
    convert to strings returns after exactly these effects, in this order:
    the two opening log lines, the line of the context retrieval, the
    completion request to [gpt-4] and its line, then the request to
    [gpt-35-turbo] (with the same messages) and its line, one line of each
    of the two stubs, the blob output, and the closing line.  The second
    model is asked after the first has answered, and nothing is written to
    the blob output before both were asked. *)
Theorem worker_effects_in_order
    (h : host) (messageBody userMessage : value) (id conversation : jsstring)
    (c : N) (url : jsstring) (first second : ModelResponse) (t : trace) :
  returns (context_log h) Info ->
  get messageBody "userMessage" = Returned userMessage ->
  ToString (number_to_string h) (prop messageBody "messageId") = Returned id ->
  ToString (number_to_string h) (prop messageBody "conversationId") = Returned conversation ->
  OpenAIClient_new h = Returned tt ->
  BOT_WEBHOOK_URL h = Some (c :: url) ->
  attempt h userMessage mockContext {| name := lit "gpt-4"; deployment := lit "gpt-4" |}
  = Returned first ->
  attempt h userMessage mockContext
    {| name := lit "gpt-35-turbo"; deployment := lit "gpt-35-turbo" |}
  = Returned second ->
  let best := if confidence first <? confidence second then second else first in
  handler h (Returned messageBody) t
  = (Returned tt,
     t ++ [ Logged Info [Text (lit "Worker function triggered")];
            Logged Info [Text (lit "Processing message: "); Text id];
            Logged Info [Text (lit "RAG retrieval completed with "); Count 2;
                         Text (lit " sources")];
            CompletionRequested (lit "gpt-4") (messagesFor userMessage mockContext);
            Logged Info [Text (lit "gpt-4"); Text (lit " responded with confidence: ");
                         Fixed2 (confidence first)];
            CompletionRequested (lit "gpt-35-turbo") (messagesFor userMessage mockContext);
            Logged Info [Text (lit "gpt-35-turbo"); Text (lit " responded with confidence: ");
                         Fixed2 (confidence second)];
            Logged Info [Text (lit "Storing to database: "); Text id];
            Logged Info [Text (lit "Response sent to bot for conversation: ");
                         Text conversation];
            OutputSet "outputBlob"
              (JSON_stringify
                 (finalObject (prop messageBody "messageId") (prop messageBody "conversationId")
                    best [first; second] mockContext (prop messageBody "timestamp")));
            Logged Info [Text (lit "Successfully processed message with ");
                         Fixed2 (confidence best); Text (lit " confidence")] ]).
Proof.
  intros Hi Hum Hid Hcs Hc Hu A1 A2 best.
  set (final := finalObject (prop messageBody "messageId") (prop messageBody "conversationId")
                  best [first; second] mockContext (prop messageBody "timestamp")).
  assert (Q : queryMultipleModels h userMessage mockContext []
              = (Returned [first; second],
                 [CompletionRequested (lit "gpt-4") (messagesFor userMessage mockContext);
                  Logged Info [Text (lit "gpt-4"); Text (lit " responded with confidence: ");
                               Fixed2 (confidence first)];
                  CompletionRequested (lit "gpt-35-turbo")
                    (messagesFor userMessage mockContext);
                  Logged Info [Text (lit "gpt-35-turbo");
                               Text (lit " responded with confidence: ");
                               Fixed2 (confidence second)]])).
  { rewrite queryMultipleModels_cases, Hc. unfold modelsToQuery.
    rewrite queryModels_cons.
    rewrite (bind_returned _ _ _ _ _ (queryTurn_answered h _ _ [] _ first [] Hi A1)).
    rewrite queryModels_cons.
    rewrite (bind_returned _ _ _ _ _ (queryTurn_answered h _ _ _ _ second _ Hi A2)).
    reflexivity. }
  assert (P : processMessage h (Returned messageBody) []
              = (Returned tt,
                 [Logged Info [Text (lit "Processing message: "); Text id];
                  Logged Info [Text (lit "RAG retrieval completed with "); Count 2;
                               Text (lit " sources")];
                  CompletionRequested (lit "gpt-4") (messagesFor userMessage mockContext);
                  Logged Info [Text (lit "gpt-4"); Text (lit " responded with confidence: ");
                               Fixed2 (confidence first)];
                  CompletionRequested (lit "gpt-35-turbo")
                    (messagesFor userMessage mockContext);
                  Logged Info [Text (lit "gpt-35-turbo");
                               Text (lit " responded with confidence: ");
                               Fixed2 (confidence second)];
                  Logged Info [Text (lit "Storing to database: "); Text id];
                  Logged Info [Text (lit "Response sent to bot for conversation: ");
                               Text conversation];
                  OutputSet "outputBlob" (JSON_stringify final);
                  Logged Info [Text (lit "Successfully processed message with ");
                               Fixed2 (confidence best); Text (lit " confidence")]])).
  { unfold processMessage.
    step. step. rewrite Hum.
    rewrite (get_prop _ _ "conversationId" _ Hum), (get_prop _ _ "messageId" _ Hum).
    step. step. step. rewrite Hid.
    step. rewrite Hi.
    step. rewrite (retrieveRagContext_plain h userMessage [] Hi). cbn [fst snd].
    step. rewrite Q. cbn [fst snd].
    step. rewrite select_of_two. fold best. cbn [ret fst snd].
    step. rewrite !(finalResponse_run messageBody userMessage _ best _ mockContext _ Hum).
    cbn [fst snd]. fold final.
    step.
    rewrite (storeToDatabase_plain h final (prop messageBody "messageId") id [] Hi eq_refl Hid).
    cbn [fst snd].
    step.
    rewrite (sendResponseToBot_plain h final (prop messageBody "conversationId") c url
               conversation [] Hi Hu eq_refl Hcs).
    cbn [fst snd].
    step. unfold log. rewrite Hi. reflexivity. }
  rewrite handler_cases. cbv zeta. rewrite Hi, P. reflexivity.
Qed.

Lemma worker_effects_in_order_witness :
  exists first second final closing,
    handler Scenarios.answering_worker (Returned Samples.queue_message) []
    = (Returned tt,
       [] ++ [ Logged Info [Text (lit "Worker function triggered")];
               Logged Info [Text (lit "Processing message: "); Text (lit "c1_1706534400000")];
               Logged Info [Text (lit "RAG retrieval completed with "); Count 2;
                            Text (lit " sources")];
               CompletionRequested (lit "gpt-4")
                 (messagesFor (VStr (lit "What is our refund policy?")) mockContext);
               Logged Info [Text (lit "gpt-4"); Text (lit " responded with confidence: ");
                            Fixed2 first];
               CompletionRequested (lit "gpt-35-turbo")
                 (messagesFor (VStr (lit "What is our refund policy?")) mockContext);
               Logged Info [Text (lit "gpt-35-turbo");
                            Text (lit " responded with confidence: "); Fixed2 second];
               Logged Info [Text (lit "Storing to database: "); Text (lit "c1_1706534400000")];
               Logged Info [Text (lit "Response sent to bot for conversation: ");
                            Text (lit "c1")];
               OutputSet "outputBlob" final;
               Logged Info closing ]).
Proof.
  exists (confidence (entryFor Scenarios.answering_worker
                         (VStr (lit "What is our refund policy?")) mockContext
                         {| name := lit "gpt-4"; deployment := lit "gpt-4" |})),
    (confidence (entryFor Scenarios.answering_worker
                   (VStr (lit "What is our refund policy?")) mockContext
                   {| name := lit "gpt-35-turbo"; deployment := lit "gpt-35-turbo" |})).
  eexists _, _.
  apply (worker_effects_in_order Scenarios.answering_worker Samples.queue_message
           (VStr (lit "What is our refund policy?")) (lit "c1_1706534400000") (lit "c1")
           104%N (lit "ttps://bot.example/hook")
           (entryFor Scenarios.answering_worker (VStr (lit "What is our refund policy?"))
              mockContext {| name := lit "gpt-4"; deployment := lit "gpt-4" |})
           (entryFor Scenarios.answering_worker (VStr (lit "What is our refund policy?"))
              mockContext {| name := lit "gpt-35-turbo"; deployment := lit "gpt-35-turbo" |})
           []);
    [intros args; reflexivity | reflexivity .. ].
Defined.

Lemma processMessage_unreadable (h : host) (parsed : outcome value) (e : exn) :
  unreadable parsed e -> processMessage h parsed [] = (Thrown e, []).
Proof. intros [-> | [[-> ->] | [-> ->]]]; reflexivity. Qed.

Lemma handler_unreadable (h : host) (parsed : outcome value) (e : exn) (t : trace) :
  unreadable parsed e ->
  handler h parsed t
  = match context_log h Info [Text (lit "Worker function triggered")] with
    | Thrown e' => (Thrown e', t ++ [Logged Info [Text (lit "Worker function triggered")]])
    | Returned _ =>
        (rethrown h e,
         t ++ [Logged Info [Text (lit "Worker function triggered")];
               Logged Err [Text (lit "Error in worker function:"); Caught e]])
    end.
Proof.
  intros U. rewrite handler_cases. cbv zeta. rewrite (processMessage_unreadable h parsed e U).
  reflexivity.
Qed.

(** A text a run gave to the blob output: where it comes from. *)
Lemma blob_of_run (h : host) (parsed : outcome value) (t : trace)
    (out : outcome unit) (evs : list event) (final : option json) :
  handler h parsed t = (out, t ++ evs) ->
  In final (blobs evs) ->
  exists mb um rc rs best,
    parsed = Returned mb /\ get mb "userMessage" = Returned um
    /\ fst (retrieveRagContext h um []) = Returned rc
    /\ fst (queryMultipleModels h um rc []) = Returned rs
    /\ selectBestResponse rs = Some best
    /\ blobs evs = [final]
    /\ final = JSON_stringify (finalObject (prop mb "messageId") (prop mb "conversationId")
                                 best rs rc (prop mb "timestamp")).
Proof.
  intros H Hin.
  destruct (handler_final h parsed t out evs H)
    as [[B _] | (mb & um & rc & rs & best & -> & Hum & R & Q & S & B)];
    rewrite B in Hin; [contradiction Hin | ].
  destruct Hin as [<- | []].
  exists mb, um, rc, rs, best. repeat split; assumption.
Qed.

(** X9.  A run of the worker sets the blob output at most once, and a run
    that returns has set it exactly once.  A queue message that does not
    parse, or parses to [null], never ends in a run that returns: no
    completion is requested and no blob is set, and when [context.log]
    returns, the [catch] calls [context.log.error] with the error; the run
    then throws that error if the call returns, and what the call throws if
    it throws. *)
Theorem worker_completes_or_rethrows (h : host) (parsed : outcome value) (t : trace) :
  (exists evs,
     snd (handler h parsed t) = t ++ evs
     /\ (List.length (blobs evs) <= 1)%nat
     /\ (forall u, fst (handler h parsed t) = Returned u -> exists final, blobs evs = [final]))
  /\ (forall e,
        parsed = Thrown e
        \/ (parsed = Returned VNull /\ e = TypeError_read true "userMessage")
        \/ (parsed = Returned VUndefined /\ e = TypeError_read false "userMessage") ->
        (exists e', fst (handler h parsed t) = Thrown e')
        /\ blobs (snd (handler h parsed t)) = blobs t
        /\ requests (snd (handler h parsed t)) = requests t
        /\ (returns (context_log h) Info ->
            handler h parsed t
            = (match context_log h Err [Text (lit "Error in worker function:"); Caught e] with
               | Returned _ => Thrown e
               | Thrown e' => Thrown e'
               end,
               t ++ [ Logged Info [Text (lit "Worker function triggered")];
                      Logged Err [Text (lit "Error in worker function:"); Caught e] ]))).
Proof.
  split.
  - exists (snd (handler h parsed [])).
    pose proof (handler_oblivious h parsed t) as O.
    split; [rewrite O; reflexivity | ].
    assert (H : handler h parsed t = (fst (handler h parsed t), t ++ snd (handler h parsed [])))
      by (rewrite O at 1; rewrite O; reflexivity).
    destruct (handler_final h parsed t _ _ H)
      as [[B (e & E)] | (mb & um & rc & rs & best & _ & _ & _ & _ & _ & B)]; rewrite B.
    + split; [cbn; lia | ]. intros u Hu. rewrite E in Hu. discriminate Hu.
    + split; [cbn; lia | ]. intros u _. eexists. reflexivity.
  - intros e U. fold (unreadable parsed e) in U.
    rewrite (handler_unreadable h parsed e t U). fold (rethrown h e).
    destruct (context_log h Info [Text (lit "Worker function triggered")]) as [[] | e0] eqn:L.
    + cbn [fst snd]. rewrite blobs_app, requests_app. cbn. rewrite !app_nil_r.
      split; [ | repeat split; reflexivity].
      unfold rethrown. destruct (context_log h Err _); eexists; reflexivity.
    + cbn [fst snd]. rewrite blobs_app, requests_app. cbn. rewrite !app_nil_r.
      split; [eexists; reflexivity | ]. split; [reflexivity | ]. split; [reflexivity | ].
      intros Hi. rewrite Hi in L. discriminate L.
Qed.

(** A message that does not parse, on a host whose logger has no [error]:
    the run throws what the call of [context.log.error] throws. *)
Lemma worker_completes_or_rethrows_witness :
  handler Samples.plain_logger_host (Thrown (Error (lit "Unexpected token"))) []
  = (Thrown (Error (lit "context.log.error is not a function")),
     [] ++ [ Logged Info [Text (lit "Worker function triggered")];
             Logged Err [Text (lit "Error in worker function:");
                         Caught (Error (lit "Unexpected token"))] ]).
Proof.
  destruct (worker_completes_or_rethrows Samples.plain_logger_host
              (Thrown (Error (lit "Unexpected token"))) []) as [_ W].
  destruct (W (Error (lit "Unexpected token")) (or_introl eq_refl)) as (_ & _ & _ & E).
  apply E. intros args. reflexivity.
Defined.

Lemma member_absent (fields : list (string * value)) (k : string) :
  lookup fields k = None -> member_of (JSON_stringify (VObj fields)) k = None.
Proof.
  cbn [JSON_stringify SerializeJSONProperty member_of member].
  induction fields as [ | [k' v] rest IH]; intros H; [reflexivity | ].
  cbn [lookup] in H. destruct (String.eqb k' k) eqn:E; [discriminate H | ].
  destruct (SerializeJSONProperty v); [rewrite E | ]; apply IH; exact H.
Qed.

Lemma final_has_no_other_member (messageId conversationId timestamp : value)
    (best : ModelResponse) (rs : list ModelResponse) (rc : RagContext) (k : string) :
  ~ In k finalNames ->
  member_of (JSON_stringify (finalObject messageId conversationId best rs rc timestamp)) k
  = None.
Proof.
  intros N. apply member_absent. unfold finalObject. cbn [lookup].
  repeat match goal with
         | |- context [String.eqb ?a k] =>
             destruct (String.eqb_spec a k) as [E | _];
             [exfalso; apply N; rewrite <- E; cbn; tauto | ]
         end.
  reflexivity.
Qed.

(** X10.  Every final response the worker writes to the blob output carries
    the [messageId], the [conversationId] and the [timestamp] of the queue
    message as [JSON.stringify] writes them; [ragSources] is the array of
    the two mock sources or the empty array, and [allModelScores] is an
    array.  It has no property besides the eight of the object literal: the
    [userId] of the queue message is not carried over.  On a host whose
    [context.log] returns, [ragSources] holds the two mock sources and
    [allModelScores] lists [gpt-4], then [gpt-35-turbo], whichever was
    selected. *)
Theorem final_response_fields (h : host) (parsed : outcome value) (t : trace)
    (out : outcome unit) (evs : list event) (final : option json) :
  handler h parsed t = (out, t ++ evs) ->
  In final (blobs evs) ->
  exists messageBody ragSources scores,
    parsed = Returned messageBody
    /\ member_of final "messageId" = JSON_stringify (prop messageBody "messageId")
    /\ member_of final "conversationId" = JSON_stringify (prop messageBody "conversationId")
    /\ member_of final "timestamp" = JSON_stringify (prop messageBody "timestamp")
    /\ member_of final "ragSources" = Some (JArr (map JStr ragSources))
    /\ (ragSources = [lit "SharePoint Doc 1"; lit "SharePoint Doc 2"] \/ ragSources = [])
    /\ member_of final "allModelScores" = Some (JArr scores)
    /\ (forall k, ~ In k [ "messageId"; "conversationId"; "response"; "confidenceScore";
                           "selectedModel"; "allModelScores"; "ragSources";
                           "timestamp" ]%string ->
                  member_of final k = None)
    /\ member_of final "userId" = None
    /\ (returns (context_log h) Info ->
        ragSources = [lit "SharePoint Doc 1"; lit "SharePoint Doc 2"]
        /\ exists c1 c2,
             scores = [ JObj [ ("model", JStr (lit "gpt-4")); ("confidence", JNum c1) ];
                        JObj [ ("model", JStr (lit "gpt-35-turbo"));
                               ("confidence", JNum c2) ] ]%string).
Proof.
  intros H Hin.
  destruct (blob_of_run h parsed t out evs final H Hin)
    as (mb & um & rc & rs & best & -> & Hum & R & Q & S & B & ->).
  destruct (final_members (prop mb "messageId") (prop mb "conversationId")
              (prop mb "timestamp") best rs rc)
    as (F1 & F2 & _ & _ & _ & F6 & F7 & F8 & _ & F10).
  exists mb, match sources rc with Some l => l | None => [] end. eexists.
  split; [reflexivity | ]. split; [exact F1 | ]. split; [exact F2 | ]. split; [exact F8 | ].
  split; [exact F7 | ]. split.
  { destruct (retrieveRagContext h um []) as [o t'] eqn:E. cbn [fst] in R. subst o.
    destruct (retrieveRagContext_returned _ _ _ _ _ E) as [-> | ->];
      [left | right]; reflexivity. }
  split; [exact F6 | ]. split; [intros k; apply final_has_no_other_member | ].
  split; [exact F10 | ].
  intros Hi. destruct (fan_out_plain h um rc rs Hi R Q) as [-> ->].
  split; [reflexivity | ].
  exists (confidence (entryFor h um mockContext
                        {| name := lit "gpt-4"; deployment := lit "gpt-4" |})),
    (confidence (entryFor h um mockContext
                   {| name := lit "gpt-35-turbo"; deployment := lit "gpt-35-turbo" |})).
  cbn [map modelsToQuery]. rewrite !entryFor_model. cbn [name].
  repeat match goal with
         | |- context [SerializeJSONNumber (confidence (entryFor h um mockContext ?m))] =>
             rewrite (proj2 (proj2 (pushed_confidence h um mockContext m _ eq_refl
                                      (entryFor_pushed h um mockContext m))))
         end.
  reflexivity.
Qed.

Lemma final_response_fields_witness :
  exists final,
    blobs (snd (handler Scenarios.answering_worker (Returned Samples.queue_message) []))
    = [final]
    /\ member_of final "messageId" = Some (JStr (lit "c1_1706534400000"))
    /\ member_of final "ragSources"
       = Some (JArr [JStr (lit "SharePoint Doc 1"); JStr (lit "SharePoint Doc 2")])
    /\ member_of final "userId" = None.
Proof.
  set (run := handler Scenarios.answering_worker (Returned Samples.queue_message) []).
  assert (E : exists final, blobs (snd run) = [final]) by (eexists; vm_compute; reflexivity).
  destruct E as (final & B). exists final. split; [exact B | ].
  destruct (final_response_fields Scenarios.answering_worker (Returned Samples.queue_message) []
              (fst run) (snd run) final)
    as (mb & ragSources & scores & P & I & _ & _ & RS & _ & _ & _ & U & Pl).
  - reflexivity.
  - rewrite B. left. reflexivity.
  - injection P as <-. destruct Pl as [-> _]; [intros args; reflexivity | ].
    split; [exact I | ]. split; [exact RS | exact U].
Defined.

(** The final response of a run on a host whose [context.log] returns. *)
Lemma blob_of_plain_run (h : host) (parsed : outcome value) (t : trace)
    (out : outcome unit) (evs : list event) (final : option json) :
  returns (context_log h) Info ->
  handler h parsed t = (out, t ++ evs) ->
  In final (blobs evs) ->
  exists mb um,
    parsed = Returned mb /\ get mb "userMessage" = Returned um
    /\ let first := entryFor h um mockContext
                      {| name := lit "gpt-4"; deployment := lit "gpt-4" |} in
       let second := entryFor h um mockContext
                       {| name := lit "gpt-35-turbo"; deployment := lit "gpt-35-turbo" |} in
       let best := if confidence first <? confidence second then second else first in
       final = JSON_stringify (finalObject (prop mb "messageId") (prop mb "conversationId")
                                 best [first; second] mockContext (prop mb "timestamp"))
       /\ member_of final "selectedModel" = Some (JStr (model best))
       /\ member_of final "response" = Some (JStr (response best))
       /\ member_of final "confidenceScore" = Some (JNum (confidence best)).
Proof.
  intros Hi H Hin.
  destruct (blob_of_run h parsed t out evs final H Hin)
    as (mb & um & rc & rs & best & -> & Hum & R & Q & S & B & ->).
  destruct (fan_out_plain h um rc rs Hi R Q) as [-> ->].
  exists mb, um. split; [reflexivity | ]. split; [exact Hum | ]. cbv zeta.
  cbn [map modelsToQuery] in *. rewrite select_of_two in S. injection S as <-.
  match goal with
  | |- context [finalObject ?a ?b ?c ?d ?e ?f] =>
      destruct (final_members a b f c d e) as (_ & _ & F3 & F4 & F5 & _)
  end.
  split; [reflexivity | ]. split; [exact F5 | ]. split; [exact F3 | ].
  rewrite F4. f_equal.
  destruct (confidence _ <? confidence _);
    apply (pushed_confidence h um mockContext _ _ eq_refl (entryFor_pushed h um mockContext _)).
Qed.

(** X11.  On a host whose [context.log] returns, a final response the
    worker writes is the one of [gpt-35-turbo] only when its confidence is
    strictly greater than the one of [gpt-4]: on equal confidences the
    response, the score and the model of the final response are those of
    [gpt-4]. *)
Theorem first_model_wins_ties (h : host) (parsed : outcome value) (t : trace)
    (out : outcome unit) (evs : list event) (final : option json) :
  returns (context_log h) Info ->
  handler h parsed t = (out, t ++ evs) ->
  In final (blobs evs) ->
  exists messageBody userMessage,
    parsed = Returned messageBody
    /\ get messageBody "userMessage" = Returned userMessage
    /\ let first := entryFor h userMessage mockContext
                      {| name := lit "gpt-4"; deployment := lit "gpt-4" |} in
       let second := entryFor h userMessage mockContext
                       {| name := lit "gpt-35-turbo"; deployment := lit "gpt-35-turbo" |} in
       let best := if confidence first <? confidence second then second else first in
       member_of final "selectedModel"
       = Some (JStr (if confidence first <? confidence second
                     then lit "gpt-35-turbo" else lit "gpt-4"))
       /\ member_of final "response" = Some (JStr (response best))
       /\ member_of final "confidenceScore" = Some (JNum (confidence best)).
Proof.
  intros Hi H Hin.
  destruct (blob_of_plain_run h parsed t out evs final Hi H Hin)
    as (mb & um & -> & Hum & _ & M & R & C).
  exists mb, um. split; [reflexivity | ]. split; [exact Hum | ]. cbv zeta.
  split; [ | split; assumption].
  rewrite M. destruct (confidence _ <? confidence _); rewrite entryFor_model; reflexivity.
Qed.

(** Two answers of the same text and finish reason: [gpt-4] is selected. *)
Lemma first_model_wins_ties_witness :
  exists final,
    blobs (snd (handler Scenarios.answering_worker (Returned Samples.queue_message) []))
    = [final]
    /\ member_of final "selectedModel" = Some (JStr (lit "gpt-4")).
Proof.
  set (run := handler Scenarios.answering_worker (Returned Samples.queue_message) []).
  assert (E : exists final, blobs (snd run) = [final]) by (eexists; vm_compute; reflexivity).
  destruct E as (final & B). exists final. split; [exact B | ].
  destruct (first_model_wins_ties Scenarios.answering_worker (Returned Samples.queue_message) []
              (fst run) (snd run) final)
    as (mb & um & P & Hum & M & _).
  - intros args. reflexivity.
  - reflexivity.
  - rewrite B. left. reflexivity.
  - injection P as <-. injection Hum as <-. exact M.
Defined.

(** X12.  On a host whose [context.log] returns, a final response the
    worker writes in a run in which at least one configured model answered
    is the response of a model that answered, with a confidence score that
    is strictly positive: a failure entry, whose confidence is 0.0, is never
    preferred to an answer. *)
Theorem answered_model_is_preferred (h : host) (parsed : outcome value) (t : trace)
    (out : outcome unit) (evs : list event) (final : option json)
    (messageBody userMessage : value) :
  returns (context_log h) Info ->
  handler h parsed t = (out, t ++ evs) ->
  In final (blobs evs) ->
  parsed = Returned messageBody ->
  get messageBody "userMessage" = Returned userMessage ->
  (exists m r, In m modelsToQuery /\ attempt h userMessage mockContext m = Returned r) ->
  exists m best,
    In m modelsToQuery
    /\ attempt h userMessage mockContext m = Returned best
    /\ member_of final "selectedModel" = Some (JStr (name m))
    /\ member_of final "response" = Some (JStr (response best))
    /\ member_of final "confidenceScore" = Some (JNum (confidence best))
    /\ (0 <? confidence best) = true.
Proof.
  intros Hi H Hin -> Hum (m0 & r0 & Hm0 & A0).
  destruct (blob_of_plain_run h _ t out evs final Hi H Hin)
    as (mb & um & P & Hum' & _ & M & R & C).
  injection P as <-. rewrite Hum in Hum'. injection Hum' as <-.
  cbv zeta in M, R, C.
  set (first := entryFor h userMessage mockContext
                  {| name := lit "gpt-4"; deployment := lit "gpt-4" |}) in *.
  set (second := entryFor h userMessage mockContext
                   {| name := lit "gpt-35-turbo"; deployment := lit "gpt-35-turbo" |}) in *.
  set (best := if confidence first <? confidence second then second else first) in *.
  set (rs := map (entryFor h userMessage mockContext) modelsToQuery).
  assert (S : selectBestResponse rs = Some best) by apply select_of_two.
  assert (Hnan : forall x, In x rs -> is_nan (confidence x) = false).
  { intros x Hx. apply in_map_iff in Hx. destruct Hx as (m & <- & _). apply entryFor_not_nan. }
  assert (P0 : (0 <? confidence r0) = true).
  { destruct (attempt_returned _ _ _ _ _ A0) as (text & fr & ->). cbn [confidence].
    apply MagnitudeFacts.score_positive. reflexivity. }
  assert (In0 : In r0 rs).
  { apply in_map_iff. exists m0. split; [ | exact Hm0]. unfold entryFor. rewrite A0. reflexivity. }
  pose proof (selected_is_element rs best S) as Hb.
  pose proof (selected_is_maximum rs best Hnan S r0 In0) as Le.
  assert (Pb : (0 <? confidence best) = true).
  { pose proof (Hnan _ In0) as N0. pose proof (Hnan _ Hb) as Nb.
    assert (Nz : is_nan 0 = false) by reflexivity.
    rewrite ltb_ord in * by assumption. rewrite leb_ord in Le by assumption.
    apply Z.ltb_lt in P0. apply Z.leb_le in Le. apply Z.ltb_lt. lia. }
  apply in_map_iff in Hb. destruct Hb as (m & Eb & Hm).
  unfold entryFor in Eb. destruct (attempt h userMessage mockContext m) as [b | e] eqn:A.
  - exists m, best. rewrite <- Eb in *. split; [exact Hm | ]. split; [exact A | ].
    split; [ | repeat split; assumption].
    rewrite M. destruct (attempt_returned _ _ _ _ _ A) as (text & fr & ->). reflexivity.
  - rewrite <- Eb in Pb. discriminate Pb.
Qed.

(** The answer of [gpt-4] was cut: the one of [gpt-35-turbo] is selected. *)
Lemma answered_model_is_preferred_witness :
  exists final,
    blobs (snd (handler Scenarios.first_model_cut (Returned Samples.queue_message) []))
    = [final]
    /\ member_of final "selectedModel" = Some (JStr (lit "gpt-35-turbo"))
    /\ member_of final "response" = Some (JStr (lit "Thirty days.")).
Proof.
  set (run := handler Scenarios.first_model_cut (Returned Samples.queue_message) []).
  assert (E : exists final, blobs (snd run) = [final]
                            /\ member_of final "selectedModel"
                               = Some (JStr (lit "gpt-35-turbo")))
    by (eexists; split; vm_compute; reflexivity).
  destruct E as (final & B & S). exists final. split; [exact B | ]. split; [exact S | ].
  destruct (answered_model_is_preferred Scenarios.first_model_cut
              (Returned Samples.queue_message) [] (fst run) (snd run) final
              Samples.queue_message (VStr (lit "What is our refund policy?")))
    as (m & best & Hm & A & M & R & _).
  - intros args. reflexivity.
  - reflexivity.
  - rewrite B. left. reflexivity.
  - reflexivity.
  - reflexivity.
  - exists {| name := lit "gpt-4"; deployment := lit "gpt-4" |}.
    eexists. split; [left; reflexivity | reflexivity].
  - rewrite S in M. destruct Hm as [<- | [<- | []]].
    + discriminate M.
    + injection A as <-. exact R.
Defined.

(** X13.  Every element of the array the fan-out returns carries the name of
    its model and a confidence that is a number and at most 1, whatever the
    relevance of the context.  It has no [error] exactly when the body of the
    [try] completed for its model, and then, and only then, it has a token
    count; an element with an [error] has confidence 0.0 and the placeholder
    text. *)
Theorem fan_out_entries_well_formed
    (h : host) (userMessage : value) (ragContext : RagContext) (m : model_config) :
  let entry := entryFor h userMessage ragContext m in
  model entry = name m
  /\ is_nan (confidence entry) = false
  /\ (confidence entry <=? 1) = true
  /\ (error entry = None <-> exists r, attempt h userMessage ragContext m = Returned r)
  /\ (error entry = None <-> tokensUsed entry <> None)
  /\ (error entry <> None ->
      confidence entry = 0 /\ response entry = lit "Error generating response").
Proof.
  intros entry. subst entry.
  split; [apply entryFor_model | ]. split; [apply entryFor_not_nan | ].
  unfold entryFor. destruct (attempt h userMessage ragContext m) as [r | e] eqn:A.
  - destruct (attempt_returned_tokens _ _ _ _ _ A) as (text & fr & tk & ->).
    cbn [confidence error tokensUsed response].
    split; [apply MagnitudeFacts.score_le_one, ragScoreArgument_not_nan | ].
    split; [split; [intros _; eexists; reflexivity | reflexivity] | ].
    split; [split; [discriminate | reflexivity] | ].
    intros H. contradiction H. reflexivity.
  - cbn [failedResponse confidence error tokensUsed response].
    split; [reflexivity | ].
    split; [split; [discriminate | intros [r H]; discriminate H] | ].
    split; [split; [discriminate | intros H; contradiction H; reflexivity] | ].
    intros _. split; reflexivity.
Qed.

(** X14.  What the fan-out makes of the answer of a completion call.  An
    answer whose first choice has a string as content, and that has a usage
    record, gives the element with that text (an empty text included), its
    score and the token count.  An answer without choices, an answer whose
    content is not a string, and an answer without usage record (whatever
    its content) all end in the [catch]: the model gets the failure entry. *)
Theorem completion_reading
    (h : host) (userMessage : value) (ragContext : RagContext) (m : model_config)
    (result : value) :
  getChatCompletions h (deployment m) (messagesFor userMessage ragContext) = Returned result ->
  (forall choice rest msg text usage,
     get result "choices" = Returned (VArr (choice :: rest)) ->
     get choice "message" = Returned msg ->
     get msg "content" = Returned (VStr text) ->
     get result "usage" = Returned usage ->
     usage <> VUndefined -> usage <> VNull ->
     attempt h userMessage ragContext m
     = Returned {| model := name m; response := text;
                   confidence := calculateConfidenceScore text (ragScoreArgument ragContext)
                                   (prop choice "finishReason");
                   tokensUsed := Some (prop usage "totalTokens"); error := None |})
  /\ (get result "choices" = Returned (VArr []) ->
      attempt h userMessage ragContext m = Thrown (TypeError_read false "message"))
  /\ (forall choice rest msg content,
        get result "choices" = Returned (VArr (choice :: rest)) ->
        get choice "message" = Returned msg ->
        get msg "content" = Returned content ->
        (forall text, content <> VStr text) ->
        exists e, attempt h userMessage ragContext m = Thrown e)
  /\ (forall usage,
        get result "usage" = Returned usage ->
        usage = VUndefined \/ usage = VNull ->
        exists e, attempt h userMessage ragContext m = Thrown e)
  /\ (forall e, attempt h userMessage ragContext m = Thrown e ->
        entryFor h userMessage ragContext m = failedResponse m e).
Proof.
  intros Hc.
  assert (U : attempt h userMessage ragContext m
              = fst ((choices <- lift (get result "choices") ;;
                      choice <- lift (get0 choices) ;;
                      msg <- lift (get choice "message") ;;
                      answer <- lift (get msg "content") ;;
                      finishReason <- lift (get choice "finishReason") ;;
                      text <- match answer with
                              | VStr s => ret s
                              | VUndefined => throw (TypeError_read false "split")
                              | VNull => throw (TypeError_read true "split")
                              | _ => throw (Error (lit "response.split is not a function"))
                              end ;;
                      usage <- lift (get result "usage") ;;
                      totalTokens <- lift (get usage "totalTokens") ;;
                      ret {| model := name m; response := text;
                             confidence := calculateConfidenceScore text
                                             (ragScoreArgument ragContext) finishReason;
                             tokensUsed := Some totalTokens; error := None |})%js
                       [CompletionRequested (deployment m) (messagesFor userMessage ragContext)])).
  { unfold attempt, queryModel. rewrite bind_emit. unfold bind at 1, lift at 1.
    fold (messagesFor userMessage ragContext). rewrite Hc. reflexivity. }
  split; [ | split; [ | split; [ | split]]];
    [rewrite U; unfold bind, lift, ret, throw .. | ].
  - intros choice rest msg text usage H1 H2 H3 H4 N1 N2.
    rewrite H1. cbn [get0]. rewrite H2, H3, (get_prop _ _ "finishReason" _ H2), H4.
    destruct usage; try contradiction; reflexivity.
  - intros H1. rewrite H1. reflexivity.
  - intros choice rest msg content H1 H2 H3 N.
    rewrite H1. cbn [get0]. rewrite H2, H3, (get_prop _ _ "finishReason" _ H2).
    destruct content; try (eexists; reflexivity).
    contradiction (N s). reflexivity.
  - intros usage H4 N. rewrite H4.
    destruct N as [-> | ->]; cbn [get];
      repeat match goal with
             | |- context [match ?x with _ => _ end] => destruct x
             end; cbn [fst]; eexists; reflexivity.
  - intros e A. unfold entryFor. rewrite A. reflexivity.
Qed.


(** An answer with an empty text: it is scored as a short answer, not a failure. *)
Lemma completion_reading_witness :
  attempt {| OpenAIClient_new := Returned tt;
             getChatCompletions := fun _ _ => Returned (Samples.completion []);
             BOT_WEBHOOK_URL := None;
             number_to_string := Samples.number_to_string;
             context_log := fun _ _ => Returned tt |}
    (VStr (lit "hi")) mockContext {| name := lit "gpt-4"; deployment := lit "gpt-4" |}
  = Returned {| model := lit "gpt-4"; response := [];
                confidence := calculateConfidenceScore [] 0.85 (VStr (lit "stop"));
                tokensUsed := Some (VNum 42); error := None |}.
Proof.
  destruct (completion_reading
              {| OpenAIClient_new := Returned tt;
                 getChatCompletions := fun _ _ => Returned (Samples.completion []);
                 BOT_WEBHOOK_URL := None;
                 number_to_string := Samples.number_to_string;
                 context_log := fun _ _ => Returned tt |}
              (VStr (lit "hi")) mockContext {| name := lit "gpt-4"; deployment := lit "gpt-4" |}
              (Samples.completion []) eq_refl) as (H & _).
  apply (H (VObj [ ("message", VObj [ ("content", VStr []) ]);
                   ("finishReason", VStr (lit "stop")) ]%string) []
           (VObj [ ("content", VStr []) ]%string) []
           (VObj [ ("totalTokens", VNum 42) ]%string));
    try reflexivity; discriminate.
Defined.

(** X26.  When the calls [context.log] and [context.log.error] return and
    the client is constructed, the fan-out isolates the failures of the
    models: it asks one completion of every configured model, in the order
    of the configuration and whatever the others answered, and returns one
    element per model, in that order.  The element of a model whose
    completion call failed, or whose answer could not be read, carries the
    name of the model, the text ['Error generating response'], confidence
    0.0 and the message of the error. *)
Theorem fan_out_isolates_failures
    (h : host) (userMessage : value) (ragContext : RagContext) (t : trace) :
  returns (context_log h) Info ->
  returns (context_log h) Err ->
  OpenAIClient_new h = Returned tt ->
  exists responses evs,
    queryMultipleModels h userMessage ragContext t = (Returned responses, t ++ evs)
    /\ responses = map (entryFor h userMessage ragContext) modelsToQuery
    /\ map model responses = map name modelsToQuery
    /\ requests evs
       = map (fun m => (deployment m, messagesFor userMessage ragContext)) modelsToQuery
    /\ (forall m e,
          getChatCompletions h (deployment m) (messagesFor userMessage ragContext) = Thrown e
          \/ attempt h userMessage ragContext m = Thrown e ->
          entryFor h userMessage ragContext m
          = {| model := name m;
               response := lit "Error generating response";
               confidence := 0.0;
               tokensUsed := None;
               error := Some (message e) |}).
Proof.
  intros Hi He Hc.
  destruct (queryModels_plain h userMessage ragContext modelsToQuery Hi (or_intror He) [] t)
    as (evs & E & R & _).
  exists (map (entryFor h userMessage ragContext) modelsToQuery), evs.
  split; [rewrite queryMultipleModels_cases, Hc; exact E | ]. split; [reflexivity | ].
  split; [ | split; [exact R | ]].
  - rewrite map_map. apply map_ext. intros m. apply entryFor_model.
  - intros m e [H | H]; [apply attempt_call_failed in H | ];
      unfold entryFor; rewrite H; reflexivity.
Qed.

(** The deployment [gpt-4] down, on a host of which every logger call
    returns: [gpt-35-turbo] is asked all the same, and the array has the
    failure entry of [gpt-4], then the answer of [gpt-35-turbo]. *)
Lemma fan_out_isolates_failures_witness :
  exists responses evs,
    queryMultipleModels Scenarios.first_model_down_logged
      (VStr (lit "What is our refund policy?")) mockContext []
    = (Returned responses, [] ++ evs)
    /\ map model responses = [lit "gpt-4"; lit "gpt-35-turbo"]
    /\ map error responses = [Some (lit "Service unavailable"); None]
    /\ map fst (requests evs) = [lit "gpt-4"; lit "gpt-35-turbo"].
Proof.
  destruct (fan_out_isolates_failures Scenarios.first_model_down_logged
              (VStr (lit "What is our refund policy?")) mockContext [])
    as (responses & evs & E & -> & _ & R & _).
  - intros args. reflexivity.
  - intros args. reflexivity.
  - reflexivity.
  - eexists. exists evs. split; [exact E | ]. split; [reflexivity | ].
    split; [reflexivity | ]. rewrite R. reflexivity.
Defined.

(** A run in which the construction of the client throws. *)
Lemma handler_without_client (h : host) (mb um : value) (id : jsstring) (e : exn)
    (t : trace) :
  returns (context_log h) Info ->
  get mb "userMessage" = Returned um ->
  ToString (number_to_string h) (prop mb "messageId") = Returned id ->
  OpenAIClient_new h = Thrown e ->
  handler h (Returned mb) t
  = (rethrown h e,
     t ++ [ Logged Info [Text (lit "Worker function triggered")];
            Logged Info [Text (lit "Processing message: "); Text id];
            Logged Info [Text (lit "RAG retrieval completed with "); Count 2;
                         Text (lit " sources")];
            Logged Err [Text (lit "Error in worker function:"); Caught e] ]).
Proof.
  intros Hi Hum Hid Hc.
  assert (P : processMessage h (Returned mb) []
              = (Thrown e,
                 [Logged Info [Text (lit "Processing message: "); Text id];
                  Logged Info [Text (lit "RAG retrieval completed with "); Count 2;
                               Text (lit " sources")]])).
  { unfold processMessage.
    step. step. rewrite Hum.
    rewrite (get_prop _ _ "conversationId" _ Hum), (get_prop _ _ "messageId" _ Hum).
    step. step. step. rewrite Hid.
    step. rewrite Hi.
    step. rewrite (retrieveRagContext_plain h um [] Hi). cbn [fst snd].
    step. rewrite queryMultipleModels_cases, Hc. reflexivity. }
  rewrite handler_cases. cbv zeta. rewrite Hi, P. reflexivity.
Qed.

(** A run in which the first model fails and [context.log.error] throws. *)
Lemma handler_without_error_logger (h : host) (mb um : value) (id : jsstring) (e le : exn)
    (t : trace) :
  returns (context_log h) Info ->
  throws (context_log h) Err le ->
  get mb "userMessage" = Returned um ->
  ToString (number_to_string h) (prop mb "messageId") = Returned id ->
  OpenAIClient_new h = Returned tt ->
  attempt h um mockContext {| name := lit "gpt-4"; deployment := lit "gpt-4" |} = Thrown e ->
  handler h (Returned mb) t
  = (Thrown le,
     t ++ [ Logged Info [Text (lit "Worker function triggered")];
            Logged Info [Text (lit "Processing message: "); Text id];
            Logged Info [Text (lit "RAG retrieval completed with "); Count 2;
                         Text (lit " sources")];
            CompletionRequested (lit "gpt-4") (messagesFor um mockContext);
            Logged Err [Text (lit "Error querying "); Text (lit "gpt-4"); Text (lit ":");
                        Val (VStr (message e))];
            Logged Err [Text (lit "Error in worker function:"); Caught le] ]).
Proof.
  intros Hi He Hum Hid Hc A.
  assert (P : processMessage h (Returned mb) []
              = (Thrown le,
                 [Logged Info [Text (lit "Processing message: "); Text id];
                  Logged Info [Text (lit "RAG retrieval completed with "); Count 2;
                               Text (lit " sources")];
                  CompletionRequested (lit "gpt-4") (messagesFor um mockContext);
                  Logged Err [Text (lit "Error querying "); Text (lit "gpt-4"); Text (lit ":");
                              Val (VStr (message e))]])).
  { unfold processMessage.
    step. step. rewrite Hum.
    rewrite (get_prop _ _ "conversationId" _ Hum), (get_prop _ _ "messageId" _ Hum).
    step. step. step. rewrite Hid.
    step. rewrite Hi.
    step. rewrite (retrieveRagContext_plain h um [] Hi). cbn [fst snd].
    step. rewrite (fan_out_without_error_logger h um mockContext e le [] He Hc A).
    reflexivity. }
  rewrite handler_cases. cbv zeta. rewrite Hi, P. cbn [fst snd]. rewrite He. reflexivity.
Qed.

(** X27.  The client of the completion service is constructed before the
    loop, outside of every [try] of [queryMultipleModels]: when the
    construction throws (as it does when the key is not set), a run on a
    host whose [context.log] returns, for a queue message that parses to an
    object whose [messageId] converts to a string, asks no model and sets no
    blob output; the [catch] of the handler calls [context.log.error] with
    the error, and the run throws that error, or what the call throws. *)
Theorem client_construction_not_isolated
    (h : host) (messageBody userMessage : value) (id : jsstring) (e : exn) (t : trace) :
  returns (context_log h) Info ->
  get messageBody "userMessage" = Returned userMessage ->
  ToString (number_to_string h) (prop messageBody "messageId") = Returned id ->
  OpenAIClient_new h = Thrown e ->
  exists evs,
    handler h (Returned messageBody) t
    = (match context_log h Err [Text (lit "Error in worker function:"); Caught e] with
       | Returned _ => Thrown e
       | Thrown e' => Thrown e'
       end,
       t ++ evs)
    /\ requests evs = []
    /\ blobs evs = []
    /\ last evs (Logged Info []) = Logged Err [Text (lit "Error in worker function:"); Caught e].
Proof.
  intros Hi Hum Hid Hc.
  rewrite (handler_without_client h messageBody userMessage id e t Hi Hum Hid Hc).
  eexists. split; [reflexivity | ]. repeat split; reflexivity.
Qed.

Lemma client_construction_not_isolated_witness :
  exists evs,
    handler Scenarios.key_unset (Returned Samples.queue_message) []
    = (Thrown (Error (lit "context.log.error is not a function")), [] ++ evs)
    /\ requests evs = []
    /\ blobs evs = [].
Proof.
  destruct (client_construction_not_isolated Scenarios.key_unset Samples.queue_message
              (VStr (lit "What is our refund policy?")) (lit "c1_1706534400000")
              (Error (lit "key must be a non-empty string")) [])
    as (evs & E & R & B & _).
  - intros args. reflexivity.
  - reflexivity.
  - reflexivity.
  - reflexivity.
  - exists evs. split; [exact E | ]. split; [exact R | exact B].
Defined.

End WorkerRunFacts.

(** ** The ingest functions *)

Module IngestFacts.
Import JS Effects EffectFacts Paths.
Open Scope Z_scope.

Lemma queued_app (t1 t2 : trace) :
  ChatIngest.queued (t1 ++ t2) = ChatIngest.queued t1 ++ ChatIngest.queued t2.
Proof. apply flat_map_app. Qed.

(** A request whose message reads as falsy. *)
Lemma handler_rejects (h : ChatIngest.host) (body message : value) (t : trace) :
  returns (ChatIngest.context_log h) Info ->
  get body "message" = Returned message ->
  truthy message = false ->
  ChatIngest.handler h (Returned body) t
  = (Returned {| ChatIngest.status := 400;
                 ChatIngest.headers := ChatIngest.json_headers;
                 ChatIngest.body :=
                   Some (JObj [ ("error"%string, JStr (lit "Message is required")) ]) |},
     t ++ [Logged Info [Text (lit "Ingest function processing chat message")]]).
Proof.
  intros Hi Hm Hf.
  unfold ChatIngest.handler, try_catch, bind, lift, log, ret. rewrite Hi.
  rewrite Hm, (get_prop _ _ "userId" _ Hm), (get_prop _ _ "conversationId" _ Hm).
  assert (Hu : truthy (or_else message (VStr [])) = false)
    by (unfold or_else; rewrite Hf; reflexivity).
  rewrite Hu. reflexivity.
Qed.

(** The object literal [formattedMessage]. *)
Lemma handler_accepts (h : ChatIngest.host) (body message : value) (conversation : jsstring)
    (t : trace) :
  returns (ChatIngest.context_log h) Info ->
  get body "message" = Returned message ->
  truthy message = true ->
  ToString (ChatIngest.number_to_string h) (or_else (prop body "conversationId") (VStr []))
  = Returned conversation ->
  let messageId := conversation ++ lit "_" ++ decimal (ChatIngest.Date_now h) in
  let envelope :=
    JSON_stringify
      (VObj [ ("messageId", VStr messageId);
              ("conversationId", or_else (prop body "conversationId") (VStr []));
              ("userId", or_else (prop body "userId") (VStr (lit "unknown")));
              ("userMessage", message);
              ("timestamp", VStr (ChatIngest.toISOString (ChatIngest.new_Date h)));
              ("metadata",
                 VObj [ ("source", VStr (lit "bot_service"));
                        ("requiresRAG", VBool true);
                        ("requiresMultiModel", VBool true) ]) ]%string) in
  ChatIngest.handler h (Returned body) t
  = (Returned {| ChatIngest.status := 202;
                 ChatIngest.headers := ChatIngest.json_headers;
                 ChatIngest.body :=
                   Some (JObj [ ("status", JStr (lit "accepted"));
                                ("messageId", JStr messageId) ]%string) |},
     t ++ [ Logged Info [Text (lit "Ingest function processing chat message")];
            OutputSet "outputMessage" envelope;
            Logged Info [Text (lit "Message queued successfully: "); Text messageId] ]).
Proof.
  intros Hi Hm Ht Hc messageId envelope.
  unfold ChatIngest.handler, try_catch, bind, lift, log, emit, ret.
  rewrite Hi.
  rewrite Hm, (get_prop _ _ "userId" _ Hm), (get_prop _ _ "conversationId" _ Hm).
  assert (Hu : or_else message (VStr []) = message)
    by (unfold or_else; rewrite Ht; reflexivity).
  rewrite !Hu, Ht. cbn [negb]. rewrite Hc, Hi.
  rewrite <- !app_assoc. reflexivity.
Qed.

(** The [catch]: one call to [context.log.error], then the 500 answer. *)
Lemma handler_catches (h : ChatIngest.host) (request_json : outcome value) (e : exn)
    (t : trace) :
  returns (ChatIngest.context_log h) Info ->
  failure h request_json e ->
  ChatIngest.handler h request_json t
  = (match ChatIngest.context_log h Err [Text (lit "Error in ingest function:"); Caught e] with
     | Returned _ =>
         Returned {| ChatIngest.status := 500;
                     ChatIngest.headers := ChatIngest.json_headers;
                     ChatIngest.body :=
                       Some (JObj [ ("error"%string, JStr (lit "Internal server error")) ]) |}
     | Thrown e' => Thrown e'
     end,
     t ++ [ Logged Info [Text (lit "Ingest function processing chat message")];
            Logged Err [Text (lit "Error in ingest function:"); Caught e] ]).
Proof.
  intros Hi F.
  unfold ChatIngest.handler, try_catch, bind, lift, log, ret. rewrite Hi.
  destruct F as [-> | [[-> ->] | [[-> ->] | (body & message & -> & Hm & Ht & Hc)]]];
    cbn [get].
  - destruct (ChatIngest.context_log h Err _); rewrite <- app_assoc; reflexivity.
  - destruct (ChatIngest.context_log h Err _); rewrite <- app_assoc; reflexivity.
  - destruct (ChatIngest.context_log h Err _); rewrite <- app_assoc; reflexivity.
  - rewrite Hm, (get_prop _ _ "userId" _ Hm), (get_prop _ _ "conversationId" _ Hm).
    assert (Hu : or_else message (VStr []) = message)
      by (unfold or_else; rewrite Ht; reflexivity).
    rewrite !Hu, Ht. cbn [negb]. rewrite Hc.
    destruct (ChatIngest.context_log h Err _); rewrite <- app_assoc; reflexivity.
Qed.

(** Every request is of one of the three kinds. *)
Lemma request_cases (h : ChatIngest.host) (request_json : outcome value) :
  (exists body message conversation,
     request_json = Returned body /\ get body "message" = Returned message
     /\ truthy message = true
     /\ ToString (ChatIngest.number_to_string h)
          (or_else (prop body "conversationId") (VStr [])) = Returned conversation)
  \/ (exists body message,
        request_json = Returned body /\ get body "message" = Returned message
        /\ truthy message = false)
  \/ (exists e, failure h request_json e).
Proof.
  destruct request_json as [body | e].
  - destruct (get body "message") as [message | e] eqn:Hm.
    + destruct (truthy message) eqn:Ht.
      * destruct (ToString (ChatIngest.number_to_string h)
                    (or_else (prop body "conversationId") (VStr []))) as [c | e] eqn:Hc.
        -- left. exists body, message, c. repeat split; assumption.
        -- right. right. exists e. right. right. right. exists body, message.
           repeat split; assumption.
      * right. left. exists body, message. repeat split; assumption.
    + right. right. destruct body; try discriminate Hm.
      * eexists. right. right. left. split; reflexivity.
      * eexists. right. left. split; reflexivity.
  - right. right. exists e. left. reflexivity.
Qed.

(** The digits of [Date.now()]: a decimal numeral in normal form. *)
Lemma decimal_numeral (z : Z) :
  exists (millis : string) (d : Decimal.int),
    decimal z = lit millis
    /\ DecimalString.NilZero.int_of_string millis = Some d
    /\ Z.of_int d = z
    /\ Decimal.norm d = d.
Proof.
  exists (DecimalString.NilZero.string_of_int (Z.to_int z)), (Z.to_int z).
  split; [reflexivity | ]. split.
  - apply DecimalString.NilZero.isi;
      destruct z as [ | p | p]; cbn [Z.to_int]; try discriminate;
      intros E; injection E as E; exact (DecimalPos.Unsigned.to_uint_nonnil p E).
  - split; [apply DecimalZ.of_to | ].
    rewrite <- DecimalZ.to_of, DecimalZ.of_to. reflexivity.
Qed.

Lemma truthy_has_text (v : value) : truthy v = true -> exists j, JSON_stringify v = Some j.
Proof. destruct v; cbn; intros H; try discriminate; eexists; reflexivity. Qed.

Lemma or_else_has_text (v d : value) :
  d <> VUndefined -> exists j, JSON_stringify (or_else v d) = Some j.
Proof.
  intros N. unfold or_else. destruct (truthy v) eqn:T; [apply truthy_has_text; exact T | ].
  destruct d; try (eexists; reflexivity). contradiction N. reflexivity.
Qed.

(** The members of the queue message. *)
Lemma envelope_members (messageId timestamp : jsstring) (conversationId userId message : value)
    (cj uj mj : json) :
  JSON_stringify conversationId = Some cj ->
  JSON_stringify userId = Some uj ->
  JSON_stringify message = Some mj ->
  JSON_stringify
    (VObj [ ("messageId", VStr messageId);
            ("conversationId", conversationId);
            ("userId", userId);
            ("userMessage", message);
            ("timestamp", VStr timestamp);
            ("metadata",
               VObj [ ("source", VStr (lit "bot_service"));
                      ("requiresRAG", VBool true);
                      ("requiresMultiModel", VBool true) ]) ]%string)
  = Some (JObj [ ("messageId", JStr messageId);
                 ("conversationId", cj);
                 ("userId", uj);
                 ("userMessage", mj);
                 ("timestamp", JStr timestamp);
                 ("metadata",
                    JObj [ ("source", JStr (lit "bot_service"));
                           ("requiresRAG", JBool true);
                           ("requiresMultiModel", JBool true) ]) ]%string).
Proof.
  unfold JSON_stringify. intros Hc Hu Hm. cbn [SerializeJSONProperty].
  rewrite Hc, Hu, Hm. reflexivity.
Qed.

(** C4 (amended).  A chat ingest request whose body can be read and whose
    [message] is missing, empty or otherwise falsy is answered 400 with the
    body [{error: 'Message is required'}], and no queue message is set (on
    a host whose [context.log] returns).  The entry point index.js answers a
    request without a message 500, with the body
    [{error: "Missing 'message' field"}], and asks no model. *)
Theorem missing_message_rejected :
  (forall (h : ChatIngest.host) (body message : value) (t : trace),
     returns (ChatIngest.context_log h) Info ->
     get body "message" = Returned message ->
     truthy message = false ->
     exists evs,
       ChatIngest.handler h (Returned body) t
       = (Returned {| ChatIngest.status := 400;
                      ChatIngest.headers := ChatIngest.json_headers;
                      ChatIngest.body :=
                        Some (JObj [ ("error"%string, JStr (lit "Message is required")) ]) |},
          t ++ evs)
       /\ ChatIngest.queued evs = [])
  /\ (forall (h : Models.host) (req body message : value) (t : trace),
        get req "body" = Returned body ->
        get (or_else body (VObj [])) "message" = Returned message ->
        truthy message = false ->
        Index.main h req t
        = (Returned {| Index.status := 500;
                       Index.body :=
                         VObj [ ("error"%string, VStr (lit "Missing 'message' field")) ] |},
           t)).
Proof.
  split.
  - intros h body message t Hi Hm Hf.
    eexists. split; [apply (handler_rejects h body message t Hi Hm Hf) | reflexivity].
  - intros h req body message t Hb Hm Hf.
    unfold Index.main, try_catch, bind, lift, throw, ret.
    rewrite Hb, Hm, (get_prop _ _ "user_id" _ Hm), Hf. reflexivity.
Qed.

Lemma missing_message_rejected_witness :
  (exists evs,
     ChatIngest.handler Samples.ingest_host
       (Returned (VObj [ ("userId"%string, VStr (lit "u1")) ])) []
     = (Returned {| ChatIngest.status := 400;
                    ChatIngest.headers := ChatIngest.json_headers;
                    ChatIngest.body :=
                      Some (JObj [ ("error"%string, JStr (lit "Message is required")) ]) |},
        [] ++ evs)
     /\ ChatIngest.queued evs = [])
  /\ Index.main Samples.answering_host (VObj [ ("body"%string, VObj []) ]) []
     = (Returned {| Index.status := 500;
                    Index.body :=
                      VObj [ ("error"%string, VStr (lit "Missing 'message' field")) ] |},
        []).
Proof.
  destruct missing_message_rejected as (A & B). split.
  - apply (A Samples.ingest_host (VObj [ ("userId"%string, VStr (lit "u1")) ]) VUndefined);
      [intros args | | ]; reflexivity.
  - apply (B Samples.answering_host (VObj [ ("body"%string, VObj []) ]) (VObj []) VUndefined);
      reflexivity.
Defined.

(** A request without a message that is not answered 400: index.js answers
    it 500. *)
Lemma missing_message_answered_500 :
  option_map Index.status
    (match fst (Index.main Samples.answering_host (VObj [ ("body"%string, VObj []) ]) []) with
     | Returned r => Some r
     | Thrown _ => None
     end) = Some 500
  /\ 500 <> 400.
Proof. split; [reflexivity | discriminate]. Qed.

(** C5 (amended).  A chat ingest request with a truthy message and a
    conversation identifier that has a string form, on a host whose
    [context.log] returns, sets the queue binding exactly once and is
    answered 202 with [{status: 'accepted', messageId}], where [messageId]
    is the string form of the conversation identifier (a string as it is,
    the empty string if it is missing), an underscore, and the reading of
    the clock in milliseconds as a decimal numeral in normal form.  The
    queue message is the JSON text of an object that carries the same
    identifier, the conversation identifier, the user identifier
    (['unknown'] if missing), the message, the ISO 8601 form of the time,
    and the metadata, each as [JSON.stringify] writes it: a string as it
    is. *)
Theorem valid_message_enqueued_once
    (h : ChatIngest.host) (body message : value) (conversation : jsstring) (t : trace) :
  returns (ChatIngest.context_log h) Info ->
  get body "message" = Returned message ->
  truthy message = true ->
  ToString (ChatIngest.number_to_string h) (or_else (prop body "conversationId") (VStr []))
  = Returned conversation ->
  exists (millis : string) (d : Decimal.int) (envelope : option json),
    let messageId := conversation ++ lit "_" ++ lit millis in
    DecimalString.NilZero.int_of_string millis = Some d
    /\ Z.of_int d = ChatIngest.Date_now h
    /\ Decimal.norm d = d
    /\ ChatIngest.handler h (Returned body) t
       = (Returned {| ChatIngest.status := 202;
                      ChatIngest.headers := ChatIngest.json_headers;
                      ChatIngest.body :=
                        Some (JObj [ ("status", JStr (lit "accepted"));
                                     ("messageId", JStr messageId) ]%string) |},
          t ++ [ Logged Info [Text (lit "Ingest function processing chat message")];
                 OutputSet "outputMessage" envelope;
                 Logged Info [Text (lit "Message queued successfully: "); Text messageId] ])
    /\ ChatIngest.queued
         [ Logged Info [Text (lit "Ingest function processing chat message")];
           OutputSet "outputMessage" envelope;
           Logged Info [Text (lit "Message queued successfully: "); Text messageId] ]
       = [envelope]
    /\ member_of envelope "messageId" = Some (JStr messageId)
    /\ member_of envelope "conversationId"
       = JSON_stringify (or_else (prop body "conversationId") (VStr []))
    /\ member_of envelope "userId"
       = JSON_stringify (or_else (prop body "userId") (VStr (lit "unknown")))
    /\ member_of envelope "userMessage" = JSON_stringify message
    /\ member_of envelope "timestamp"
       = Some (JStr (ChatIngest.toISOString (ChatIngest.new_Date h)))
    /\ member_of envelope "metadata"
       = Some (JObj [ ("source", JStr (lit "bot_service"));
                      ("requiresRAG", JBool true);
                      ("requiresMultiModel", JBool true) ]%string)
    /\ (forall s, prop body "conversationId" = VStr s ->
          conversation = s /\ member_of envelope "conversationId" = Some (JStr s))
    /\ (prop body "conversationId" = VUndefined -> conversation = [])
    /\ (forall s, message = VStr s -> member_of envelope "userMessage" = Some (JStr s))
    /\ (forall s, prop body "userId" = VStr s -> s <> [] ->
          member_of envelope "userId" = Some (JStr s))
    /\ (prop body "userId" = VUndefined ->
        member_of envelope "userId" = Some (JStr (lit "unknown"))).
Proof.
  intros Hi Hm Ht Hc.
  destruct (decimal_numeral (ChatIngest.Date_now h)) as (millis & d & Hd & Hp & Hv & Hn).
  pose proof (handler_accepts h body message conversation t Hi Hm Ht Hc) as E.
  cbv zeta in E. rewrite Hd in E.
  destruct (or_else_has_text (prop body "conversationId") (VStr []) ltac:(discriminate))
    as (cj & Hcj).
  destruct (or_else_has_text (prop body "userId") (VStr (lit "unknown")) ltac:(discriminate))
    as (uj & Huj).
  destruct (truthy_has_text message Ht) as (mj & Hmj).
  rewrite (envelope_members _ _ _ _ _ cj uj mj Hcj Huj Hmj) in E.
  exists millis, d. eexists. cbv zeta.
  split; [exact Hp | ]. split; [exact Hv | ]. split; [exact Hn | ].
  split; [exact E | ]. split; [reflexivity | ]. split; [reflexivity | ].
  split; [rewrite Hcj; reflexivity | ]. split; [rewrite Huj; reflexivity | ].
  split; [rewrite Hmj; reflexivity | ]. split; [reflexivity | ]. split; [reflexivity | ].
  split.
  { intros s Hs. rewrite Hs in Hc, Hcj. destruct s as [ | c s];
      cbn in Hc, Hcj; injection Hc as <-; injection Hcj as <-; split; reflexivity. }
  split.
  { intros Hs. rewrite Hs in Hc. cbn in Hc. injection Hc as <-. reflexivity. }
  split.
  { intros s ->. cbn in Hmj. injection Hmj as <-. reflexivity. }
  split.
  { intros s Hs Ns. rewrite Hs in Huj. destruct s as [ | c s]; [contradiction Ns; reflexivity | ].
    cbn in Huj. injection Huj as <-. reflexivity. }
  intros Hs. rewrite Hs in Huj. cbn in Huj. injection Huj as <-. reflexivity.
Qed.

Lemma valid_message_enqueued_once_witness :
  exists envelope,
    ChatIngest.handler Samples.ingest_host (Returned Samples.chat_request) []
    = (Returned {| ChatIngest.status := 202;
                   ChatIngest.headers := ChatIngest.json_headers;
                   ChatIngest.body :=
                     Some (JObj [ ("status", JStr (lit "accepted"));
                                  ("messageId", JStr (lit "c1_1706534400000")) ]%string) |},
       [] ++ [ Logged Info [Text (lit "Ingest function processing chat message")];
               OutputSet "outputMessage" envelope;
               Logged Info [Text (lit "Message queued successfully: ");
                            Text (lit "c1_1706534400000")] ])
    /\ member_of envelope "messageId" = Some (JStr (lit "c1_1706534400000"))
    /\ member_of envelope "userMessage" = Some (JStr (lit "What is our refund policy?"))
    /\ member_of envelope "timestamp" = Some (JStr (lit "2024-01-29T13:20:00.000Z")).
Proof.
  destruct (valid_message_enqueued_once Samples.ingest_host Samples.chat_request
              (VStr (lit "What is our refund policy?")) (lit "c1") []
              ltac:(intros args; reflexivity) eq_refl eq_refl eq_refl)
    as (millis & d & envelope & P & V & N & E & _ & I & _ & _ & _ & T & _ & _ & _ & M & _).
  assert (L : millis = "1706534400000"%string).
  { apply DecimalString.NilZero.sis in P. rewrite <- P, <- N, <- DecimalZ.to_of.
    change (ChatIngest.Date_now Samples.ingest_host) with 1706534400000 in V.
    rewrite V. reflexivity. }
  subst millis.
  exists envelope. split; [exact E | ]. split; [exact I | ].
  split; [apply M; reflexivity | exact T].
Defined.

(** A request with a message that is not accepted: its conversation
    identifier has no string form, the template literal throws, and with
    it the handler, on a host whose logger has no [error]; no queue message
    is set.  And a request whose message is the number [1e400] reads as:
    the queue message carries [null] in its place. *)
Lemma valid_request_not_accepted :
  get Scenarios.unconvertible_request "message"
  = Returned (VStr (lit "What is our refund policy?"))
  /\ (exists e, fst (ChatIngest.handler Samples.ingest_host
                       (Returned Scenarios.unconvertible_request) []) = Thrown e)
  /\ ChatIngest.queued (snd (ChatIngest.handler Samples.ingest_host
                               (Returned Scenarios.unconvertible_request) [])) = []
  /\ truthy (prop Scenarios.infinite_message "message") = true
  /\ exists envelope,
       ChatIngest.queued (snd (ChatIngest.handler Samples.ingest_host
                                 (Returned Scenarios.infinite_message) [])) = [envelope]
       /\ member_of envelope "userMessage" = Some JNull.
Proof.
  split; [reflexivity | ]. split; [eexists; reflexivity | ]. split; [reflexivity | ].
  split; [reflexivity | ]. eexists. split; reflexivity.
Qed.

End IngestFacts.

(** ** More runs of the ingest function *)

Module IngestRunFacts.
Import JS Effects EffectFacts Paths IngestFacts.
Open Scope Z_scope.

(** X15.  On a host whose [context.log] returns, a run of the chat ingest
    function ends in one of three ways: with the answer 202, when the body
    has a truthy [message] and a conversation identifier that has a string
    form; with the answer 400, when the body can be read and its [message]
    is falsy; or in the [catch], when the body does not parse, is [null],
    or has a conversation identifier without string form.  The [catch]
    calls [context.log.error] with the error: the handler answers 500 if
    that call returns, and throws what the call throws if it throws.  A
    queue message is set exactly in the first case, and then exactly
    once. *)
Theorem ingest_answers (h : ChatIngest.host) (request_json : outcome value) (t : trace) :
  returns (ChatIngest.context_log h) Info ->
  exists evs,
    snd (ChatIngest.handler h request_json t) = t ++ evs
    /\ ((exists r body message conversation,
           fst (ChatIngest.handler h request_json t) = Returned r
           /\ ChatIngest.status r = 202
           /\ ChatIngest.headers r = ChatIngest.json_headers
           /\ List.length (ChatIngest.queued evs) = 1%nat
           /\ request_json = Returned body /\ get body "message" = Returned message
           /\ truthy message = true
           /\ ToString (ChatIngest.number_to_string h)
                (or_else (prop body "conversationId") (VStr [])) = Returned conversation)
        \/ (exists r body message,
              fst (ChatIngest.handler h request_json t) = Returned r
              /\ ChatIngest.status r = 400
              /\ ChatIngest.headers r = ChatIngest.json_headers
              /\ ChatIngest.queued evs = []
              /\ request_json = Returned body /\ get body "message" = Returned message
              /\ truthy message = false)
        \/ (exists e,
              (request_json = Thrown e
               \/ (request_json = Returned VNull /\ e = TypeError_read true "message")
               \/ (request_json = Returned VUndefined /\ e = TypeError_read false "message")
               \/ (exists body message,
                     request_json = Returned body /\ get body "message" = Returned message
                     /\ truthy message = true
                     /\ ToString (ChatIngest.number_to_string h)
                          (or_else (prop body "conversationId") (VStr [])) = Thrown e))
              /\ ChatIngest.queued evs = []
              /\ evs = [ Logged Info [Text (lit "Ingest function processing chat message")];
                         Logged Err [Text (lit "Error in ingest function:"); Caught e] ]
              /\ fst (ChatIngest.handler h request_json t)
                 = match ChatIngest.context_log h Err
                           [Text (lit "Error in ingest function:"); Caught e] with
                   | Returned _ =>
                       Returned {| ChatIngest.status := 500;
                                   ChatIngest.headers := ChatIngest.json_headers;
                                   ChatIngest.body :=
                                     Some (JObj [ ("error"%string,
                                                   JStr (lit "Internal server error")) ]) |}
                   | Thrown e' => Thrown e'
                   end)).
Proof.
  intros Hi.
  destruct (request_cases h request_json)
    as [(body & message & c & -> & Hm & Ht & Hc) | [(body & message & -> & Hm & Hf) | (e & F)]].
  - pose proof (handler_accepts h body message c t Hi Hm Ht Hc) as E. cbv zeta in E.
    rewrite E. eexists. split; [reflexivity | ]. left.
    eexists _, body, message, c. cbn [fst]. repeat split; assumption.
  - rewrite (handler_rejects h body message t Hi Hm Hf).
    eexists. split; [reflexivity | ]. right. left.
    eexists _, body, message. cbn [fst]. repeat split; assumption.
  - rewrite (handler_catches h request_json e t Hi F).
    eexists. split; [reflexivity | ]. right. right.
    exists e. split; [exact F | ]. repeat split.
Qed.

(** The sample request is answered 202. *)
Lemma ingest_answers_witness :
  exists r evs,
    ChatIngest.handler Samples.ingest_host (Returned Samples.chat_request) []
    = (Returned r, [] ++ evs)
    /\ ChatIngest.status r = 202
    /\ List.length (ChatIngest.queued evs) = 1%nat.
Proof.
  destruct (ingest_answers Samples.ingest_host (Returned Samples.chat_request) []
              ltac:(intros args; reflexivity))
    as (evs & S & [(r & _ & _ & _ & E & St & _ & Q & _)
                  | [(r & body & message & _ & _ & _ & _ & Hb & Hm & T)
                    | (e & F & _)]]).
  - exists r, evs. split; [ | split; assumption].
    rewrite <- S, <- E. apply surjective_pairing.
  - injection Hb as <-. injection Hm as <-. discriminate T.
  - destruct F as [H | [[H _] | [[H _] | (body & message & Hb & Hm & _ & C)]]];
      try discriminate H.
    injection Hb as <-. discriminate C.
Defined.

(** *** The message identifier *)

Lemma lit_inj (a b : string) : lit a = lit b -> a = b.
Proof.
  unfold lit. intros H.
  assert (M : forall l l', map N_of_ascii l = map N_of_ascii l' -> l = l').
  { induction l as [ | x l IH]; intros [ | y l'] E; try discriminate; [reflexivity | ].
    cbn [map] in E. injection E as Exy El.
    rewrite <- (ascii_N_embedding x), <- (ascii_N_embedding y), Exy, (IH _ El). reflexivity. }
  apply M in H.
  rewrite <- (string_of_list_ascii_of_string a), <- (string_of_list_ascii_of_string b), H.
  reflexivity.
Qed.

(** The decimal digits tell the integer. *)
Lemma decimal_inj (z z' : Z) : decimal z = decimal z' -> z = z'.
Proof.
  unfold decimal. intros H. apply lit_inj in H.
  assert (N : forall z, Z.to_int z <> Decimal.Pos Decimal.Nil
                        /\ Z.to_int z <> Decimal.Neg Decimal.Nil).
  { intros [ | p | p]; cbn [Z.to_int]; split; try discriminate;
      intros E; injection E as E; exact (DecimalPos.Unsigned.to_uint_nonnil p E). }
  apply DecimalZ.to_int_inj.
  assert (S : Some (Z.to_int z) = Some (Z.to_int z')).
  { rewrite <- (DecimalString.NilZero.isi (Z.to_int z)) by apply N.
    rewrite <- (DecimalString.NilZero.isi (Z.to_int z')) by apply N.
    rewrite H. reflexivity. }
  injection S as S. exact S.
Qed.

Lemma digits_of_uint (d : Decimal.uint) (c : N) :
  In c (lit (DecimalString.NilEmpty.string_of_uint d)) -> (48 <= c <= 57)%N.
Proof.
  induction d; cbn; intros H; try contradiction;
    (destruct H as [<- | H]; [lia | apply IHd; exact H]).
Qed.

(** They hold no underscore. *)
Lemma decimal_no_underscore (z : Z) : ~ In 95%N (decimal z).
Proof.
  assert (U : forall d, ~ In 95%N (lit (DecimalString.NilZero.string_of_uint d))).
  { intros d H. unfold DecimalString.NilZero.string_of_uint in H.
    destruct d; try (apply digits_of_uint in H; lia).
    cbn in H. destruct H as [H | []]. discriminate H. }
  unfold decimal. destruct (Z.to_int z) as [d | d]; cbn [DecimalString.NilZero.string_of_int].
  - apply U.
  - change (lit (String "-" (DecimalString.NilZero.string_of_uint d)))
      with (45%N :: lit (DecimalString.NilZero.string_of_uint d)).
    intros [H | H]; [discriminate H | exact (U d H)].
Qed.

(** A sequence is cut in one way at its last separator. *)
Lemma cut_at_last {A} (x : A) (l1 l2 r1 r2 : list A) :
  ~ In x r1 -> ~ In x r2 ->
  l1 ++ x :: r1 = l2 ++ x :: r2 -> l1 = l2 /\ r1 = r2.
Proof.
  intros N1 N2. revert l2. induction l1 as [ | a l1 IH]; intros [ | b l2] E; cbn [app] in E.
  - injection E as E. split; [reflexivity | exact E].
  - injection E as <- E. contradiction N1. rewrite E. apply in_or_app. right. left. reflexivity.
  - injection E as <- E. contradiction N2. rewrite <- E. apply in_or_app. right. left. reflexivity.
  - injection E as <- E. destruct (IH _ E) as [-> ->]. split; reflexivity.
Qed.


(** X16.  The message identifier of an accepted request tells the string
    form of the conversation identifier and the reading of the clock: two
    accepted requests (on hosts whose [context.log] returns) get the same
    [messageId] exactly when their conversation identifiers have the same
    string form and they were read at the same millisecond.  Two messages
    of one conversation that arrive within one millisecond therefore share
    their identifier, and so do, within one millisecond, two conversations
    whose identifiers differ but have one string form, as the string ['1']
    and the array [['1']] have. *)
Theorem message_id_tells_conversation_and_time
    (h1 h2 : ChatIngest.host) (body1 body2 message1 message2 : value)
    (c1 c2 : jsstring) (t1 t2 : trace) :
  returns (ChatIngest.context_log h1) Info -> returns (ChatIngest.context_log h2) Info ->
  get body1 "message" = Returned message1 -> truthy message1 = true ->
  get body2 "message" = Returned message2 -> truthy message2 = true ->
  ToString (ChatIngest.number_to_string h1) (or_else (prop body1 "conversationId") (VStr []))
  = Returned c1 ->
  ToString (ChatIngest.number_to_string h2) (or_else (prop body2 "conversationId") (VStr []))
  = Returned c2 ->
  exists id1 id2 r1 r2 evs1 evs2,
    ChatIngest.handler h1 (Returned body1) t1 = (Returned r1, t1 ++ evs1)
    /\ ChatIngest.handler h2 (Returned body2) t2 = (Returned r2, t2 ++ evs2)
    /\ member_of (ChatIngest.body r1) "messageId" = Some (JStr id1)
    /\ member_of (ChatIngest.body r2) "messageId" = Some (JStr id2)
    /\ map (fun q => member_of q "messageId") (ChatIngest.queued evs1) = [Some (JStr id1)]
    /\ map (fun q => member_of q "messageId") (ChatIngest.queued evs2) = [Some (JStr id2)]
    /\ (id1 = id2 <-> c1 = c2 /\ ChatIngest.Date_now h1 = ChatIngest.Date_now h2)
    /\ (forall s1 s2, prop body1 "conversationId" = VStr s1 ->
          prop body2 "conversationId" = VStr s2 ->
          (id1 = id2 <-> s1 = s2 /\ ChatIngest.Date_now h1 = ChatIngest.Date_now h2)).
Proof.
  intros Hi1 Hi2 Hm1 Ht1 Hm2 Ht2 Hc1 Hc2.
  pose proof (handler_accepts h1 body1 message1 c1 t1 Hi1 Hm1 Ht1 Hc1) as E1.
  pose proof (handler_accepts h2 body2 message2 c2 t2 Hi2 Hm2 Ht2 Hc2) as E2.
  cbv zeta in E1, E2.
  assert (I : c1 ++ lit "_" ++ decimal (ChatIngest.Date_now h1)
              = c2 ++ lit "_" ++ decimal (ChatIngest.Date_now h2)
              <-> c1 = c2 /\ ChatIngest.Date_now h1 = ChatIngest.Date_now h2).
  { split.
    - intros H. change (lit "_") with [95%N] in H. cbn [app] in H.
      apply cut_at_last in H; try apply decimal_no_underscore.
      destruct H as [Hc Hd]. split; [exact Hc | apply decimal_inj; exact Hd].
    - intros [-> ->]. reflexivity. }
  eexists _, _, _, _, _, _.
  split; [exact E1 | ]. split; [exact E2 | ].
  split; [reflexivity | ]. split; [reflexivity | ].
  split; [reflexivity | ]. split; [reflexivity | ].
  split; [exact I | ].
  intros s1 s2 H1 H2. rewrite H1 in Hc1. rewrite H2 in Hc2.
  assert (C1 : c1 = s1) by (destruct s1; cbn in Hc1; injection Hc1 as <-; reflexivity).
  assert (C2 : c2 = s2) by (destruct s2; cbn in Hc2; injection Hc2 as <-; reflexivity).
  rewrite <- C1, <- C2. exact I.
Qed.

(** Two requests of one conversation, read at the same millisecond, with
    different messages: they get the same identifier. *)
Lemma message_id_tells_conversation_and_time_witness :
  exists id r1 r2 evs1 evs2,
    ChatIngest.handler Samples.ingest_host (Returned Samples.chat_request) []
    = (Returned r1, [] ++ evs1)
    /\ ChatIngest.handler Samples.ingest_host (Returned Scenarios.second_request) []
       = (Returned r2, [] ++ evs2)
    /\ member_of (ChatIngest.body r1) "messageId" = Some (JStr id)
    /\ member_of (ChatIngest.body r2) "messageId" = Some (JStr id).
Proof.
  destruct (message_id_tells_conversation_and_time
              Samples.ingest_host Samples.ingest_host
              Samples.chat_request Scenarios.second_request
              (VStr (lit "What is our refund policy?")) (VStr (lit "And for digital goods?"))
              (lit "c1") (lit "c1") [] []
              ltac:(intros args; reflexivity) ltac:(intros args; reflexivity)
              eq_refl eq_refl eq_refl eq_refl eq_refl eq_refl)
    as (id1 & id2 & r1 & r2 & evs1 & evs2 & E1 & E2 & I1 & I2 & _ & _ & H & _).
  exists id1, r1, r2, evs1, evs2.
  split; [exact E1 | ]. split; [exact E2 | ]. split; [exact I1 | ].
  rewrite (proj2 H (conj eq_refl eq_refl)). exact I2.
Defined.

End IngestRunFacts.

(** ** Runs of orchestrator.js and index.js *)

Module OrchestratorFacts.
Import JS Effects Silent EffectFacts Asked.
Open Scope Z_scope.

Lemma complete_run (h : Models.host) (model : jsstring) (messages : list chat_message)
    (t : trace) :
  Models.complete h model messages t
  = (contentOf h model messages, t ++ [CompletionRequested model messages]).
Proof.
  unfold contentOf, Models.complete.
  match goal with
  | |- bind (emit _) ?K _ = _ => assert (S : silent (K tt)) by silent_steps
  end.
  rewrite !bind_emit, (S (t ++ _)), (S ([] ++ _)). reflexivity.
Qed.

(** A run of the orchestration: the first model is asked; the second is asked
    only when the answer of the first could be read; the result is built only
    when the answer of the second could be read too. *)
Lemma runOrchestration_run (h : Models.host) (userMessage userId : value) (t : trace) :
  Orchestrator.runOrchestration h userMessage userId t
  = match contentOf h (lit "gpt-4o") (messagesGPT4 userMessage) with
    | Thrown e =>
        (Thrown e, t ++ [CompletionRequested (lit "gpt-4o") (messagesGPT4 userMessage)])
    | Returned a =>
        match contentOf h (lit "gpt-35-turbo") (messagesGPT35 userMessage) with
        | Thrown e =>
            (Thrown e,
             t ++ [ CompletionRequested (lit "gpt-4o") (messagesGPT4 userMessage);
                    CompletionRequested (lit "gpt-35-turbo") (messagesGPT35 userMessage) ])
        | Returned b =>
            (Returned (VObj [ ("answer", a);
                              ("confidence", VNum 0.8);
                              ("sources", VArr [VStr (lit "doc1"); VStr (lit "doc2")]) ]%string),
             t ++ [ CompletionRequested (lit "gpt-4o") (messagesGPT4 userMessage);
                    CompletionRequested (lit "gpt-35-turbo") (messagesGPT35 userMessage) ])
        end
    end.
Proof.
  unfold Orchestrator.runOrchestration, Rag.retrieveContext, Models.callGPT4, Models.callGPT35.
  unfold bind at 1, ret at 1.
  unfold bind at 1. unfold bind at 1, lift at 1.
  change (get (VObj _) "context") with (Returned contextText). cbv iota.
  unfold bind at 1. fold (messagesGPT4 userMessage). rewrite complete_run.
  destruct (contentOf h (lit "gpt-4o") (messagesGPT4 userMessage)) as [a | e]; [ | reflexivity].
  unfold ret at 1.
  unfold bind at 1. unfold bind at 1, lift at 1.
  change (get (VObj _) "context") with (Returned contextText). cbv iota.
  unfold bind at 1. fold (messagesGPT35 userMessage). rewrite complete_run.
  destruct (contentOf h (lit "gpt-35-turbo") (messagesGPT35 userMessage)) as [b | e];
    rewrite <- app_assoc; reflexivity.
Qed.

(** The entry point, once the message is read. *)
Lemma main_run (h : Models.host) (req body message : value) (t : trace) :
  get req "body" = Returned body ->
  get (or_else body (VObj [])) "message" = Returned message ->
  truthy message = true ->
  Index.main h req t
  = match Orchestrator.runOrchestration h message
            (or_else (prop (or_else body (VObj [])) "user_id") (VStr (lit "anonymous"))) t with
    | (Returned result, t') => (Returned {| Index.status := 200; Index.body := result |}, t')
    | (Thrown e, t') =>
        (Returned {| Index.status := 500;
                     Index.body := VObj [ ("error"%string, VStr (JS.message e)) ] |}, t')
    end.
Proof.
  intros Hb Hm Ht.
  unfold Index.main, try_catch, bind, lift, throw, ret.
  rewrite Hb, Hm, (get_prop _ _ "user_id" _ Hm), Ht. cbn [negb].
  destruct (Orchestrator.runOrchestration h message _ t) as [[result | e] t']; reflexivity.
Qed.

(** X17.  The entry point index.js never throws, and leaves one of two
    responses.  It answers 200 exactly when the request has a truthy message
    and the answers of both models could be read; the body then holds the
    content of the answer of [gpt-4o], the confidence 0.8 and the sources
    [doc1], [doc2], and the two models were asked in the order [gpt-4o],
    [gpt-35-turbo].  In every other case it answers 500 with a body
    [{error: message}], after at most two completion requests. *)
Theorem index_answers (h : Models.host) (req : value) (t : trace) :
  exists r evs,
    Index.main h req t = (Returned r, t ++ evs)
    /\ ((Index.status r = 200
         /\ exists body message a b,
              get req "body" = Returned body
              /\ get (or_else body (VObj [])) "message" = Returned message
              /\ truthy message = true
              /\ contentOf h (lit "gpt-4o") (messagesGPT4 message) = Returned a
              /\ contentOf h (lit "gpt-35-turbo") (messagesGPT35 message) = Returned b
              /\ Index.body r
                 = VObj [ ("answer", a);
                          ("confidence", VNum 0.8);
                          ("sources", VArr [VStr (lit "doc1"); VStr (lit "doc2")]) ]%string
              /\ evs = [ CompletionRequested (lit "gpt-4o") (messagesGPT4 message);
                         CompletionRequested (lit "gpt-35-turbo") (messagesGPT35 message) ])
        \/ (Index.status r = 500
            /\ (exists text, Index.body r = VObj [ ("error"%string, VStr text) ])
            /\ (List.length (ChatWorker.requests evs) <= 2)%nat
            /\ ~ (exists body message a b,
                    get req "body" = Returned body
                    /\ get (or_else body (VObj [])) "message" = Returned message
                    /\ truthy message = true
                    /\ contentOf h (lit "gpt-4o") (messagesGPT4 message) = Returned a
                    /\ contentOf h (lit "gpt-35-turbo") (messagesGPT35 message) = Returned b))).
Proof.
  destruct (get req "body") as [body | e0] eqn:Hb.
  2:{ exists {| Index.status := 500;
                Index.body := VObj [ ("error"%string, VStr (JS.message e0)) ] |}, [].
      split.
      - unfold Index.main, try_catch, bind, lift. rewrite Hb, app_nil_r. reflexivity.
      - right. split; [reflexivity | ]. split; [eexists; reflexivity | ].
        split; [cbn; lia | ]. intros (b' & m' & a & b & H & _). discriminate H. }
  destruct (get (or_else body (VObj [])) "message") as [message | e0] eqn:Hm.
  2:{ exists {| Index.status := 500;
                Index.body := VObj [ ("error"%string, VStr (JS.message e0)) ] |}, [].
      split.
      - unfold Index.main, try_catch, bind, lift. rewrite Hb, Hm, app_nil_r. reflexivity.
      - right. split; [reflexivity | ]. split; [eexists; reflexivity | ].
        split; [cbn; lia | ]. intros (b' & m' & a & b & H & H' & _).
        injection H as <-. rewrite Hm in H'. discriminate H'. }
  destruct (truthy message) eqn:Ht.
  2:{ exists {| Index.status := 500;
                Index.body := VObj [ ("error"%string, VStr (lit "Missing 'message' field")) ] |},
             [].
      split.
      - unfold Index.main, try_catch, bind, lift, throw, ret.
        rewrite Hb, Hm, (get_prop _ _ "user_id" _ Hm), Ht, app_nil_r. reflexivity.
      - right. split; [reflexivity | ]. split; [eexists; reflexivity | ].
        split; [cbn; lia | ]. intros (b' & m' & a & b & H & H' & T & _).
        injection H as <-. rewrite Hm in H'. injection H' as <-. rewrite Ht in T.
        discriminate T. }
  rewrite (main_run h req body message t Hb Hm Ht), runOrchestration_run.
  destruct (contentOf h (lit "gpt-4o") (messagesGPT4 message)) as [a | e] eqn:A.
  - destruct (contentOf h (lit "gpt-35-turbo") (messagesGPT35 message)) as [b | e] eqn:B.
    + eexists _, _. split; [reflexivity | ]. left. split; [reflexivity | ].
      exists body, message, a, b. repeat split; assumption.
    + eexists _, _. split; [reflexivity | ]. right. split; [reflexivity | ].
      split; [eexists; reflexivity | ]. split; [cbn; lia | ].
      intros (b' & m' & a' & b & H & H' & _ & _ & B').
      injection H as <-. rewrite Hm in H'. injection H' as <-. rewrite B in B'.
      discriminate B'.
  - eexists _, _. split; [reflexivity | ]. right. split; [reflexivity | ].
    split; [eexists; reflexivity | ]. split; [cbn; lia | ].
    intros (b' & m' & a & b & H & H' & _ & A' & _).
    injection H as <-. rewrite Hm in H'. injection H' as <-. rewrite A in A'.
    discriminate A'.
Qed.

(** X18.  orchestrator.js does not isolate the failures of its models.  When
    the call to [gpt-4o] fails (or its answer cannot be read), the
    orchestration throws that error at once: [gpt-35-turbo] is never asked,
    and index.js answers 500 with the message of the error.  When [gpt-4o]
    answered and the call to [gpt-35-turbo] fails, the orchestration throws
    as well, and the answer of [gpt-4o] is lost. *)
Theorem orchestrator_fails_fast (h : Models.host) (userMessage userId : value) (t : trace) :
  (forall e,
     Models.create h (lit "gpt-4o") (messagesGPT4 userMessage) = Thrown e
     \/ contentOf h (lit "gpt-4o") (messagesGPT4 userMessage) = Thrown e ->
     Orchestrator.runOrchestration h userMessage userId t
     = (Thrown e, t ++ [CompletionRequested (lit "gpt-4o") (messagesGPT4 userMessage)])
     /\ forall req body,
          get req "body" = Returned body ->
          get (or_else body (VObj [])) "message" = Returned userMessage ->
          truthy userMessage = true ->
          Index.main h req t
          = (Returned {| Index.status := 500;
                         Index.body := VObj [ ("error"%string, VStr (JS.message e)) ] |},
             t ++ [CompletionRequested (lit "gpt-4o") (messagesGPT4 userMessage)]))
  /\ (forall a e,
        contentOf h (lit "gpt-4o") (messagesGPT4 userMessage) = Returned a ->
        Models.create h (lit "gpt-35-turbo") (messagesGPT35 userMessage) = Thrown e
        \/ contentOf h (lit "gpt-35-turbo") (messagesGPT35 userMessage) = Thrown e ->
        Orchestrator.runOrchestration h userMessage userId t
        = (Thrown e,
           t ++ [ CompletionRequested (lit "gpt-4o") (messagesGPT4 userMessage);
                  CompletionRequested (lit "gpt-35-turbo") (messagesGPT35 userMessage) ])).
Proof.
  assert (C : forall model messages e,
             Models.create h model messages = Thrown e
             \/ contentOf h model messages = Thrown e ->
             contentOf h model messages = Thrown e).
  { intros model messages e [H | H]; [ | exact H].
    unfold contentOf, Models.complete, bind, emit, lift. cbn [fst]. rewrite H. reflexivity. }
  split.
  - intros e H. apply C in H. split.
    + rewrite runOrchestration_run, H. reflexivity.
    + intros req body Hb Hm Ht.
      rewrite (main_run h req body userMessage t Hb Hm Ht), runOrchestration_run, H.
      reflexivity.
  - intros a e A H. apply C in H. rewrite runOrchestration_run, A, H. reflexivity.
Qed.

(** The model [gpt-4o] is down: one completion request, and the answer 500. *)
Lemma orchestrator_fails_fast_witness :
  Index.main Scenarios.gpt4o_down
    (VObj [ ("body", VObj [ ("message", VStr (lit "hi")) ]) ]%string) []
  = (Returned {| Index.status := 500;
                 Index.body := VObj [ ("error"%string, VStr (lit "Service unavailable")) ] |},
     [] ++ [CompletionRequested (lit "gpt-4o") (messagesGPT4 (VStr (lit "hi")))]).
Proof.
  destruct (orchestrator_fails_fast Scenarios.gpt4o_down (VStr (lit "hi")) VUndefined [])
    as [F _].
  destruct (F Samples.dependency_error (or_introl eq_refl)) as [_ I].
  apply (I (VObj [ ("body", VObj [ ("message", VStr (lit "hi")) ]) ]%string)
           (VObj [ ("message", VStr (lit "hi")) ]%string)); reflexivity.
Defined.

End OrchestratorFacts.

(** ** From the ingest function to the worker *)

Module PipelineFacts.
Import JS Effects Traces EffectFacts.
Open Scope Z_scope.

(** The completion requests of a run carry the user message of the queue
    message as the content of the user turn. *)
Lemma requests_of_run (h : ChatWorker.host) (mb um : value) (t : trace)
    (out : outcome unit) (evs : list event) :
  ChatWorker.handler h (Returned mb) t = (out, t ++ evs) ->
  get mb "userMessage" = Returned um ->
  forall d ms, In (d, ms) (ChatWorker.requests evs) ->
               exists rc, ms = ChatWorker.messagesFor um rc.
Proof.
  intros H Hum d ms Hin.
  rewrite (RunFacts.handler_oblivious h (Returned mb) t) in H.
  injection H as _ H. apply app_inv_head in H. subst evs.
  destruct (RunFacts.handler_requests h (Returned mb)) as [R | R]; rewrite R in Hin;
    [ | contradiction Hin].
  rewrite RunFacts.processMessage_requests, Hum in Hin.
  destruct (ToString _ _); [ | contradiction Hin].
  destruct (ChatWorker.context_log h Info _); [ | contradiction Hin].
  destruct (fst (ChatWorker.retrieveRagContext h um [])) as [rc | e]; [ | contradiction Hin].
  destruct (RunFacts.queryMultipleModels_events h um rc) as (_ & asked & rest & _ & Q & _).
  rewrite Q in Hin. apply in_map_iff in Hin. destruct Hin as (m & E & _).
  injection E as _ <-. exists rc. reflexivity.
Qed.

(** X19.  The queue message the ingest function sets for an accepted
    request (truthy message, conversation identifier with a string form,
    [context.log] returning) is a JSON text.  Whatever the host of the
    worker, a final response that a run of the worker writes for what
    [JSON.parse] reads of that text carries the [messageId] the client was
    given in the 202 answer and the time stamp of the queue message, and, for
    a conversation identifier that is a string, that string; and every
    completion request of the run has as the content of its user turn what
    [JSON.parse] reads of the message as [JSON.stringify] wrote it: the
    message itself when it is a string. *)
Theorem pipeline_keeps_identifiers
    (hi : ChatIngest.host) (body message : value) (conversation : jsstring) (t : trace) :
  returns (ChatIngest.context_log hi) Info ->
  get body "message" = Returned message ->
  truthy message = true ->
  ToString (ChatIngest.number_to_string hi) (or_else (prop body "conversationId") (VStr []))
  = Returned conversation ->
  exists accepted text evs messageId written,
    ChatIngest.handler hi (Returned body) t = (Returned accepted, t ++ evs)
    /\ ChatIngest.status accepted = 202
    /\ member_of (ChatIngest.body accepted) "messageId" = Some (JStr messageId)
    /\ ChatIngest.queued evs = [Some text]
    /\ JSON_stringify message = Some written
    /\ (forall s, message = VStr s -> JSON_parse written = VStr s)
    /\ forall (hw : ChatWorker.host) (tw : trace) (out : outcome unit) (evs' : list event),
         ChatWorker.handler hw (Returned (JSON_parse text)) tw = (out, tw ++ evs') ->
         (forall final, In final (ChatWorker.blobs evs') ->
            member_of final "messageId" = Some (JStr messageId)
            /\ member_of final "timestamp"
               = Some (JStr (ChatIngest.toISOString (ChatIngest.new_Date hi)))
            /\ (forall s, prop body "conversationId" = VStr s ->
                  member_of final "conversationId" = Some (JStr s)))
         /\ (forall d ms, In (d, ms) (ChatWorker.requests evs') ->
               In (ChatMessage (lit "user") (JSON_parse written)) ms).
Proof.
  intros Hi Hm Ht Hc.
  pose proof (IngestFacts.handler_accepts hi body message conversation t Hi Hm Ht Hc) as E.
  cbv zeta in E.
  destruct (IngestFacts.or_else_has_text (prop body "conversationId") (VStr [])
              ltac:(discriminate)) as (cj & Hcj).
  destruct (IngestFacts.or_else_has_text (prop body "userId") (VStr (lit "unknown"))
              ltac:(discriminate)) as (uj & Huj).
  destruct (IngestFacts.truthy_has_text message Ht) as (mj & Hmj).
  rewrite (IngestFacts.envelope_members _ _ _ _ _ cj uj mj Hcj Huj Hmj) in E.
  eexists _, _, _, _, mj.
  split; [exact E | ]. split; [reflexivity | ]. split; [reflexivity | ].
  split; [reflexivity | ]. split; [exact Hmj | ].
  split.
  { intros s ->. cbn in Hmj. injection Hmj as <-. reflexivity. }
  intros hw tw out evs' H. split.
  - intros final Hin.
    destruct (WorkerRunFacts.blob_of_run hw _ tw out evs' final H Hin)
      as (mb & um & rc & rs & best & P & _ & _ & _ & _ & _ & ->).
    injection P as <-.
    match goal with
    | |- context [ChatWorker.finalObject ?a ?b ?c ?d ?e ?f] =>
        destruct (RunFacts.final_members a b f c d e) as (F1 & F2 & _ & _ & _ & _ & _ & F8 & _)
    end.
    rewrite F1, F2, F8. split; [reflexivity | ]. split; [reflexivity | ].
    intros s Hs. rewrite Hs in Hcj.
    assert (J : cj = JStr s) by (destruct s; cbn in Hcj; injection Hcj as <-; reflexivity).
    rewrite J. reflexivity.
  - intros d ms Hin.
    destruct (requests_of_run hw _ (JSON_parse mj) tw out evs' H eq_refl d ms Hin) as (rc & ->).
    right. left. reflexivity.
Qed.

(** The sample request, then the worker on a host of which every model
    answers. *)
Lemma pipeline_keeps_identifiers_witness :
  exists text final,
    ChatIngest.queued (snd (ChatIngest.handler Samples.ingest_host
                              (Returned Samples.chat_request) [])) = [Some text]
    /\ ChatWorker.blobs (snd (ChatWorker.handler Scenarios.answering_worker
                                (Returned (JSON_parse text)) [])) = [final]
    /\ member_of final "messageId" = Some (JStr (lit "c1_1706534400000"))
    /\ member_of final "timestamp" = Some (JStr (lit "2024-01-29T13:20:00.000Z"))
    /\ member_of final "conversationId" = Some (JStr (lit "c1")).
Proof.
  destruct (pipeline_keeps_identifiers Samples.ingest_host
              Samples.chat_request (VStr (lit "What is our refund policy?")) (lit "c1") []
              ltac:(intros args; reflexivity) eq_refl eq_refl eq_refl)
    as (accepted & text & evs & messageId & written & E & _ & I & Q & _ & _ & W).
  assert (Ev : snd (ChatIngest.handler Samples.ingest_host (Returned Samples.chat_request) [])
               = evs) by (rewrite E; reflexivity).
  assert (A : fst (ChatIngest.handler Samples.ingest_host (Returned Samples.chat_request) [])
              = Returned accepted) by (rewrite E; reflexivity).
  vm_compute in A. injection A as <-. cbn in I. injection I as <-.
  rewrite <- Ev in Q. clear E Ev.
  assert (T : Some text
              = hd None (ChatIngest.queued
                           (snd (ChatIngest.handler Samples.ingest_host
                                   (Returned Samples.chat_request) []))))
    by (rewrite Q; reflexivity).
  vm_compute in T. injection T as T. subst text.
  match type of Q with _ = [Some ?x] => exists x end.
  set (run := ChatWorker.handler Scenarios.answering_worker (Returned (JSON_parse _)) []).
  assert (B : exists final, ChatWorker.blobs (snd run) = [final])
    by (eexists; vm_compute; reflexivity).
  destruct B as (final & B). exists final.
  split; [exact Q | ]. split; [exact B | ].
  destruct (W Scenarios.answering_worker [] (fst run) (snd run)) as (F & _);
    [reflexivity | ].
  destruct (F final) as (M & Ts & C); [rewrite B; left; reflexivity | ].
  split; [exact M | ]. split; [exact Ts | ]. apply C. reflexivity.
Defined.

End PipelineFacts.

(** ** The error paths and the logger *)

Module LoggerFacts.
Import JS Effects EffectFacts ChatWorker WorkerFacts.

(** X20.  The error paths rely on the error call of the logger.  When
    [context.log.error] throws (as a call to a property that is not a
    function does) while [context.log] returns, the chat ingest function,
    given a body that does not parse, throws instead of answering 500; and in
    the worker (for a queue message that parses to an object whose
    [messageId] has a string form, the client being constructed) the failure
    of the first model is no longer isolated: the fan-out stops before
    [gpt-35-turbo] is asked, and the run throws without setting the blob
    output. *)
Theorem error_paths_need_the_error_logger :
  (forall (h : ChatIngest.host) (e le : exn) (t : trace),
     returns (ChatIngest.context_log h) Info ->
     throws (ChatIngest.context_log h) Err le ->
     ChatIngest.handler h (Thrown e) t
     = (Thrown le,
        t ++ [ Logged Info [Text (lit "Ingest function processing chat message")];
               Logged Err [Text (lit "Error in ingest function:"); Caught e] ]))
  /\ (forall (h : host) (messageBody userMessage : value) (id : jsstring) (e le : exn)
             (t : trace),
        returns (context_log h) Info ->
        throws (context_log h) Err le ->
        get messageBody "userMessage" = Returned userMessage ->
        ToString (number_to_string h) (prop messageBody "messageId") = Returned id ->
        OpenAIClient_new h = Returned tt ->
        attempt h userMessage mockContext
          {| name := lit "gpt-4"; deployment := lit "gpt-4" |} = Thrown e ->
        exists evs,
          handler h (Returned messageBody) t = (Thrown le, t ++ evs)
          /\ blobs evs = []
          /\ requests evs = [(lit "gpt-4", messagesFor userMessage mockContext)]).
Proof.
  split.
  - intros h e le t HI HE.
    rewrite (IngestFacts.handler_catches h (Thrown e) e t HI (or_introl eq_refl)), HE.
    reflexivity.
  - intros h messageBody userMessage id e le t HI HE Hum Hid Hc A.
    rewrite (WorkerRunFacts.handler_without_error_logger h messageBody userMessage id e le t
               HI HE Hum Hid Hc A).
    eexists. split; [reflexivity | ]. split; reflexivity.
Qed.

(** The deployment [gpt-4] down, on a host whose logger has no [error]: the
    other deployment, which would answer, is not asked. *)
Lemma error_paths_need_the_error_logger_witness :
  exists evs,
    handler Scenarios.first_model_down (Returned Samples.queue_message) []
    = (Thrown (Error (lit "context.log.error is not a function")), [] ++ evs)
    /\ blobs evs = []
    /\ requests evs
       = [(lit "gpt-4", messagesFor (VStr (lit "What is our refund policy?")) mockContext)].
Proof.
  destruct error_paths_need_the_error_logger as [_ W].
  apply (W Scenarios.first_model_down Samples.queue_message
           (VStr (lit "What is our refund policy?")) (lit "c1_1706534400000")
           Samples.dependency_error).
  - intros args. reflexivity.
  - intros args. reflexivity.
  - reflexivity.
  - reflexivity.
  - reflexivity.
  - reflexivity.
Defined.

End LoggerFacts.

(** ** Rounding to binary64: bounds and order *)

Module RoundingFacts.
Import JS Binary64 Binary64Facts Magnitude ChatWorker.
Local Set Warnings "-notation-for-abbreviation".
Open Scope Z_scope.

Lemma mod_pow_split (m a b : Z) :
  0 <= a -> 0 <= b -> m mod 2 ^ (a + b) = 0 ->
  m mod 2 ^ a = 0 /\ (m / 2 ^ a) mod 2 ^ b = 0.
Proof.
  intros Ha Hb H.
  assert (Pa : 0 < 2 ^ a) by (apply Z.pow_pos_nonneg; lia).
  assert (Pb : 0 < 2 ^ b) by (apply Z.pow_pos_nonneg; lia).
  rewrite Z.pow_add_r in H by assumption.
  apply Z.mod_divide in H; [ | lia]. destruct H as [k H].
  assert (E : m = (k * 2 ^ b) * 2 ^ a) by lia.
  split.
  - rewrite E. apply Z.mod_mul. lia.
  - rewrite E, Z.div_mul by lia. apply Z.mod_mul. lia.
Qed.

Lemma shr_1_clean (mrs : shr_record) :
  0 <= shr_m mrs -> clean mrs -> shr_m mrs mod 2 = 0 -> clean (shr_1 mrs).
Proof.
  destruct mrs as [m r s]. unfold clean. cbn [shr_m shr_r shr_s]. intros Hm [-> ->] H.
  destruct m as [ | [p | p | ] | p]; cbn; try (split; reflexivity); try lia.
  - rewrite Pos2Z.inj_xI in H. rewrite Z.add_comm, Z.mul_comm, Z.mod_add in H by lia.
    discriminate H.
  - discriminate H.
Qed.

Lemma iter_shr_1_clean (n : positive) : forall mrs,
  0 <= shr_m mrs -> clean mrs -> shr_m mrs mod 2 ^ Zpos n = 0 ->
  clean (SpecFloat.iter_pos shr_1 n mrs).
Proof.
  induction n as [n IH | n IH | ]; intros mrs Hm C H; cbn [SpecFloat.iter_pos].
  - replace (Zpos n~1) with (1 + (Zpos n + Zpos n)) in H by lia.
    apply mod_pow_split in H; try lia. destruct H as [H1 H2]. change (2 ^ 1) with 2 in *.
    apply mod_pow_split in H2; try lia. destruct H2 as [H2 H3].
    assert (M1 : shr_m (shr_1 mrs) = shr_m mrs / 2) by (apply shr_1_m; assumption).
    assert (P1 : 0 <= shr_m (shr_1 mrs)) by (rewrite M1; apply Z.div_pos; lia).
    assert (C1 : clean (shr_1 mrs)) by (apply shr_1_clean; assumption).
    assert (M2 : shr_m (SpecFloat.iter_pos shr_1 n (shr_1 mrs)) = shr_m mrs / 2 / 2 ^ Zpos n)
      by (rewrite iter_shr_1_m, M1 by assumption; reflexivity).
    assert (P2 : 0 <= shr_m (SpecFloat.iter_pos shr_1 n (shr_1 mrs)))
      by (rewrite M2; apply Z.div_pos; [apply Z.div_pos; lia | apply Z.pow_pos_nonneg; lia]).
    apply IH; [assumption | | rewrite M2; assumption].
    apply IH; [assumption | assumption | rewrite M1; assumption].
  - replace (Zpos n~0) with (Zpos n + Zpos n) in H by lia.
    apply mod_pow_split in H; try lia. destruct H as [H1 H2].
    assert (M1 : shr_m (SpecFloat.iter_pos shr_1 n mrs) = shr_m mrs / 2 ^ Zpos n)
      by (apply iter_shr_1_m; assumption).
    assert (P1 : 0 <= shr_m (SpecFloat.iter_pos shr_1 n mrs))
      by (rewrite M1; apply Z.div_pos; [lia | apply Z.pow_pos_nonneg; lia]).
    apply IH; [assumption | | rewrite M1; assumption].
    apply IH; assumption.
  - apply shr_1_clean; assumption.
Qed.

Lemma clean_loc (mrs : shr_record) : clean mrs -> loc_of_shr_record mrs = loc_Exact.
Proof. destruct mrs as [m r s]. intros [H1 H2]. cbn in *. subst. reflexivity. Qed.

Lemma round_nearest_even_le (m : Z) (l : location) : round_nearest_even m l <= m + 1.
Proof.
  destruct l as [ | [ | | ]]; cbn [round_nearest_even]; try lia.
  destruct (Z.even m); lia.
Qed.

(** What [shr_fexp] does to a mantissa that is not negative. *)
Lemma shr_fexp_spec (m e : Z) (l : location) :
  0 <= m ->
  let n := fexp prec emax (Zdigits2 m + e) - e in
  (n <= 0 -> shr_fexp prec emax m e l = (shr_record_of_loc m l, e))
  /\ (0 < n ->
      snd (shr_fexp prec emax m e l) = e + n
      /\ shr_m (fst (shr_fexp prec emax m e l)) = m / 2 ^ n
      /\ (l = loc_Exact -> m mod 2 ^ n = 0 ->
          loc_of_shr_record (fst (shr_fexp prec emax m e l)) = loc_Exact)).
Proof.
  intros Hm n. unfold shr_fexp. fold n.
  destruct n as [ | q | q] eqn:En; (split; [intros H | intros H]); try lia; try reflexivity.
  cbn [shr fst snd]. split; [reflexivity | ].
  split.
  - rewrite iter_shr_1_m by (rewrite shr_record_of_loc_m; assumption).
    rewrite shr_record_of_loc_m. reflexivity.
  - intros -> Hmod. apply clean_loc, iter_shr_1_clean.
    + cbn. assumption.
    + split; reflexivity.
    + cbn. assumption.
Qed.

Lemma floor_shift (m n : Z) (P : Z) :
  0 <= m -> 0 <= n -> 0 < P ->
  (m / 2 ^ n) * (2 ^ n * P) <= m * P
  /\ m * P < (m / 2 ^ n + 1) * (2 ^ n * P)
  /\ (m mod 2 ^ n <> 0 -> (m / 2 ^ n) * (2 ^ n * P) < m * P).
Proof.
  intros Hm Hn HP.
  assert (Pn : 0 < 2 ^ n) by (apply Z.pow_pos_nonneg; lia).
  pose proof (Z.div_mod m (2 ^ n) ltac:(lia)) as D.
  pose proof (Z.mod_pos_bound m (2 ^ n) Pn) as B.
  repeat split; try intros; nia.
Qed.

(** There is no binary64 number between two neighbours. *)
Lemma no_number_between (m1 e1 : Z) (mf : positive) (ef : Z) :
  0 <= m1 -> emin <= e1 -> (emin < e1 -> 2 ^ 52 <= m1) ->
  bounded prec emax mf ef = true ->
  m1 * 2 ^ (e1 + 2148) < Zpos mf * 2 ^ (ef + 2148) ->
  (m1 + 1) * 2 ^ (e1 + 2148) <= Zpos mf * 2 ^ (ef + 2148).
Proof.
  intros Hm He Hn B H.
  destruct (bounded_inv _ _ B) as (Hef & Hd & _).
  change emin with (-1074) in *.
  pose proof (digits2_pos_bounds mf) as [_ U].
  assert (U53 : Zpos mf < 2 ^ 53).
  { apply Z.lt_le_trans with (1 := U). apply Z.pow_le_mono_r; lia. }
  destruct (Z_le_gt_dec e1 ef) as [L | G].
  - assert (E : 2 ^ (ef + 2148) = 2 ^ (ef - e1) * 2 ^ (e1 + 2148)).
    { rewrite <- Z.pow_add_r by lia. f_equal. lia. }
    assert (P : 0 < 2 ^ (e1 + 2148)) by (apply Z.pow_pos_nonneg; lia).
    rewrite E, Z.mul_assoc in H. rewrite E, Z.mul_assoc.
    apply Z.mul_lt_mono_pos_r in H; [ | assumption].
    apply Z.mul_le_mono_nonneg_r; lia.
  - exfalso. specialize (Hn ltac:(lia)).
    assert (Q : 2 ^ (ef + 1 + 2148) <= 2 ^ (e1 + 2148)) by (apply Z.pow_le_mono_r; lia).
    replace (ef + 1 + 2148) with (1 + (ef + 2148)) in Q by lia.
    rewrite Z.pow_add_r in Q by lia. change (2 ^ 1) with 2 in Q.
    assert (P : 0 < 2 ^ (ef + 2148)) by (apply Z.pow_pos_nonneg; lia).
    change (2 ^ 53) with (2 ^ 52 * 2) in U53.
    nia.
Qed.

Lemma shifted_is_normal (p : positive) (n : Z) :
  n = Zpos (digits2_pos p) - 53 -> 0 <= n -> 2 ^ 52 <= Zpos p / 2 ^ n.
Proof.
  intros -> Hn. pose proof (digits2_pos_bounds p) as [L _].
  set (d := Zpos (digits2_pos p)) in *.
  apply Z.div_le_lower_bound; [apply Z.pow_pos_nonneg; lia | ].
  rewrite <- Z.pow_add_r by lia. replace (d - 53 + 52) with (d - 1) by lia. exact L.
Qed.

(** A rounding does not go beyond a binary64 number that the exact value
    does not exceed. *)
Lemma binary_round_aux_upper (m e : Z) (mf : positive) (ef : Z) :
  0 < m -> -2148 <= e -> e <= fexp prec emax (Zdigits2 m + e) ->
  bounded prec emax mf ef = true ->
  m * 2 ^ (e + 2148) <= Zpos mf * 2 ^ (ef + 2148) ->
  match binary_round_aux prec emax false m e loc_Exact with
  | S754_zero false => True
  | S754_finite false mr er =>
      emin <= er /\ Zpos mr * 2 ^ (er + 2148) <= Zpos mf * 2 ^ (ef + 2148)
  | _ => False
  end.
Proof.
  intros Hm He Ha B Hv.
  destruct (bounded_inv _ _ B) as (Hef & Hdf & _).
  change emin with (-1074) in *.
  assert (Hef' : ef <= 971).
  { unfold bounded in B. apply andb_prop in B. destruct B as [_ B]. apply Z.leb_le in B. exact B. }
  pose proof (digits2_pos_bounds mf) as [_ Uf].
  assert (U53 : Zpos mf < 2 ^ 53).
  { apply Z.lt_le_trans with (1 := Uf). apply Z.pow_le_mono_r; lia. }
  assert (Fmax : Zpos mf * 2 ^ (ef + 2148) < 2 ^ 52 * 2 ^ (972 + 2148)).
  { assert (Q : 2 ^ (ef + 2148) <= 2 ^ (971 + 2148)) by (apply Z.pow_le_mono_r; lia).
    assert (P : 0 < 2 ^ (ef + 2148)) by (apply Z.pow_pos_nonneg; lia).
    apply Z.lt_le_trans with (2 ^ 53 * 2 ^ (ef + 2148)).
    - apply Z.mul_lt_mono_pos_r; assumption.
    - rewrite <- !Z.pow_add_r by lia. apply Z.pow_le_mono_r; lia. }
  change emin with (-1074) in *.
  (* the first shift *)
  assert (S1 : exists m2 e1,
             0 < m2 + 1 /\ 0 <= m2 /\ -1074 <= e1 /\ (-1074 < e1 -> 2 ^ 52 <= m2)
             /\ m2 * 2 ^ (e1 + 2148) <= Zpos mf * 2 ^ (ef + 2148)
             /\ binary_round_aux prec emax false m e loc_Exact
                = let '(mrs'', e'') := shr_fexp prec emax m2 e1 loc_Exact in
                  match shr_m mrs'' with
                  | 0 => S754_zero false
                  | Zpos m => if e'' <=? emax - prec then S754_finite false m e''
                              else S754_infinity false
                  | Zneg _ => S754_nan
                  end).
  { destruct m as [ | p | p]; try lia. cbn [Zdigits2] in Ha.
    unfold binary_round_aux.
    destruct (shr_fexp_spec (Zpos p) e loc_Exact ltac:(lia)) as [Z0 Z1]. cbn [Zdigits2] in Z0, Z1.
    set (d := Zpos (digits2_pos p)) in *.
    assert (Fe : fexp prec emax (d + e) = Z.max (d + e - 53) (-1074)) by reflexivity.
    pose proof (digits2_pos_bounds p) as [Lp _]. fold d in Lp.
    destruct (Z_le_gt_dec (fexp prec emax (d + e) - e) 0) as [N0 | N1].
    - rewrite (Z0 N0). cbn [shr_m shr_record_of_loc loc_of_shr_record round_nearest_even].
      exists (Zpos p), e. repeat split; try lia; try assumption.
      intros G. assert (d = 53) by lia.
      replace (53 - 1) with 52 in Lp by lia. rewrite H in Lp. exact Lp.
    - destruct (Z1 ltac:(lia)) as (E1 & M1 & X1).
      destruct (shr_fexp prec emax (Zpos p) e loc_Exact) as [mrs' e']. cbn [fst snd] in *.
      subst e'. set (n := fexp prec emax (d + e) - e) in *.
      set (m1 := shr_m mrs') in *.
      assert (P : 0 < 2 ^ (e + 2148)) by (apply Z.pow_pos_nonneg; lia).
      destruct (floor_shift (Zpos p) n (2 ^ (e + 2148)) ltac:(lia) ltac:(lia) P) as (F1 & F2 & F3).
      rewrite <- Z.pow_add_r in F1, F2, F3 by lia.
      replace (n + (e + 2148)) with (e + n + 2148) in F1, F2, F3 by lia.
      rewrite <- M1 in F1, F2, F3.
      assert (Hm1 : 0 <= m1) by (rewrite M1; apply Z.div_pos; [lia | apply Z.pow_pos_nonneg; lia]).
      assert (Hn1 : -1074 < e + n -> 2 ^ 52 <= m1).
      { intros G. rewrite M1. apply shifted_is_normal; [fold d | ]; lia. }
      exists (round_nearest_even m1 (loc_of_shr_record mrs')), (e + n).
      pose proof (round_nearest_even_ge m1 (loc_of_shr_record mrs')) as R1.
      pose proof (round_nearest_even_le m1 (loc_of_shr_record mrs')) as R2.
      split; [lia | ]. split; [lia | ]. split; [lia | ]. split; [lia | ].
      split; [ | reflexivity].
      destruct (Z.eq_dec (Zpos p mod 2 ^ n) 0) as [Ex | Nx].
      + rewrite (X1 eq_refl Ex). cbn [round_nearest_even]. lia.
      + specialize (F3 Nx).
        assert (G : (m1 + 1) * 2 ^ (e + n + 2148) <= Zpos mf * 2 ^ (ef + 2148)).
        { apply no_number_between;
            [assumption | change emin with (-1074); lia | change emin with (-1074); exact Hn1
            | assumption | lia]. }
        apply Z.le_trans with (2 := G).
        apply Z.mul_le_mono_nonneg_r; [apply Z.pow_nonneg; lia | lia]. }
  destruct S1 as (m2 & e1 & _ & Hm2 & He1 & Hn2 & Hv2 & ->).
  (* the second shift *)
  destruct (shr_fexp_spec m2 e1 loc_Exact Hm2) as [Z0 Z1].
  destruct (Z_le_gt_dec (fexp prec emax (Zdigits2 m2 + e1) - e1) 0) as [N0 | N1].
  - rewrite (Z0 N0). cbn [shr_m shr_record_of_loc].
    destruct m2 as [ | p2 | p2]; [exact I | | lia].
    destruct (e1 <=? emax - prec) eqn:Le; [split; [lia | exact Hv2] | ].
    apply Z.leb_gt in Le. change (emax - prec) with 971 in Le.
    specialize (Hn2 ltac:(lia)).
    assert (Q : 2 ^ (972 + 2148) <= 2 ^ (e1 + 2148)) by (apply Z.pow_le_mono_r; lia).
    assert (T : 2 ^ 52 * 2 ^ (972 + 2148) <= Zpos p2 * 2 ^ (e1 + 2148)).
    { apply Z.mul_le_mono_nonneg; try assumption; try lia; apply Z.pow_nonneg; lia. }
    lia.
  - destruct (Z1 ltac:(lia)) as (E3 & M3 & _).
    destruct (shr_fexp prec emax m2 e1 loc_Exact) as [mrs'' e'']. cbn [fst snd] in *.
    set (n2 := fexp prec emax (Zdigits2 m2 + e1) - e1) in *.
    assert (P : 0 < 2 ^ (e1 + 2148)) by (apply Z.pow_pos_nonneg; lia).
    destruct (floor_shift m2 n2 (2 ^ (e1 + 2148)) Hm2 ltac:(lia) P) as (F1 & _ & _).
    rewrite <- Z.pow_add_r in F1 by lia.
    replace (n2 + (e1 + 2148)) with (e'' + 2148) in F1 by lia.
    rewrite <- M3 in F1.
    destruct (shr_m mrs'') as [ | p3 | p3] eqn:E.
    + exact I.
    + destruct (e'' <=? emax - prec) eqn:Le; [split; lia | ].
      apply Z.leb_gt in Le. change (emax - prec) with 971 in Le.
      assert (N3 : 2 ^ 52 <= Zpos p3).
      { destruct m2 as [ | p2 | p2]; try lia.
        rewrite M3. apply shifted_is_normal; [ | lia].
        cbn [Zdigits2] in n2. unfold fexp in n2. subst n2.
        unfold fexp in E3. change (SpecFloat.emin prec emax) with (-1074) in *.
        change prec with 53 in *. cbn [Zdigits2] in E3. lia. }
      assert (Q : 2 ^ (972 + 2148) <= 2 ^ (e'' + 2148)) by (apply Z.pow_le_mono_r; lia).
      assert (T : 2 ^ 52 * 2 ^ (972 + 2148) <= Zpos p3 * 2 ^ (e'' + 2148)).
      { apply Z.mul_le_mono_nonneg; try assumption; try lia; apply Z.pow_nonneg; lia. }
      lia.
    + assert (0 <= m2 / 2 ^ n2) by (apply Z.div_pos; [lia | apply Z.pow_pos_nonneg; lia]).
      lia.
Qed.

Lemma digits2_pos_unique (q : positive) (k : Z) :
  2 ^ (k - 1) <= Zpos q < 2 ^ k -> Zpos (digits2_pos q) = k.
Proof.
  intros [L U]. pose proof (digits2_pos_bounds q) as [L' U'].
  set (d := Zpos (digits2_pos q)) in *.
  assert (Hd : 0 < d) by (unfold d; lia).
  assert (Hk : 0 < k).
  { destruct (Z_lt_le_dec 0 k) as [H | H]; [exact H | ].
    assert (2 ^ k <= 2 ^ 0) by (apply Z.pow_le_mono_r; lia). change (2 ^ 0) with 1 in *. lia. }
  assert (A : k - 1 < d) by (apply (Z.pow_lt_mono_r_iff 2); lia).
  assert (B : d - 1 < k) by (apply (Z.pow_lt_mono_r_iff 2); lia).
  lia.
Qed.

Lemma digits2_pos_shifted (p q : positive) (s : Z) :
  0 <= s -> Zpos q = Zpos p * 2 ^ s ->
  Zpos (digits2_pos q) = Zpos (digits2_pos p) + s.
Proof.
  intros Hs E. apply digits2_pos_unique. rewrite E.
  pose proof (digits2_pos_bounds p) as [L U].
  assert (P : 0 < 2 ^ s) by (apply Z.pow_pos_nonneg; lia).
  replace (Zpos (digits2_pos p) + s - 1) with (Zpos (digits2_pos p) - 1 + s) by lia.
  rewrite !Z.pow_add_r by lia. split.
  - apply Z.mul_le_mono_nonneg_r; lia.
  - apply Z.mul_lt_mono_pos_r; lia.
Qed.

Lemma bounded_canonical (m : positive) (e : Z) :
  bounded prec emax m e = true -> e = Z.max (Zpos (digits2_pos m) + e - 53) (-1074).
Proof.
  unfold bounded, canonical_mantissa. intros H. apply andb_prop in H. destruct H as [H _].
  apply Z.eqb_eq in H. symmetry. exact H.
Qed.

(** The mantissa and the exponent of a product of two binary64 numbers need
    no shift to the left. *)
Lemma mul_aligned (mx my : positive) (ex ey : Z) :
  bounded prec emax mx ex = true -> bounded prec emax my ey = true ->
  ex + ey <= fexp prec emax (Zdigits2 (Zpos (mx * my)) + (ex + ey)).
Proof.
  intros Bx By.
  pose proof (bounded_canonical _ _ Bx) as Cx. pose proof (bounded_canonical _ _ By) as Cy.
  pose proof (digits2_pos_bounds mx) as [Lx _]. pose proof (digits2_pos_bounds my) as [Ly _].
  set (dx := Zpos (digits2_pos mx)) in *. set (dy := Zpos (digits2_pos my)) in *.
  assert (Hdx : 0 < dx) by (unfold dx; lia). assert (Hdy : 0 < dy) by (unfold dy; lia).
  assert (D : dx - 1 + (dy - 1) < Zpos (digits2_pos (mx * my))).
  { apply MagnitudeFacts.digits2_pos_gt; [lia | ].
    rewrite Z.pow_add_r, Pos2Z.inj_mul by lia.
    apply Z.mul_le_mono_nonneg; try assumption; apply Z.pow_nonneg; lia. }
  cbn [Zdigits2]. unfold fexp. change (SpecFloat.emin prec emax) with (-1074). change prec with 53.
  lia.
Qed.

Lemma binary_round_upper (p : positive) (e : Z) (mf : positive) (ef : Z) :
  emin <= e ->
  bounded prec emax mf ef = true ->
  Zpos p * 2 ^ (e + 2148) <= Zpos mf * 2 ^ (ef + 2148) ->
  match binary_round prec emax false p e with
  | S754_zero false => True
  | S754_finite false mr er =>
      emin <= er /\ Zpos mr * 2 ^ (er + 2148) <= Zpos mf * 2 ^ (ef + 2148)
  | _ => False
  end.
Proof.
  intros He B Hv. change emin with (-1074) in He. unfold binary_round.
  set (e' := fexp prec emax (Zpos (digits2_pos p) + e)).
  assert (He' : -1074 <= e') by (unfold e', fexp; change (SpecFloat.emin prec emax) with (-1074); lia).
  destruct (Z_lt_le_dec e' e) as [Lt | Ge].
  - destruct (shl_align_le p e e' ltac:(lia)) as [E1 E2].
    destruct (shl_align p e e') as [mz ez]. cbn [fst snd] in *. subst ez.
    apply binary_round_aux_upper; try assumption; try lia.
    + cbn [Zdigits2]. rewrite (digits2_pos_shifted p mz (e - e')) by (try assumption; lia).
      replace (Zpos (digits2_pos p) + (e - e') + e') with (Zpos (digits2_pos p) + e) by lia.
      fold e'. lia.
    + rewrite E2. replace (e + 2148) with ((e - e') + (e' + 2148)) in Hv by lia.
      rewrite Z.pow_add_r, Z.mul_assoc in Hv by lia. exact Hv.
  - assert (E : shl_align p e e' = (p, e)).
    { unfold shl_align. destruct (e' - e) eqn:D; try reflexivity. lia. }
    rewrite E. apply binary_round_aux_upper; try assumption; lia.
Qed.

Lemma ord_small (x : spec_float) : sf_small x -> valid_binary x = true -> 0 <= ord x < huge.
Proof.
  assert (Hh : 0 < huge) by (apply Z.pow_pos_nonneg; lia).
  destruct x as [s | s | | [ | ] m e]; cbn [sf_small]; try contradiction; intros _ V; cbn [ord].
  - lia.
  - cbn [cond_Zopp]. pose proof (finite_ord_bounds m e V). lia.
Qed.

Lemma scale_le (a b : Z) : a * 2 ^ 1074 <= b * 2 ^ 1074 -> a <= b.
Proof.
  intros H. apply Z.mul_le_mono_pos_r in H; [exact H | apply Z.pow_pos_nonneg; lia].
Qed.

(** A product does not go beyond a binary64 number that the exact product
    does not exceed. *)
Lemma SFmul_upper (x y : spec_float) (mf : positive) (ef : Z) :
  valid_binary x = true -> valid_binary y = true ->
  sf_small x -> sf_small y ->
  bounded prec emax mf ef = true ->
  ord x * ord y <= Zpos mf * 2 ^ (ef + 1074) * 2 ^ 1074 ->
  sf_small (SF64mul x y) /\ ord (SF64mul x y) <= Zpos mf * 2 ^ (ef + 1074).
Proof.
  intros Vx Vy Sx Sy B H.
  assert (F : 0 <= Zpos mf * 2 ^ (ef + 1074)).
  { apply Z.mul_nonneg_nonneg; [lia | apply Z.pow_nonneg; lia]. }
  destruct x as [sx | sx | | [ | ] mx ex]; cbn [sf_small] in Sx; try contradiction;
    destruct y as [sy | sy | | [ | ] my ey]; cbn [sf_small] in Sy; try contradiction;
    try (split; [exact I | exact F]).
  cbn [valid_binary] in Vx, Vy.
  destruct (bounded_inv _ _ Vx) as (Hex & _). destruct (bounded_inv _ _ Vy) as (Hey & _).
  destruct (bounded_inv _ _ B) as (Hef & _).
  change emin with (-1074) in *.
  unfold SF64mul, SFmul. cbn [xorb].
  pose proof (binary_round_aux_upper (Zpos (mx * my)) (ex + ey) mf ef ltac:(lia) ltac:(lia)
                (mul_aligned mx my ex ey Vx Vy) B) as K.
  cbn [ord cond_Zopp] in H.
  assert (Hv : Zpos (mx * my) * 2 ^ (ex + ey + 2148) <= Zpos mf * 2 ^ (ef + 2148)).
  { replace (ex + ey + 2148) with ((ex + 1074) + (ey + 1074)) by lia.
    replace (ef + 2148) with ((ef + 1074) + 1074) by lia.
    rewrite (Z.pow_add_r 2 (ex + 1074) (ey + 1074)), (Z.pow_add_r 2 (ef + 1074) 1074) by lia.
    rewrite Pos2Z.inj_mul.
    etransitivity; [ | etransitivity; [exact H | ]]; apply Z.eq_le_incl; ring. }
  specialize (K Hv).
  destruct (binary_round_aux prec emax false (Zpos (mx * my)) (ex + ey) loc_Exact)
    as [[ | ] | [ | ] | | [ | ] mr er]; try contradiction; cbn [sf_small ord cond_Zopp].
  - split; [exact I | exact F].
  - destruct K as [Her K]. split; [exact I | ]. change emin with (-1074) in Her.
    apply scale_le. rewrite <- !Z.mul_assoc.
    rewrite <- (Z.pow_add_r 2 (er + 1074) 1074), <- (Z.pow_add_r 2 (ef + 1074) 1074) by lia.
    replace (er + 1074 + 1074) with (er + 2148) by lia.
    replace (ef + 1074 + 1074) with (ef + 2148) by lia. exact K.
Qed.

(** A sum does not go beyond a binary64 number that the exact sum does not
    exceed. *)
Lemma SFadd_upper (x y : spec_float) (mf : positive) (ef : Z) :
  valid_binary x = true -> valid_binary y = true ->
  sf_small x -> sf_small y ->
  bounded prec emax mf ef = true ->
  ord x + ord y <= Zpos mf * 2 ^ (ef + 1074) ->
  sf_small (SF64add x y) /\ ord (SF64add x y) <= Zpos mf * 2 ^ (ef + 1074).
Proof.
  intros Vx Vy Sx Sy B H.
  assert (F : 0 <= Zpos mf * 2 ^ (ef + 1074)).
  { apply Z.mul_nonneg_nonneg; [lia | apply Z.pow_nonneg; lia]. }
  pose proof (ord_small x Sx Vx) as Ox. pose proof (ord_small y Sy Vy) as Oy.
  destruct x as [sx | sx | | [ | ] mx ex]; cbn [sf_small] in Sx; try contradiction;
    destruct y as [sy | sy | | [ | ] my ey]; cbn [sf_small] in Sy; try contradiction.
  - destruct sx, sy; split; try exact I; exact F.
  - split; [exact I | ]. cbn [SF64add SFadd]. cbn [ord] in *. lia.
  - split; [exact I | ]. cbn [SF64add SFadd]. cbn [ord] in *. lia.
  - cbn [valid_binary] in Vx, Vy.
    destruct (bounded_inv _ _ Vx) as (Hex & _). destruct (bounded_inv _ _ Vy) as (Hey & _).
    destruct (bounded_inv _ _ B) as (Hef & _).
    unfold SF64add, SFadd. cbn [cond_Zopp].
    set (ez := Z.min ex ey).
    pose proof (finite_ord_aligned false mx ex ez ltac:(lia) ltac:(lia)) as Ax.
    pose proof (finite_ord_aligned false my ey ez ltac:(lia) ltac:(lia)) as Ay.
    cbn [cond_Zopp] in Ax, Ay. cbn [ord cond_Zopp] in H. rewrite Ax, Ay in H.
    set (X := fst (shl_align mx ex ez)) in *. set (Y := fst (shl_align my ey ez)) in *.
    change (Zpos X + Zpos Y) with (Zpos (X + Y)). cbn [binary_normalize].
    change emin with (-1074) in *.
    pose proof (binary_round_upper (X + Y) ez mf ef ltac:(change emin with (-1074); lia) B) as K.
    assert (Hv : Zpos (X + Y) * 2 ^ (ez + 2148) <= Zpos mf * 2 ^ (ef + 2148)).
    { replace (ez + 2148) with ((ez + 1074) + 1074) by lia.
      replace (ef + 2148) with ((ef + 1074) + 1074) by lia.
      rewrite (Z.pow_add_r 2 (ez + 1074) 1074), (Z.pow_add_r 2 (ef + 1074) 1074) by lia.
      rewrite Pos2Z.inj_add, !Z.mul_assoc.
      apply Z.mul_le_mono_nonneg_r; [apply Z.pow_nonneg; lia | lia]. }
    specialize (K Hv).
    destruct (binary_round prec emax false (X + Y) ez)
      as [[ | ] | [ | ] | | [ | ] mr er]; try contradiction; cbn [sf_small ord cond_Zopp].
    + split; [exact I | exact F].
    + destruct K as [Her K]. split; [exact I | ]. change emin with (-1074) in Her.
      apply scale_le. rewrite <- !Z.mul_assoc.
      rewrite <- (Z.pow_add_r 2 (er + 1074) 1074), <- (Z.pow_add_r 2 (ef + 1074) 1074) by lia.
      replace (er + 1074 + 1074) with (er + 2148) by lia.
      replace (ef + 1074 + 1074) with (ef + 2148) by lia. exact K.
Qed.

Open Scope float_scope.

(** A number between zero and a finite number. *)
Lemma small_Prim2SF (x b : float) :
  (0 <=? x) = true -> (x <=? b) = true -> finite_nz b = true ->
  sf_small (Prim2SF x) /\ (0 <= ford x <= ford b)%Z.
Proof.
  intros H0 Hb Fb.
  pose proof (nonneg_not_nan x H0) as Nx.
  assert (Nb : is_nan b = false).
  { rewrite is_nan_Prim2SF. unfold finite_nz in Fb. destruct (Prim2SF b); easy. }
  rewrite leb_ord in Hb by assumption. apply Z.leb_le in Hb.
  rewrite leb_ord in H0 by (try assumption; reflexivity). apply Z.leb_le in H0.
  change (ford 0) with 0%Z in H0.
  split; [ | lia].
  assert (Ub : (ford b < huge)%Z).
  { unfold ford, finite_nz in *. pose proof (Prim2SF_valid b) as V.
    destruct (Prim2SF b) as [ | | | s m e]; try discriminate.
    cbn [ord]. pose proof (finite_ord_bounds m e V). destruct s; cbn [cond_Zopp]; lia. }
  assert (Hh : (0 < huge)%Z) by (apply Z.pow_pos_nonneg; lia).
  unfold ford in *. rewrite is_nan_Prim2SF in Nx. pose proof (Prim2SF_valid x) as V.
  destruct (Prim2SF x) as [s | [ | ] | | [ | ] m e]; cbn [sf_small]; try exact I; try discriminate;
    cbn [ord cond_Zopp] in *; try lia.
  pose proof (finite_ord_bounds m e V). lia.
Qed.

Lemma finite_positive_Prim2SF (f : float) :
  finite_nz f = true -> (0 <=? f) = true ->
  exists mf ef, Prim2SF f = S754_finite false mf ef /\ bounded prec emax mf ef = true
                /\ ford f = (Zpos mf * 2 ^ (ef + 1074))%Z.
Proof.
  intros F H. rewrite nonneg_Prim2SF in H. unfold finite_nz, ford in *.
  pose proof (Prim2SF_valid f) as V.
  destruct (Prim2SF f) as [ | | | [ | ] m e]; try discriminate.
  exists m, e. repeat split. exact V.
Qed.

Lemma small_leb (x f : float) :
  sf_small (Prim2SF x) -> finite_nz f = true ->
  (ford x <= ford f)%Z -> (0 <=? x) = true /\ (x <=? f) = true.
Proof.
  intros S F H.
  assert (Nx : is_nan x = false) by (rewrite is_nan_Prim2SF; destruct (Prim2SF x); easy).
  assert (Nf : is_nan f = false).
  { rewrite is_nan_Prim2SF. unfold finite_nz in F. destruct (Prim2SF f); easy. }
  split.
  - rewrite nonneg_Prim2SF. destruct (Prim2SF x) as [ | | | [ | ] m e]; easy.
  - rewrite leb_ord by assumption. apply Z.leb_le. exact H.
Qed.

(** A product of two numbers that are not negative is at most a binary64
    number that the exact product of two bounds does not exceed. *)
Lemma mul_le (x y bx by' f : float) :
  (0 <=? x) = true -> (x <=? bx) = true -> finite_nz bx = true ->
  (0 <=? y) = true -> (y <=? by') = true -> finite_nz by' = true ->
  finite_nz f = true -> (0 <=? f) = true ->
  (ford bx * ford by' <= ford f * 2 ^ 1074)%Z ->
  (0 <=? x * y) = true /\ (x * y <=? f) = true.
Proof.
  intros X0 Xb Fx Y0 Yb Fy Ff F0 H.
  destruct (small_Prim2SF x bx X0 Xb Fx) as [Sx Ox].
  destruct (small_Prim2SF y by' Y0 Yb Fy) as [Sy Oy].
  destruct (finite_positive_Prim2SF f Ff F0) as (mf & ef & Ef & B & Of).
  destruct (SFmul_upper (Prim2SF x) (Prim2SF y) mf ef (Prim2SF_valid x) (Prim2SF_valid y)
              Sx Sy B) as [S L].
  { rewrite <- Of. unfold ford in *. nia. }
  rewrite <- mul_spec in S, L. rewrite <- Of in L.
  apply small_leb; assumption.
Qed.

(** The same for a sum. *)
Lemma add_le (x y bx by' f : float) :
  (0 <=? x) = true -> (x <=? bx) = true -> finite_nz bx = true ->
  (0 <=? y) = true -> (y <=? by') = true -> finite_nz by' = true ->
  finite_nz f = true -> (0 <=? f) = true ->
  (ford bx + ford by' <= ford f)%Z ->
  (0 <=? x + y) = true /\ (x + y <=? f) = true.
Proof.
  intros X0 Xb Fx Y0 Yb Fy Ff F0 H.
  destruct (small_Prim2SF x bx X0 Xb Fx) as [Sx Ox].
  destruct (small_Prim2SF y by' Y0 Yb Fy) as [Sy Oy].
  destruct (finite_positive_Prim2SF f Ff F0) as (mf & ef & Ef & B & Of).
  destruct (SFadd_upper (Prim2SF x) (Prim2SF y) mf ef (Prim2SF_valid x) (Prim2SF_valid y)
              Sx Sy B) as [S L].
  { rewrite <- Of. unfold ford in *. lia. }
  rewrite <- add_spec in S, L. rewrite <- Of in L.
  apply small_leb; assumption.
Qed.

Lemma leb_refl_finite (x : float) : finite_nz x = true -> (x <=? x) = true.
Proof.
  intros F. assert (N : is_nan x = false).
  { rewrite is_nan_Prim2SF. unfold finite_nz in F. destruct (Prim2SF x); easy. }
  rewrite leb_ord by assumption. apply Z.leb_refl.
Qed.

(** The exact products and the exact sum of the bounds, against 0.3, 1 and 0.7. *)
Lemma scorer_bounds_exact :
  (ford 0.3 * ford 1 <= ford 0.3 * 2 ^ 1074)%Z
  /\ (ford 0.7 + ford 0.3 <= ford 1)%Z
  /\ (ford 0.7 * ford 1 <= ford 0.7 * 2 ^ 1074)%Z.
Proof. repeat split; vm_compute; discriminate. Qed.

(** For a relevance between 0 and 1 the product the scorer forms is at most
    the base confidence 0.7. *)
Lemma adjusted_at_most_base (ragScore c1 c2 : float) :
  (0 <=? ragScore) = true -> (ragScore <=? 1) = true ->
  (0 <=? c1) = true -> (c1 <=? 1) = true ->
  (0 <=? c2) = true -> (c2 <=? 1) = true ->
  (0 <=? 0.7 * (0.7 + 0.3 * ragScore) * c1 * c2) = true
  /\ (0.7 * (0.7 + 0.3 * ragScore) * c1 * c2 <=? 0.7) = true.
Proof.
  intros R0 R1 C0 C1 D0 D1.
  destruct scorer_bounds_exact as (I1 & I2 & I3).
  destruct (mul_le 0.3 ragScore 0.3 1 0.3 eq_refl eq_refl eq_refl R0 R1 eq_refl eq_refl eq_refl I1)
    as [A0 A1].
  destruct (add_le 0.7 (0.3 * ragScore) 0.7 0.3 1 eq_refl eq_refl eq_refl A0 A1 eq_refl
              eq_refl eq_refl I2) as [B0 B1].
  destruct (mul_le 0.7 (0.7 + 0.3 * ragScore) 0.7 1 0.7 eq_refl eq_refl eq_refl B0 B1 eq_refl
              eq_refl eq_refl I3) as [E0 E1].
  destruct (mul_le (0.7 * (0.7 + 0.3 * ragScore)) c1 0.7 1 0.7 E0 E1 eq_refl C0 C1 eq_refl
              eq_refl eq_refl I3) as [G0 G1].
  exact (mul_le (0.7 * (0.7 + 0.3 * ragScore) * c1) c2 0.7 1 0.7 G0 G1 eq_refl D0 D1 eq_refl
           eq_refl eq_refl I3).
Qed.

Close Scope float_scope.
Open Scope Z_scope.

(** *** The round and sticky bits *)

Lemma pow2_pred (k : Z) : 0 < k -> 2 ^ k = 2 ^ (k - 1) * 2.
Proof.
  intros H. replace k with ((k - 1) + 1) at 1 by lia.
  rewrite Z.pow_add_r by lia. reflexivity.
Qed.

Lemma shr_1_bits (mrs : shr_record) :
  0 <= shr_m mrs ->
  shr_r (shr_1 mrs) = Z.odd (shr_m mrs) /\ shr_s (shr_1 mrs) = shr_r mrs || shr_s mrs.
Proof.
  destruct mrs as [m r s]. cbn [shr_m shr_r shr_s]. intros Hm.
  destruct m as [ | [p | p | ] | p]; try lia; split; reflexivity.
Qed.

(** After [k] shifts of [M], the round bit is the bit of [M] of rank [k - 1],
    and the sticky bit tells whether a bit of lower rank is set. *)
Lemma iter_shr_1_bits (n : positive) : forall (M k : Z) (mrs : shr_record),
  0 <= M -> 0 <= k ->
  shr_m mrs = M / 2 ^ k ->
  (k = 0 -> shr_r mrs = false /\ shr_s mrs = false) ->
  (0 < k -> shr_r mrs = Z.odd (M / 2 ^ (k - 1))
            /\ shr_s mrs = negb (M mod 2 ^ (k - 1) =? 0)) ->
  shr_m (SpecFloat.iter_pos shr_1 n mrs) = M / 2 ^ (k + Zpos n)
  /\ shr_r (SpecFloat.iter_pos shr_1 n mrs) = Z.odd (M / 2 ^ (k + Zpos n - 1))
  /\ shr_s (SpecFloat.iter_pos shr_1 n mrs) = negb (M mod 2 ^ (k + Zpos n - 1) =? 0).
Proof.
  assert (Step : forall (M k : Z) (mrs : shr_record),
             0 <= M -> 0 <= k ->
             shr_m mrs = M / 2 ^ k ->
             (k = 0 -> shr_r mrs = false /\ shr_s mrs = false) ->
             (0 < k -> shr_r mrs = Z.odd (M / 2 ^ (k - 1))
                       /\ shr_s mrs = negb (M mod 2 ^ (k - 1) =? 0)) ->
             shr_m (shr_1 mrs) = M / 2 ^ (k + 1)
             /\ shr_r (shr_1 mrs) = Z.odd (M / 2 ^ (k + 1 - 1))
             /\ shr_s (shr_1 mrs) = negb (M mod 2 ^ (k + 1 - 1) =? 0)).
  { intros M k mrs HM Hk Em H0 H1.
    assert (Pk : 0 < 2 ^ k) by (apply Z.pow_pos_nonneg; lia).
    assert (Hm : 0 <= shr_m mrs) by (rewrite Em; apply Z.div_pos; lia).
    destruct (shr_1_bits mrs Hm) as [Er Es].
    replace (k + 1 - 1) with k by lia.
    split; [ | split].
    - rewrite shr_1_m, Em by assumption. rewrite Z.pow_add_r, Z.div_div by lia. reflexivity.
    - rewrite Er, Em. reflexivity.
    - rewrite Es. destruct (Z.eq_dec k 0) as [-> | Nk].
      + destruct (H0 eq_refl) as [-> ->]. change (2 ^ 0) with 1. rewrite Z.mod_1_r. reflexivity.
      + destruct (H1 ltac:(lia)) as [-> ->].
        assert (Ph : 0 < 2 ^ (k - 1)) by (apply Z.pow_pos_nonneg; lia).
        assert (E : M mod 2 ^ k = M mod 2 ^ (k - 1) + 2 ^ (k - 1) * ((M / 2 ^ (k - 1)) mod 2)).
        { rewrite (pow2_pred k) by lia. apply Z.rem_mul_r; lia. }
        rewrite E, Zmod_odd.
        pose proof (Z.mod_pos_bound M (2 ^ (k - 1)) Ph) as B.
        destruct (Z.odd (M / 2 ^ (k - 1))); cbn [orb].
        * symmetry. apply negb_true_iff, Z.eqb_neq. lia.
        * rewrite Z.mul_0_r, Z.add_0_r. reflexivity. }
  induction n as [n IH | n IH | ]; intros M k mrs HM Hk Em H0 H1; cbn [SpecFloat.iter_pos].
  - destruct (Step M k mrs HM Hk Em H0 H1) as (A1 & A2 & A3).
    destruct (IH M (k + 1) (shr_1 mrs) HM ltac:(lia) A1 ltac:(lia) ltac:(intros _; split; assumption))
      as (B1 & B2 & B3).
    destruct (IH M (k + 1 + Zpos n) _ HM ltac:(lia) B1 ltac:(lia) ltac:(intros _; split; assumption))
      as (C1 & C2 & C3).
    replace (k + Zpos n~1) with (k + 1 + Zpos n + Zpos n) by lia.
    repeat split; assumption.
  - destruct (IH M k mrs HM Hk Em H0 H1) as (B1 & B2 & B3).
    destruct (IH M (k + Zpos n) _ HM ltac:(lia) B1 ltac:(lia) ltac:(intros _; split; assumption))
      as (C1 & C2 & C3).
    replace (k + Zpos n~0) with (k + Zpos n + Zpos n) by lia.
    repeat split; assumption.
  - apply Step; assumption.
Qed.

(** The mantissa that is kept after a shift of [n] bits and a rounding to
    nearest, ties to even. *)
Lemma round_after_shift (M : Z) (n : positive) :
  0 <= M ->
  let mrs := SpecFloat.iter_pos shr_1 n (shr_record_of_loc M loc_Exact) in
  let m1 := M / 2 ^ Zpos n in
  let rem := M mod 2 ^ Zpos n in
  shr_m mrs = m1
  /\ ((round_nearest_even (shr_m mrs) (loc_of_shr_record mrs) = m1
       /\ (2 * rem < 2 ^ Zpos n \/ (2 * rem = 2 ^ Zpos n /\ Z.even m1 = true)))
      \/ (round_nearest_even (shr_m mrs) (loc_of_shr_record mrs) = m1 + 1
          /\ (2 ^ Zpos n < 2 * rem \/ (2 * rem = 2 ^ Zpos n /\ Z.even m1 = false)))).
Proof.
  intros HM mrs m1 rem.
  destruct (iter_shr_1_bits n M 0 (shr_record_of_loc M loc_Exact) HM ltac:(lia))
    as (E1 & E2 & E3).
  { cbn. rewrite Z.div_1_r. reflexivity. }
  { intros _. split; reflexivity. }
  { intros H. lia. }
  fold mrs in E1, E2, E3. replace (0 + Zpos n) with (Zpos n) in * by lia.
  fold m1 in E1. split; [exact E1 | ]. rewrite E1.
  set (h := 2 ^ (Zpos n - 1)) in *.
  assert (Ph : 0 < h) by (apply Z.pow_pos_nonneg; lia).
  assert (E2n : 2 ^ Zpos n = h * 2) by (apply pow2_pred; lia).
  assert (E : rem = M mod h + h * ((M / h) mod 2)).
  { unfold rem. rewrite E2n. apply Z.rem_mul_r; lia. }
  rewrite Zmod_odd in E.
  pose proof (Z.mod_pos_bound M h Ph) as B.
  destruct mrs as [m r s]. cbn [shr_m shr_r shr_s] in *. subst r s.
  rewrite E2n.
  destruct (Z.odd (M / h)); destruct (M mod h =? 0) eqn:L;
    [apply Z.eqb_eq in L | apply Z.eqb_neq in L | apply Z.eqb_eq in L | apply Z.eqb_neq in L];
    cbn [negb loc_of_shr_record round_nearest_even].
  - destruct (Z.even m1) eqn:Ev.
    + left. split; [reflexivity | ]. right. split; [lia | reflexivity].
    + right. split; [reflexivity | ]. right. split; [lia | reflexivity].
  - right. split; [reflexivity | ]. left. lia.
  - left. split; [reflexivity | ]. left. lia.
  - left. split; [reflexivity | ]. left. lia.
Qed.

(** *** The two stages of a rounding *)

Local Notation V m e := (m * 2 ^ (e + 2148)) (only parsing).

Lemma digits_at_most (p : positive) (k : Z) :
  0 <= k -> Zpos p < 2 ^ k -> Zpos (digits2_pos p) <= k.
Proof.
  intros Hk H. pose proof (digits2_pos_bounds p) as [L _].
  destruct (Z_le_gt_dec (Zpos (digits2_pos p)) k) as [G | G]; [exact G | exfalso].
  assert (2 ^ k <= 2 ^ (Zpos (digits2_pos p) - 1)) by (apply Z.pow_le_mono_r; lia).
  lia.
Qed.

(** The mantissa and the exponent a rounding arrives at, before the test for
    overflow: [m1] is the mantissa cut at the exponent [e1] of the binade,
    [m2] is [m1] or its successor, whichever is nearer (the even one on a
    tie), and [(m3, e3)] is [(m2, e1)] brought back to 53 digits. *)
Lemma binary_round_aux_stages (m e : Z) :
  0 < m -> -2148 <= e -> e <= fexp prec emax (Zdigits2 m + e) ->
  exists m1 e1 m2 m3 e3,
    (-1074 <= e1 /\ 0 <= m1 < 2 ^ 53 /\ (-1074 < e1 -> 2 ^ 52 <= m1))
    /\ V m1 e1 <= V m e < V (m1 + 1) e1
    /\ ((m2 = m1
         /\ (2 * (V m e - V m1 e1) < 2 ^ (e1 + 2148)
             \/ (2 * (V m e - V m1 e1) = 2 ^ (e1 + 2148) /\ Z.even m1 = true)))
        \/ (m2 = m1 + 1
            /\ (2 ^ (e1 + 2148) < 2 * (V m e - V m1 e1)
                \/ (2 * (V m e - V m1 e1) = 2 ^ (e1 + 2148) /\ Z.even m1 = false))))
    /\ (V m3 e3 = V m2 e1 /\ e1 <= e3 /\ 0 <= m3 < 2 ^ 53 /\ (-1074 < e3 -> 2 ^ 52 <= m3))
    /\ binary_round_aux prec emax false m e loc_Exact
       = match m3 with
         | 0 => S754_zero false
         | Zpos p => if e3 <=? 971 then S754_finite false p e3 else S754_infinity false
         | Zneg _ => S754_nan
         end.
Proof.
  intros Hm He Ha.
  (* the first stage *)
  assert (S1 : exists m1 e1 m2,
             (-1074 <= e1 /\ 0 <= m1 < 2 ^ 53 /\ (-1074 < e1 -> 2 ^ 52 <= m1))
             /\ V m1 e1 <= V m e < V (m1 + 1) e1
             /\ ((m2 = m1
                  /\ (2 * (V m e - V m1 e1) < 2 ^ (e1 + 2148)
                      \/ (2 * (V m e - V m1 e1) = 2 ^ (e1 + 2148) /\ Z.even m1 = true)))
                 \/ (m2 = m1 + 1
                     /\ (2 ^ (e1 + 2148) < 2 * (V m e - V m1 e1)
                         \/ (2 * (V m e - V m1 e1) = 2 ^ (e1 + 2148) /\ Z.even m1 = false))))
             /\ binary_round_aux prec emax false m e loc_Exact
                = let '(mrs'', e'') := shr_fexp prec emax m2 e1 loc_Exact in
                  match shr_m mrs'' with
                  | 0 => S754_zero false
                  | Zpos p => if e'' <=? emax - prec then S754_finite false p e''
                              else S754_infinity false
                  | Zneg _ => S754_nan
                  end).
  { destruct m as [ | p | p]; try lia. cbn [Zdigits2] in Ha.
    unfold binary_round_aux, shr_fexp. cbn [Zdigits2].
    pose proof (digits2_pos_bounds p) as [Lp Up].
    set (d := Zpos (digits2_pos p)) in *.
    assert (Fe : fexp prec emax (d + e) = Z.max (d + e - 53) (-1074)) by reflexivity.
    assert (P : 0 < 2 ^ (e + 2148)) by (apply Z.pow_pos_nonneg; lia).
    destruct (fexp prec emax (d + e) - e) as [ | q | q] eqn:En; try lia.
    - cbn [shr shr_m shr_record_of_loc loc_of_shr_record round_nearest_even].
      exists (Zpos p), e, (Zpos p).
      assert (D : d <= 53) by lia.
      assert (U : Zpos p < 2 ^ 53).
      { apply Z.lt_le_trans with (1 := Up). apply Z.pow_le_mono_r; lia. }
      split; [split; [lia | split; [lia | ]] | ].
      { intros G. assert (d = 53) by lia. replace (d - 1) with 52 in Lp by lia. exact Lp. }
      split; [lia | ]. split; [ | reflexivity].
      left. split; [reflexivity | ]. left.
      replace (Zpos p * 2 ^ (e + 2148) - Zpos p * 2 ^ (e + 2148)) with 0 by lia. lia.
    - cbn [shr].
      destruct (round_after_shift (Zpos p) q ltac:(lia)) as (E1 & R).
      set (mrs' := SpecFloat.iter_pos shr_1 q (shr_record_of_loc (Zpos p) loc_Exact)) in *.
      set (n := Zpos q) in *.
      set (m1 := Zpos p / 2 ^ n) in *. set (rem := Zpos p mod 2 ^ n) in *.
      assert (Pn : 0 < 2 ^ n) by (apply Z.pow_pos_nonneg; lia).
      assert (Dm : Zpos p = 2 ^ n * m1 + rem) by (apply Z.div_mod; lia).
      assert (Br : 0 <= rem < 2 ^ n) by (apply Z.mod_pos_bound; assumption).
      assert (Ee : 2 ^ (e + n + 2148) = 2 ^ n * 2 ^ (e + 2148)).
      { rewrite <- Z.pow_add_r by lia. f_equal. lia. }
      assert (Hm1 : 0 <= m1) by (apply Z.div_pos; lia).
      assert (Rem : Zpos p * 2 ^ (e + 2148) - m1 * 2 ^ (e + n + 2148) = rem * 2 ^ (e + 2148)).
      { rewrite Ee, Dm. ring. }
      exists m1, (e + n), (round_nearest_even (shr_m mrs') (loc_of_shr_record mrs')).
      split; [split; [lia | split; [split; [exact Hm1 | ] | ]] | ].
      { apply Z.div_lt_upper_bound; [assumption | ].
        apply Z.lt_le_trans with (1 := Up). rewrite <- Z.pow_add_r by lia.
        apply Z.pow_le_mono_r; lia. }
      { intros G. apply shifted_is_normal; [fold d | ]; lia. }
      split.
      { rewrite Ee. split.
        - rewrite Dm. nia.
        - rewrite Dm. nia. }
      split; [ | reflexivity].
      rewrite Rem, Ee.
      destruct R as [[-> C] | [-> C]]; [left | right]; (split; [reflexivity | ]);
        (destruct C as [C | [C Ev]]; [left | right; split; [ | exact Ev]]); nia. }
  destruct S1 as (m1 & e1 & m2 & B1 & F1 & R & ->).
  assert (Hm2 : 0 <= m2 <= 2 ^ 53) by (destruct R as [[-> _] | [-> _]]; lia).
  assert (Hn2 : -1074 < e1 -> 2 ^ 52 <= m2) by (destruct R as [[-> _] | [-> _]]; lia).
  exists m1, e1, m2.
  (* the second stage *)
  destruct (shr_fexp_spec m2 e1 loc_Exact ltac:(lia)) as [Z0 Z1].
  assert (Fe : forall x, fexp prec emax x = Z.max (x - 53) (-1074)) by reflexivity.
  destruct (Z.eq_dec m2 (2 ^ 53)) as [Top | NTop].
  - assert (D2 : Zdigits2 m2 = 54).
    { rewrite Top. reflexivity. }
    rewrite D2, Fe in Z1. destruct (Z1 ltac:(lia)) as (E3 & M3 & _).
    destruct (shr_fexp prec emax m2 e1 loc_Exact) as [mrs'' e'']. cbn [fst snd] in *.
    replace (Z.max (54 + e1 - 53) (-1074) - e1) with 1 in * by lia.
    exists (2 ^ 52), (e1 + 1).
    split; [assumption | ]. split; [assumption | ]. split; [assumption | ].
    split.
    { split; [ | split; [lia | split; [split; [apply Z.pow_nonneg; lia | ] | intros _; lia]]].
      - rewrite Top. replace (e1 + 1 + 2148) with (1 + (e1 + 2148)) by lia.
        rewrite Z.pow_add_r by lia. change (2 ^ 53) with (2 ^ 52 * 2 ^ 1). ring.
      - apply Z.pow_lt_mono_r; lia. }
    rewrite M3, Top, E3. reflexivity.
  - assert (N0 : fexp prec emax (Zdigits2 m2 + e1) - e1 <= 0).
    { rewrite Fe. destruct m2 as [ | p2 | p2]; try lia.
      - cbn [Zdigits2]. lia.
      - cbn [Zdigits2]. pose proof (digits_at_most p2 53 ltac:(lia) ltac:(lia)). lia. }
    rewrite (Z0 N0). cbn [shr_m shr_record_of_loc].
    exists m2, e1.
    split; [assumption | ]. split; [assumption | ]. split; [assumption | ].
    split; [split; [reflexivity | split; [lia | split; [lia | exact Hn2]]] | reflexivity].
Qed.

(** *** Rounding is monotone *)

(** There is no number of 53 digits between two neighbours. *)
Lemma no_gap (m1 e1 mf ef : Z) :
  0 <= m1 -> -1074 <= e1 -> (-1074 < e1 -> 2 ^ 52 <= m1) ->
  0 <= mf < 2 ^ 53 -> -1074 <= ef ->
  V m1 e1 < V mf ef ->
  V (m1 + 1) e1 <= V mf ef.
Proof.
  intros Hm He Hn Hf Hef H.
  destruct (Z_le_gt_dec e1 ef) as [L | G].
  - assert (E : 2 ^ (ef + 2148) = 2 ^ (ef - e1) * 2 ^ (e1 + 2148)).
    { rewrite <- Z.pow_add_r by lia. f_equal. lia. }
    assert (P : 0 < 2 ^ (e1 + 2148)) by (apply Z.pow_pos_nonneg; lia).
    rewrite E, Z.mul_assoc in H. rewrite E, Z.mul_assoc.
    apply Z.mul_lt_mono_pos_r in H; [ | assumption].
    apply Z.mul_le_mono_nonneg_r; lia.
  - exfalso. specialize (Hn ltac:(lia)).
    assert (Q : 2 ^ (ef + 1 + 2148) <= 2 ^ (e1 + 2148)) by (apply Z.pow_le_mono_r; lia).
    replace (ef + 1 + 2148) with (1 + (ef + 2148)) in Q by lia.
    rewrite Z.pow_add_r in Q by lia. change (2 ^ 1) with 2 in Q.
    assert (P : 0 < 2 ^ (ef + 2148)) by (apply Z.pow_pos_nonneg; lia).
    assert (T1 : mf * 2 ^ (ef + 2148) <= (2 ^ 53 - 1) * 2 ^ (ef + 2148))
      by (apply Z.mul_le_mono_nonneg_r; lia).
    assert (T2 : 2 ^ 52 * 2 ^ (e1 + 2148) <= m1 * 2 ^ (e1 + 2148))
      by (apply Z.mul_le_mono_nonneg_r; [apply Z.pow_nonneg | ]; lia).
    assert (T3 : 2 ^ 52 * (2 * 2 ^ (ef + 2148)) <= 2 ^ 52 * 2 ^ (e1 + 2148))
      by (apply Z.mul_le_mono_nonneg_l; lia).
    change (2 ^ 53) with (2 ^ 52 * 2) in T1. lia.
Qed.

(** A number has one mantissa of at most 53 digits at the exponent of its
    binade. *)
Lemma canonical_unique (m e m' e' : Z) :
  0 <= m < 2 ^ 53 -> -1074 <= e -> (-1074 < e -> 2 ^ 52 <= m) ->
  0 <= m' < 2 ^ 53 -> -1074 <= e' -> (-1074 < e' -> 2 ^ 52 <= m') ->
  V m e = V m' e' -> e = e' /\ m = m'.
Proof.
  intros Hm He Hn Hm' He' Hn' H.
  assert (A : forall m e m' e',
             0 <= m < 2 ^ 53 -> -1074 <= e ->
             -1074 <= e' -> (-1074 < e' -> 2 ^ 52 <= m') ->
             V m e = V m' e' -> ~ e < e').
  { clear. intros m e m' e' Hm He He' Hn' H L. specialize (Hn' ltac:(lia)).
    assert (Q : 2 ^ (e + 1 + 2148) <= 2 ^ (e' + 2148)) by (apply Z.pow_le_mono_r; lia).
    replace (e + 1 + 2148) with (1 + (e + 2148)) in Q by lia.
    rewrite Z.pow_add_r in Q by lia. change (2 ^ 1) with 2 in Q.
    assert (P : 0 < 2 ^ (e + 2148)) by (apply Z.pow_pos_nonneg; lia).
    assert (T1 : m * 2 ^ (e + 2148) <= (2 ^ 53 - 1) * 2 ^ (e + 2148))
      by (apply Z.mul_le_mono_nonneg_r; lia).
    assert (T2 : 2 ^ 52 * 2 ^ (e' + 2148) <= m' * 2 ^ (e' + 2148))
      by (apply Z.mul_le_mono_nonneg_r; [apply Z.pow_nonneg | ]; lia).
    assert (T3 : 2 ^ 52 * (2 * 2 ^ (e + 2148)) <= 2 ^ 52 * 2 ^ (e' + 2148))
      by (apply Z.mul_le_mono_nonneg_l; lia).
    change (2 ^ 53) with (2 ^ 52 * 2) in T1. lia. }
  pose proof (A m e m' e' Hm He He' Hn' H) as N1.
  pose proof (A m' e' m e Hm' He' He Hn (eq_sym H)) as N2.
  assert (E : e = e') by lia. subst e'. split; [reflexivity | ].
  apply Z.mul_cancel_r in H; [exact H | ].
  assert (0 < 2 ^ (e + 2148)) by (apply Z.pow_pos_nonneg; lia). lia.
Qed.

Lemma scaled_mono (a b e : Z) : a <= b -> -2148 <= e -> V a e <= V b e.
Proof.
  intros H He. apply Z.mul_le_mono_nonneg_r; [apply Z.pow_nonneg; lia | exact H].
Qed.

(** The mantissas and exponents two roundings arrive at are in the order of
    the exact values. *)
Lemma stages_mono (ma ea mb eb : Z) :
  0 < ma -> -2148 <= ea -> ea <= fexp prec emax (Zdigits2 ma + ea) ->
  0 < mb -> -2148 <= eb -> eb <= fexp prec emax (Zdigits2 mb + eb) ->
  V ma ea <= V mb eb ->
  ord (binary_round_aux prec emax false ma ea loc_Exact)
  <= ord (binary_round_aux prec emax false mb eb loc_Exact).
Proof.
  intros Hma Hea Aa Hmb Heb Ab H.
  destruct (binary_round_aux_stages ma ea Hma Hea Aa)
    as (m1a & e1a & m2a & m3a & e3a & (B1a & B2a & B3a) & Fa & Ra & (Va & L3a & B4a & N3a) & ->).
  destruct (binary_round_aux_stages mb eb Hmb Heb Ab)
    as (m1b & e1b & m2b & m3b & e3b & (B1b & B2b & B3b) & Fb & Rb & (Vb & L3b & B4b & N3b) & ->).
  assert (M2a : m1a <= m2a <= m1a + 1) by (destruct Ra as [[-> _] | [-> _]]; lia).
  assert (M2b : m1b <= m2b <= m1b + 1) by (destruct Rb as [[-> _] | [-> _]]; lia).
  assert (C : V m3a e3a <= V m3b e3b).
  { rewrite Va, Vb.
    destruct (Z.lt_trichotomy (V m1a e1a) (V m1b e1b)) as [Lt | [Eq | Gt]].
    - pose proof (no_gap m1a e1a m1b e1b ltac:(lia) B1a B3a B2b B1b Lt) as G.
      pose proof (scaled_mono m2a (m1a + 1) e1a ltac:(lia) ltac:(lia)).
      pose proof (scaled_mono m1b m2b e1b ltac:(lia) ltac:(lia)).
      lia.
    - destruct (canonical_unique m1a e1a m1b e1b B2a B1a B3a B2b B1b B3b Eq) as [<- <-].
      apply scaled_mono; [ | lia].
      destruct Ra as [[-> Ca] | [-> Ca]]; [lia | ].
      destruct Rb as [[-> Cb] | [-> Cb]]; [ | lia].
      exfalso. destruct Ca as [Ca | [Ca Ea]], Cb as [Cb | [Cb Eb]]; try lia.
      rewrite Ea in Eb. discriminate Eb.
    - exfalso.
      pose proof (no_gap m1b e1b m1a e1a ltac:(lia) B1b B3b B2a B1a ltac:(lia)) as G.
      lia. }
  assert (Hh : huge = 2 ^ 3000) by reflexivity.
  assert (Pos : forall m e, 0 < m -> -2148 <= e -> 0 < V m e).
  { intros m e Hm He. apply Z.mul_pos_pos; [exact Hm | apply Z.pow_pos_nonneg; lia]. }
  assert (Big : forall m e, 2 ^ 52 <= m -> 971 < e -> 2 ^ 52 * 2 ^ (972 + 2148) <= V m e).
  { intros m e Hm He. apply Z.mul_le_mono_nonneg;
      [lia | exact Hm | apply Z.pow_nonneg; lia | apply Z.pow_le_mono_r; lia]. }
  assert (Small : forall m e, 0 <= m < 2 ^ 53 -> -1074 <= e <= 971 ->
                              V m e < 2 ^ 52 * 2 ^ (972 + 2148)
                              /\ m * 2 ^ (e + 1074) < huge).
  { intros m e Hm He.
    assert (Q : 2 ^ (e + 2148) <= 2 ^ (971 + 2148)) by (apply Z.pow_le_mono_r; lia).
    assert (Q' : 2 ^ (e + 1074) <= 2 ^ (971 + 1074)) by (apply Z.pow_le_mono_r; lia).
    assert (P : 0 < 2 ^ (e + 2148)) by (apply Z.pow_pos_nonneg; lia).
    assert (P' : 0 < 2 ^ (e + 1074)) by (apply Z.pow_pos_nonneg; lia).
    split.
    - apply Z.le_lt_trans with ((2 ^ 53 - 1) * 2 ^ (971 + 2148)).
      + apply Z.mul_le_mono_nonneg; lia.
      + replace (972 + 2148) with (1 + (971 + 2148)) by lia.
        rewrite (Z.pow_add_r 2 1) by lia. change (2 ^ 1) with 2.
        change (2 ^ 53) with (2 ^ 52 * 2).
        assert (0 < 2 ^ (971 + 2148)) by (apply Z.pow_pos_nonneg; lia). lia.
    - apply Z.le_lt_trans with ((2 ^ 53 - 1) * 2 ^ (971 + 1074)).
      + apply Z.mul_le_mono_nonneg; lia.
      + rewrite Hh. apply Z.lt_le_trans with (2 ^ 53 * 2 ^ (971 + 1074)).
        * apply Z.mul_lt_mono_pos_r; [apply Z.pow_pos_nonneg; lia | lia].
        * rewrite <- Z.pow_add_r by lia. apply Z.pow_le_mono_r; lia. }
  assert (Scale : forall m e, -1074 <= e -> V m e = m * 2 ^ (e + 1074) * 2 ^ 1074).
  { intros m e He. rewrite <- Z.mul_assoc, <- Z.pow_add_r by lia. do 2 f_equal. lia. }
  assert (Hp : 0 < huge) by (rewrite Hh; apply Z.pow_pos_nonneg; lia).
  destruct m3a as [ | pa | pa]; [ | | lia].
  - (* the first result is zero *)
    cbn [ord]. destruct m3b as [ | pb | pb]; [cbn [ord]; lia | | lia].
    destruct (e3b <=? 971); cbn [ord cond_Zopp]; [ | lia].
    apply Z.mul_nonneg_nonneg; [lia | apply Z.pow_nonneg; lia].
  - destruct m3b as [ | pb | pb]; [ | | lia].
    { exfalso. pose proof (Pos (Zpos pa) e3a ltac:(lia) ltac:(lia)). lia. }
    destruct (e3a <=? 971) eqn:La; [apply Z.leb_le in La | apply Z.leb_gt in La];
      (destruct (e3b <=? 971) eqn:Lb; [apply Z.leb_le in Lb | apply Z.leb_gt in Lb]);
      cbn [ord cond_Zopp].
    + apply scale_le. rewrite <- !Scale by lia. exact C.
    + destruct (Small (Zpos pa) e3a B4a ltac:(lia)) as [_ S]. lia.
    + exfalso.
      pose proof (Big (Zpos pa) e3a (N3a ltac:(lia)) La).
      destruct (Small (Zpos pb) e3b B4b ltac:(lia)) as [S _]. lia.
    + lia.
Qed.

Lemma binary_round_aux_canonical (m : positive) (e : Z) :
  bounded prec emax m e = true ->
  binary_round_aux prec emax false (Zpos m) e loc_Exact = S754_finite false m e.
Proof.
  intros B. pose proof (bounded_canonical m e B) as C.
  assert (Le : (e <=? emax - prec) = true).
  { unfold bounded in B. apply andb_prop in B. apply B. }
  unfold binary_round_aux.
  assert (S : shr_fexp prec emax (Zpos m) e loc_Exact = (shr_record_of_loc (Zpos m) loc_Exact, e)).
  { apply (shr_fexp_spec (Zpos m) e loc_Exact); [lia | ].
    cbn [Zdigits2]. unfold fexp. change (SpecFloat.emin prec emax) with (-1074).
    change prec with 53. lia. }
  rewrite S. cbn [shr_m shr_record_of_loc loc_of_shr_record round_nearest_even].
  rewrite S. cbn [shr_m shr_record_of_loc]. rewrite Le. reflexivity.
Qed.

(** [binary_round] is [binary_round_aux] on a mantissa that needs no shift to
    the left. *)
Lemma binary_round_aligned (p : positive) (e : Z) :
  emin <= e ->
  exists mz ez,
    binary_round prec emax false p e = binary_round_aux prec emax false (Zpos mz) ez loc_Exact
    /\ -2148 <= ez
    /\ ez <= fexp prec emax (Zdigits2 (Zpos mz) + ez)
    /\ V (Zpos mz) ez = V (Zpos p) e.
Proof.
  intros He. change emin with (-1074) in He. unfold binary_round.
  set (e' := fexp prec emax (Zpos (digits2_pos p) + e)).
  assert (He' : -1074 <= e') by (unfold e', fexp; change (SpecFloat.emin prec emax) with (-1074); lia).
  destruct (Z_lt_le_dec e' e) as [Lt | Ge].
  - destruct (shl_align_le p e e' ltac:(lia)) as [E1 E2].
    destruct (shl_align p e e') as [mz ez]. cbn [fst snd] in *. subst ez.
    exists mz, e'. split; [reflexivity | ]. split; [lia | ]. split.
    + cbn [Zdigits2]. rewrite (digits2_pos_shifted p mz (e - e')) by (try assumption; lia).
      replace (Zpos (digits2_pos p) + (e - e') + e') with (Zpos (digits2_pos p) + e) by lia.
      fold e'. lia.
    + rewrite E2. replace (e + 2148) with ((e - e') + (e' + 2148)) by lia.
      rewrite (Z.pow_add_r 2 (e - e') (e' + 2148)) by lia. ring.
  - assert (E : shl_align p e e' = (p, e)).
    { unfold shl_align. destruct (e' - e) eqn:D; try reflexivity. lia. }
    rewrite E. exists p, e. split; [reflexivity | ]. split; [lia | ]. split; [exact Ge | reflexivity].
Qed.

Lemma binary_round_mono (p : positive) (e : Z) (p' : positive) (e' : Z) :
  emin <= e -> emin <= e' ->
  Zpos p * 2 ^ (e + 1074) <= Zpos p' * 2 ^ (e' + 1074) ->
  ord (binary_round prec emax false p e) <= ord (binary_round prec emax false p' e').
Proof.
  intros He He' H.
  destruct (binary_round_aligned p e He) as (mz & ez & -> & L & A & E).
  destruct (binary_round_aligned p' e' He') as (mz' & ez' & -> & L' & A' & E').
  change emin with (-1074) in *.
  apply stages_mono; try assumption; try lia.
  rewrite E, E'.
  replace (e + 2148) with ((e + 1074) + 1074) by lia.
  replace (e' + 2148) with ((e' + 1074) + 1074) by lia.
  rewrite (Z.pow_add_r 2 (e + 1074)), (Z.pow_add_r 2 (e' + 1074)), !Z.mul_assoc by lia.
  apply Z.mul_le_mono_nonneg_r; [apply Z.pow_nonneg; lia | exact H].
Qed.

Lemma binary_round_canonical (m : positive) (e : Z) :
  bounded prec emax m e = true ->
  binary_round prec emax false m e = S754_finite false m e.
Proof.
  intros B. pose proof (bounded_canonical m e B) as C.
  unfold binary_round.
  assert (E : shl_align m e (fexp prec emax (Zpos (digits2_pos m) + e)) = (m, e)).
  { unfold shl_align, fexp. change (SpecFloat.emin prec emax) with (-1074). change prec with 53.
    replace (Z.max (Zpos (digits2_pos m) + e - 53) (-1074) - e) with 0 by lia. reflexivity. }
  rewrite E. apply binary_round_aux_canonical. exact B.
Qed.

(** The product of two positive binary64 numbers, in the order of the exact
    products. *)
Lemma SFmul_finite_mono (mx my mx' my' : positive) (ex ey ex' ey' : Z) :
  bounded prec emax mx ex = true -> bounded prec emax my ey = true ->
  bounded prec emax mx' ex' = true -> bounded prec emax my' ey' = true ->
  (Zpos mx * 2 ^ (ex + 1074)) * (Zpos my * 2 ^ (ey + 1074))
  <= (Zpos mx' * 2 ^ (ex' + 1074)) * (Zpos my' * 2 ^ (ey' + 1074)) ->
  ord (SF64mul (S754_finite false mx ex) (S754_finite false my ey))
  <= ord (SF64mul (S754_finite false mx' ex') (S754_finite false my' ey')).
Proof.
  intros Bx By Bx' By' H.
  destruct (bounded_inv _ _ Bx) as (Hex & _). destruct (bounded_inv _ _ By) as (Hey & _).
  destruct (bounded_inv _ _ Bx') as (Hex' & _). destruct (bounded_inv _ _ By') as (Hey' & _).
  change emin with (-1074) in *.
  unfold SF64mul, SFmul. cbn [xorb].
  apply stages_mono; try lia; try (apply mul_aligned; assumption).
  replace (ex + ey + 2148) with ((ex + 1074) + (ey + 1074)) by lia.
  replace (ex' + ey' + 2148) with ((ex' + 1074) + (ey' + 1074)) by lia.
  rewrite (Z.pow_add_r 2 (ex + 1074)), (Z.pow_add_r 2 (ex' + 1074)), !Pos2Z.inj_mul by lia.
  etransitivity; [ | etransitivity; [exact H | ]]; apply Z.eq_le_incl; ring.
Qed.

(** The sum of two positive binary64 numbers is a rounding of their exact sum. *)
Lemma SFadd_finite (mx my : positive) (ex ey : Z) :
  bounded prec emax mx ex = true -> bounded prec emax my ey = true ->
  exists p ez,
    emin <= ez
    /\ SF64add (S754_finite false mx ex) (S754_finite false my ey)
       = binary_round prec emax false p ez
    /\ Zpos p * 2 ^ (ez + 1074) = Zpos mx * 2 ^ (ex + 1074) + Zpos my * 2 ^ (ey + 1074).
Proof.
  intros Bx By.
  destruct (bounded_inv _ _ Bx) as (Hex & _). destruct (bounded_inv _ _ By) as (Hey & _).
  unfold SF64add, SFadd. cbn [cond_Zopp].
  set (ez := Z.min ex ey).
  pose proof (finite_ord_aligned false mx ex ez ltac:(lia) ltac:(lia)) as Ax.
  pose proof (finite_ord_aligned false my ey ez ltac:(lia) ltac:(lia)) as Ay.
  cbn [cond_Zopp] in Ax, Ay.
  set (X := fst (shl_align mx ex ez)) in *. set (Y := fst (shl_align my ey ez)) in *.
  change (Zpos X + Zpos Y) with (Zpos (X + Y)). cbn [binary_normalize].
  exists (X + Y)%positive, ez. split; [lia | ]. split; [reflexivity | ].
  rewrite Ax, Ay, Pos2Z.inj_add. ring.
Qed.

Lemma ord_valid (x : spec_float) : valid_binary x = true -> - huge <= ord x <= huge.
Proof.
  assert (Hh : 0 < huge) by (apply Z.pow_pos_nonneg; lia).
  destruct x as [s | s | | s m e]; cbn [ord]; intros V.
  - lia.
  - destruct s; cbn [cond_Zopp]; lia.
  - lia.
  - pose proof (finite_ord_bounds m e V). destruct s; cbn [cond_Zopp]; lia.
Qed.

Lemma ord_nonneg (x : spec_float) : sf_nonneg x = true -> 0 <= ord x.
Proof.
  assert (Hh : 0 < huge) by (apply Z.pow_pos_nonneg; lia).
  destruct x as [s | [ | ] | | [ | ] m e]; intros H; try discriminate H;
    cbn [ord cond_Zopp]; try lia.
Qed.

(** The numbers that are not negative, by their images. *)
Lemma nonneg_cases (x : spec_float) :
  valid_binary x = true -> sf_nonneg x = true ->
  (exists s, x = S754_zero s) \/ x = S754_infinity false
  \/ (exists m e, x = S754_finite false m e /\ bounded prec emax m e = true
                  /\ 0 < ord x < huge).
Proof.
  intros V N. destruct x as [s | [ | ] | | [ | ] m e]; try discriminate.
  - left. exists s. reflexivity.
  - right. left. reflexivity.
  - right. right. exists m, e. split; [reflexivity | ]. split; [exact V | ].
    cbn [ord cond_Zopp]. apply finite_ord_bounds. exact V.
Qed.

Open Scope float_scope.

Lemma leb_true_ord (x y : float) :
  (x <=? y) = true -> is_nan x = false /\ is_nan y = false /\ (ford x <= ford y)%Z.
Proof.
  intros H.
  assert (N : is_nan x = false /\ is_nan y = false).
  { rewrite FloatAxioms.leb_spec in H. rewrite !is_nan_Prim2SF.
    destruct (Prim2SF x), (Prim2SF y); cbn in *; try discriminate; split; reflexivity. }
  destruct N as [Nx Ny]. split; [exact Nx | ]. split; [exact Ny | ].
  rewrite leb_ord in H by assumption. apply Z.leb_le. exact H.
Qed.

(** A product of two numbers that are not negative, the second one finite
    and not zero, grows with its factors. *)
Lemma mul_mono (x x' y y' : float) :
  (0 <=? x) = true -> (x <=? x') = true ->
  (0 <=? y) = true -> (y <=? y') = true ->
  finite_nz y = true -> finite_nz y' = true ->
  (0 <=? x * y) = true /\ (x * y <=? x' * y') = true.
Proof.
  intros X0 Xl Y0 Yl Fy Fy'.
  destruct (leb_true_ord _ _ Xl) as (Nx & Nx' & Ox).
  destruct (leb_true_ord _ _ Yl) as (Ny & Ny' & Oy).
  destruct (leb_true_ord _ _ X0) as (_ & _ & Ox0).
  destruct (leb_true_ord _ _ Y0) as (_ & _ & Oy0).
  change (ford 0) with 0%Z in *.
  assert (X0' : (0 <=? x') = true) by (rewrite leb_ord by (try assumption; reflexivity);
                                       apply Z.leb_le; change (ford 0) with 0%Z; lia).
  assert (Y0' : (0 <=? y') = true) by (rewrite leb_ord by (try assumption; reflexivity);
                                       apply Z.leb_le; change (ford 0) with 0%Z; lia).
  assert (P : (0 <=? x * y) = true) by (apply mul_nonneg; try assumption; rewrite Fy; apply orb_true_r).
  assert (P' : (0 <=? x' * y') = true)
    by (apply mul_nonneg; try assumption; rewrite Fy'; apply orb_true_r).
  split; [exact P | ].
  rewrite leb_ord by (apply nonneg_not_nan; assumption). apply Z.leb_le.
  destruct (leb_true_ord _ _ P') as (_ & _ & OP'). change (ford 0) with 0%Z in OP'.
  pose proof (ord_valid _ (Prim2SF_valid (x * y))) as Vxy. fold (ford (x * y)) in Vxy.
  unfold ford in *. rewrite !mul_spec in *.
  rewrite nonneg_Prim2SF in X0, X0', Y0, Y0'. unfold finite_nz in Fy, Fy'.
  pose proof (Prim2SF_valid x) as Vx. pose proof (Prim2SF_valid x') as Vx'.
  pose proof (Prim2SF_valid y) as Vy. pose proof (Prim2SF_valid y') as Vy'.
  destruct (Prim2SF y) as [ | | | [ | ] my ey]; try discriminate.
  destruct (Prim2SF y') as [ | | | [ | ] my' ey']; try discriminate.
  assert (Hh : (0 < huge)%Z) by (apply Z.pow_pos_nonneg; lia).
  set (sx := Prim2SF x) in *. set (sx' := Prim2SF x') in *. clearbody sx sx'.
  destruct (nonneg_cases _ Vx X0) as [[s ->] | [-> | (mx & ex & -> & Bx & Hx)]];
    destruct (nonneg_cases _ Vx' X0') as [[s' ->] | [-> | (mx' & ex' & -> & Bx' & Hx')]];
    cbn [ord cond_Zopp] in Ox, Ox0 |- *.
  - exact (Z.le_refl 0).
  - exact OP'.
  - exact OP'.
  - lia.
  - exact (Z.le_refl huge).
  - cbn [ord cond_Zopp] in Hx'. lia.
  - cbn [ord cond_Zopp] in Hx. lia.
  - exact (proj2 Vxy).
  - cbn [ord cond_Zopp] in Hx, Hx', Oy, Oy0. apply SFmul_finite_mono; try assumption.
    apply Z.mul_le_mono_nonneg; lia.
Qed.

(** A sum of a positive finite number and a number that is not negative
    grows with the latter. *)
Lemma add_mono (c x x' : float) :
  finite_nz c = true -> (0 <=? c) = true ->
  (0 <=? x) = true -> (x <=? x') = true ->
  (0 <=? c + x) = true /\ (c + x <=? c + x') = true.
Proof.
  intros Fc C0 X0 Xl.
  destruct (leb_true_ord _ _ Xl) as (Nx & Nx' & Ox).
  destruct (leb_true_ord _ _ X0) as (_ & _ & Ox0).
  change (ford 0) with 0%Z in *.
  assert (X0' : (0 <=? x') = true) by (rewrite leb_ord by (try assumption; reflexivity);
                                       apply Z.leb_le; change (ford 0) with 0%Z; lia).
  assert (P : (0 <=? c + x) = true) by (apply add_nonneg; assumption).
  assert (P' : (0 <=? c + x') = true) by (apply add_nonneg; assumption).
  split; [exact P | ].
  rewrite leb_ord by (apply nonneg_not_nan; assumption). apply Z.leb_le.
  pose proof (ord_valid _ (Prim2SF_valid (c + x))) as Vcx. fold (ford (c + x)) in Vcx.
  unfold ford in *. rewrite !add_spec in *.
  rewrite nonneg_Prim2SF in X0, X0', C0. unfold finite_nz in Fc.
  pose proof (Prim2SF_valid x) as Vx. pose proof (Prim2SF_valid x') as Vx'.
  pose proof (Prim2SF_valid c) as Vc.
  destruct (Prim2SF c) as [ | | | [ | ] mc ec]; try discriminate. cbn [valid_binary] in Vc.
  pose proof (finite_ord_bounds mc ec Vc) as Hc.
  destruct (bounded_inv _ _ Vc) as (Hec & _).
  assert (Hh : (0 < huge)%Z) by (apply Z.pow_pos_nonneg; lia).
  set (sx := Prim2SF x) in *. set (sx' := Prim2SF x') in *. clearbody sx sx'.
  destruct (nonneg_cases _ Vx X0) as [[s ->] | [-> | (mx & ex & -> & Bx & Hx)]];
    destruct (nonneg_cases _ Vx' X0') as [[s' ->] | [-> | (mx' & ex' & -> & Bx' & Hx')]];
    cbn [ord cond_Zopp] in Ox, Ox0 |- *.
  - apply Z.le_refl.
  - exact (proj2 Vcx).
  - change (SF64add (S754_finite false mc ec) (S754_zero s)) with (S754_finite false mc ec).
    destruct (SFadd_finite mc mx' ec ex' Vc Bx') as (p & ez & Hez & -> & E).
    rewrite <- (binary_round_canonical mc ec Vc).
    cbn [ord cond_Zopp] in Hx'.
    apply binary_round_mono; try assumption. lia.
  - lia.
  - exact (Z.le_refl huge).
  - cbn [ord cond_Zopp] in Hx'. lia.
  - cbn [ord cond_Zopp] in Hx. lia.
  - exact (proj2 Vcx).
  - destruct (SFadd_finite mc mx ec ex Vc Bx) as (p & ez & Hez & -> & E).
    destruct (SFadd_finite mc mx' ec ex' Vc Bx') as (p' & ez' & Hez' & -> & E').
    apply binary_round_mono; try assumption. lia.
Qed.

Lemma Math_min_one_mono (x x' : float) :
  (x <=? x') = true -> (Math_min x 1 <=? Math_min x' 1) = true.
Proof.
  intros H. destruct (leb_true_ord _ _ H) as (Nx & Nx' & O).
  assert (N1 : is_nan 1 = false) by reflexivity.
  assert (E : forall z, is_nan z = false ->
                        is_nan (Math_min z 1) = false
                        /\ ford (Math_min z 1) = Z.min (ford z) (ford 1)).
  { intros z Nz. split; [apply Math_min_not_nan; assumption | ].
    unfold Math_min. rewrite Nz, N1. cbn [orb].
    destruct (z <? 1) eqn:L1; rewrite ltb_ord in L1 by assumption.
    - apply Z.ltb_lt in L1. lia.
    - apply Z.ltb_ge in L1.
      destruct (1 <? z) eqn:L2; rewrite ltb_ord in L2 by assumption.
      + apply Z.ltb_lt in L2. lia.
      + apply Z.ltb_ge in L2. destruct (is_zero z && get_sign z); lia. }
  destruct (E x Nx) as [M1 M2]. destruct (E x' Nx') as [M1' M2'].
  rewrite leb_ord by assumption. apply Z.leb_le. lia.
Qed.

End RoundingFacts.

(** ** The score: its cap and its order *)

Module ScoreOrderFacts.
Import JS Binary64 Binary64Facts Magnitude ChatWorker RoundingFacts.
Open Scope float_scope.

Lemma factors_at_most_one (finishReason : value) (wordCount : nat) :
  ((0 <=? ScorerSpec.completion_factor finishReason) = true
   /\ (ScorerSpec.completion_factor finishReason <=? 1) = true)
  /\ ((0 <=? ScorerSpec.length_factor wordCount) = true
      /\ (ScorerSpec.length_factor wordCount <=? 1) = true).
Proof.
  unfold ScorerSpec.completion_factor, ScorerSpec.length_factor. split.
  - destruct (strict_eq_str finishReason (lit "stop"));
      [ | destruct (strict_eq_str finishReason (lit "length")) ]; split; reflexivity.
  - destruct ((20 <=? _)%nat && (_ <=? 200)%nat);
      [ | destruct (_ <? 20)%nat ]; split; reflexivity.
Qed.

Lemma Math_min_below_one (x : float) :
  (0 <=? x) = true -> (x <=? 0.7) = true -> Math_min x 1 = x.
Proof.
  intros H0 H. pose proof (nonneg_not_nan x H0) as Nx.
  unfold Math_min. rewrite Nx. cbn [orb]. change (is_nan 1) with false. cbv iota.
  replace (x <? 1) with true; [reflexivity | ].
  symmetry. rewrite ltb_ord by (try assumption; reflexivity).
  rewrite leb_ord in H by (try assumption; reflexivity).
  apply Z.leb_le in H. apply Z.ltb_lt.
  apply Z.le_lt_trans with (1 := H). vm_compute. reflexivity.
Qed.

Lemma score_at_most_base (response : jsstring) (ragScore : float) (finishReason : value) :
  (0 <=? ragScore) = true -> (ragScore <=? 1) = true ->
  calculateConfidenceScore response ragScore finishReason
  = 0.7 * (0.7 + 0.3 * ragScore)
    * ScorerSpec.completion_factor finishReason
    * ScorerSpec.length_factor (List.length (split_spaces response))
  /\ (calculateConfidenceScore response ragScore finishReason <=? 0.7) = true.
Proof.
  intros R0 R1. rewrite ScorerFacts.score_unfold.
  destruct (factors_at_most_one finishReason (List.length (split_spaces response)))
    as [[C0 C1] [D0 D1]].
  destruct (adjusted_at_most_base ragScore _ _ R0 R1 C0 C1 D0 D1) as [P0 P1].
  rewrite (Math_min_below_one _ P0 P1). split; [reflexivity | exact P1].
Qed.

(** X21.  For a relevance between 0 and 1 the cap of the scorer never
    applies: the score is the product of the base confidence and the three
    factors as the binary64 operations round it, and it is at most the base
    confidence 0.7.  So is every confidence the fan-out puts in its array
    for such a relevance. *)
Theorem score_never_capped (response : jsstring) (ragScore : float) (finishReason : value) :
  (0 <=? ragScore) = true -> (ragScore <=? 1) = true ->
  let result := calculateConfidenceScore response ragScore finishReason in
  result = 0.7 * (0.7 + 0.3 * ragScore)
           * ScorerSpec.completion_factor finishReason
           * ScorerSpec.length_factor (List.length (split_spaces response))
  /\ (result <=? 0.7) = true
  /\ (result <? 1) = true
  /\ (forall h userMessage ragContext m,
        ragScoreArgument ragContext = ragScore ->
        (confidence (entryFor h userMessage ragContext m) <=? 0.7) = true).
Proof.
  intros R0 R1 result. subst result.
  destruct (score_at_most_base response ragScore finishReason R0 R1) as [E L].
  split; [exact E | ]. split; [exact L | ]. split.
  - assert (N : is_nan (calculateConfidenceScore response ragScore finishReason) = false)
      by (apply ScorerFacts.score_not_nan, nonneg_not_nan; exact R0).
    rewrite ltb_ord by (try assumption; reflexivity).
    rewrite leb_ord in L by (try assumption; reflexivity).
    apply Z.leb_le in L. apply Z.ltb_lt.
    apply Z.le_lt_trans with (1 := L). vm_compute. reflexivity.
  - intros h userMessage ragContext m Hr. unfold entryFor.
    destruct (attempt h userMessage ragContext m) as [r | e] eqn:A; [ | reflexivity].
    destruct (WorkerFacts.attempt_returned _ _ _ _ _ A) as (text & fr & ->). cbn [confidence].
    rewrite Hr. apply score_at_most_base; assumption.
Qed.

(** The bound is attained: relevance 1, finish reason ['stop'], twenty words. *)
Lemma score_never_capped_witness :
  calculateConfidenceScore (lit "a b c d e f g h i j k l m n o p q r s t") 1 (VStr (lit "stop"))
  = 0.7
  /\ (calculateConfidenceScore (lit "a b c d e f g h i j k l m n o p q r s t") 1
        (VStr (lit "stop")) <=? 0.7) = true.
Proof.
  split; [reflexivity | ].
  destruct (score_never_capped (lit "a b c d e f g h i j k l m n o p q r s t") 1
              (VStr (lit "stop")) eq_refl eq_refl) as (_ & L & _).
  exact L.
Defined.

(** A product with a positive finite number on the left grows with the
    number on the right, zero and infinity included. *)
Lemma mul_mono_l (c y y' : float) :
  finite_nz c = true -> (0 <=? c) = true ->
  (0 <=? y) = true -> (y <=? y') = true ->
  (0 <=? c * y) = true /\ (c * y <=? c * y') = true.
Proof.
  intros Fc C0 Y0 Yl.
  destruct (leb_true_ord _ _ Yl) as (Ny & Ny' & Oy).
  destruct (leb_true_ord _ _ Y0) as (_ & _ & Oy0).
  change (ford 0) with 0%Z in *.
  assert (Y0' : (0 <=? y') = true) by (rewrite leb_ord by (try assumption; reflexivity);
                                       apply Z.leb_le; change (ford 0) with 0%Z; lia).
  assert (P : (0 <=? c * y) = true) by (apply mul_nonneg; try assumption; rewrite Fc; reflexivity).
  assert (P' : (0 <=? c * y') = true) by (apply mul_nonneg; try assumption; rewrite Fc; reflexivity).
  split; [exact P | ].
  rewrite leb_ord by (apply nonneg_not_nan; assumption). apply Z.leb_le.
  destruct (leb_true_ord _ _ P') as (_ & _ & OP'). change (ford 0) with 0%Z in OP'.
  pose proof (ord_valid _ (Prim2SF_valid (c * y))) as Vcy. fold (ford (c * y)) in Vcy.
  unfold ford in *. rewrite !mul_spec in *.
  rewrite nonneg_Prim2SF in Y0, Y0', C0. unfold finite_nz in Fc.
  pose proof (Prim2SF_valid y) as Vy. pose proof (Prim2SF_valid y') as Vy'.
  pose proof (Prim2SF_valid c) as Vc.
  destruct (Prim2SF c) as [ | | | [ | ] mc ec]; try discriminate. cbn [valid_binary] in Vc.
  pose proof (finite_ord_bounds mc ec Vc) as Hc.
  assert (Hh : (0 < huge)%Z) by (apply Z.pow_pos_nonneg; lia).
  set (sy := Prim2SF y) in *. set (sy' := Prim2SF y') in *. clearbody sy sy'.
  destruct (nonneg_cases _ Vy Y0) as [[s ->] | [-> | (my & ey & -> & By & Hy)]];
    destruct (nonneg_cases _ Vy' Y0') as [[s' ->] | [-> | (my' & ey' & -> & By' & Hy')]];
    cbn [ord cond_Zopp] in Oy, Oy0 |- *.
  - exact (Z.le_refl 0).
  - exact OP'.
  - exact OP'.
  - lia.
  - exact (Z.le_refl huge).
  - cbn [ord cond_Zopp] in Hy'. lia.
  - cbn [ord cond_Zopp] in Hy. lia.
  - exact (proj2 Vcy).
  - cbn [ord cond_Zopp] in Hy, Hy'. apply SFmul_finite_mono; try assumption.
    apply Z.mul_le_mono_nonneg; lia.
Qed.

(** The scorer's expression grows with the relevance and with each of the
    two factors. *)
Lemma adjusted_mono (r r' c c' d d' : float) :
  (0 <=? r) = true -> (r <=? r') = true ->
  (0 <=? c) = true -> (c <=? c') = true -> finite_nz c = true -> finite_nz c' = true ->
  (0 <=? d) = true -> (d <=? d') = true -> finite_nz d = true -> finite_nz d' = true ->
  (Math_min (0.7 * (0.7 + 0.3 * r) * c * d) 1 <=? Math_min (0.7 * (0.7 + 0.3 * r') * c' * d') 1)
  = true.
Proof.
  intros R0 Rl C0 Cl Fc Fc' D0 Dl Fd Fd'.
  destruct (mul_mono_l 0.3 r r' eq_refl eq_refl R0 Rl) as [A0 A].
  destruct (add_mono 0.7 _ _ eq_refl eq_refl A0 A) as [B0 B].
  destruct (mul_mono_l 0.7 _ _ eq_refl eq_refl B0 B) as [E0 E].
  destruct (mul_mono _ _ c c' E0 E C0 Cl Fc Fc') as [G0 G].
  destruct (mul_mono _ _ d d' G0 G D0 Dl Fd Fd') as [H0 H].
  apply Math_min_one_mono. exact H.
Qed.

Lemma completion_factor_cases (finishReason : value) :
  (strict_eq_str finishReason (lit "stop") = true
   /\ ScorerSpec.completion_factor finishReason = 1)
  \/ (strict_eq_str finishReason (lit "stop") = false
      /\ strict_eq_str finishReason (lit "length") = true
      /\ ScorerSpec.completion_factor finishReason = 0.8)
  \/ (strict_eq_str finishReason (lit "stop") = false
      /\ strict_eq_str finishReason (lit "length") = false
      /\ ScorerSpec.completion_factor finishReason = 0.6).
Proof.
  unfold ScorerSpec.completion_factor.
  destruct (strict_eq_str finishReason (lit "stop"));
    [ | destruct (strict_eq_str finishReason (lit "length")) ]; auto.
Qed.

Lemma length_factor_cases (wordCount : nat) :
  ((20 <= wordCount <= 200)%nat /\ ScorerSpec.length_factor wordCount = 1)
  \/ ((wordCount < 20)%nat /\ ScorerSpec.length_factor wordCount = 0.8)
  \/ ((200 < wordCount)%nat /\ ScorerSpec.length_factor wordCount = 0.9).
Proof.
  unfold ScorerSpec.length_factor.
  destruct (20 <=? wordCount)%nat eqn:A; [destruct (wordCount <=? 200)%nat eqn:B | ]; cbn [andb].
  - left. apply Nat.leb_le in A. apply Nat.leb_le in B. split; [lia | reflexivity].
  - apply Nat.leb_le in A. apply Nat.leb_gt in B.
    replace (wordCount <? 20)%nat with false by (symmetry; apply Nat.ltb_ge; lia).
    right. right. split; [lia | reflexivity].
  - apply Nat.leb_gt in A.
    replace (wordCount <? 20)%nat with true by (symmetry; apply Nat.ltb_lt; lia).
    right. left. split; [lia | reflexivity].
Qed.

Lemma score_mono (response response' : jsstring) (r r' : float) (finishReason finishReason' : value) :
  (0 <=? r) = true -> (r <=? r') = true ->
  (ScorerSpec.completion_factor finishReason
   <=? ScorerSpec.completion_factor finishReason') = true ->
  (ScorerSpec.length_factor (List.length (split_spaces response))
   <=? ScorerSpec.length_factor (List.length (split_spaces response'))) = true ->
  (calculateConfidenceScore response r finishReason
   <=? calculateConfidenceScore response' r' finishReason') = true.
Proof.
  intros R0 Rl Cl Dl. rewrite !ScorerFacts.score_unfold.
  destruct (ScorerFacts.factors_finite finishReason (List.length (split_spaces response)))
    as [[C0 Fc] [D0 Fd]].
  destruct (ScorerFacts.factors_finite finishReason' (List.length (split_spaces response')))
    as [[_ Fc'] [_ Fd']].
  apply adjusted_mono; assumption.
Qed.

Lemma leb_refl_nonneg (x : float) : (0 <=? x) = true -> (x <=? x) = true.
Proof.
  intros H. pose proof (nonneg_not_nan x H) as N.
  rewrite leb_ord by assumption. apply Z.leb_le. lia.
Qed.

(** X22.  The score grows with the relevance: of two relevance scores that
    are not negative, the larger one never gives the smaller confidence,
    whatever the response text and the finish reason. *)
Theorem score_grows_with_relevance
    (response : jsstring) (ragScore ragScore' : float) (finishReason : value) :
  (0 <=? ragScore) = true -> (ragScore <=? ragScore') = true ->
  (calculateConfidenceScore response ragScore finishReason
   <=? calculateConfidenceScore response ragScore' finishReason) = true.
Proof.
  intros R0 Rl.
  destruct (ScorerFacts.factors_finite finishReason (List.length (split_spaces response)))
    as [[C0 _] [D0 _]].
  apply score_mono; try assumption; apply leb_refl_nonneg; assumption.
Qed.

Lemma score_grows_with_relevance_witness :
  (calculateConfidenceScore (lit "Thirty days.") 0.5 (VStr (lit "stop"))
   <=? calculateConfidenceScore (lit "Thirty days.") 0.9 (VStr (lit "stop"))) = true.
Proof.
  apply (score_grows_with_relevance (lit "Thirty days.") 0.5 0.9 (VStr (lit "stop")));
    reflexivity.
Defined.

(** X23.  For a relevance that is not negative the finish reason orders the
    scores of one response: ['stop'] scores at least as high as any finish
    reason, ['length'] at least as high as any finish reason other than
    ['stop'], and a finish reason that is neither scores lowest. *)
Theorem score_ordered_by_finish_reason
    (response : jsstring) (ragScore : float) (finishReason other : value) :
  (0 <=? ragScore) = true ->
  (calculateConfidenceScore response ragScore finishReason
   <=? calculateConfidenceScore response ragScore (VStr (lit "stop"))) = true
  /\ (strict_eq_str finishReason (lit "stop") = false ->
      (calculateConfidenceScore response ragScore finishReason
       <=? calculateConfidenceScore response ragScore (VStr (lit "length"))) = true)
  /\ (strict_eq_str finishReason (lit "stop") = false ->
      strict_eq_str finishReason (lit "length") = false ->
      (calculateConfidenceScore response ragScore finishReason
       <=? calculateConfidenceScore response ragScore other) = true).
Proof.
  intros R0.
  pose proof (leb_refl_nonneg _ R0) as Rl.
  destruct (ScorerFacts.factors_finite finishReason (List.length (split_spaces response)))
    as [_ [D0 _]].
  pose proof (leb_refl_nonneg _ D0) as Dl.
  split; [ | split].
  - apply score_mono; try assumption.
    change (ScorerSpec.completion_factor (VStr (lit "stop"))) with 1.
    destruct (completion_factor_cases finishReason)
      as [(_ & ->) | [(_ & _ & ->) | (_ & _ & ->)]]; reflexivity.
  - intros S. apply score_mono; try assumption.
    change (ScorerSpec.completion_factor (VStr (lit "length"))) with 0.8.
    destruct (completion_factor_cases finishReason)
      as [(S' & _) | [(_ & _ & ->) | (_ & _ & ->)]]; try reflexivity. congruence.
  - intros S L. apply score_mono; try assumption.
    destruct (completion_factor_cases finishReason)
      as [(S' & _) | [(_ & L' & _) | (_ & _ & ->)]]; try congruence.
    destruct (completion_factor_cases other)
      as [(_ & ->) | [(_ & _ & ->) | (_ & _ & ->)]]; reflexivity.
Qed.

Lemma score_ordered_by_finish_reason_witness :
  (calculateConfidenceScore (lit "Thirty days.") 0.5 (VStr (lit "length"))
   <=? calculateConfidenceScore (lit "Thirty days.") 0.5 (VStr (lit "stop"))) = true.
Proof.
  exact (proj1 (score_ordered_by_finish_reason (lit "Thirty days.") 0.5
                  (VStr (lit "length")) VUndefined eq_refl)).
Defined.

(** X24.  For a relevance that is not negative the word count orders the
    scores: a response of 20 to 200 words scores at least as high as any
    response, and a response of fewer than 20 words at most as high as any
    response, relevance and finish reason being the same. *)
Theorem score_ordered_by_length
    (response response' : jsstring) (ragScore : float) (finishReason : value) :
  (0 <=? ragScore) = true ->
  ((20 <= List.length (split_spaces response') <= 200)%nat ->
   (calculateConfidenceScore response ragScore finishReason
    <=? calculateConfidenceScore response' ragScore finishReason) = true)
  /\ ((List.length (split_spaces response) < 20)%nat ->
      (calculateConfidenceScore response ragScore finishReason
       <=? calculateConfidenceScore response' ragScore finishReason) = true).
Proof.
  intros R0.
  pose proof (leb_refl_nonneg _ R0) as Rl.
  destruct (ScorerFacts.factors_finite finishReason (List.length (split_spaces response)))
    as [[C0 _] _].
  pose proof (leb_refl_nonneg _ C0) as Cl.
  split; intros W; apply score_mono; try assumption.
  - destruct (length_factor_cases (List.length (split_spaces response')))
      as [(_ & ->) | [(W' & _) | (W' & _)]]; try lia.
    destruct (length_factor_cases (List.length (split_spaces response)))
      as [(_ & ->) | [(_ & ->) | (_ & ->)]]; reflexivity.
  - destruct (length_factor_cases (List.length (split_spaces response)))
      as [(W' & _) | [(_ & ->) | (W' & _)]]; try lia.
    destruct (length_factor_cases (List.length (split_spaces response')))
      as [(_ & ->) | [(_ & ->) | (_ & ->)]]; reflexivity.
Qed.

Lemma score_ordered_by_length_witness :
  (calculateConfidenceScore (lit "Thirty days.") 0.5 (VStr (lit "stop"))
   <=? calculateConfidenceScore (lit "a b c d e f g h i j k l m n o p q r s t") 0.5
         (VStr (lit "stop"))) = true.
Proof.
  apply (proj2 (score_ordered_by_length (lit "Thirty days.")
                  (lit "a b c d e f g h i j k l m n o p q r s t") 0.5 (VStr (lit "stop")) eq_refl)).
  vm_compute. lia.
Defined.

End ScoreOrderFacts.

(** ** The score and the selection *)

Module SelectionOrderFacts.
Import JS Binary64 Binary64Facts Magnitude ChatWorker RoundingFacts ScoreOrderFacts.
Import Effects EffectFacts WorkerFacts.
Open Scope float_scope.

(** No score exceeds the one of a response of 20 to 200 words that finished
    with ['stop'], the relevance being the same. *)
Lemma full_answer_scores_highest
    (text text' : jsstring) (ragScore : float) (finishReason : value) :
  (0 <=? ragScore) = true ->
  (20 <= List.length (split_spaces text) <= 200)%nat ->
  (calculateConfidenceScore text' ragScore finishReason
   <=? calculateConfidenceScore text ragScore (VStr (lit "stop"))) = true.
Proof.
  intros R0 W. apply score_mono; [exact R0 | apply leb_refl_nonneg; exact R0 | | ].
  - change (ScorerSpec.completion_factor (VStr (lit "stop"))) with 1.
    destruct (completion_factor_cases finishReason)
      as [(_ & ->) | [(_ & _ & ->) | (_ & _ & ->)]]; reflexivity.
  - destruct (length_factor_cases (List.length (split_spaces text)))
      as [(_ & ->) | [(W' & _) | (W' & _)]]; try lia.
    destruct (length_factor_cases (List.length (split_spaces text')))
      as [(_ & ->) | [(_ & ->) | (_ & ->)]]; reflexivity.
Qed.

(** X25.  On a host whose [context.log] returns, a final response the
    worker writes in a run in which [gpt-4] answered with the finish reason
    ['stop'] and a text of 20 to 200 words carries the text, the score and
    the name of [gpt-4]: whatever [gpt-35-turbo] answered, and whether it
    answered at all. *)
Theorem full_first_answer_is_selected
    (h : host) (parsed : outcome value) (t : trace) (out : outcome unit) (evs : list event)
    (final : option json) (messageBody userMessage : value)
    (text : jsstring) (tokens : value) :
  returns (context_log h) Info ->
  handler h parsed t = (out, t ++ evs) ->
  In final (blobs evs) ->
  parsed = Returned messageBody ->
  get messageBody "userMessage" = Returned userMessage ->
  let score := calculateConfidenceScore text 0.85 (VStr (lit "stop")) in
  attempt h userMessage mockContext {| name := lit "gpt-4"; deployment := lit "gpt-4" |}
  = Returned {| model := lit "gpt-4"; response := text; confidence := score;
                tokensUsed := Some tokens; error := None |} ->
  (20 <= List.length (split_spaces text) <= 200)%nat ->
  member_of final "selectedModel" = Some (JStr (lit "gpt-4"))
  /\ member_of final "response" = Some (JStr text)
  /\ member_of final "confidenceScore" = Some (JNum score).
Proof.
  intros Hi H Hin -> Hum score A W.
  destruct (WorkerRunFacts.blob_of_plain_run h _ t out evs final Hi H Hin)
    as (mb & um & P & Hum' & _ & M & R & C).
  injection P as <-. rewrite Hum in Hum'. injection Hum' as <-.
  cbv zeta in M, R, C.
  set (first := entryFor h userMessage mockContext
                  {| name := lit "gpt-4"; deployment := lit "gpt-4" |}) in *.
  set (second := entryFor h userMessage mockContext
                   {| name := lit "gpt-35-turbo"; deployment := lit "gpt-35-turbo" |}) in *.
  assert (F : first = {| model := lit "gpt-4"; response := text; confidence := score;
                         tokensUsed := Some tokens; error := None |}).
  { unfold first, entryFor. rewrite A. reflexivity. }
  assert (R0 : (0 <=? 0.85) = true) by reflexivity.
  assert (P : (0 <? score) = true) by (apply MagnitudeFacts.score_positive; exact R0).
  destruct (MagnitudeFacts.ltb_not_nan _ _ P) as [_ Ns].
  assert (L : (confidence second <=? score) = true).
  { unfold second, entryFor.
    destruct (attempt h userMessage mockContext
                {| name := lit "gpt-35-turbo"; deployment := lit "gpt-35-turbo" |})
      as [r | e] eqn:A2.
    - destruct (attempt_returned _ _ _ _ _ A2) as (text2 & fr2 & ->). cbn [confidence].
      change (ragScoreArgument mockContext) with 0.85.
      apply full_answer_scores_highest; assumption.
    - cbn [failedResponse confidence].
      rewrite leb_ord by (try assumption; reflexivity).
      rewrite ltb_ord in P by (try assumption; reflexivity).
      apply Z.ltb_lt in P. apply Z.leb_le. lia. }
  assert (Cf : (confidence first <? confidence second) = false).
  { rewrite F. cbn [confidence].
    destruct (leb_true_ord _ _ L) as (N2 & _ & O).
    rewrite ltb_ord by assumption. apply Z.ltb_ge. exact O. }
  rewrite Cf in M, R, C. rewrite F in M, R, C. cbn [model response confidence] in M, R, C.
  split; [exact M | ]. split; [exact R | exact C].
Qed.

Lemma full_first_answer_is_selected_witness :
  exists final,
    blobs (snd (handler Scenarios.full_answer_worker (Returned Samples.queue_message) []))
    = [final]
    /\ member_of final "selectedModel" = Some (JStr (lit "gpt-4"))
    /\ member_of final "response" = Some (JStr (lit "a b c d e f g h i j k l m n o p q r s t")).
Proof.
  set (run := handler Scenarios.full_answer_worker (Returned Samples.queue_message) []).
  assert (E : exists final, blobs (snd run) = [final]) by (eexists; vm_compute; reflexivity).
  destruct E as (final & B). exists final. split; [exact B | ].
  destruct (full_first_answer_is_selected Scenarios.full_answer_worker
              (Returned Samples.queue_message) [] (fst run) (snd run) final
              Samples.queue_message (VStr (lit "What is our refund policy?"))
              (lit "a b c d e f g h i j k l m n o p q r s t") (VNum 42))
    as (M & R & _).
  - intros args. reflexivity.
  - reflexivity.
  - rewrite B. left. reflexivity.
  - reflexivity.
  - reflexivity.
  - reflexivity.
  - vm_compute. lia.
  - split; [exact M | exact R].
Defined.

End SelectionOrderFacts.

